(* ===== verification/_CoqProject ===== *)
-Q . S2P
Prelude.v
GoString.v
DnsTypes.v
Crypto.v
GoFmt.v
Permalink.v
Settings.v
Session.v
NetIP.v
Config.v
ConfigLoad.v
Resolvers.v
Env.v
Cache.v
DnsClient.v
Summary.v
Sched.v
GoTime.v
Storage.v
Interleave.v
Sql.v
SqlStore.v
Sqlite.v
Postgres.v
SqlRefine.v
Checker.v
FanOut.v
Monitor.v
Trace.v
Stream.v
Json.v
Notify.v
GeoIP.v
Http.v
Auth.v
SettingsApi.v
MonitorsApi.v
CheckApi.v
Float64.v
Export.v
Draw.v
ExportApi.v
StreamApi.v
Valid.v
Server.v
Answers.v
Concurrent.v
RateLimit.v
Main.v
