(* ===== verification/Prelude.v ===== *)
(** * dnsmon: a verification development

    dnsmon is a self-hosted DNS propagation checker: an HTTP server that asks
    many public resolvers the same question, summarises how far they agree,
    keeps the checks, and runs monitors that compare later answers with a
    baseline.  This library models its Go packages as Rocq definitions,
    executable wherever the code is, and proves what makes them correct.  Names
    are those of the source where they are free; a type, constructor or field
    that clashes has a prefix or a suffix ([rID], [mExpected], [GetCheck_handler]).

    ** How the program is put together

    [cmd/dnsmon/main.go] loads the configuration ([internal/config]), opens a
    store ([internal/storage] and its two SQL implementations), a cache
    ([internal/cache]) and the registry of resolvers ([internal/resolvers]),
    and serves the routes of [internal/api].  The handlers of
    [internal/api/v1] call the checker ([internal/checker]), which asks the
    resolvers through the client of [internal/dnsclient] with bounded
    concurrency, the cache in between, and saves the check; the evaluator of
    [internal/monitor] runs the checker for a monitor and notifies through
    [internal/notify].  [internal/settings] holds the data that the settings
    pages change, the passwords and the sessions; [internal/export] writes a
    stored check as CSV, JSON, SVG, PNG or PDF.

    Interfaces of the program are type classes: [Storage.StorageOps] with its
    laws [StorageLaws], [Cache.CacheOps] with [CacheLaws], the DNS client
    [DnsClient.ClientOps], [Monitor.CheckRunner] and [Monitor.Notifier].  The
    client's theorems are proved against the class, and instances discharge it.
    What comes from outside (clock, network, random bytes, cancellation) is
    [Env.Env]; a [World] joins the states of a store, a cache and an
    environment, and a computation is a state monad over it.  Errors are values
    of [result] and [option error] below.

    ** Files

    Foundations of Go:
    - [Prelude]: results and errors, the state monad and its weakest
      preconditions, codecs, lists.
    - [GoString], [GoFmt], [GoTime], [NetIP], [Crypto], [Float64], [Json]: the
      parts of [strings], [strconv], [sort], [fmt], [time], [net], [crypto/*],
      [encoding/*] and of float64 arithmetic that the source uses.
    - [Sched]: goroutines as programs of atomic actions, pools under a
      semaphore as a step relation, and an executable scheduler.
    - [Env]: the environment and the shared world.

    Components, each file naming in its header the sources it models:
    - [DnsTypes], [DnsClient]: [internal/dnsclient].  Retry loop, rendering of
      records, status of a response.
    - [Cache]: [internal/cache].  Memory (over an LRU container), Redis, none.
    - [Settings], [Session]: [internal/settings].  Records; session cookies,
      argon2id hashes, tokens.
    - [Config], [ConfigLoad]: [internal/config].  Records; defaults and layers.
    - [Resolvers]: [internal/resolvers].
    - [Storage]: [internal/storage/storage.go].  The interface, the abstract
      store, histories of calls, the store that keeps nothing.
    - [Interleave]: computations whose store calls interleave with those of
      others, and the interface [StoreKeeps] against which handlers are proved
      to keep an invariant of the store.
    - [Sql], [SqlStore], [Sqlite], [Postgres], [SqlRefine]:
      [internal/storage/sqlite] and [internal/storage/postgres].  Tables and
      statements; the reference store over any dialect; the two stores as they
      are written; and the proof that both implement the abstract store.
    - [Permalink], [Summary], [Checker], [FanOut], [Trace], [Stream]:
      [internal/checker].  Identifiers; the summary; requests, choice of
      resolvers, cached query, check and lookup; theorems on the concurrent
      fan-out; delegation traces; streaming checks as a transition system.
    - [Monitor]: [internal/monitor].  Evaluation of monitors.
    - [Notify]: [internal/notify].
    - [GeoIP]: [internal/geoip].
    - [Http], [Auth], [SettingsApi], [MonitorsApi], [CheckApi], [ExportApi],
      [StreamApi], [Server]: [internal/api] and [internal/api/v1].  Requests,
      writer and middleware; the handlers; the routes and the whole server.
    - [Valid], [Answers], [Concurrent]: theorems on the whole server.  What a
      well-formed store is, and that checks, streams and exports keep it; every
      request is answered; requests that are served at the same time.
    - [Export], [Draw]: [internal/export].
    - [RateLimit]: [internal/ratelimit].
    - [Main]: [cmd/dnsmon].

    ** What the theorems show

    Security.  [Server.server_gated] covers the whole server: with
    authentication enabled, a request without a session that is valid when it
    comes adds at most one check and sets a missing signing secret, and every
    gated route answers 401.
    [Auth.RequireAuth_gate] and [Auth.Login_session] are the gate and the login
    by themselves, [Session.ParseSession_SignSession] the cookie format.
    [SettingsApi.secrets_stay]: no response of the handlers of settings and
    tokens depends on a hash or on the signing secret, be it stored or computed
    while answering (two runs that differ only in those answer alike).  [SettingsApi.enabling_is_forgeable] exhibits the window before
    the first login in which a cookie can be forged.  The private-address guard:
    [Checker.buildResolverList_guards], [Checker.Lookup_guards],
    [Trace.Trace_contacts].

    The whole server.  [Concurrent.server_stays_valid]: any number of requests,
    their store calls interleaved in any order, leave a store whose settings,
    monitors, events, schedules and tokens are well-formed.
    [Answers.server_answers]: every request gets one answer under the security
    headers, and the log has its status.  What interleaving breaks is exhibited
    by [Concurrent.Run_writes_back] and [Concurrent.UpdateSettings_writes_back]:
    handlers read, work and write without a transaction.

    Concurrency.  [FanOut.fanOut_semaphore] and [Stream.Stream_progress]: under
    every interleaving the semaphore and the channel capacities are respected,
    nothing blocks for good, and every execution ends within a bound.
    [FanOut.fanOut_cached]: concurrent queries leave only answers of the client
    in the cache.  [StreamApi.StreamCheck_delivers]: what a client of the
    WebSocket sees is a prefix of the account of the one stored check.

    Storage.  [SqlRefine.sqlite_implements_store] and
    [SqlRefine.postgres_implements_store]: any history of interface calls
    answers as abstract maps do.  The handlers' theorems
    ([SettingsApi.UpdateSettings_stores], [MonitorsApi.monitors_stay_valid] (a
    request at a time), [SettingsApi.schedules_are_stored],
    [CheckApi.history_serves_store],
    [ExportApi.ExportCheck_serves]) rest on those laws only, so they hold for
    both stores.

    Function.  Summaries ([Summary.buildSummary_counts],
    [Summary.ConvergedPct_agreement], [Summary.buildSummary_permutation]: only the
    estimate can depend on the order in which a map is visited, and only on a
    tie), checks ([FanOut.Check_saved], [FanOut.Check_reports]), queries
    ([DnsClient.Query_retries]), traces ([Trace.Trace_walks]), monitors
    ([Monitor.RunByID_alerts_once], over two whole runs through the store,
    [Monitor.Run_records],
    [Monitor.evaluatePropagation_decides]), notifications
    ([Notify.Send_delivers]), the cache ([Cache.Memory_read_back]), exports
    ([Export.CSV_reads_back], [Export.SVG_termination],
    [Draw.images_faithful]), PTR names ([CheckApi.toPTRName_address]), the rate
    limiter ([RateLimit.Allow_burst]), configuration
    ([ConfigLoad.Load_layers], for each of the 27 documented options, [Main.resolveListen_precedence]) and the bundled
    deployment, which cannot start ([Main.compose_exits]).

    ** Bounds and fuel

    Loops that are structural in the source are Fixpoints; the others run on
    fuel or are relations, with a theorem that the fuel is enough:
    - a fan-out over [n] resolvers takes at most [5 n] steps, a stream
      [8 n + 3] ([FanOut.fanOut_semaphore], [Stream.Stream_progress]);
    - a trace has the bound of the source, 24 steps, with at most two messages
      each ([Trace.Trace_contacts]);
    - parsing an IPv6 address reads at most its eight groups; quoting consumes
      at least one byte a step, and its fuel is the length of the text;
    - the loops that bring an angle into range for a map: one round is enough
      at whole degrees, and no fuel is enough at a latitude of 1e300
      ([Export.SVG_termination]);
    - the arithmetic of the token bucket is shown exact for bursts up to 60 and
      rates up to 6000 a minute.

    Go's [int] and [time.Duration] are unbounded integers except where the code
    parses, formats or counts with them: parsing checks the 64-bit range, and
    instants are nanoseconds from 1970 to 2262 ([GoTime.time_ok]).  Floating
    point is binary64, rounded after every operation.

    ** Parameters

    Code outside the repository is a parameter with its documented behaviour as
    a class or a hypothesis: the DNS library ([DnsConsts], exchanges in [Env]),
    the Unicode tables ([Unicode]), the order of ranging over a map
    ([MapRange]), the LRU container and the Redis client, the SQL engines
    (fault lists, row order, [PgEngine]), JSON codecs of stored documents
    ([Codec], with [faithful] for the values that are read back as they were:
    [encoding/json] replaces invalid UTF-8, so that theorems on what is stored
    assume of the values at hand ([okCheck], [okSettings], [okMonitor] and their
    like) that they are such, and the codec of the witnesses represents all), decoding of request bodies ([BodyDecode]), the validator, the
    router chi ([Mux]), the WebSocket library, gg and gofpdf, Shoutrrr and the
    HTTP client ([Delivery]), argon2id, viper and mapstructure, and the service
    manager.  Theorems that need their laws have a witness with a concrete
    instance.

    ** Not modelled

    - The Prometheus counters of the checker: they do not influence results.
    - [Hijack] and [Unwrap] of the logger's recorder: they hand out the writer
      of the server, which the model has in their place.
    - Concurrency below a store call: the calls of requests that are served at
      the same time interleave in any order, but each call is atomic, and the
      cache and the clock that a request sees are its own (any).
    - What the migration scripts do to a database: tables start empty.
    - [web], static files, which the standard library serves.
    - Cancellation of a request's context during a store call, but for the save
      at the end of a stream ([Stream.Abandon]).
    - Draining of open connections at a shutdown, and the ticker that calls the
      eviction of the rate limiter. *)

From Stdlib Require Export Ascii.
From stdpp Require Export base numbers gmap strings sorting fin_maps list.
Export stdpp.list_basics stdpp.list_relations stdpp.list_monad stdpp.list_misc.

#[global] Arguments String.append : simpl nomatch.

(** ** Go results and errors *)

(** The error values the program builds.  The two sentinels are package
    variables compared by identity; [Errorf] is [fmt.Errorf] or [errors.New]
    without a wrapped error; [Wrapf p e] is [fmt.Errorf("p: %w", e)];
    [External] is an error that comes from a library (network, database,
    parser): its text, and whether it is a [net.Error] whose [Timeout()]
    reports true. *)
Inductive error : Type :=
| ErrNotFound
| ErrInvalidHash
| Errorf (msg : string)
| Wrapf (prefix : string) (e : error)
| External (msg : string) (timeout : bool).

#[global] Instance error_eq_dec : EqDecision error.
Proof. solve_decision. Defined.

(** [err.Error()]. *)
Fixpoint Error (e : error) : string :=
  match e with
  | ErrNotFound => "not found"
  | ErrInvalidHash => "invalid argon2id hash format"
  | Errorf m => m
  | Wrapf p e' => p +:+ ": " +:+ Error e'
  | External m _ => m
  end.

(** [errors.Is(e, target)]: walks the chain of wrapped errors. *)
Fixpoint Is (e target : error) : bool :=
  bool_decide (e = target) ||
  match e with
  | Wrapf _ e' => Is e' target
  | _ => false
  end.

(** A Go function returning [(A, error)] of which exactly one is meaningful. *)
Inductive result (A : Type) : Type :=
| Ok (a : A)
| Err (e : error).
Arguments Ok {A} a.
Arguments Err {A} e.

#[global] Instance result_ret : MRet result := λ A a, Ok a.
#[global] Instance result_bind : MBind result := λ A B f r,
  match r with Ok a => f a | Err e => Err e end.
#[global] Instance result_fmap : FMap result := λ A B f r,
  match r with Ok a => Ok (f a) | Err e => Err e end.

Definition is_ok {A} (r : result A) : bool :=
  match r with Ok _ => true | Err _ => false end.

(** [map_err p r]: [if err != nil { return nil, fmt.Errorf("p: %w", err) }]. *)
Definition map_err {A} (p : string) (r : result A) : result A :=
  match r with Ok a => Ok a | Err e => Err (Wrapf p e) end.

(** ** State passing *)

(** A computation that reads and writes a state [W]. *)
Definition M (W A : Type) : Type := W → A * W.

#[global] Instance M_ret W : MRet (M W) := λ A a w, (a, w).
#[global] Instance M_bind W : MBind (M W) := λ A B f m w,
  let '(a, w') := m w in f a w'.
#[global] Instance M_fmap W : FMap (M W) := λ A B f m w,
  let '(a, w') := m w in (f a, w').

(** [wp m Q w]: run from [w], the computation ends in a value and a state that
    satisfy [Q]. *)
Definition wp {W A} (m : M W A) (Q : A → W → Prop) (w : W) : Prop :=
  let '(a, w') := m w in Q a w'.

Lemma wp_bind {W A B} (m : M W A) (f : A → M W B) Q w :
  wp m (λ a w', wp (f a) Q w') w → wp (m ≫= f) Q w.
Proof. unfold wp. cbv [mbind M_bind]. by destruct (m w). Qed.

Lemma wp_ret {W A} (a : A) (Q : A → W → Prop) w : Q a w → wp (mret a) Q w.
Proof. done. Qed.

Lemma wp_run {W A} (m : M W A) w x : wp m (λ a w', (a, w') = x) w → m w = x.
Proof. unfold wp. by destruct (m w). Qed.

Lemma run_wp {W A} (m : M W A) (Q : A → W → Prop) w : Q (m w).1 (m w).2 → wp m Q w.
Proof. unfold wp. by destruct (m w). Qed.

Lemma wp_mono {W A} (m : M W A) (Q Q' : A → W → Prop) w :
  (∀ a w', Q a w' → Q' a w') → wp m Q w → wp m Q' w.
Proof. unfold wp. destruct (m w). auto. Qed.

(** [keeping P Q m]: run from a state that satisfies [P], the computation ends
    in one, with a value that satisfies [Q]. *)
Definition keeping {W A} (P : W → Prop) (Q : A → Prop) (m : M W A) : Prop :=
  ∀ w, P w → P (m w).2 ∧ Q (m w).1.

Section Keeping.
Context {W : Type} (P : W → Prop).

Lemma keeping_ret {A} (Q : A → Prop) a : Q a → keeping P Q (mret a).
Proof. by intros Ha w Hw. Qed.

Lemma keeping_bind {A B} (Q : A → Prop) (Q' : B → Prop) (m : M W A) (f : A → M W B) :
  keeping P Q m → (∀ a, Q a → keeping P Q' (f a)) → keeping P Q' (m ≫= f).
Proof.
  intros Hm Hf w Hw. destruct (Hm w Hw) as [Hw' Ha]. cbv [mbind M_bind].
  destruct (m w) as [a w']. by apply Hf.
Qed.

Lemma keeping_mono {A} (Q Q' : A → Prop) (m : M W A) :
  keeping P Q m → (∀ a, Q a → Q' a) → keeping P Q' m.
Proof. intros Hm HQ w Hw. destruct (Hm w Hw). auto. Qed.

Lemma keeping_wp {A} (Q : A → Prop) (m : M W A) w :
  keeping P Q m → P w → wp m (λ a w', P w' ∧ Q a) w.
Proof. intros Hm Hw. destruct (Hm w Hw). by apply run_wp. Qed.

End Keeping.

(** ** Iteration over Go maps

    [for k, v := range m] visits the entries in an order that is chosen anew at
    each loop.  A function that ranges over a map takes the order from an
    instance of this class.  An instance orders every map once and for all, so
    it stands for the choices of one evaluation: a theorem about one holds for
    every instance, and a theorem about several takes an instance for each
    ([Summary.buildSummary_permutation], [Summary.ConvergedPct_agreement],
    [Monitor.RunByID_alerts_once]). *)
Class MapRange := {
  range : ∀ {A : Type}, gmap string A → list (string * A);
  range_perm : ∀ {A : Type} (m : gmap string A), range m ≡ₚ map_to_list m
}.

(** One order among the possible ones, and its reverse. *)
Definition range_forward : MapRange :=
  {| range := λ A m, map_to_list m; range_perm := λ A m, reflexivity _ |}.

Definition range_backward : MapRange :=
  {| range := λ A m, reverse (map_to_list m);
     range_perm := λ A m, reverse_Permutation _ |}.

Lemma elem_of_range `{MapRange} {A} (m : gmap string A) k v :
  (k, v) ∈ range m ↔ m !! k = Some v.
Proof. by rewrite range_perm, elem_of_map_to_list. Qed.

Lemma NoDup_range `{MapRange} {A} (m : gmap string A) : NoDup (range m).*1.
Proof. rewrite range_perm. apply NoDup_fst_map_to_list. Qed.

(** ** Encodings *)

(** JSON encoding of a type: [faithful] are the values it represents exactly. *)
Class Codec (blob A : Type) := {
  marshal : A → option blob;
  unmarshal : blob → option A;
  faithful : A → Prop
}.

Class CodecOk (blob A : Type) (C : Codec blob A) : Prop := {
  codec_round_trip : ∀ a : A, faithful a → ∃ b : blob,
    marshal a = Some b ∧ unmarshal b = Some a
}.

(** ** Lists *)

Lemma mjoin_cons {A} (l : list A) (ls : list (list A)) : mjoin (l :: ls) = l ++ mjoin ls.
Proof. reflexivity. Qed.

(** [LIMIT limit OFFSET offset]: a negative limit is none. *)
Definition limit_offset {A} (limit offset : Z) (l : list A) : list A :=
  let l := drop (Z.to_nat offset) l in
  if (limit <? 0)%Z then l else take (Z.to_nat limit) l.
