(* ===== verification/GoString.v ===== *)
(** * Go strings

    The parts of the Go packages [strings], [strconv] and [sort] that the
    program uses, over byte strings.  A Go string is a sequence of bytes, and
    so is [string] here: every function below works on bytes, with the UTF-8
    encodings of the Unicode white-space characters written out where
    [unicode.IsSpace] matters. *)

From Stdlib Require Import DecimalString DecimalZ DecimalPos.
From S2P Require Import Prelude.

Definition code (c : ascii) : Z := Z.of_N (Ascii.N_of_ascii c).

Definition chr (z : Z) : ascii := Ascii.ascii_of_N (Z.to_N z).

(** ** Slicing and membership *)

(** [s\[:n\]] for [n <= len(s)]. *)
Fixpoint stake (n : nat) (s : string) : string :=
  match n, s with
  | S n', String c s' => String c (stake n' s')
  | _, _ => ""
  end.

(** [s\[n:\]] for [n <= len(s)]. *)
Fixpoint sdrop (n : nat) (s : string) : string :=
  match n, s with
  | S n', String _ s' => sdrop n' s'
  | _, _ => s
  end.

Fixpoint has_char (c : ascii) (s : string) : bool :=
  match s with
  | "" => false
  | String d s' => bool_decide (c = d) || has_char c s'
  end.

(** Every byte of [s] satisfies [p]. *)
Fixpoint sforall (p : ascii → bool) (s : string) : bool :=
  match s with
  | "" => true
  | String c s' => p c && sforall p s'
  end.

Fixpoint smap (f : ascii → ascii) (s : string) : string :=
  match s with
  | "" => ""
  | String c s' => String (f c) (smap f s')
  end.

(** ** Package strings *)

Definition HasPrefix (s p : string) : bool := String.prefix p s.

Definition HasSuffix (s suf : string) : bool :=
  (String.length suf <=? String.length s)%nat &&
  String.eqb (sdrop (String.length s - String.length suf) s) suf.

Definition TrimPrefix (s p : string) : string :=
  if HasPrefix s p then sdrop (String.length p) s else s.

Definition TrimSuffix (s suf : string) : string :=
  if HasSuffix s suf then stake (String.length s - String.length suf) s else s.

Fixpoint Contains (s sub : string) : bool :=
  String.prefix sub s ||
  match s with "" => false | String _ s' => Contains s' sub end.

(** [strings.Cut(s, sep)] for a one-byte separator. *)
Fixpoint Cut (sep : ascii) (s : string) : option (string * string) :=
  match s with
  | "" => None
  | String c s' =>
      if bool_decide (c = sep) then Some ("", s')
      else match Cut sep s' with
           | Some (a, b) => Some (String c a, b)
           | None => None
           end
  end.

(** [strings.Split(s, sep)] for a one-byte separator: never empty. *)
Fixpoint Split (sep : ascii) (s : string) : list string :=
  match s with
  | "" => [""]
  | String c s' =>
      if bool_decide (c = sep) then "" :: Split sep s'
      else match Split sep s' with
           | w :: ws => String c w :: ws
           | [] => [String c ""]
           end
  end.

(** [strings.Join(elems, sep)]. *)
Fixpoint Join (elems : list string) (sep : string) : string :=
  match elems with
  | [] => ""
  | [w] => w
  | w :: ws => w +:+ sep +:+ Join ws sep
  end.

(** [strings.LastIndex(s, sep)] for a one-byte separator, [None] for -1. *)
Fixpoint LastIndex (sep : ascii) (s : string) : option nat :=
  match s with
  | "" => None
  | String c s' =>
      match LastIndex sep s' with
      | Some i => Some (S i)
      | None => if bool_decide (c = sep) then Some 0%nat else None
      end
  end.

(** [strings.ReplaceAll(s, old, new)] for a one-byte [old]. *)
Fixpoint ReplaceAll (s : string) (old : ascii) (new : string) : string :=
  match s with
  | "" => ""
  | String c s' =>
      if bool_decide (c = old) then new +:+ ReplaceAll s' old new
      else String c (ReplaceAll s' old new)
  end.

(** [strings.TrimRight(s, cutset)] for a one-byte cutset. *)
Fixpoint TrimRight (s : string) (c : ascii) : string :=
  match s with
  | "" => ""
  | String d s' =>
      match TrimRight s' c with
      | "" => if bool_decide (d = c) then "" else String d ""
      | r => String d r
      end
  end.

(** *** White space

    [unicode.IsSpace] holds for six ASCII characters and for the code points
    U+0085, U+00A0 (two bytes in UTF-8), U+1680, U+2000 to U+200A, U+2028,
    U+2029, U+202F, U+205F and U+3000 (three bytes). *)
Definition space1 (c : ascii) : bool :=
  let z := code c in ((9 <=? z) && (z <=? 13) || (z =? 32))%Z.

Definition space2 (c d : ascii) : bool :=
  ((code c =? 194) && ((code d =? 133) || (code d =? 160)))%Z.

Definition space3 (c d e : ascii) : bool :=
  let x := code c in let y := code d in let z := code e in
  ((x =? 225) && (y =? 154) && (z =? 128)
   || (x =? 226) && (y =? 128) &&
      ((128 <=? z) && (z <=? 138) || (z =? 168) || (z =? 169) || (z =? 175))
   || (x =? 226) && (y =? 129) && (z =? 159)
   || (x =? 227) && (y =? 128) && (z =? 128))%Z.

Fixpoint TrimLeftSpace (s : string) : string :=
  match s with
  | "" => ""
  | String c s1 =>
      if space1 c then TrimLeftSpace s1 else
      match s1 with
      | "" => s
      | String d s2 =>
          if space2 c d then TrimLeftSpace s2 else
          match s2 with
          | "" => s
          | String e s3 => if space3 c d e then TrimLeftSpace s3 else s
          end
      end
  end.

Fixpoint srev_app (s acc : string) : string :=
  match s with
  | "" => acc
  | String c s' => srev_app s' (String c acc)
  end.

Definition srev (s : string) : string := srev_app s "".

(** Trims the reversed string: the bytes of a character arrive last first. *)
Fixpoint TrimLeftSpaceRev (s : string) : string :=
  match s with
  | "" => ""
  | String c s1 =>
      if space1 c then TrimLeftSpaceRev s1 else
      match s1 with
      | "" => s
      | String d s2 =>
          if space2 d c then TrimLeftSpaceRev s2 else
          match s2 with
          | "" => s
          | String e s3 => if space3 e d c then TrimLeftSpaceRev s3 else s
          end
      end
  end.

Definition TrimSpace (s : string) : string :=
  srev (TrimLeftSpaceRev (srev (TrimLeftSpace s))).

(** [strings.Fields]: [cur] is the field being read, reversed. *)
Fixpoint FieldsAux (s cur : string) : list string :=
  let flush (rest : list string) :=
    match cur with "" => rest | _ => srev cur :: rest end in
  match s with
  | "" => flush []
  | String c s1 =>
      if space1 c then flush (FieldsAux s1 "") else
      match s1 with
      | "" => FieldsAux s1 (String c cur)
      | String d s2 =>
          if space2 c d then flush (FieldsAux s2 "") else
          match s2 with
          | "" => FieldsAux s1 (String c cur)
          | String e s3 =>
              if space3 c d e then flush (FieldsAux s3 "")
              else FieldsAux s1 (String c cur)
          end
      end
  end.

Definition Fields (s : string) : list string := FieldsAux s "".

(** *** Case

    [strings.ToLower] and [strings.ToUpper] map ASCII strings byte by byte
    and fall back on the Unicode case tables otherwise.  The tables are the
    argument [fold]. *)
Definition is_ascii (s : string) : bool := sforall (λ c, code c <? 128)%Z s.

Definition lower1 (c : ascii) : ascii :=
  if ((65 <=? code c) && (code c <=? 90))%Z then chr (code c + 32) else c.

Definition upper1 (c : ascii) : ascii :=
  if ((97 <=? code c) && (code c <=? 122))%Z then chr (code c - 32) else c.

Definition ToLower (fold : string → string) (s : string) : string :=
  if is_ascii s then smap lower1 s else fold s.

Definition ToUpper (fold : string → string) (s : string) : string :=
  if is_ascii s then smap upper1 s else fold s.

(** ** Package sort *)

(** [sort.Strings]: the byte-wise lexicographic order is total, so the sorted
    slice does not depend on the algorithm. *)
Definition sort_strings (l : list string) : list string := merge_sort String.le l.

(** ** Package strconv *)

(** [strconv.Itoa], [strconv.FormatInt(_, 10)] and the verb [%d]. *)
Definition Itoa (z : Z) : string := NilZero.string_of_int (Z.to_int z).

(** Decimal digits, at least one. *)
Definition parse_digits (s : string) : option Z :=
  Z.of_uint <$> NilZero.uint_of_string s.

Definition max_int64 : Z := 2 ^ 63 - 1.
Definition min_int64 : Z := - 2 ^ 63.

(** [strconv.ParseInt(s, 10, 64)] and, on a 64-bit platform, [strconv.Atoi]:
    an optional sign, then digits, in the int64 range; [None] is an error. *)
Definition ParseInt (s : string) : option Z :=
  let z :=
    match s with
    | String "+" s' => parse_digits s'
    | String "-" s' => Z.opp <$> parse_digits s'
    | _ => parse_digits s
    end in
  z ≫= λ n, if decide (min_int64 ≤ n ≤ max_int64)%Z then Some n else None.

Definition Atoi : string → option Z := ParseInt.

(** * Lemmas *)

Lemma code_range c : (0 ≤ code c < 256)%Z.
Proof.
  unfold code. pose proof (N_ascii_bounded c). lia.
Qed.

Lemma chr_code c : chr (code c) = c.
Proof. unfold chr, code. rewrite N2Z.id. apply ascii_N_embedding. Qed.

Lemma code_chr z : (0 ≤ z < 256)%Z → code (chr z) = z.
Proof. intros H. unfold chr, code. rewrite N_ascii_embedding; lia. Qed.

Lemma code_inj c d : code c = code d → c = d.
Proof. intros H. by rewrite <-(chr_code c), H, chr_code. Qed.

Lemma sapp_nil_r (s : string) : s +:+ "" = s.
Proof. induction s; simpl; congruence. Qed.

Lemma sapp_assoc (a b c : string) : (a +:+ b) +:+ c = a +:+ (b +:+ c).
Proof. induction a; simpl; congruence. Qed.

Lemma sapp_cons c (s : string) : String c s = String c "" +:+ s.
Proof. done. Qed.

Lemma slength_app (a b : string) :
  String.length (a +:+ b) = (String.length a + String.length b)%nat.
Proof. induction a; simpl; congruence. Qed.

Lemma sdrop_app (a b : string) : sdrop (String.length a) (a +:+ b) = b.
Proof. induction a; simpl; [by destruct b|done]. Qed.

Lemma stake_app (a b : string) : stake (String.length a) (a +:+ b) = a.
Proof. induction a; simpl; [by destruct b|congruence]. Qed.

Lemma stake_sdrop n s : stake n s +:+ sdrop n s = s.
Proof. revert s; induction n; intros []; simpl; try done. by rewrite IHn. Qed.

Lemma slength_stake n s : (n ≤ String.length s)%nat → String.length (stake n s) = n.
Proof.
  revert s; induction n; intros []; simpl; try done; [lia|].
  intros. rewrite IHn; lia.
Qed.

Lemma has_char_app c a b : has_char c (a +:+ b) = has_char c a || has_char c b.
Proof. induction a; simpl; [done|]. by rewrite IHa, orb_assoc. Qed.

Lemma sforall_app p a b : sforall p (a +:+ b) = sforall p a && sforall p b.
Proof. induction a; simpl; [done|]. by rewrite IHa, andb_assoc. Qed.

(** A byte outside a class does not occur in a string of that class. *)
Lemma sforall_has_char p c s :
  sforall p s = true → p c = false → has_char c s = false.
Proof.
  induction s as [|d s IH]; simpl; [done|].
  intros [Hd Hs]%andb_true_iff Hc. rewrite IH by done.
  rewrite orb_false_r, bool_decide_eq_false. congruence.
Qed.

(** ** Suffixes *)

Lemma HasSuffix_spec s suf : HasSuffix s suf = true ↔ ∃ p, s = p +:+ suf.
Proof.
  unfold HasSuffix. split.
  - intros [Hl He]%andb_true_iff. apply String.eqb_eq in He.
    exists (stake (String.length s - String.length suf) s).
    pose proof (stake_sdrop (String.length s - String.length suf) s) as E.
    by rewrite He in E.
  - intros [p ->]. rewrite slength_app.
    replace (String.length p + String.length suf - String.length suf)%nat
      with (String.length p) by lia.
    rewrite sdrop_app, String.eqb_refl, andb_true_r.
    apply Nat.leb_le. lia.
Qed.

Lemma HasSuffix_app p suf : HasSuffix (p +:+ suf) suf = true.
Proof. apply HasSuffix_spec. eauto. Qed.

Lemma TrimSuffix_app s suf : TrimSuffix (s +:+ suf) suf = s.
Proof.
  unfold TrimSuffix. rewrite HasSuffix_app, slength_app.
  replace (String.length s + String.length suf - String.length suf)%nat
    with (String.length s) by lia.
  apply stake_app.
Qed.

Lemma HasPrefix_spec s p : HasPrefix s p = true ↔ ∃ r, s = p +:+ r.
Proof.
  unfold HasPrefix. revert s. induction p as [|c p IH]; intros s; simpl.
  { split; [by exists s|by destruct s]. }
  destruct s as [|d s]; [split; [done|by intros [? ?]]|].
  change (String.prefix (String c p) (String d s))
    with (if ascii_dec c d then String.prefix p s else false).
  destruct (ascii_dec c d) as [<-|Hne].
  - rewrite IH. split; intros [r Hr]; exists r; simpl in *; congruence.
  - split; [done|]. intros [r Hr]. simpl in *. congruence.
Qed.

Lemma HasPrefix_app p r : HasPrefix (p +:+ r) p = true.
Proof. apply HasPrefix_spec. eauto. Qed.

(** ** Cut, Split and Join *)

Lemma Cut_Some sep s a b :
  Cut sep s = Some (a, b) ↔ s = a +:+ String sep b ∧ has_char sep a = false.
Proof.
  revert a. induction s as [|c s IH]; intros a; simpl.
  { split; [done|]. intros [H _]. by destruct a. }
  case_bool_decide as Hc.
  - subst. split.
    + intros [= <- <-]. done.
    + intros [H Ha]. destruct a as [|d a]; simpl in *; simplify_eq; [done|].
      by rewrite bool_decide_eq_true_2 in Ha.
  - destruct (Cut sep s) as [[a' b']|] eqn:E; split.
    + intros [= <- <-]. destruct (proj1 (IH _) eq_refl) as [-> Ha]. simpl.
      by rewrite bool_decide_eq_false_2, Ha.
    + intros [H Ha]. destruct a as [|d a]; simpl in *; simplify_eq.
      apply orb_false_iff in Ha as [_ Ha].
      assert (Some (a', b') = Some (a, b)) as [= -> ->]; [|done].
      apply IH. done.
    + done.
    + intros [H Ha]. destruct a as [|d a]; simpl in *; simplify_eq.
      apply orb_false_iff in Ha as [_ Ha].
      assert (None = Some (a, b)); [|done]. apply IH. done.
Qed.

Lemma Cut_app sep a b : has_char sep a = false → Cut sep (a +:+ String sep b) = Some (a, b).
Proof. intros. by apply Cut_Some. Qed.

Lemma Cut_lit sep a b :
  has_char sep a = false → Cut sep (a +:+ String sep "" +:+ b) = Some (a, b).
Proof. apply Cut_app. Qed.

Lemma Cut_None sep s : Cut sep s = None ↔ has_char sep s = false.
Proof.
  induction s as [|c s IH]; simpl; [done|].
  rewrite orb_false_iff, bool_decide_eq_false.
  case_bool_decide; [split; [done|by intros [? _]]|].
  destruct (Cut sep s) as [[]|]; split; try done.
  - by intros [_ ?%IH].
  - by intros _; split; [congruence|apply IH].
Qed.

Lemma Split_nonempty sep s : Split sep s ≠ [].
Proof.
  destruct s as [|c s]; simpl; [done|].
  case_bool_decide; [done|]. by destruct (Split sep s).
Qed.

Lemma Split_word sep w : has_char sep w = false → Split sep w = [w].
Proof.
  induction w as [|c w IH]; simpl; [done|].
  intros [Hc%bool_decide_eq_false Hw]%orb_false_iff.
  rewrite bool_decide_eq_false_2, IH by congruence. done.
Qed.

Lemma Split_app sep w s :
  has_char sep w = false → Split sep (w +:+ String sep s) = w :: Split sep s.
Proof.
  induction w as [|c w IH]; simpl.
  { by rewrite bool_decide_eq_true_2. }
  intros [Hc%bool_decide_eq_false Hw]%orb_false_iff.
  rewrite bool_decide_eq_false_2, IH by congruence. done.
Qed.

(** Splitting recovers the joined pieces when none contains the separator. *)
Lemma Split_Join sep l :
  l ≠ [] → Forall (λ w, has_char sep w = false) l →
  Split sep (Join l (String sep "")) = l.
Proof.
  intros Hl H. destruct H as [|w ws Hw Hws]; [done|]. clear Hl.
  revert w Hw. induction Hws as [|w' ws Hw' Hws IH]; intros w Hw; simpl.
  { by apply Split_word. }
  rewrite Split_app by done. f_equal. by apply IH.
Qed.

(** ** Decimal numbers *)

Definition is_digit (c : ascii) : bool := ((48 <=? code c) && (code c <=? 57))%Z.

Lemma string_of_uint_digits d : sforall is_digit (NilEmpty.string_of_uint d) = true.
Proof. induction d; simpl; try rewrite IHd; done. Qed.

Lemma string_of_uint_digits0 d : sforall is_digit (NilZero.string_of_uint d) = true.
Proof. destruct d; try done; apply (string_of_uint_digits _). Qed.

(** A decimal rendering holds digits and, in front, possibly a minus sign. *)
Lemma Itoa_chars z c :
  is_digit c = false → c ≠ "-"%char → has_char c (Itoa z) = false.
Proof.
  intros Hc Hm. unfold Itoa. destruct (Z.to_int z) as [d|d]; simpl.
  - by apply (sforall_has_char is_digit), Hc; apply string_of_uint_digits0.
  - rewrite bool_decide_eq_false_2 by done. simpl.
    by apply (sforall_has_char is_digit), Hc; apply string_of_uint_digits0.
Qed.

Lemma parse_digits_print d :
  d ≠ Decimal.Nil → parse_digits (NilZero.string_of_uint d) = Some (Z.of_uint d).
Proof. intros H. unfold parse_digits. by rewrite NilZero.usu. Qed.

(** A digit string is read by the branch without a sign. *)
Lemma parse_sign_digits {A} (f : string → A) (g h : string → A) s :
  sforall is_digit s = true →
  match s with
  | String "+" s' => g s'
  | String "-" s' => h s'
  | _ => f s
  end = f s.
Proof.
  destruct s as [|c s]; simpl; [done|].
  intros [Hc _]%andb_true_iff. unfold is_digit in Hc.
  destruct c as [[] [] [] [] [] [] [] []]; try done.
Qed.

Lemma ParseInt_bounds s z : ParseInt s = Some z → (min_int64 ≤ z ≤ max_int64)%Z.
Proof.
  unfold ParseInt. intros H. apply bind_Some in H as (n & _ & Hn). by case_decide; simplify_eq.
Qed.

Lemma ParseInt_Itoa z : (min_int64 ≤ z ≤ max_int64)%Z → ParseInt (Itoa z) = Some z.
Proof.
  intros Hz. unfold ParseInt, Itoa.
  pose proof (DecimalZ.of_to z) as Hr.
  destruct (Z.to_int z) as [d|d] eqn:E; simpl in *.
  - rewrite (parse_sign_digits parse_digits) by apply string_of_uint_digits0.
    rewrite parse_digits_print.
    + simpl. rewrite Hr. by rewrite decide_True.
    + intros ->. by destruct z.
  - rewrite parse_digits_print.
    + simpl. rewrite Hr. by rewrite decide_True.
    + intros ->. by destruct z.
Qed.

Lemma Itoa_inj x y : Itoa x = Itoa y → x = y.
Proof.
  unfold Itoa. intros H.
  assert (∀ z, NilZero.int_of_string (NilZero.string_of_int (Z.to_int z)) = Some (Z.to_int z))
    as Hr by (intros z; apply NilZero.isi; destruct z; try done; simpl;
              intros [=H']; by apply DecimalPos.Unsigned.to_uint_nonnil in H').
  apply (f_equal NilZero.int_of_string) in H. rewrite !Hr in H. injection H as H.
  apply (f_equal Z.of_int) in H. by rewrite !DecimalZ.of_to in H.
Qed.

(** ** Sorting *)

Lemma sort_strings_perm l : sort_strings l ≡ₚ l.
Proof. apply merge_sort_Permutation. Qed.

Lemma sort_strings_sorted l : StronglySorted String.le (sort_strings l).
Proof. apply StronglySorted_merge_sort; apply _. Qed.

Lemma sort_strings_eq l l' : sort_strings l = sort_strings l' ↔ l ≡ₚ l'.
Proof.
  split; intros H.
  - rewrite <-(merge_sort_Permutation String.le l), <-(merge_sort_Permutation String.le l').
    unfold sort_strings in H. by rewrite H.
  - apply (StronglySorted_unique String.le); auto using sort_strings_sorted.
    by rewrite !sort_strings_perm.
Qed.

#[global] Instance sort_strings_proper : Proper ((≡ₚ) ==> (=)) sort_strings.
Proof. intros l l' H. by apply sort_strings_eq. Qed.

Lemma sort_strings_length l : length (sort_strings l) = length l.
Proof. by rewrite sort_strings_perm. Qed.

(** *** Trimming is idempotent *)

(** A text that starts with white space, read forwards or backwards. *)
Definition head_space (s : string) : bool :=
  match s with
  | "" => false
  | String c s1 => space1 c ||
      match s1 with
      | "" => false
      | String d s2 => space2 c d ||
          match s2 with "" => false | String e _ => space3 c d e end
      end
  end.

Definition tail_space (s : string) : bool :=
  match s with
  | "" => false
  | String c s1 => space1 c ||
      match s1 with
      | "" => false
      | String d s2 => space2 d c ||
          match s2 with "" => false | String e _ => space3 e d c end
      end
  end.

Lemma trim_fix s : head_space s = false → TrimLeftSpace s = s.
Proof.
  destruct s as [|c [|d [|e s]]]; simpl; try done; rewrite ?orb_false_iff;
    intros; destruct_and?; by repeat case_match.
Qed.

Lemma trim_rev_fix s : tail_space s = false → TrimLeftSpaceRev s = s.
Proof.
  destruct s as [|c [|d [|e s]]]; simpl; try done; rewrite ?orb_false_iff;
    intros; destruct_and?; by repeat case_match.
Qed.

(** Induction for functions that look three bytes ahead. *)
Lemma string_ind3 (P : string → Prop) :
  P "" → (∀ c, P (String c "")) → (∀ c d, P (String c (String d ""))) →
  (∀ c d e s, P s → P (String e s) → P (String d (String e s)) →
     P (String c (String d (String e s)))) → ∀ s, P s.
Proof.
  intros H0 H1 H2 H3 s.
  enough (P s ∧ (∀ e, P (String e s)) ∧ ∀ d e, P (String d (String e s))) by tauto.
  induction s as [|c s (IH1 & IH2 & IH3)]; auto.
Qed.

Lemma trim_head s : head_space (TrimLeftSpace s) = false.
Proof.
  induction s as [|c|c d|c d e s IH1 IH2 IH3] using string_ind3; try done;
    cbn [TrimLeftSpace] in *.
  - by destruct (space1 c) eqn:H1; simpl; rewrite ?H1.
  - destruct (space1 c) eqn:H1; [by destruct (space1 d) eqn:H2; simpl; rewrite ?H2|].
    by destruct (space2 c d) eqn:H2; simpl; rewrite ?H1, ?H2.
  - destruct (space1 c) eqn:H1; [done|]. destruct (space2 c d) eqn:H2; [done|].
    destruct (space3 c d e) eqn:H3; [done|]. simpl. by rewrite H1, H2, H3.
Qed.

Lemma trim_rev_tail s : tail_space (TrimLeftSpaceRev s) = false.
Proof.
  induction s as [|c|c d|c d e s IH1 IH2 IH3] using string_ind3; try done;
    cbn [TrimLeftSpaceRev] in *.
  - by destruct (space1 c) eqn:H1; simpl; rewrite ?H1.
  - destruct (space1 c) eqn:H1; [by destruct (space1 d) eqn:H2; simpl; rewrite ?H2|].
    by destruct (space2 d c) eqn:H2; simpl; rewrite ?H1, ?H2.
  - destruct (space1 c) eqn:H1; [done|]. destruct (space2 d c) eqn:H2; [done|].
    destruct (space3 e d c) eqn:H3; [done|]. simpl. by rewrite H1, H2, H3.
Qed.

Lemma trim_rev_suffix s : ∃ p, s = p +:+ TrimLeftSpaceRev s.
Proof.
  induction s as [|c|c d|c d e s (p1 & H1) (p2 & H2) (p3 & H3)] using string_ind3;
    cbn [TrimLeftSpaceRev] in *.
  - by exists "".
  - destruct (space1 c); [by exists (String c "")|by exists ""].
  - destruct (space1 c).
    + destruct (space1 d); [by exists (String c (String d ""))|by exists (String c "")].
    + destruct (space2 d c); [by exists (String c (String d ""))|by exists ""].
  - destruct (space1 c); [exists (String c p3); simpl; congruence|].
    destruct (space2 d c); [exists (String c (String d p2)); simpl; congruence|].
    destruct (space3 e d c); [|by exists ""].
    exists (String c (String d (String e p1))). simpl. congruence.
Qed.

Lemma srev_app_spec s acc : srev_app s acc = srev s +:+ acc.
Proof.
  unfold srev. revert acc. induction s as [|c s IH]; intros acc; [done|]. cbn [srev_app].
  rewrite (IH (String c acc)), (IH (String c "")), sapp_assoc. done.
Qed.

Lemma srev_append a b : srev (a +:+ b) = srev b +:+ srev a.
Proof.
  induction a as [|c a IH]; [by rewrite sapp_nil_r|].
  change (String c a +:+ b) with (String c (a +:+ b)). unfold srev in *. cbn [srev_app].
  rewrite !(srev_app_spec _ (String c "")). unfold srev. by rewrite IH, sapp_assoc.
Qed.

Lemma srev_involutive s : srev (srev s) = s.
Proof.
  induction s as [|c s IH]; [done|].
  rewrite (sapp_cons c s), srev_append, srev_append, IH. done.
Qed.

Lemma head_space_app p q : head_space p = true → head_space (p +:+ q) = true.
Proof.
  destruct p as [|c [|d [|e p]]]; simpl; try done; rewrite ?orb_true_iff; intuition congruence.
Qed.

Lemma TrimSpace_idemp s : TrimSpace (TrimSpace s) = TrimSpace s.
Proof.
  unfold TrimSpace at 2 3. set (u := TrimLeftSpace s). set (z := TrimLeftSpaceRev (srev u)).
  destruct (trim_rev_suffix (srev u)) as [p Hp]. fold z in Hp.
  assert (u = srev z +:+ srev p) as Hu.
  { by rewrite <-(srev_involutive u), Hp, srev_append. }
  assert (head_space (srev z) = false) as Hz.
  { destruct (head_space (srev z)) eqn:E; [|done].
    apply (head_space_app _ (srev p)) in E. rewrite <-Hu in E. unfold u in E.
    by rewrite trim_head in E. }
  unfold TrimSpace. rewrite (trim_fix (srev z) Hz), srev_involutive.
  by rewrite trim_rev_fix by apply trim_rev_tail.
Qed.

(** A text without white space bytes is its own trimming. *)
Lemma TrimSpace_fix s : sforall (λ c, code c <? 128)%Z s = true → sforall (λ c, negb (space1 c)) s = true →
  TrimSpace s = s.
Proof.
  assert (∀ t, sforall (λ c, code c <? 128)%Z t = true → sforall (λ c, negb (space1 c)) t = true →
    head_space t = false ∧ tail_space t = false) as Hh.
  { assert (∀ c d, (code c <? 128)%Z = true → space2 c d = false) as H2
      by (intros c d; unfold space2; lia).
    assert (∀ c d e, (code c <? 128)%Z = true → space3 c d e = false) as H3
      by (intros c d e; unfold space3; lia).
    intros [|c [|d [|e t]]]; cbn [sforall head_space tail_space]; [done|..];
      rewrite ?andb_true_iff, ?negb_true_iff; intros Ha Hs; destruct_and?;
      repeat match goal with H : space1 _ = false |- _ => rewrite H; clear H end;
      rewrite ?H2, ?H3 by done; done. }
  intros Ha Hs. unfold TrimSpace. rewrite trim_fix by (by apply Hh).
  assert (∀ p t, sforall p t = true → sforall p (srev t) = true) as Hrev.
  { intros p t. induction t as [|c t IH]; [done|]. simpl. intros [Hc Ht]%andb_true_iff.
    rewrite (sapp_cons c t), srev_append, sforall_app, IH by done. simpl. by rewrite Hc. }
  rewrite trim_rev_fix by (apply Hh; by apply Hrev). by rewrite srev_involutive.
Qed.

(** *** Words that are separated by single blanks *)

Definition plain_char (c : ascii) : bool := (code c <? 128)%Z && negb (space1 c).

(** A non-empty run of ASCII characters without white space. *)
Definition word (w : string) : Prop := w ≠ "" ∧ sforall plain_char w = true.

Lemma plain_char_no_space c : plain_char c = true → space1 c = false ∧
  (∀ d, space2 c d = false ∧ space2 d c = false) ∧
  (∀ d e, space3 c d e = false ∧ space3 d e c = false).
Proof.
  unfold plain_char. rewrite andb_true_iff, negb_true_iff. intros [Hc Hs]. split; [done|].
  unfold space2, space3. split; intros; lia.
Qed.

Lemma TrimSpace_edges a p q z : plain_char a = true → plain_char z = true →
  String a p = q +:+ String z "" → TrimSpace (String a p) = String a p.
Proof.
  intros (Ha & Ha2 & Ha3)%plain_char_no_space (Hz & Hz2 & Hz3)%plain_char_no_space Hs.
  unfold TrimSpace. rewrite trim_fix.
  2:{ destruct p as [|d [|e p]]; simpl; by rewrite Ha, ?(proj1 (Ha2 _)), ?(proj1 (Ha3 _ _)). }
  rewrite trim_rev_fix; [by rewrite srev_involutive|]. rewrite Hs, srev_append.
  change (srev (String z "") +:+ srev q) with (String z (srev q)).
  destruct (srev q) as [|d [|e r]]; simpl; by rewrite Hz, ?(proj2 (Hz2 _)), ?(proj2 (Hz3 _ _)).
Qed.

Lemma FieldsAux_word w rest cur : sforall plain_char w = true →
  FieldsAux (w +:+ rest) cur = FieldsAux rest (srev w +:+ cur).
Proof.
  revert cur. induction w as [|c w IH]; intros cur; [done|]. cbn [sforall].
  intros [(Hc & Hc2 & Hc3)%plain_char_no_space Hw]%andb_true_iff.
  transitivity (FieldsAux (w +:+ rest) (String c cur)).
  - change (String c w +:+ rest) with (String c (w +:+ rest)). cbn [FieldsAux]. rewrite Hc.
    destruct (w +:+ rest) as [|d [|e r]]; [done|by rewrite (proj1 (Hc2 _))|].
    by rewrite (proj1 (Hc2 _)), (proj1 (Hc3 _ _)).
  - rewrite IH by done. by rewrite (sapp_cons c w), srev_append, sapp_assoc.
Qed.

Lemma srev_nonempty w : w ≠ "" → srev w ≠ "".
Proof. intros Hw He. apply Hw. by rewrite <-(srev_involutive w), He. Qed.

Lemma Fields_Join ws : Forall word ws → Fields (Join ws " ") = ws.
Proof.
  unfold Fields. induction 1 as [|w ws [Hne Hw] Hws IH]; [done|].
  pose proof (srev_nonempty w Hne) as Hr. destruct ws as [|w' ws].
  - change (Join [w] " ") with w. rewrite <-(sapp_nil_r w) at 1.
    rewrite FieldsAux_word, sapp_nil_r by done. cbn [FieldsAux].
    destruct (srev w) eqn:E; [done|]. by rewrite <-E, srev_involutive.
  - change (Join (w :: w' :: ws) " ") with (w +:+ String " " (Join (w' :: ws) " ")).
    rewrite FieldsAux_word, sapp_nil_r by done. cbn [FieldsAux]. change (space1 " ") with true. cbv iota.
    rewrite IH. destruct (srev w) eqn:E; [done|]. by rewrite <-E, srev_involutive.
Qed.

Lemma TrimSpace_words ws : Forall word ws → TrimSpace (Join ws " ") = Join ws " ".
Proof.
  intros Hws. destruct ws as [|w ws]; [done|].
  assert (∃ a p, Join (w :: ws) " " = String a p ∧ plain_char a = true) as (a & p & Hj & Ha).
  { apply Forall_cons in Hws as [[Hne Hw] _]. destruct w as [|a w]; [done|].
    simpl in Hw. apply andb_true_iff in Hw as [Ha _]. destruct ws as [|w' ws]; by eexists _, _. }
  assert (∃ q z, Join (w :: ws) " " = q +:+ String z "" ∧ plain_char z = true) as (q & z & Hj2 & Hz).
  { clear a p Hj Ha. assert (∀ w, word w → ∃ q z, w = q +:+ String z "" ∧ plain_char z = true) as Hlast.
    { intros v [Hne Hv]. induction v as [|c v IH]; [done|]. simpl in Hv.
      apply andb_true_iff in Hv as [Hc Hv]. destruct v as [|d v]; [by exists "", c|].
      destruct IH as (q & z & -> & Hz); [done..|]. by exists (String c q), z. }
    revert w Hws. induction ws as [|w' ws IH]; intros w [Hw Hws]%Forall_cons; [by apply Hlast|].
    destruct (IH w' Hws) as (q & z & Hq & Hz). exists (w +:+ " " +:+ q), z. split; [|done].
    change (Join (w :: w' :: ws) " ") with (w +:+ " " +:+ Join (w' :: ws) " ").
    rewrite Hq. by rewrite !sapp_assoc. }
  rewrite Hj. apply (TrimSpace_edges a p q z); [done..|congruence].
Qed.
