(* ===== verification/DnsTypes.v ===== *)
(** * Package dnsclient: data types

    [internal/dnsclient/result.go] and [internal/dnsclient/recordtypes.go]:
    resolvers, answers, results and checks, and the table of record types.
    The numbers of record types and response codes belong to the DNS library
    and are the fields of the class [DnsConsts]. *)

From Stdlib Require Import Floats.SpecFloat.
From S2P Require Import Prelude.
From S2P Require Import GoString.

(** ** Constants of the DNS library *)

Class DnsConsts := {
  TypeA : Z; TypeAAAA : Z; TypeCNAME : Z; TypeMX : Z; TypeNS : Z; TypePTR : Z;
  TypeSOA : Z; TypeTXT : Z; TypeCAA : Z; TypeSRV : Z; TypeDS : Z;
  TypeDNSKEY : Z; TypeNAPTR : Z; TypeTLSA : Z; TypeSVCB : Z; TypeHTTPS : Z;
  TypeOPT : Z;
  RcodeSuccess : Z; RcodeNameError : Z; RcodeServerFailure : Z; RcodeRefused : Z;
  (** The map [dns.TypeToString]. *)
  TypeToString : Z → string
}.

(** The documented facts the program relies on: distinct record types have
    distinct numbers, and so have distinct response codes. *)
Class DnsConstsOk (D : DnsConsts) : Prop := {
  types_NoDup : NoDup [TypeA; TypeAAAA; TypeCNAME; TypeMX; TypeNS; TypePTR;
    TypeSOA; TypeTXT; TypeCAA; TypeSRV; TypeDS; TypeDNSKEY; TypeNAPTR;
    TypeTLSA; TypeSVCB; TypeHTTPS; TypeOPT];
  rcodes_NoDup : NoDup [RcodeSuccess; RcodeNameError; RcodeServerFailure; RcodeRefused]
}.

(** The assignments of the IANA registry. *)
Definition iana : DnsConsts := {|
  TypeA := 1; TypeAAAA := 28; TypeCNAME := 5; TypeMX := 15; TypeNS := 2;
  TypePTR := 12; TypeSOA := 6; TypeTXT := 16; TypeCAA := 257; TypeSRV := 33;
  TypeDS := 43; TypeDNSKEY := 48; TypeNAPTR := 35; TypeTLSA := 52;
  TypeSVCB := 64; TypeHTTPS := 65; TypeOPT := 41;
  RcodeSuccess := 0; RcodeNameError := 3; RcodeServerFailure := 2; RcodeRefused := 5;
  TypeToString := λ t,
    if decide (t = 1) then "A" else if decide (t = 28) then "AAAA"
    else if decide (t = 2) then "NS" else if decide (t = 16) then "TXT" else ""
|}%Z.

#[global] Instance iana_ok : DnsConstsOk iana.
Proof. split; apply (bool_decide_unpack _); vm_compute; done. Qed.

(** ** Result types *)

(** A [time.Time] is its instant: nanoseconds since the Unix epoch. *)
Definition Time := Z.

(** A [float64]. *)
Definition float64 := spec_float.

Definition float_zero : float64 := S754_zero false.

#[global] Instance float64_eq_dec : EqDecision float64.
Proof. unfold float64; solve_decision. Defined.

(* src: internal/dnsclient/result.go StatusOK *)
Definition StatusOK := "ok".
(* src: internal/dnsclient/result.go StatusNXDomain *)
Definition StatusNXDomain := "nxdomain".
(* src: internal/dnsclient/result.go StatusTimeout *)
Definition StatusTimeout := "timeout".
(* src: internal/dnsclient/result.go StatusServFail *)
Definition StatusServFail := "servfail".
(* src: internal/dnsclient/result.go StatusRefused *)
Definition StatusRefused := "refused".
(* src: internal/dnsclient/result.go StatusError *)
Definition StatusError := "error".

(* src: internal/dnsclient/result.go Resolver *)
Record Resolver := mkResolver {
  rID : string;
  rName : string;
  rIP : string;
  rPort : Z;
  rProtocol : string;
  rCountry : string;
  rCity : string;
  rLat : float64;
  rLng : float64;
  rASN : Z;
  rISP : string
}.

(* src: internal/dnsclient/result.go Answer *)
Record Answer := mkAnswer {
  aName : string;
  aType : string;
  aTTL : Z;   (* uint32 *)
  aValue : string
}.

(* src: internal/dnsclient/result.go ResolverResult *)
Record ResolverResult := mkResolverResult {
  rrResolver : Resolver;
  rrStatus : string;
  rrAnswers : list Answer;
  rrAuthority : list Answer;
  rrAdditional : list Answer;
  rrDNSSEC : option bool;
  rrDurationMS : Z;
  rrError : string;
  rrQueriedAt : Time
}.

(* src: internal/dnsclient/result.go CheckSummary *)
Record CheckSummary := mkCheckSummary {
  TotalResolvers : Z;
  Responded : Z;
  NXDomain : Z;
  Timeouts : Z;
  Errors : Z;
  UniqueAnswerSets : Z;
  Consensus : gmap string Z;
  ConvergedPct : Z;
  PropagationETA : option Z
}.

(* src: internal/dnsclient/result.go Check *)
Record Check := mkCheck {
  cID : string;
  cName : string;
  cType : string;
  cCreatedAt : Time;
  cResults : list ResolverResult;
  cSummary : CheckSummary
}.

(* src: internal/dnsclient/result.go TraceStep *)
Record TraceStep := mkTraceStep {
  tsZone : string;
  tsNameserver : string;
  tsIP : string;
  tsQueryType : string;
  tsAnswers : list Answer;
  tsAuthority : list Answer;
  tsAdditional : list Answer;
  tsAuthoritative : bool;
  tsDurationMS : Z;
  tsStatus : string;
  tsError : string
}.

(* src: internal/dnsclient/result.go TraceResult *)
Record TraceResult := mkTraceResult {
  trName : string;
  trType : string;
  trSteps : list TraceStep
}.

#[global] Instance Resolver_eq_dec : EqDecision Resolver.
Proof. solve_decision. Defined.
#[global] Instance Answer_eq_dec : EqDecision Answer.
Proof. solve_decision. Defined.
#[global] Instance ResolverResult_eq_dec : EqDecision ResolverResult.
Proof. solve_decision. Defined.
#[global] Instance CheckSummary_eq_dec : EqDecision CheckSummary.
Proof. solve_decision. Defined.
#[global] Instance Check_eq_dec : EqDecision Check.
Proof. solve_decision. Defined.

(** The result every query starts from: the zero value of the fields that the
    code does not set. *)
Definition result_for (r : Resolver) (status : string) (dur : Z) (err : string)
    (at_ : Time) : ResolverResult :=
  mkResolverResult r status [] [] [] None dur err at_.

(** A TTL is a [uint32]. *)
Definition Answer_wf (a : Answer) : Prop := (0 ≤ aTTL a < 2 ^ 32)%Z.

(** The values of the answers of a result, in order. *)
Definition values (r : ResolverResult) : list string := aValue <$> rrAnswers r.

(** ** Record types *)

Section RecordTypes.
Context `{DnsConsts}.

(* src: internal/dnsclient/recordtypes.go SupportedTypes *)
Definition SupportedTypes : gmap string Z := list_to_map [
  ("A", TypeA); ("AAAA", TypeAAAA); ("CNAME", TypeCNAME); ("MX", TypeMX);
  ("NS", TypeNS); ("PTR", TypePTR); ("SOA", TypeSOA); ("TXT", TypeTXT);
  ("CAA", TypeCAA); ("SRV", TypeSRV); ("DS", TypeDS); ("DNSKEY", TypeDNSKEY);
  ("NAPTR", TypeNAPTR); ("TLSA", TypeTLSA); ("SVCB", TypeSVCB); ("HTTPS", TypeHTTPS)].

(* src: internal/dnsclient/recordtypes.go TypeDescriptions *)
Definition TypeDescriptions : gmap string string := list_to_map [
  ("A", "IPv4 address record");
  ("AAAA", "IPv6 address record");
  ("CNAME", "Canonical name (alias) record");
  ("MX", "Mail exchange record");
  ("NS", "Name server record");
  ("PTR", "Reverse DNS pointer record");
  ("SOA", "Start of authority record");
  ("TXT", "Text record");
  ("CAA", "Certification Authority Authorization record");
  ("SRV", "Service locator record");
  ("DS", "Delegation signer record (DNSSEC)");
  ("DNSKEY", "DNS public key record (DNSSEC)");
  ("NAPTR", "Naming authority pointer record");
  ("TLSA", "TLS authentication record");
  ("SVCB", "Service binding record");
  ("HTTPS", "HTTPS service binding record")].

(** [None] is the [false] of the second result. *)
(* src: internal/dnsclient/recordtypes.go ParseType *)
Definition ParseType (name : string) : option Z := SupportedTypes !! name.

(** [qtype, _ := ParseType(name)]: the zero value when unsupported. *)
Definition ParseType0 (name : string) : Z := default 0%Z (ParseType name).

(* src: internal/dnsclient/recordtypes.go TypeName *)
Definition TypeName (t : Z) : string := TypeToString t.

(* src: internal/dnsclient/recordtypes.go SupportedTypeNames *)
Definition SupportedTypeNames `{MapRange} : list string :=
  sort_strings (range SupportedTypes).*1.

End RecordTypes.
