(* ===== verification/Crypto.v ===== *)
(** * Hash functions and text encodings

    The parts of [crypto/sha1], [crypto/sha256], [crypto/hmac],
    [encoding/hex] and [encoding/base64] that the program uses: executable
    definitions over byte strings, checked against published test vectors,
    and the round trip of the unpadded URL-safe base64 alphabet. *)

From S2P Require Import Prelude.
From S2P Require Import GoString.

Local Open Scope Z_scope.

(** ** Bytes and 32-bit words *)

Definition bytes_of (s : string) : list Z := code <$> String.list_ascii_of_string s.

Definition of_bytes (l : list Z) : string := String.string_of_list_ascii (chr <$> l).

Definition w32 (z : Z) : Z := z mod 2 ^ 32.
Definition add32 (a b : Z) : Z := w32 (a + b).
Definition rotr32 (x n : Z) : Z := Z.lor (Z.shiftr x n) (w32 (Z.shiftl x (32 - n))).
Definition rotl32 (x n : Z) : Z := rotr32 x (32 - n).
Definition not32 (x : Z) : Z := 2 ^ 32 - 1 - x.

(** The [n] low bytes of [z], most significant first. *)
Fixpoint be_bytes (n : nat) (z : Z) : list Z :=
  match n with
  | O => []
  | S n' => Z.shiftr z (8 * Z.of_nat n') mod 256 :: be_bytes n' z
  end.

Definition be_word (l : list Z) : Z := foldl (λ acc b, acc * 256 + b) 0 l.

(** Consecutive groups of [n] elements. *)
Fixpoint chunks_aux {A} (fuel n : nat) (l : list A) : list (list A) :=
  match fuel, l with
  | _, [] => []
  | O, _ => []
  | S f, _ => take n l :: chunks_aux f n (drop n l)
  end.

Definition chunks {A} (n : nat) (l : list A) : list (list A) := chunks_aux (length l) n l.

(** Merkle-Damgard padding with a 64-bit big-endian length. *)
Definition md_pad (l : list Z) : list Z :=
  let n := length l in
  let zeros := Z.to_nat ((55 - Z.of_nat n) mod 64) in
  l ++ [128] ++ replicate zeros 0 ++ be_bytes 8 (8 * Z.of_nat n).

Definition nthZ (l : list Z) (i : nat) : Z := nth i l 0.

(** ** SHA-256 *)

(** The constants are the first 32 fractional bits of the cube roots of the
    first 64 primes, and of the square roots of the first eight. *)
Fixpoint cbrt_bits (n : nat) (root x : Z) : Z :=
  match n with
  | O => root
  | S n' =>
      let r := root + 2 ^ Z.of_nat n' in
      cbrt_bits n' (if r * r * r <=? x then r else root) x
  end.

Definition primes_below (n : Z) : list Z :=
  filter (λ p, forallb (λ d, negb (p mod d =? 0)) (seqZ 2 (p - 2)) = true) (seqZ 2 (n - 2)).

Definition sha256_k : list Z := Eval vm_compute in
  (λ p, cbrt_bits 40 0 (p * 2 ^ 96) mod 2 ^ 32) <$> primes_below 312.

Definition sha256_h0 : list Z := Eval vm_compute in
  (λ p, Z.sqrt (p * 2 ^ 64) mod 2 ^ 32) <$> primes_below 20.

(** The message schedule, most recent word first: each step looks at the
    words 2, 7, 15 and 16 places back. *)
Fixpoint sha256_extend (n : nat) (rw : list Z) : list Z :=
  match n with
  | O => rw
  | S n' =>
      let w15 := nthZ rw 14 in let w2 := nthZ rw 1 in
      let s0 := Z.lxor (Z.lxor (rotr32 w15 7) (rotr32 w15 18)) (Z.shiftr w15 3) in
      let s1 := Z.lxor (Z.lxor (rotr32 w2 17) (rotr32 w2 19)) (Z.shiftr w2 10) in
      sha256_extend n' (add32 (add32 (nthZ rw 15) s0) (add32 (nthZ rw 6) s1) :: rw)
  end.

Definition sha256_round (st : list Z) (kw : Z * Z) : list Z :=
  match st with
  | [a; b; c; d; e; f; g; h] =>
      let '(k, w) := kw in
      let S1 := Z.lxor (Z.lxor (rotr32 e 6) (rotr32 e 11)) (rotr32 e 25) in
      let ch := Z.lxor (Z.land e f) (Z.land (not32 e) g) in
      let t1 := w32 (h + S1 + ch + k + w) in
      let S0 := Z.lxor (Z.lxor (rotr32 a 2) (rotr32 a 13)) (rotr32 a 22) in
      let maj := Z.lxor (Z.lxor (Z.land a b) (Z.land a c)) (Z.land b c) in
      [add32 t1 (add32 S0 maj); a; b; c; add32 d t1; e; f; g]
  | _ => st
  end.

Definition sha256_block (h : list Z) (blk : list Z) : list Z :=
  let w := reverse (sha256_extend 48 (reverse (be_word <$> chunks 4 blk))) in
  zip_with add32 h (foldl sha256_round h (zip sha256_k w)).

Definition sha256_bytes (l : list Z) : list Z :=
  mjoin (be_bytes 4 <$> foldl sha256_block sha256_h0 (chunks 64 (md_pad l))).

(** [sha256.Sum256]: 32 bytes. *)
Definition Sum256 (s : string) : list Z := sha256_bytes (bytes_of s).

(** ** SHA-1 *)

Fixpoint sha1_extend (n : nat) (rw : list Z) : list Z :=
  match n with
  | O => rw
  | S n' =>
      let x := Z.lxor (Z.lxor (nthZ rw 2) (nthZ rw 7)) (Z.lxor (nthZ rw 13) (nthZ rw 15)) in
      sha1_extend n' (rotl32 x 1 :: rw)
  end.

Definition sha1_round (st : list Z) (iw : Z * Z) : list Z :=
  match st with
  | [a; b; c; d; e] =>
      let '(i, w) := iw in
      let '(f, k) :=
        if i <? 20 then (Z.lor (Z.land b c) (Z.land (not32 b) d), 0x5a827999)
        else if i <? 40 then (Z.lxor (Z.lxor b c) d, 0x6ed9eba1)
        else if i <? 60 then
          (Z.lor (Z.lor (Z.land b c) (Z.land b d)) (Z.land c d), 0x8f1bbcdc)
        else (Z.lxor (Z.lxor b c) d, 0xca62c1d6) in
      [w32 (rotl32 a 5 + f + e + k + w); a; rotl32 b 30; c; d]
  | _ => st
  end.

Definition sha1_block (h : list Z) (blk : list Z) : list Z :=
  let w := reverse (sha1_extend 64 (reverse (be_word <$> chunks 4 blk))) in
  zip_with add32 h (foldl sha1_round h (zip (seqZ 0 80) w)).

(** [sha1.New], written to, and [Sum(nil)]: 20 bytes. *)
Definition Sum1 (s : string) : list Z :=
  mjoin (be_bytes 4 <$> foldl sha1_block
    [0x67452301; 0xefcdab89; 0x98badcfe; 0x10325476; 0xc3d2e1f0]
    (chunks 64 (md_pad (bytes_of s)))).

(** ** HMAC with SHA-256 *)

Definition hmac_key (key : string) : list Z :=
  let k := bytes_of key in
  let k' := if (64 <? length k)%nat then sha256_bytes k else k in
  k' ++ replicate (64 - length k') 0.

Definition hmac_sha256 (key msg : string) : list Z :=
  let k := hmac_key key in
  sha256_bytes ((Z.lxor 0x5c <$> k) ++
    sha256_bytes ((Z.lxor 0x36 <$> k) ++ bytes_of msg)).

(** ** Hexadecimal *)

Definition hex_digit (z : Z) : ascii :=
  default "0"%char (String.list_ascii_of_string "0123456789abcdef" !! Z.to_nat z).

(** [hex.EncodeToString] and the verb [%x] on a byte slice. *)
Definition hex (l : list Z) : string :=
  String.string_of_list_ascii (mjoin ((λ b, [hex_digit (b / 16); hex_digit (b mod 16)]) <$> l)).

(** ** Base64 without padding *)

Definition b64url_alphabet : string :=
  "ABCDEFGHIJKLMNOPQRSTUVWXYZabcdefghijklmnopqrstuvwxyz0123456789-_".

Definition b64std_alphabet : string :=
  "ABCDEFGHIJKLMNOPQRSTUVWXYZabcdefghijklmnopqrstuvwxyz0123456789+/".

Section Base64.
Variable alphabet : string.

Definition b64_char (z : Z) : ascii :=
  default "A"%char (String.list_ascii_of_string alphabet !! Z.to_nat z).

(** Position of [c] in the alphabet, counting from [i]. *)
Fixpoint b64_index (i : Z) (a : string) (c : ascii) : option Z :=
  match a with
  | "" => None
  | String d a' => if bool_decide (c = d) then Some i else b64_index (i + 1) a' c
  end.

Definition b64_val (c : ascii) : option Z := b64_index 0 alphabet c.

(** The 6-bit values of [RawEncoding.EncodeToString]. *)
Fixpoint b64_encode_vals (l : list Z) : list Z :=
  match l with
  | [] => []
  | [x] => [x / 4; x mod 4 * 16]
  | [x; y] => [x / 4; x mod 4 * 16 + y / 16; y mod 16 * 4]
  | x :: y :: z :: l' =>
      x / 4 :: x mod 4 * 16 + y / 16 :: y mod 16 * 4 + z / 64 :: z mod 64 ::
      b64_encode_vals l'
  end.

Definition EncodeToString (l : list Z) : string :=
  String.string_of_list_ascii (b64_char <$> b64_encode_vals l).

(** The quanta of four 6-bit values; a final quantum of two or three values
    carries one or two bytes (trailing bits are ignored), one of a single
    value is an error. *)
Fixpoint b64_decode_vals (l : list Z) : option (list Z) :=
  match l with
  | [] => Some []
  | [_] => None
  | [a; b] => Some [a * 4 + b / 16]
  | [a; b; c] => Some [a * 4 + b / 16; b mod 16 * 16 + c / 4]
  | a :: b :: c :: d :: l' =>
      rest ← b64_decode_vals l';
      Some (a * 4 + b / 16 :: b mod 16 * 16 + c / 4 :: c mod 4 * 64 + d :: rest)
  end.

(** [RawEncoding.DecodeString]: line breaks are skipped, any other byte
    outside the alphabet is an error. *)
Definition DecodeString (s : string) : option (list Z) :=
  mapM b64_val (filter (λ c, c ≠ "010"%char ∧ c ≠ "013"%char) (String.list_ascii_of_string s))
    ≫= b64_decode_vals.

End Base64.

(** [base64.RawURLEncoding]. *)
Definition RawURL_Encode (l : list Z) : string := EncodeToString b64url_alphabet l.
Definition RawURL_Decode (s : string) : option (list Z) := DecodeString b64url_alphabet s.

(** [base64.RawStdEncoding]. *)
Definition RawStd_Encode (l : list Z) : string := EncodeToString b64std_alphabet l.
Definition RawStd_Decode (s : string) : option (list Z) := DecodeString b64std_alphabet s.

(** * Test vectors *)

Example sha256_abc :
  hex (Sum256 "abc") = "ba7816bf8f01cfea414140de5dae2223b00361a396177a9cb410ff61f20015ad".
Proof. vm_compute. reflexivity. Qed.

Example sha256_two_blocks :
  hex (Sum256 "abcdbcdecdefdefgefghfghighijhijkijkljklmklmnlmnomnopnopq")
  = "248d6a61d20638b8e5c026930c3e6039a33ce45964ff2167f6ecedd419db06c1".
Proof. vm_compute. reflexivity. Qed.

Example sha1_abc : hex (Sum1 "abc") = "a9993e364706816aba3e25717850c26c9cd0d89d".
Proof. vm_compute. reflexivity. Qed.

Example hmac_rfc4231_2 :
  hex (hmac_sha256 "Jefe" "what do ya want for nothing?")
  = "5bdcc146bf60754e6a042426089575c75a003f089d2739839dec58b964ec3843".
Proof. vm_compute. reflexivity. Qed.

(** * Lemmas *)

Definition is_byte (b : Z) : Prop := 0 ≤ b < 256.

Lemma be_bytes_length n z : length (be_bytes n z) = n.
Proof. induction n; simpl; congruence. Qed.

Lemma be_bytes_range n z : Forall is_byte (be_bytes n z).
Proof.
  induction n; simpl; constructor; [|done].
  unfold is_byte. apply Z.mod_pos_bound. lia.
Qed.

Lemma bytes_of_range s : Forall is_byte (bytes_of s).
Proof.
  unfold bytes_of. apply Forall_fmap, Forall_forall. intros c _. apply code_range.
Qed.

Lemma of_bytes_of s : of_bytes (bytes_of s) = s.
Proof.
  unfold of_bytes, bytes_of. rewrite <-list_fmap_compose.
  rewrite <-(String.string_of_list_ascii_of_string s) at 2. f_equal.
  induction (String.list_ascii_of_string s) as [|c l IH]; csimpl; [done|].
  by rewrite chr_code, IH.
Qed.

Lemma words_length (ws : list Z) :
  length (mjoin (be_bytes 4 <$> ws)) = (4 * length ws)%nat.
Proof.
  induction ws as [|w ws IH]; [done|].
  rewrite fmap_cons, mjoin_cons, length_app, IH, be_bytes_length. simpl. lia.
Qed.

Lemma words_range (ws : list Z) : Forall is_byte (mjoin (be_bytes 4 <$> ws)).
Proof.
  induction ws as [|w ws IH]; [constructor|].
  rewrite fmap_cons, mjoin_cons. apply Forall_app_2; auto using be_bytes_range.
Qed.

Lemma sha256_round_length st kws :
  length st = 8%nat → length (foldl sha256_round st kws) = 8%nat.
Proof.
  revert st. induction kws as [|[k w] kws IH]; intros st Hst; simpl; [done|].
  apply IH. do 9 (destruct st as [|? st]; try done).
Qed.

Lemma sha256_blocks_length h bs :
  length h = 8%nat → length (foldl sha256_block h bs) = 8%nat.
Proof.
  revert h. induction bs as [|b bs IH]; intros h Hh; simpl; [done|].
  apply IH. unfold sha256_block. rewrite length_zip_with, sha256_round_length; lia.
Qed.

(** A digest is 32 bytes. *)
Lemma sha256_bytes_length l : length (sha256_bytes l) = 32%nat.
Proof. unfold sha256_bytes. rewrite words_length, sha256_blocks_length; done. Qed.

Lemma sha256_bytes_range l : Forall is_byte (sha256_bytes l).
Proof. apply words_range. Qed.

Lemma Sum256_length s : length (Sum256 s) = 32%nat.
Proof. apply sha256_bytes_length. Qed.

Lemma Sum256_range s : Forall is_byte (Sum256 s).
Proof. apply sha256_bytes_range. Qed.

Lemma hmac_range key msg : Forall is_byte (hmac_sha256 key msg).
Proof. apply sha256_bytes_range. Qed.

(** ** Base64 round trip *)

Lemma list_ind3 {A} (P : list A → Prop) :
  P [] → (∀ x, P [x]) → (∀ x y, P [x; y]) →
  (∀ x y z l, P l → P (x :: y :: z :: l)) → ∀ l, P l.
Proof.
  intros H0 H1 H2 H3. fix IH 1. intros [|x [|y [|z l]]]; [done|apply H1|apply H2|].
  apply H3, IH.
Qed.

Ltac div_mod := Z.to_euclidean_division_equations; lia.

Lemma b64_vals_round_trip l :
  Forall is_byte l → b64_decode_vals (b64_encode_vals l) = Some l.
Proof.
  unfold is_byte.
  induction l as [|x|x y|x y z l IH] using list_ind3; intros H; try done;
    decompose_Forall_hyps.
  - f_equal; f_equal. div_mod.
  - f_equal; f_equal; [|f_equal]; div_mod.
  - cbn [b64_encode_vals b64_decode_vals]. rewrite IH by done. simpl.
    f_equal; f_equal; [|f_equal; [|f_equal]]; div_mod.
Qed.

Lemma b64_encode_vals_range l :
  Forall is_byte l → Forall (λ v, 0 ≤ v < 64) (b64_encode_vals l).
Proof.
  unfold is_byte.
  induction l as [|x|x y|x y z l IH] using list_ind3; intros H;
    decompose_Forall_hyps; cbn [b64_encode_vals]; repeat constructor; auto; div_mod.
Qed.

(** What the round trip needs of an alphabet: 64 distinct characters, none of
    them a line break. *)
Definition alphabet_ok (a : string) : Prop :=
  ∀ z, 0 ≤ z < 64 → b64_val a (b64_char a z) = Some z ∧
    b64_char a z ≠ "010"%char ∧ b64_char a z ≠ "013"%char.

Definition alphabet_check (a : string) : bool :=
  forallb (λ z, bool_decide (b64_val a (b64_char a z) = Some z ∧
    b64_char a z ≠ "010"%char ∧ b64_char a z ≠ "013"%char)) (seqZ 0 64).

Lemma alphabet_check_ok a : alphabet_check a = true → alphabet_ok a.
Proof.
  unfold alphabet_check. rewrite forallb_forall. intros H z Hz.
  assert (In z (seqZ 0 64)) as Hin by (apply list_elem_of_In, elem_of_seqZ; lia).
  apply H in Hin. by apply bool_decide_eq_true_1 in Hin.
Qed.

Lemma url_alphabet_ok : alphabet_ok b64url_alphabet.
Proof. apply alphabet_check_ok. vm_compute. reflexivity. Qed.

Lemma std_alphabet_ok : alphabet_ok b64std_alphabet.
Proof. apply alphabet_check_ok. vm_compute. reflexivity. Qed.

Lemma DecodeString_EncodeToString a l :
  alphabet_ok a → Forall is_byte l →
  DecodeString a (EncodeToString a l) = Some l.
Proof.
  intros Ha Hl. unfold DecodeString, EncodeToString.
  rewrite String.list_ascii_of_string_of_list_ascii.
  pose proof (b64_encode_vals_range l Hl) as Hr.
  assert (mapM (b64_val a) (filter (λ c, c ≠ "010"%char ∧ c ≠ "013"%char)
    (b64_char a <$> b64_encode_vals l)) = Some (b64_encode_vals l)) as ->.
  - induction Hr as [|v vs Hv Hvs IH]; [done|].
    destruct (Ha v Hv) as (H1 & H2 & H3).
    rewrite fmap_cons, filter_cons_True by done.
    simpl. rewrite H1. simpl. by rewrite IH.
  - simpl. by apply b64_vals_round_trip.
Qed.

Lemma RawURL_round_trip l : Forall is_byte l → RawURL_Decode (RawURL_Encode l) = Some l.
Proof. apply DecodeString_EncodeToString, url_alphabet_ok. Qed.

Lemma RawStd_round_trip l : Forall is_byte l → RawStd_Decode (RawStd_Encode l) = Some l.
Proof. apply DecodeString_EncodeToString, std_alphabet_ok. Qed.

(** A character that has no value in the alphabet does not occur in an
    encoding. *)
Lemma EncodeToString_no_char a l c :
  alphabet_ok a → Forall is_byte l → b64_val a c = None →
  has_char c (EncodeToString a l) = false.
Proof.
  intros Ha Hl Hc. unfold EncodeToString.
  pose proof (b64_encode_vals_range l Hl) as Hr.
  induction Hr as [|v vs Hv Hvs IH]; [done|]. rewrite fmap_cons. simpl.
  rewrite IH, orb_false_r, bool_decide_eq_false. intros ->.
  destruct (Ha v Hv) as [H1 _]. congruence.
Qed.
