(* ===== verification/GoFmt.v ===== *)
(** * Quoting

    The verb [%q] of [fmt] ([strconv.Quote]) over byte strings, with the
    decoding of UTF-8 it performs.  The Unicode tables are the fields of the
    class [Unicode]. *)

From S2P Require Import Prelude.
From S2P Require Import GoString.
From S2P Require Import Crypto.

Local Open Scope Z_scope.

Class Unicode := {
  (** [strconv.IsPrint], of a code point of 128 or more. *)
  IsPrint : Z → bool;
  (** [strings.ToLower] and [strings.ToUpper] outside ASCII. *)
  fold_lower : string → string;
  fold_upper : string → string
}.

(** No printable character and no case outside ASCII. *)
Definition ascii_only : Unicode :=
  {| IsPrint := λ _, false; fold_lower := λ s, s; fold_upper := λ s, s |}.

(** A continuation byte, between the given bounds. *)
Definition cont (lo hi b : Z) : bool := (lo <=? b) && (b <=? hi).

(** [utf8.DecodeRune] of bytes that start with one above 127: the code point
    and the width, or [None] for an invalid encoding (of width one). *)
Definition DecodeRune (l : list Z) : option (Z * nat) :=
  match l with
  | b0 :: b1 :: l' =>
      if (0xC2 <=? b0) && (b0 <=? 0xDF) then
        if cont 0x80 0xBF b1 then Some ((b0 - 0xC0) * 64 + (b1 - 0x80), 2%nat) else None
      else
      match l' with
      | b2 :: l'' =>
          if (0xE0 <=? b0) && (b0 <=? 0xEF) then
            let lo := if b0 =? 0xE0 then 0xA0 else 0x80 in
            let hi := if b0 =? 0xED then 0x9F else 0xBF in
            if cont lo hi b1 && cont 0x80 0xBF b2
            then Some ((b0 - 0xE0) * 4096 + (b1 - 0x80) * 64 + (b2 - 0x80), 3%nat)
            else None
          else
          match l'' with
          | b3 :: _ =>
              if (0xF0 <=? b0) && (b0 <=? 0xF4) then
                let lo := if b0 =? 0xF0 then 0x90 else 0x80 in
                let hi := if b0 =? 0xF4 then 0x8F else 0xBF in
                if cont lo hi b1 && cont 0x80 0xBF b2 && cont 0x80 0xBF b3
                then Some ((b0 - 0xF0) * 262144 + (b1 - 0x80) * 4096
                           + (b2 - 0x80) * 64 + (b3 - 0x80), 4%nat)
                else None
              else None
          | [] => None
          end
      | [] => None
      end
  | _ => None
  end.

(** The [n] low hexadecimal digits of [z]. *)
Fixpoint hex_digits (n : nat) (z : Z) : string :=
  match n with
  | O => ""
  | S n' => String (hex_digit (z / 16 ^ Z.of_nat n' mod 16)) (hex_digits n' z)
  end.

(** The escape of an ASCII character inside double quotes. *)
Definition escape_ascii (b : Z) : string :=
  if (b =? 34) || (b =? 92) then String "\" (String (chr b) "")
  else if (32 <=? b) && (b <=? 126) then String (chr b) ""
  else if b =? 7 then "\a" else if b =? 8 then "\b" else if b =? 12 then "\f"
  else if b =? 10 then "\n" else if b =? 13 then "\r" else if b =? 9 then "\t"
  else if b =? 11 then "\v"
  else "\x" +:+ hex_digits 2 b.

Definition escape_rune `{Unicode} (r : Z) (raw : list Z) : string :=
  if IsPrint r then of_bytes raw
  else if r <? 65536 then "\u" +:+ hex_digits 4 r
  else "\U" +:+ hex_digits 8 r.

(** [fuel] bounds the number of characters; the length of the input is enough. *)
Fixpoint quote_bytes `{Unicode} (fuel : nat) (l : list Z) : string :=
  match fuel, l with
  | S f, b :: l' =>
      if b <? 128 then escape_ascii b +:+ quote_bytes f l' else
      match DecodeRune l with
      | None => "\x" +:+ hex_digits 2 b +:+ quote_bytes f l'
      | Some (r, w) => escape_rune r (take w l) +:+ quote_bytes f (drop w l)
      end
  | _, _ => ""
  end.

Definition dquote : string := String (chr 34) "".

(** [strconv.Quote]. *)
Definition Quote `{Unicode} (s : string) : string :=
  dquote +:+ quote_bytes (String.length s) (bytes_of s) +:+ dquote.

Example Quote_plain : @Quote ascii_only "issue" = dquote +:+ "issue" +:+ dquote.
Proof. reflexivity. Qed.

Example Quote_escapes :
  @Quote ascii_only (of_bytes [10; 34; 195; 169; 255]) = dquote +:+ "\n\" +:+ dquote +:+ "\u00e9\xff" +:+ dquote.
Proof. reflexivity. Qed.
