(* ===== verification/Permalink.v ===== *)
(** * Check identifiers

    [internal/checker/permalink.go]: the eight-character base62 identifier of
    a check, from the SHA-256 digest of its name, type and creation time. *)

From S2P Require Import Prelude.
From S2P Require Import GoString.
From S2P Require Import Crypto.

Local Open Scope Z_scope.

(* src: internal/checker/permalink.go base62chars *)
Definition base62chars : string :=
  "0123456789ABCDEFGHIJKLMNOPQRSTUVWXYZabcdefghijklmnopqrstuvwxyz".

(** Wrap-around of a [uint64]. *)
Definition u64 (z : Z) : Z := z mod 2 ^ 64.

Definition base62char (z : Z) : ascii :=
  default "0"%char (String.list_ascii_of_string base62chars !! Z.to_nat z).

(** [for i := 0; i < 8; i++ { n = (n << 8) | uint64(sum\[i\]) }]. *)
(* src: internal/checker/permalink.go 16-20 NewID *)
Definition fold_sum (sum : list Z) : Z :=
  foldl (λ n b, Z.lor (u64 (Z.shiftl n 8)) b) 0 (take 8 sum).

(** [for i := k-1; i >= 0; i-- { result\[i\] = base62chars\[n%62\]; n /= 62 }]:
    the bytes already written are [acc]. *)
(* src: internal/checker/permalink.go 22-26 NewID *)
Fixpoint fill62 (k : nat) (n : Z) (acc : list ascii) : list ascii :=
  match k with
  | O => acc
  | S k' => fill62 k' (n / 62) (base62char (n mod 62) :: acc)
  end.

(** The argument [now] is [time.Now().UnixNano()]. *)
(* src: internal/checker/permalink.go NewID *)
Definition NewID (name qtype : string) (now : Z) : string :=
  let raw := name +:+ "|" +:+ qtype +:+ "|" +:+ Itoa now in
  let sum := Sum256 raw in
  String.string_of_list_ascii (fill62 8 (fold_sum sum) []).

(** The reading of an identifier as a number in base 62. *)
Definition value62 (l : list ascii) : option Z :=
  foldl (λ acc c, v ← acc; d ← b64_val base62chars c; Some (v * 62 + d)) (Some 0) l.

(** * Lemmas *)

Lemma base62_index z : 0 ≤ z < 62 → b64_val base62chars (base62char z) = Some z.
Proof.
  intros Hz.
  assert (forallb (λ z, bool_decide (b64_val base62chars (base62char z) = Some z))
    (seqZ 0 62) = true) as H by (vm_compute; reflexivity).
  rewrite forallb_forall in H.
  assert (In z (seqZ 0 62)) as Hin by (apply list_elem_of_In, elem_of_seqZ; lia).
  by apply H, bool_decide_eq_true_1 in Hin.
Qed.

Lemma fill62_length k n acc : length (fill62 k n acc) = (k + length acc)%nat.
Proof. revert n acc. induction k; intros; simpl; [done|]. rewrite IHk. simpl. lia. Qed.

Lemma fill62_app k n acc : fill62 k n acc = fill62 k n [] ++ acc.
Proof.
  revert n acc. induction k as [|k IH]; intros n acc; simpl; [done|].
  rewrite IH, (IH _ [_]), <-app_assoc. done.
Qed.

Lemma fill62_alphabet k n :
  0 ≤ n → Forall (λ c, is_Some (b64_val base62chars c)) (fill62 k n []).
Proof.
  revert n. induction k as [|k IH]; intros n Hn; simpl; [constructor|].
  rewrite fill62_app. apply Forall_app_2; [apply IH, Z.div_pos; lia|].
  constructor; [|constructor]. rewrite base62_index; [eauto|].
  apply Z.mod_pos_bound. lia.
Qed.

Lemma fill62_value k n :
  0 ≤ n → value62 (fill62 k n []) = Some (n mod 62 ^ Z.of_nat k).
Proof.
  unfold value62. revert n. induction k as [|k IH]; intros n Hn; simpl.
  { by rewrite Z.mod_1_r. }
  rewrite fill62_app, foldl_app, IH by (apply Z.div_pos; lia). simpl.
  rewrite base62_index by (apply Z.mod_pos_bound; lia). simpl. f_equal.
  replace (62 ^ Z.of_nat (S k)) with (62 * 62 ^ Z.of_nat k)
    by (rewrite Nat2Z.inj_succ, Z.pow_succ_r; lia).
  rewrite Z.rem_mul_r by lia. lia.
Qed.

(** Appending a byte to a word without overflow. *)
Lemma shift_or_byte n b : 0 ≤ n < 2 ^ 56 → is_byte b →
  Z.lor (u64 (Z.shiftl n 8)) b = n * 256 + b.
Proof.
  unfold is_byte, u64. intros Hn Hb.
  assert (Z.land (Z.shiftl n 8) b = 0) as Hl.
  { apply Z.bits_inj'. intros i Hi. rewrite Z.land_spec, Z.bits_0.
    destruct (decide (i < 8)); [by rewrite Z.shiftl_spec_low|].
    destruct (decide (b = 0)) as [->|]; [by rewrite Z.bits_0, andb_false_r|].
    rewrite (Z.bits_above_log2 b), andb_false_r; [done|lia|].
    assert (Z.log2 b < 8) by (apply Z.log2_lt_pow2; lia). lia. }
  rewrite Z.mod_small by (rewrite Z.shiftl_mul_pow2; lia).
  rewrite <-Z.lxor_lor, <-Z.add_nocarry_lxor, Z.shiftl_mul_pow2 by (done || lia).
  lia.
Qed.

Lemma fold_sum_be sum :
  Forall is_byte sum → fold_sum sum = be_word (take 8 sum) ∧ 0 ≤ fold_sum sum < 2 ^ 64.
Proof.
  intros H. unfold fold_sum, be_word.
  assert (Forall is_byte (take 8 sum)) as Ht by (by apply Forall_take).
  assert (length (take 8 sum) ≤ 8)%nat as Hl by (rewrite length_take; lia).
  revert Ht Hl. generalize (take 8 sum) as l. clear.
  intros l Hl Hlen.
  assert (∀ k n, 0 ≤ n < 2 ^ (8 * k) → 0 ≤ k → k + Z.of_nat (length l) ≤ 8 →
    foldl (λ n b, Z.lor (u64 (Z.shiftl n 8)) b) n l = foldl (λ acc b, acc * 256 + b) n l ∧
    0 ≤ foldl (λ acc b, acc * 256 + b) n l < 2 ^ (8 * (k + Z.of_nat (length l)))) as G.
  { clear Hlen. induction Hl as [|b l Hb Hl IH]; intros k n Hn Hk Hkl; simpl in *.
    { split; [done|]. by rewrite Z.add_0_r. }
    assert (n < 2 ^ 56) by
      (eapply Z.lt_le_trans; [apply Hn|apply Z.pow_le_mono_r; lia]).
    rewrite shift_or_byte by (done || lia).
    replace (8 * (k + Z.of_nat (S (length l))))
      with (8 * ((k + 1) + Z.of_nat (length l))) by lia.
    apply IH; [|lia|lia].
    unfold is_byte in Hb. replace (2 ^ (8 * (k + 1))) with (2 ^ (8 * k) * 256)
      by (rewrite Z.mul_add_distr_l, Z.pow_add_r by lia; lia).
    lia. }
  destruct (G 0 0) as [-> Hb]; [lia..|]. split; [done|].
  split; [lia|]. eapply Z.lt_le_trans; [apply Hb|]. apply Z.pow_le_mono_r; lia.
Qed.

(** * Properties *)

(** An identifier is eight characters of the base62 alphabet, and read in
    base 62 it is the first eight bytes of the SHA-256 digest, as a big-endian
    number, modulo [62^8]: no step of the two loops loses a bit to the width
    of [uint64]. *)
Theorem NewID_encodes_digest (name qtype : string) (now : Z) :
  let id := NewID name qtype now in
  let sum := Sum256 (name +:+ "|" +:+ qtype +:+ "|" +:+ Itoa now) in
  String.length id = 8%nat ∧
  sforall (λ c, bool_decide (is_Some (b64_val base62chars c))) id = true ∧
  value62 (String.list_ascii_of_string id) = Some (be_word (take 8 sum) mod 62 ^ 8).
Proof.
  intros id sum. subst id. unfold NewID. fold sum.
  destruct (fold_sum_be sum (Sum256_range _)) as [Hs Hr].
  split_and!.
  - assert (∀ l, String.length (String.string_of_list_ascii l) = length l) as ->
      by (induction l; simpl; congruence).
    apply (fill62_length 8).
  - assert (∀ p l, Forall (λ c, p c = true) l →
      sforall p (String.string_of_list_ascii l) = true) as G.
    { intros p l. induction 1 as [|c l Hc]; simpl; [done|]. by rewrite Hc. }
    apply G. eapply Forall_impl; [apply (fill62_alphabet 8 _ (proj1 Hr))|].
    intros c Hc. by apply bool_decide_eq_true_2.
  - rewrite String.list_ascii_of_string_of_list_ascii, fill62_value by lia.
    by rewrite Hs.
Qed.
