(* ===== verification/Settings.v ===== *)
(** * Package settings: data types

    [internal/settings/settings.go]: the settings document, API tokens,
    schedules, monitors and changelog entries. *)

From S2P Require Import Prelude.
From S2P Require Import GoString.
From S2P Require Import DnsTypes.

(* src: internal/settings/settings.go ChannelShoutrrr *)
Definition ChannelShoutrrr := "shoutrrr".
(* src: internal/settings/settings.go ChannelGreenAPI *)
Definition ChannelGreenAPI := "greenapi".
(* src: internal/settings/settings.go ChannelGoWA *)
Definition ChannelGoWA := "gowa".

(* src: internal/settings/settings.go AuthSettings *)
Record AuthSettings := mkAuth {
  authEnabled : bool;
  authUsername : string;
  authPasswordHash : string
}.

(* src: internal/settings/settings.go NotificationChannel *)
Record NotificationChannel := mkChannel {
  chID : string;
  chType : string;
  chName : string;
  chEnabled : bool;
  chConfig : gmap string string
}.

(* src: internal/settings/settings.go Settings *)
Record Settings := mkSettings {
  sAuth : AuthSettings;
  sNotifications : list NotificationChannel;
  sDisabledResolvers : list string;
  sSessionSecret : string
}.

(* src: internal/settings/settings.go APIToken *)
Record APIToken := mkAPIToken {
  tokID : string;
  tokName : string;
  tokHash : string;
  tokPrefix : string;
  tokCreatedAt : Time;
  tokLastUsedAt : option Time
}.

(* src: internal/settings/settings.go Schedule *)
Record Schedule := mkSchedule {
  schID : string;
  schName : string;
  schCron : string;
  schEnabled : bool;
  schCreatedAt : Time;
  schUpdatedAt : Time
}.

(* src: internal/settings/settings.go MonitorPropagation *)
Definition MonitorPropagation := "propagation".
(* src: internal/settings/settings.go MonitorChange *)
Definition MonitorChange := "change".

(* src: internal/settings/settings.go MonitorStatusCreated *)
Definition MonitorStatusCreated := "created".
(* src: internal/settings/settings.go MonitorStatusOK *)
Definition MonitorStatusOK := "ok".
(* src: internal/settings/settings.go MonitorStatusNotPropagated *)
Definition MonitorStatusNotPropagated := "not_propagated".
(* src: internal/settings/settings.go MonitorStatusChanged *)
Definition MonitorStatusChanged := "changed".
(* src: internal/settings/settings.go MonitorStatusError *)
Definition MonitorStatusError := "error".

(* src: internal/settings/settings.go Monitor *)
Record Monitor := mkMonitor {
  mID : string;
  mName : string;
  mType : string;
  mFQDN : string;
  mRecordType : string;
  mExpected : list string;
  mSchedulerID : string;
  mChannelID : string;
  mEnabled : bool;
  mCreatedAt : Time;
  mUpdatedAt : Time
}.

(* src: internal/settings/settings.go MonitorEvent *)
Record MonitorEvent := mkMonitorEvent {
  evID : string;
  evMonitorID : string;
  evTimestamp : Time;
  evStatus : string;
  evObserved : list string;
  evMessage : string;
  evNotified : bool
}.

#[global] Instance AuthSettings_eq_dec : EqDecision AuthSettings.
Proof. solve_decision. Defined.
#[global] Instance NotificationChannel_eq_dec : EqDecision NotificationChannel.
Proof. solve_decision. Defined.
#[global] Instance Settings_eq_dec : EqDecision Settings.
Proof. solve_decision. Defined.
#[global] Instance APIToken_eq_dec : EqDecision APIToken.
Proof. unfold EqDecision, Time in *. solve_decision. Defined.
#[global] Instance Schedule_eq_dec : EqDecision Schedule.
Proof. solve_decision. Defined.
#[global] Instance Monitor_eq_dec : EqDecision Monitor.
Proof. solve_decision. Defined.
#[global] Instance MonitorEvent_eq_dec : EqDecision MonitorEvent.
Proof. solve_decision. Defined.

(* src: internal/settings/settings.go Default *)
Definition Default : Settings := mkSettings (mkAuth false "" "") [] [] "".

(** The field updates of the program, as functions. *)
Definition set_sSessionSecret (s : Settings) (x : string) : Settings :=
  mkSettings (sAuth s) (sNotifications s) (sDisabledResolvers s) x.

Definition set_mExpected (m : Monitor) (e : list string) (t : Time) : Monitor :=
  mkMonitor (mID m) (mName m) (mType m) (mFQDN m) (mRecordType m) e
    (mSchedulerID m) (mChannelID m) (mEnabled m) (mCreatedAt m) t.
