(* ===== verification/Session.v ===== *)
(** * Sessions and secrets

    [internal/settings/session.go]: signed session tokens.
    [internal/settings/secret.go]: argon2id password and token hashes, random
    tokens and identifiers.  The key derivation function is a parameter. *)

From S2P Require Import Prelude.
From S2P Require Import GoString.
From S2P Require Import Crypto.
From S2P Require Import DnsTypes.

Local Open Scope Z_scope.

(** [t.Unix()] of an instant in nanoseconds. *)
Definition Unix (t : Time) : Z := t / 10 ^ 9.

(* src: internal/settings/session.go SessionCookie *)
Definition SessionCookie := "dnsmon_session".

(* src: internal/settings/session.go sign *)
Definition sign (secret msg : string) : string :=
  RawURL_Encode (hmac_sha256 secret msg).

(** [now] is [time.Now()], [ttl] a duration in nanoseconds. *)
(* src: internal/settings/session.go SignSession *)
Definition SignSession (secret username : string) (ttl now : Z) : string :=
  let payload := username +:+ "|" +:+ Itoa (Unix (now + ttl)) in
  let enc := RawURL_Encode (bytes_of payload) in
  enc +:+ "." +:+ sign secret enc.

(* src: internal/settings/session.go ParseSession *)
Definition ParseSession (secret token : string) (now : Time) : option string :=
  '(enc, mac) ← Cut "." token;
  if negb (String.eqb mac (sign secret enc)) then None else
  raw ← RawURL_Decode enc;
  '(name, expStr) ← Cut "|" (of_bytes raw);
  exp ← ParseInt expStr;
  if exp <=? Unix now then None else Some name.

(** ** Secrets *)

(** The function [argon2.IDKey] (secret, salt, passes, KiB of memory, threads,
    key length) and the version number of the algorithm. *)
Class Argon2 := {
  IDKey : string → list Z → Z → Z → Z → Z → list Z;
  argon2_Version : Z
}.

(** Documented: the key has the requested length; it is a byte slice. *)
Class Argon2Ok (A : Argon2) : Prop := {
  IDKey_length : ∀ s salt t m p n, 0 ≤ n → length (IDKey s salt t m p n) = Z.to_nat n;
  IDKey_bytes : ∀ s salt t m p n, Forall is_byte (IDKey s salt t m p n);
  argon2_Version_range : 0 ≤ argon2_Version ≤ max_int64
}.

(* src: internal/settings/secret.go argonTime *)
Definition argonTime : Z := 1.
(* src: internal/settings/secret.go argonMemory *)
Definition argonMemory : Z := 64 * 1024.
(* src: internal/settings/secret.go argonThreads *)
Definition argonThreads : Z := 4.
(* src: internal/settings/secret.go argonKeyLen *)
Definition argonKeyLen : Z := 32.
(* src: internal/settings/secret.go argonSaltLen *)
Definition argonSaltLen : nat := 16.

Section Secrets.
Context `{Argon2}.

(** [salt] is what [rand.Read] delivers, or its error. *)
(* src: internal/settings/secret.go HashSecret *)
Definition HashSecret (secret : string) (salt : result (list Z)) : result string :=
  salt ← map_err "generating salt" salt;
  let hash := IDKey secret salt argonTime argonMemory argonThreads argonKeyLen in
  Ok ("$argon2id$v=" +:+ Itoa argon2_Version +:+ "$m=" +:+ Itoa argonMemory
      +:+ ",t=" +:+ Itoa argonTime +:+ ",p=" +:+ Itoa argonThreads
      +:+ "$" +:+ RawStd_Encode salt +:+ "$" +:+ RawStd_Encode hash).

End Secrets.

(** *** [fmt.Sscanf] with literal text and [%d] verbs

    A literal must be matched byte by byte.  [%d] skips white space other than
    line breaks, accepts a sign when the operand is signed, and reads as many
    digits as there are; the value must fit the operand.  Input left over after
    the last verb is not an error. *)
Fixpoint scan_skip (s : string) : option string :=
  match s with
  | "" => Some ""
  | String c s1 =>
      if bool_decide (c = "010"%char) then None
      else if space1 c then scan_skip s1 else
      match s1 with
      | "" => Some s
      | String d s2 =>
          if space2 c d then scan_skip s2 else
          match s2 with
          | "" => Some s
          | String e s3 => if space3 c d e then scan_skip s3 else Some s
          end
      end
  end.

Fixpoint scan_digits (s : string) : string * string :=
  match s with
  | String c s' =>
      if is_digit c then let '(d, r) := scan_digits s' in (String c d, r) else ("", s)
  | "" => ("", "")
  end.

(** The operand types of the program: [int] (64 bits), [uint32] and [uint8]. *)
Definition scan_uint (bits : Z) (s : string) : option (Z * string) :=
  s ← scan_skip s;
  let '(d, r) := scan_digits s in
  n ← parse_digits d;
  if n <? 2 ^ bits then Some (n, r) else None.

Definition scan_sign (s : string) : bool * string :=
  match s with
  | String "-" s' => (true, s')
  | String "+" s' => (false, s')
  | _ => (false, s)
  end.

Definition scan_int (s : string) : option (Z * string) :=
  s ← scan_skip s;
  let '(neg, s) := scan_sign s in
  let '(d, r) := scan_digits s in
  n ← parse_digits d;
  let n := if neg : bool then - n else n in
  if decide (min_int64 ≤ n ≤ max_int64) then Some (n, r) else None.

Definition scan_lit (lit s : string) : option string :=
  if HasPrefix s lit then Some (sdrop (String.length lit) s) else None.

(** [fmt.Sscanf(s, "v=%d", &version)]. *)
Definition scan_version (s : string) : option Z :=
  s ← scan_lit "v=" s; fst <$> scan_int s.

(** [fmt.Sscanf(s, "m=%d,t=%d,p=%d", &memory, &time, &threads)]. *)
Definition scan_params (s : string) : option (Z * Z * Z) :=
  s ← scan_lit "m=" s; '(m, s) ← scan_uint 32 s;
  s ← scan_lit ",t=" s; '(t, s) ← scan_uint 32 s;
  s ← scan_lit ",p=" s; '(p, s) ← scan_uint 8 s;
  Some (m, t, p).

Section Verify.
Context `{Argon2}.

(* src: internal/settings/secret.go VerifySecret *)
Definition VerifySecret (secret encoded : string) : bool :=
  match Split "$" encoded with
  | [_; alg; v; params; salt; hash] =>
      if negb (String.eqb alg "argon2id") then false else
      match scan_version v with
      | None => false
      | Some version =>
          if negb (version =? argon2_Version) then false else
          match scan_params params with
          | None => false
          | Some (memory, time, threads) =>
              match RawStd_Decode salt with
              | None => false
              | Some salt =>
                  match RawStd_Decode hash with
                  | None => false
                  | Some want =>
                      let got := IDKey secret salt time memory threads
                        (Z.of_nat (length want) mod 2 ^ 32) in
                      bool_decide (got = want)
                  end
              end
          end
      end
  | _ => false
  end.

End Verify.

(** [buf] is what [rand.Read] delivers for a 32-byte buffer. *)
(* src: internal/settings/secret.go GenerateToken *)
Definition GenerateToken (buf : result (list Z)) : result string :=
  buf ← map_err "generating token" buf; Ok (RawURL_Encode buf).

(** [buf] is the 8-byte buffer after [rand.Read], whose error is ignored. *)
(* src: internal/settings/secret.go NewID *)
Definition NewID (buf : list Z) : string := hex buf.

(** * Lemmas *)

Lemma parse_digits_Some s n : parse_digits s = Some n → sforall is_digit s = true.
Proof.
  unfold parse_digits. destruct (DecimalString.NilZero.uint_of_string s) as [d|] eqn:E;
    simpl; [|done].
  intros _. apply DecimalString.NilZero.sus in E as <-. apply string_of_uint_digits0.
Qed.

(** A byte that is neither a digit nor a sign makes a decimal invalid. *)
Lemma ParseInt_bad_char c s :
  is_digit c = false → c ≠ "+"%char → c ≠ "-"%char → has_char c s = true →
  ParseInt s = None.
Proof.
  intros Hc Hp Hm Hs. destruct (ParseInt s) as [n|] eqn:E; [|done]. exfalso.
  unfold ParseInt in E. apply bind_Some in E as (z & E & _).
  assert (∃ s', parse_digits s' ≠ None ∧ has_char c s' = true) as (s' & Hs' & Hc').
  { destruct s as [|d s]; [done|].
    destruct (decide (d = "+"%char)) as [->|]; [|destruct (decide (d = "-"%char)) as [->|]].
    - exists s. simpl in Hs. rewrite bool_decide_eq_false_2 in Hs by done. by rewrite E.
    - exists s. simpl in Hs. rewrite bool_decide_eq_false_2 in Hs by done.
      apply fmap_Some in E as (? & -> & _). done.
    - exists (String d s). split; [|done].
      intros E'. destruct d as [[] [] [] [] [] [] [] []]; congruence. }
  destruct (parse_digits s') as [m|] eqn:E'; [|done].
  apply parse_digits_Some in E'. apply (sforall_has_char _ c) in E'; congruence.
Qed.

Lemma sign_no_dot secret msg : has_char "." (sign secret msg) = false.
Proof.
  apply EncodeToString_no_char; [apply url_alphabet_ok|apply hmac_range|done].
Qed.

Lemma RawURL_no_dot l : Forall is_byte l → has_char "." (RawURL_Encode l) = false.
Proof. intros. by apply EncodeToString_no_char; [apply url_alphabet_ok| |]. Qed.

Lemma RawStd_no_dollar l : Forall is_byte l → has_char "$" (RawStd_Encode l) = false.
Proof. intros. by apply EncodeToString_no_char; [apply std_alphabet_ok| |]. Qed.

Lemma scan_digits_all d r :
  sforall is_digit d = true →
  match r with String c _ => is_digit c = false | "" => True end →
  scan_digits (d +:+ r) = (d, r).
Proof.
  intros Hd Hr. induction d as [|c d IH]; simpl in *.
  - destruct r as [|c r]; simpl; [done|]. by rewrite Hr.
  - apply andb_true_iff in Hd as [-> Hd]. by rewrite IH.
Qed.

Lemma Itoa_digits n : 0 ≤ n → sforall is_digit (Itoa n) = true.
Proof.
  intros Hn. unfold Itoa.
  destruct n; [done|apply string_of_uint_digits0|lia].
Qed.

Lemma parse_digits_Itoa n : 0 ≤ n → parse_digits (Itoa n) = Some n.
Proof.
  intros Hn. unfold Itoa. pose proof (DecimalZ.of_to n) as Hr.
  destruct n as [|p|p]; try lia; simpl in *; [done|].
  rewrite parse_digits_print by apply DecimalPos.Unsigned.to_uint_nonnil.
  by rewrite Hr.
Qed.

Lemma scan_skip_digit c s : is_digit c = true → scan_skip (String c s) = Some (String c s).
Proof.
  intros Hc. unfold is_digit in Hc. simpl.
  rewrite bool_decide_eq_false_2 by (intros ->; done).
  assert (space1 c = false) as ->.
  { unfold space1. lia. }
  destruct s as [|d s]; [done|].
  assert (space2 c d = false) as ->.
  { unfold space2. lia. }
  destruct s as [|e s]; [done|].
  assert (space3 c d e = false) as ->; [|done].
  unfold space3. lia.
Qed.

Lemma scan_sign_digit c s : is_digit c = true → scan_sign (String c s) = (false, String c s).
Proof. unfold is_digit. by destruct c as [[] [] [] [] [] [] [] []]. Qed.

Lemma scan_int_Itoa n : 0 ≤ n ≤ max_int64 → scan_int (Itoa n) = Some (n, "").
Proof.
  intros Hn. pose proof (Itoa_digits n ltac:(lia)) as Hd.
  pose proof (parse_digits_Itoa n ltac:(lia)) as Hp.
  unfold scan_int. destruct (Itoa n) as [|c s] eqn:E; [done|].
  pose proof Hd as [Hc _]%andb_true_iff.
  rewrite scan_skip_digit by done. cbn [mbind option_bind].
  rewrite scan_sign_digit by done.
  rewrite <-(sapp_nil_r (String c s)), scan_digits_all by done.
  rewrite Hp. simpl. rewrite decide_True; [done|]. unfold min_int64, max_int64 in *. lia.
Qed.

Lemma scan_lit_app lit r : scan_lit lit (lit +:+ r) = Some r.
Proof. unfold scan_lit. by rewrite HasPrefix_app, sdrop_app. Qed.

Lemma scan_version_Itoa n : 0 ≤ n ≤ max_int64 → scan_version ("v=" +:+ Itoa n) = Some n.
Proof.
  intros. unfold scan_version. rewrite scan_lit_app. simpl. by rewrite scan_int_Itoa.
Qed.

(** A signed token, parsed under the same secret. *)
Lemma parse_signed (secret user : string) (ttl now now' : Z)
    (Hrange : min_int64 ≤ Unix (now + ttl) ≤ max_int64) :
  ParseSession secret (SignSession secret user ttl now) now' =
  if has_char "|" user then None
  else if decide (Unix now' < Unix (now + ttl)) then Some user else None.
Proof.
  unfold SignSession, ParseSession.
  rewrite (Cut_lit ".") by (apply RawURL_no_dot, bytes_of_range).
  simpl. rewrite String.eqb_refl. simpl. rewrite RawURL_round_trip by apply bytes_of_range. simpl.
  rewrite of_bytes_of.
  destruct (has_char "|" user) eqn:Hbar.
  - destruct (Cut "|" user) as [[a b]|] eqn:E.
    + apply Cut_Some in E as [-> Ha]. rewrite sapp_assoc. simpl.
      rewrite (Cut_app "|") by done. simpl.
      rewrite (ParseInt_bad_char "|"); [done..|].
      by rewrite has_char_app, orb_true_r.
    + apply Cut_None in E. congruence.
  - rewrite (Cut_app "|") by done. simpl.
    rewrite ParseInt_Itoa by done. simpl. case_decide; by case_match; try lia.
Qed.

(** The tokens that are accepted. *)
Lemma parse_accepts (secret token name : string) (now : Time) :
  ParseSession secret token now = Some name ↔
  ∃ enc raw expStr exp,
    token = enc +:+ "." +:+ sign secret enc ∧ has_char "." enc = false ∧
    RawURL_Decode enc = Some raw ∧ of_bytes raw = name +:+ "|" +:+ expStr ∧
    has_char "|" name = false ∧ ParseInt expStr = Some exp ∧ Unix now < exp.
Proof.
  unfold ParseSession. split.
  - intros ([enc mac] & [Ht He]%Cut_Some & H)%bind_Some.
    destruct (String.eqb mac (sign secret enc)) eqn:Hm; simpl in H; [|done].
    apply String.eqb_eq in Hm as ->.
    apply bind_Some in H as (raw & Hraw & H).
    apply bind_Some in H as ([name' expStr] & [Hc Hn]%Cut_Some & H).
    apply bind_Some in H as (exp & Hexp & H).
    destruct (Z.leb_spec exp (Unix now)); simplify_eq.
    exists enc, raw, expStr, exp. done.
  - intros (enc & raw & expStr & exp & -> & He & Hraw & Hc & Hn & Hexp & Hlt).
    rewrite Cut_lit by done. simpl. rewrite String.eqb_refl. simpl.
    rewrite Hraw. simpl. rewrite Hc. rewrite Cut_lit by done. simpl.
    rewrite Hexp. simpl. by destruct (Z.leb_spec exp (Unix now)); [lia|].
Qed.

(** A hash that was written is read back. *)
Lemma verify_hash {A : Argon2} `{!Argon2Ok A} (secret secret' encoded : string)
    (salt : list Z) (Hsalt : Forall is_byte salt)
    (Hhash : HashSecret secret (Ok salt) = Ok encoded) :
  VerifySecret secret' encoded =
  bool_decide (IDKey secret' salt argonTime argonMemory argonThreads argonKeyLen =
               IDKey secret salt argonTime argonMemory argonThreads argonKeyLen).
Proof.
  unfold HashSecret in Hhash. simpl in Hhash. injection Hhash as <-.
  pose proof (IDKey_length secret salt argonTime argonMemory argonThreads argonKeyLen
    ltac:(unfold argonKeyLen; lia)) as Hlen.
  pose proof (IDKey_bytes secret salt argonTime argonMemory argonThreads argonKeyLen) as Hb.
  pose proof argon2_Version_range as Hv.
  set (key := IDKey secret salt _ _ _ _) in *.
  unfold VerifySecret.
  match goal with |- context [Split "$" ?s] =>
    assert (s = Join [""; "argon2id"; "v=" +:+ Itoa argon2_Version; "m=65536,t=1,p=4";
      RawStd_Encode salt; RawStd_Encode key] "$") as ->
  end.
  { reflexivity. }
  rewrite (Split_Join "$").
  - cbn [negb String.eqb]. rewrite scan_version_Itoa by lia. rewrite Z.eqb_refl.
    change (negb ("argon2id" =? "argon2id")%string) with false. cbn [negb].
    assert (scan_params "m=65536,t=1,p=4" = Some (argonMemory, argonTime, argonThreads))
      as -> by (vm_compute; reflexivity).
    rewrite RawStd_round_trip by done. rewrite RawStd_round_trip by done.
    rewrite Hlen. done.
  - done.
  - repeat constructor; try done.
    + simpl. apply Itoa_chars; [done|discriminate].
    + by apply RawStd_no_dollar.
    + by apply RawStd_no_dollar.
Qed.

(** * Properties *)

(** C16: the life of a session token, on every input.  A token that the server
    signs for a user parses back to that user until the second of its expiry
    and to nothing from then on; for a user name that contains the separator
    [|] it never parses, so such a user can log in but never holds a session. *)
Theorem ParseSession_SignSession (secret user : string) (ttl now now' : Z)
    (Hrange : min_int64 ≤ Unix (now + ttl) ≤ max_int64) :
  ParseSession secret (SignSession secret user ttl now) now' =
  if has_char "|" user then None
  else if decide (Unix now' < Unix (now + ttl)) then Some user else None.
Proof. by apply parse_signed. Qed.

Lemma ParseSession_SignSession_witness :
  ParseSession "k" (SignSession "k" "admin" (3600 * 10 ^ 9) (10 ^ 18)) (10 ^ 18 + 10 ^ 9)
  = Some "admin".
Proof.
  rewrite ParseSession_SignSession by (vm_compute; split; congruence).
  vm_compute. reflexivity.
Defined.

(** Exactly the tokens of the documented form are accepted: an encoded
    part without a dot, a dot, the HMAC of that part under the secret; the
    encoded part decodes to a name without [|], the separator and a decimal
    expiry that is later than now.  Nothing else yields a user name. *)
Theorem ParseSession_accepts (secret token name : string) (now : Time) :
  ParseSession secret token now = Some name ↔
  ∃ enc raw expStr exp,
    token = enc +:+ "." +:+ sign secret enc ∧ has_char "." enc = false ∧
    RawURL_Decode enc = Some raw ∧ of_bytes raw = name +:+ "|" +:+ expStr ∧
    has_char "|" name = false ∧ ParseInt expStr = Some exp ∧ Unix now < exp.
Proof. apply parse_accepts. Qed.

(** A stored hash verifies exactly the secrets whose argon2id key, under
    the stored salt and the program's parameters, is the stored key: the
    encoding that [HashSecret] writes is read back by [VerifySecret] without
    loss of the version, the parameters, the salt or the key. *)
Theorem VerifySecret_HashSecret {A : Argon2} `{!Argon2Ok A} (secret secret' encoded : string)
    (salt : list Z) (Hsalt : Forall is_byte salt)
    (Hhash : HashSecret secret (Ok salt) = Ok encoded) :
  VerifySecret secret' encoded =
  bool_decide (IDKey secret' salt argonTime argonMemory argonThreads argonKeyLen =
               IDKey secret salt argonTime argonMemory argonThreads argonKeyLen).
Proof. by apply verify_hash. Qed.

(** A stand-in for the key derivation: a digest of the inputs, cut or padded
    to the requested length. *)
Definition argon2_toy : Argon2 := {|
  IDKey := λ s salt t m p n,
    take (Z.to_nat n) (Sum256 (s +:+ of_bytes salt) ++ replicate (Z.to_nat n) 0);
  argon2_Version := 19
|}.

Lemma argon2_toy_ok : Argon2Ok argon2_toy.
Proof.
  split; simpl.
  - intros. rewrite length_take, length_app, length_replicate. lia.
  - intros. apply Forall_take, Forall_app_2; [apply Sum256_range|].
    apply Forall_replicate. unfold is_byte. lia.
  - unfold max_int64. lia.
Qed.

Lemma VerifySecret_HashSecret_witness :
  ∃ encoded, @HashSecret argon2_toy "pw" (Ok (seqZ 0 16)) = Ok encoded ∧
    @VerifySecret argon2_toy "pw" encoded = true ∧
    @VerifySecret argon2_toy "pv" encoded = false.
Proof.
  eexists. split; [reflexivity|].
  assert (Forall is_byte (seqZ 0 16)) as Hs
    by (apply List.Forall_forall; intros x Hx%list_elem_of_In%elem_of_seqZ; unfold is_byte; lia).
  split.
  - rewrite (@VerifySecret_HashSecret argon2_toy argon2_toy_ok "pw" "pw" _ _ Hs eq_refl).
    vm_compute. reflexivity.
  - rewrite (@VerifySecret_HashSecret argon2_toy argon2_toy_ok "pw" "pv" _ _ Hs eq_refl).
    vm_compute. reflexivity.
Defined.
