(* ===== verification/NetIP.v ===== *)
(** * IP addresses

    The functions of the Go package [net] that the program calls: [ParseIP],
    the address classes, [To4] and [String].  An address is its sixteen bytes,
    an IPv4 address being mapped into [::ffff:0:0/96], as [net.ParseIP]
    returns it, or the four bytes of an IPv4 address. *)

From S2P Require Import Prelude.
From S2P Require Import GoString.
From S2P Require Import Crypto.

Local Open Scope Z_scope.

Definition IP := list Z.

(** ** Parsing *)

(** One decimal field of a dotted quad: no leading zero, at most 255. *)
Definition parse_octet (s : string) : option Z :=
  match s with
  | String "0" (String _ _) => None
  | _ => n ← parse_digits s; if n <=? 255 then Some n else None
  end.

(** [parseIPv4Fields]: exactly four fields. *)
Definition parse_quad (s : string) : option (list Z) :=
  match Split "." s with
  | [a; b; c; d] =>
      a ← parse_octet a; b ← parse_octet b; c ← parse_octet c; d ← parse_octet d;
      Some [a; b; c; d]
  | _ => None
  end.

Definition v4_prefix : list Z := replicate 10 0 ++ [255; 255].

Definition hex_val (c : ascii) : option Z :=
  let z := code c in
  if (48 <=? z) && (z <=? 57) then Some (z - 48)
  else if (97 <=? z) && (z <=? 102) then Some (z - 87)
  else if (65 <=? z) && (z <=? 70) then Some (z - 55)
  else None.

(** The hexadecimal digits in front of [s]: how many, their value, the rest. *)
Fixpoint scan_hex (s : string) (off : nat) (acc : Z) : nat * Z * string :=
  match s with
  | String c s' =>
      match hex_val c with
      | Some v => scan_hex s' (S off) (acc * 16 + v)
      | None => (off, acc, s)
      end
  | "" => (off, acc, s)
  end.

(** The loop of [parseIPv6], one hexadecimal group a turn: [ip] holds the
    bytes read so far and [ell] the position of the ellipsis.  The result is
    the final [ip], [ell] and the unread input; [fuel] counts the eight groups. *)
Fixpoint v6_groups (fuel : nat) (ip : list Z) (ell : option nat) (s : string)
    : option (list Z * option nat * string) :=
  match fuel with
  | O => Some (ip, ell, s)
  | S fuel' =>
      let '(off, acc, rest) := scan_hex s 0 0 in
      if (off =? 0)%nat || (4 <? off)%nat then None else
      match rest with
      | String "." _ =>
          if bool_decide (ell = None) && negb (length ip =? 12)%nat then None
          else if (16 <? length ip + 4)%nat then None
          else q ← parse_quad s; Some (ip ++ q, ell, "")
      | "" => Some (ip ++ [acc / 256; acc mod 256], ell, "")
      | String ":" "" => None
      | String ":" (String ":" s') =>
          if bool_decide (ell = None) then
            let ip' := ip ++ [acc / 256; acc mod 256] in
            match s' with
            | "" => Some (ip', Some (length ip'), "")
            | _ => v6_groups fuel' ip' (Some (length ip')) s'
            end
          else None
      | String ":" s' => v6_groups fuel' (ip ++ [acc / 256; acc mod 256]) ell s'
      | _ => None
      end
  end.

Definition v6_expand (r : list Z * option nat * string) : option IP :=
  let '(ip, ell, s) := r in
  if negb (String.eqb s "") then None else
  if (length ip <? 16)%nat then
    match ell with
    | None => None
    | Some e => Some (take e ip ++ replicate (16 - length ip) 0 ++ drop e ip)
    end
  else if bool_decide (ell = None) then Some ip else None.

(** A zone makes [net.ParseIP] fail, so does an empty one. *)
Definition parse_v6 (s : string) : option IP :=
  if has_char "%" s then None else
  match s with
  | String ":" (String ":" "") => Some (replicate 16 0)
  | String ":" (String ":" s') => v6_groups 8 [] (Some O) s' ≫= v6_expand
  | _ => v6_groups 8 [] None s ≫= v6_expand
  end.

(** The first of the bytes [.], [:] and [%] decides the syntax. *)
Fixpoint first_sep (s : string) : option ascii :=
  match s with
  | "" => None
  | String c s' =>
      if bool_decide (c = "."%char ∨ c = ":"%char ∨ c = "%"%char) then Some c
      else first_sep s'
  end.

(** [net.ParseIP]; [None] is the nil slice. *)
Definition ParseIP (s : string) : option IP :=
  match first_sep s with
  | Some "."%char => app v4_prefix <$> parse_quad s
  | Some ":"%char => parse_v6 s
  | _ => None
  end.

(** ** Classes *)

Definition To4 (ip : IP) : option (list Z) :=
  if (length ip =? 4)%nat then Some ip
  else if bool_decide (take 12 ip = v4_prefix) && (length ip =? 16)%nat then Some (drop 12 ip)
  else None.

Definition ip_at (ip : list Z) (i : nat) : Z := nth i ip 0.

Definition IsLoopback (ip : IP) : bool :=
  match To4 ip with
  | Some q => ip_at q 0 =? 127
  | None => bool_decide (ip = replicate 15 0 ++ [1])
  end.

Definition IsPrivate (ip : IP) : bool :=
  match To4 ip with
  | Some q =>
      (ip_at q 0 =? 10) || (ip_at q 0 =? 172) && (Z.land (ip_at q 1) 0xf0 =? 16)
      || (ip_at q 0 =? 192) && (ip_at q 1 =? 168)
  | None => (length ip =? 16)%nat && (Z.land (ip_at ip 0) 0xfe =? 0xfc)
  end.

Definition IsLinkLocalUnicast (ip : IP) : bool :=
  match To4 ip with
  | Some q => (ip_at q 0 =? 169) && (ip_at q 1 =? 254)
  | None => (length ip =? 16)%nat && (ip_at ip 0 =? 0xfe) && (Z.land (ip_at ip 1) 0xc0 =? 0x80)
  end.

Definition IsLinkLocalMulticast (ip : IP) : bool :=
  match To4 ip with
  | Some q => (ip_at q 0 =? 224) && (ip_at q 1 =? 0) && (ip_at q 2 =? 0)
  | None => (length ip =? 16)%nat && (ip_at ip 0 =? 0xff) && (Z.land (ip_at ip 1) 0x0f =? 0x02)
  end.

(** ** Printing *)

Definition dotted (q : list Z) : string := Join (Itoa <$> q) ".".

(** The sixteen-bit groups of an address. *)
Definition groups (ip : IP) : list Z := be_word <$> chunks 2 ip.

(** A group in hexadecimal, without leading zeros. *)
Definition hex_group (z : Z) : string :=
  let d := [z / 4096; z / 256 mod 16; z / 16 mod 16; z mod 16] in
  let d' := if z <? 16 then drop 3 d else if z <? 256 then drop 2 d
            else if z <? 4096 then drop 1 d else d in
  String.string_of_list_ascii (hex_digit <$> d').

(** Length of the run of zero groups at the head. *)
Fixpoint zero_run (g : list Z) : nat :=
  match g with 0 :: g' => S (zero_run g') | _ => O end.

(** The first longest run of at least two zero groups, as start and end. *)
Definition best_run (g : list Z) : option (nat * nat) :=
  foldl (λ best i,
    let l := zero_run (drop i g) in
    let cur := match best with Some (s, e) => (e - s)%nat | None => O end in
    if (2 <=? l)%nat && (cur <? l)%nat then Some (i, i + l)%nat else best)
    None (seq 0 8).

Definition v6_string (ip : IP) : string :=
  let g := groups ip in
  match best_run g with
  | None => Join (hex_group <$> g) ":"
  | Some (s, e) =>
      Join (hex_group <$> take s g) ":" +:+ "::" +:+ Join (hex_group <$> drop e g) ":"
  end.

(** [net.IP.String]. *)
Definition ip_string (ip : IP) : string :=
  if (length ip =? 0)%nat then "<nil>" else
  match To4 ip with
  | Some q => dotted q
  | None => if (length ip =? 16)%nat then v6_string ip else "?" +:+ hex ip
  end.

(** * Lemmas *)

(** A decidable fact about every byte, checked by evaluation. *)
Lemma byte_forall (P : Z → Prop) `{∀ z, Decision (P z)} :
  forallb (λ z, bool_decide (P z)) (seqZ 0 256) = true → ∀ z, is_byte z → P z.
Proof.
  rewrite forallb_forall. intros Hf z Hz.
  assert (In z (seqZ 0 256)) as Hin by (apply list_elem_of_In, elem_of_seqZ; apply Hz).
  by apply Hf, bool_decide_eq_true_1 in Hin.
Qed.

Lemma parse_octet_Itoa z : is_byte z → parse_octet (Itoa z) = Some z.
Proof.
  revert z. refine (byte_forall (λ z, parse_octet (Itoa z) = Some z) _).
  vm_compute. reflexivity.
Qed.

Lemma Itoa_byte_digits z : is_byte z → sforall is_digit (Itoa z) = true.
Proof.
  revert z. refine (byte_forall (λ z, sforall is_digit (Itoa z) = true) _).
  vm_compute. reflexivity.
Qed.

Lemma first_sep_digits w s :
  sforall is_digit w = true → first_sep (w +:+ s) = first_sep s.
Proof.
  induction w as [|c w IH]; simpl; [done|].
  intros [Hc Hw]%andb_true_iff. rewrite bool_decide_eq_false_2; [by apply IH|].
  intros [->|[->| ->]]; done.
Qed.

Lemma parse_quad_dotted a b c d :
  is_byte a → is_byte b → is_byte c → is_byte d →
  parse_quad (dotted [a; b; c; d]) = Some [a; b; c; d].
Proof.
  intros. unfold parse_quad, dotted.
  rewrite (Split_Join "."); simpl.
  - by rewrite !parse_octet_Itoa.
  - done.
  - repeat constructor; by apply Itoa_chars.
Qed.

(** Printing and parsing an IPv4 address are inverse. *)
Lemma ParseIP_dotted a b c d :
  is_byte a → is_byte b → is_byte c → is_byte d →
  ParseIP (dotted [a; b; c; d]) = Some (v4_prefix ++ [a; b; c; d]).
Proof.
  intros. unfold ParseIP.
  assert (first_sep (dotted [a; b; c; d]) = Some "."%char) as ->.
  { unfold dotted. simpl. by rewrite first_sep_digits by by apply Itoa_byte_digits. }
  by rewrite parse_quad_dotted.
Qed.

Lemma land_f0_16 b : is_byte b → (Z.land b 0xf0 =? 16) = (16 <=? b) && (b <=? 31).
Proof.
  revert b. refine (byte_forall (λ b, (Z.land b 0xf0 =? 16) = (16 <=? b) && (b <=? 31)) _).
  vm_compute. reflexivity.
Qed.

(** ** The bytes of a parsed address *)

Lemma parse_digits_nonneg s n : parse_digits s = Some n → 0 ≤ n.
Proof.
  unfold parse_digits. destruct (DecimalString.NilZero.uint_of_string s) as [d|]; simpl; [|done].
  intros [= <-]. unfold Z.of_uint. lia.
Qed.

Lemma parse_octet_range s n : parse_octet s = Some n → is_byte n.
Proof.
  unfold parse_octet, is_byte. intros H.
  assert (∃ n', parse_digits s = Some n' ∧ (if n' <=? 255 then Some n' else None) = Some n)
    as (n' & Hd%parse_digits_nonneg & Hn).
  { destruct (parse_digits s) as [n'|] eqn:E.
    - exists n'. split; [done|].
      destruct s as [|c s]; [done|]. destruct c as [[] [] [] [] [] [] [] []]; try done.
      by destruct s.
    - destruct s as [|c s]; [done|]. destruct c as [[] [] [] [] [] [] [] []]; try done.
      by destruct s. }
  destruct (Z.leb_spec n' 255); simplify_eq. lia.
Qed.

Lemma parse_quad_range s q : parse_quad s = Some q → length q = 4%nat ∧ Forall is_byte q.
Proof.
  unfold parse_quad. destruct (Split "." s) as [|a [|b [|c [|d [|? ?]]]]]; try done.
  destruct (parse_octet a) eqn:Ea; [|done]. destruct (parse_octet b) eqn:Eb; [|done].
  destruct (parse_octet c) eqn:Ec; [|done]. destruct (parse_octet d) eqn:Ed; [|done].
  simpl. intros [= <-]. split; [done|].
  repeat constructor; by (eapply parse_octet_range).
Qed.

Lemma hex_val_range c v : hex_val c = Some v → 0 ≤ v < 16.
Proof. unfold hex_val. repeat case_match; intros; simplify_eq; lia. Qed.

Lemma scan_hex_range s off acc off' v rest :
  scan_hex s off acc = (off', v, rest) → (off ≤ off')%nat ∧
  (0 ≤ acc → 0 ≤ v ∧ v < (acc + 1) * 16 ^ (Z.of_nat off' - Z.of_nat off)).
Proof.
  revert off acc. induction s as [|c s IH]; intros off acc; simpl.
  { intros [= <- <- <-]. rewrite Z.sub_diag. split; [done|lia]. }
  destruct (hex_val c) as [h|] eqn:Eh.
  2:{ intros [= <- <- <-]. rewrite Z.sub_diag. split; [done|lia]. }
  apply hex_val_range in Eh. intros [Hle Hv]%IH. split; [lia|]. intros Ha.
  destruct Hv as [H0 Hv]; [lia|]. split; [done|].
  replace (Z.of_nat off' - Z.of_nat off) with (Z.succ (Z.of_nat off' - Z.of_nat (S off))) by lia.
  rewrite Z.pow_succ_r by lia. nia.
Qed.

(** A group of at most four digits fills two bytes. *)
Lemma scan_hex_bytes s off v rest :
  scan_hex s 0 0 = (off, v, rest) → (off ≤ 4)%nat → Forall is_byte [v / 256; v mod 256].
Proof.
  intros [_ Hv]%scan_hex_range Ho. destruct (Hv ltac:(lia)) as [H0 Hlt].
  assert (v < 2 ^ 16).
  { eapply Z.lt_le_trans; [exact Hlt|]. rewrite Z.mul_1_l.
    change (2 ^ 16) with (16 ^ 4). apply Z.pow_le_mono_r; lia. }
  unfold is_byte. repeat constructor; Z.to_euclidean_division_equations; lia.
Qed.

(** The invariant of the loop: whole bytes, at most sixteen, the ellipsis
    among them. *)
Definition v6_inv (ip : list Z) (ell : option nat) : Prop :=
  Forall is_byte ip ∧ (∀ e, ell = Some e → (e ≤ length ip)%nat).

Lemma v6_inv_app ip q ell : v6_inv ip ell → Forall is_byte q → v6_inv (ip ++ q) ell.
Proof.
  intros [Hb He] Hq. split; [by apply Forall_app|].
  intros e Hel. rewrite length_app. specialize (He e Hel). lia.
Qed.

Lemma v6_groups_inv fuel ip ell s ip' ell' s' :
  v6_inv ip ell → (length ip + 2 * fuel ≤ 16)%nat →
  v6_groups fuel ip ell s = Some (ip', ell', s') →
  v6_inv ip' ell' ∧ (length ip' ≤ 16)%nat.
Proof.
  revert ip ell s. induction fuel as [|fuel IH]; intros ip ell s Hinv Hlen.
  { intros [= <- <- <-]. split; [done|lia]. }
  simpl. destruct (scan_hex s 0 0) as [[off acc] rest] eqn:Es.
  destruct (off =? 0)%nat; [done|]. destruct (Nat.ltb_spec 4 off) as [|Ho]; [done|]. cbn [orb].
  pose proof (scan_hex_bytes _ _ _ _ Es Ho) as Hg.
  pose proof (v6_inv_app _ _ _ Hinv Hg) as Hinv1.
  assert (length (ip ++ [acc / 256; acc mod 256]) = (length ip + 2)%nat) as Hlen1
    by by rewrite length_app.
  set (ip1 := ip ++ [acc / 256; acc mod 256]) in *.
  destruct rest as [|c rest]; [intros [= <- <- <-]; split; [done|lia]|].
  destruct (ascii_dec c ".") as [->|Hdot].
  { destruct (_ && _); [done|]. destruct (Nat.ltb_spec 16 (length ip + 4)); [done|].
    destruct (parse_quad s) as [q|] eqn:Eq; [|done]. apply parse_quad_range in Eq as [Hq Hqb].
    simpl. intros [= <- <- <-]. split; [by apply v6_inv_app|]. rewrite length_app. lia. }
  destruct (ascii_dec c ":") as [->|Hcolon].
  2:{ destruct c as [[] [] [] [] [] [] [] []]; done. }
  destruct rest as [|c2 rest]; [done|].
  destruct (ascii_dec c2 ":") as [->|Hc2].
  - case_bool_decide as Hell; [|done].
    assert (v6_inv ip1 (Some (length ip1))) as Hinv2.
    { split; [by destruct Hinv1|]. by intros e [= <-]. }
    destruct rest as [|c3 rest]; [intros [= <- <- <-]; split; [done|lia]|].
    apply IH; [done|lia].
  - intros H. assert (v6_groups fuel ip1 ell (String c2 rest) = Some (ip', ell', s')) as H'
      by (destruct c2 as [[] [] [] [] [] [] [] []]; done).
    by eapply (IH ip1 ell); [|lia|].
Qed.

Lemma v6_expand_range r ip :
  v6_inv r.1.1 r.1.2 → (length r.1.1 ≤ 16)%nat → v6_expand r = Some ip →
  length ip = 16%nat ∧ Forall is_byte ip.
Proof.
  destruct r as [[ip0 ell] s]. simpl. intros [Hb He] Hlen. destruct (negb _); [done|].
  destruct (Nat.ltb_spec (length ip0) 16) as [Hlt|].
  - destruct ell as [e|]; [|done]. intros [= <-]. specialize (He e eq_refl). split.
    + rewrite !length_app, length_replicate, length_take, length_drop. lia.
    + rewrite <-(take_drop e ip0), Forall_app in Hb. destruct Hb as [H1 H2].
      apply Forall_app; split; [done|]. apply Forall_app; split; [|done].
      apply Forall_replicate. done.
  - case_bool_decide; [|done]. intros [= <-]. split; [lia|done].
Qed.

(** A parsed address has sixteen bytes. *)
Lemma ParseIP_range s ip : ParseIP s = Some ip → length ip = 16%nat ∧ Forall is_byte ip.
Proof.
  assert (∀ ell s' ip', v6_inv [] ell → v6_groups 8 [] ell s' ≫= v6_expand = Some ip' →
    length ip' = 16%nat ∧ Forall is_byte ip') as Hgroups.
  { intros ell s' ip' Hinv. destruct (v6_groups 8 [] ell s') as [[[ip0 ell0] s0]|] eqn:Eg; [|done].
    apply v6_groups_inv in Eg as [Hi Hl]; [|done|simpl; lia]. by apply v6_expand_range. }
  unfold ParseIP. destruct (first_sep s) as [c|]; [|done].
  destruct (ascii_dec c ".") as [->|Hdot].
  { destruct (parse_quad s) as [q|] eqn:Eq; [|done]. apply parse_quad_range in Eq as [Hq Hqb].
    intros [= <-]. split; [by simpl; rewrite Hq|].
    repeat (apply Forall_cons; split; [unfold is_byte; lia|]). done. }
  destruct (ascii_dec c ":") as [->|Hcolon].
  2:{ destruct c as [[] [] [] [] [] [] [] []]; done. }
  unfold parse_v6. destruct (has_char "%" s); [done|].
  assert (v6_inv [] None) as Hn by done.
  assert (v6_inv [] (Some 0%nat)) as H0 by (split; [done|]; by intros e [= <-]).
  intros H.
  destruct s as [|c1 s1]; [by apply (Hgroups _ _ _ Hn H)|].
  destruct (ascii_dec c1 ":") as [->|H1].
  2:{ apply (Hgroups None (String c1 s1) ip Hn).
      destruct c1 as [[] [] [] [] [] [] [] []]; done. }
  destruct s1 as [|c2 s2]; [by apply (Hgroups _ _ _ Hn H)|].
  destruct (ascii_dec c2 ":") as [->|H2].
  - destruct s2 as [|c3 s3].
    + injection H as <-. split; [done|].
      repeat (apply Forall_cons; split; [unfold is_byte; lia|]). done.
    + by apply (Hgroups _ _ _ H0 H).
  - apply (Hgroups None (String ":" (String c2 s2)) ip Hn).
    destruct c2 as [[] [] [] [] [] [] [] []]; done.
Qed.
