(* ===== verification/Config.v ===== *)
(** * Configuration

    The records of [internal/config/config.go], and the configuration that the
    defaults of [internal/config/defaults.go] produce ([ConfigLoad] shows that
    they do).  Durations are in nanoseconds. *)

From S2P Require Import Prelude.
From S2P Require Import GoString.

Local Open Scope Z_scope.

(* src: internal/config/config.go ServerConfig *)
Record ServerConfig := mkServerConfig {
  Listen : string;
  BaseURL : string;
  ReadTimeout : Z;
  WriteTimeout : Z
}.

(* src: internal/config/config.go DNSConfig *)
Record DNSConfig := mkDNSConfig {
  QueryTimeout : Z;
  PerResolverConcurrency : Z;
  DefaultProtocol : string;
  Retry : Z
}.

(* src: internal/config/config.go ResolversConfig *)
Record ResolversConfig := mkResolversConfig {
  Builtin : bool;
  File : string;
  Countries : list string
}.

(* src: internal/config/config.go StorageConfig *)
Record StorageConfig := mkStorageConfig {
  StorageDriver : string;
  DSN : string;
  RetentionDays : Z
}.

(* src: internal/config/config.go CacheConfig *)
Record CacheConfig := mkCacheConfig {
  CacheDriver : string;
  CacheTTL : Z;
  CacheSize : Z;
  RedisAddr : string
}.

(* src: internal/config/config.go RateLimitConfig *)
Record RateLimitConfig := mkRateLimitConfig {
  RateLimitEnabled : bool;
  AnonPerMin : Z;
  KeyPerMin : Z
}.

(* src: internal/config/config.go GeoIPConfig *)
Record GeoIPConfig := mkGeoIPConfig {
  GeoIPEnabled : bool;
  MMDBPath : string
}.

(* src: internal/config/config.go LogConfig *)
Record LogConfig := mkLogConfig {
  LogLevel : string;
  LogFormat : string
}.

(* src: internal/config/config.go MetricsConfig *)
Record MetricsConfig := mkMetricsConfig {
  MetricsEnabled : bool;
  MetricsPath : string
}.

(* src: internal/config/config.go Config *)
Record Config := mkConfig {
  cfgServer : ServerConfig;
  cfgDNS : DNSConfig;
  cfgResolvers : ResolversConfig;
  cfgStorage : StorageConfig;
  cfgCache : CacheConfig;
  cfgRateLimit : RateLimitConfig;
  cfgGeoIP : GeoIPConfig;
  cfgLog : LogConfig;
  cfgMetrics : MetricsConfig
}.

Definition second : Z := 10 ^ 9.

(** The configuration that the defaults alone produce. *)
(* src: internal/config/defaults.go setDefaults *)
Definition defaultConfig : Config := mkConfig
  (mkServerConfig ":8080" "" (10 * second) (120 * second))
  (mkDNSConfig (2 * second) 100 "udp" 1)
  (mkResolversConfig true "" [])
  (mkStorageConfig "sqlite" "file:./dnsmon.db?cache=shared&_fk=1" 30)
  (mkCacheConfig "none" (60 * second) 10000 "")
  (mkRateLimitConfig true 30 600)
  (mkGeoIPConfig false "")
  (mkLogConfig "info" "json")
  (mkMetricsConfig true "/metrics").
