(* ===== verification/ConfigLoad.v ===== *)
(** * Loading the configuration

    [internal/config/config.go] ([Load]) and [internal/config/defaults.go].
    Viper is a library: the class [Viper] says what it makes of the calls that
    the program has made of it, with its documented layers as [ViperOk].  The
    decoding of fields follows the [mapstructure] tags of the configuration
    structs; the conversion of one value is the class [Decode]. *)

From S2P Require Import Prelude.
From S2P Require Import GoString.
From S2P Require Import Config.

Local Open Scope Z_scope.

(** ** Viper *)

Inductive value := VStr (s : string) | VInt (n : Z) | VBool (b : bool) | VList (l : list string).

(** The calls of the program that configure a [viper.Viper]. *)
Inductive viper_call :=
| SetDefault (key : string) (v : value)
| SetEnvPrefix (prefix : string)
| AutomaticEnv
| SetEnvKeyReplacer (old : ascii) (new : string)
| SetConfigFile (path : string)
| SetConfigName (name : string)
| SetConfigType (type : string)
| AddConfigPath (path : string).

(** [ReadInConfig] distinguishes a file that none of the search paths has. *)
Inductive read_error := ConfigFileNotFoundError (e : error) | ReadFailed (e : error).

(** The environment, the values of the file that was read (by dotted key), and
    what [Unmarshal] finds under a key. *)
Class Viper := {
  os_Getenv : string → string;
  v_read : list viper_call → option read_error;
  v_file : list viper_call → gmap string value;
  v_find : list viper_call → string → option value
}.

(** The default set for a key, and the environment variable of a key. *)
Definition default_of (calls : list viper_call) (key : string) : option value :=
  foldl (λ d c, match c with
    | SetDefault k v => if String.eqb k key then Some v else d
    | _ => d
    end) None calls.

Definition env_name (calls : list viper_call) (key : string) : string :=
  let prefix := foldl (λ p c, match c with SetEnvPrefix p' => p' | _ => p end) "" calls in
  let name := if String.eqb prefix "" then key else prefix +:+ "_" +:+ key in
  foldl (λ n c, match c with SetEnvKeyReplacer old new => ReplaceAll n old new | _ => n end)
    (smap upper1 name) calls.

Definition automatic (calls : list viper_call) : bool :=
  existsb (λ c, match c with AutomaticEnv => true | _ => false end) calls.

Definition env_of {VP : Viper} (calls : list viper_call) (key : string) : option value :=
  let v := os_Getenv (env_name calls key) in
  if automatic calls && negb (String.eqb v "") then Some (VStr v) else None.

(** Documented: [Unmarshal] visits the keys that a default or the file has; a
    set environment variable comes before the file, and the file before the
    default. *)
Class ViperOk (VP : Viper) : Prop :=
  v_find_layers : ∀ calls key, v_find calls key =
    match v_file calls !! key, default_of calls key with
    | None, None => None
    | Some v, _ | None, Some v =>
        Some (match env_of calls key with Some e => e | None => v end)
    end.

(** ** Decoding *)

(** The conversions of mapstructure under viper's hooks. *)
Class Decode := {
  dec_string : value → result string;
  dec_int : value → result Z;
  dec_bool : value → result bool;
  dec_duration : value → result Z;
  dec_strings : value → result (list string)
}.

Class DecodeOk (DE : Decode) : Prop := {
  dec_string_ok : ∀ s, dec_string (VStr s) = Ok s;
  dec_int_ok : ∀ n, dec_int (VInt n) = Ok n;
  dec_bool_ok : ∀ b, dec_bool (VBool b) = Ok b;
  dec_seconds : ∀ n, 0 ≤ n ≤ 10 ^ 9 → dec_duration (VStr (Itoa n +:+ "s")) = Ok (n * second)
}.

(** One field: the zero value of its type when the key has no value. *)
Definition field {A} (find : string → option value) (dec : value → result A) (zero : A)
    (key : string) : result A :=
  match find key with None => Ok zero | Some v => dec v end.

Section Load.
Context {VP : Viper} {DE : Decode}.

(** [v.Unmarshal(cfg)]; of several fields that fail, the error is the first's. *)
(* src: internal/config/config.go 12-85 Config *)
Definition decode_config (find : string → option value) : result Config :=
  let str := field find dec_string "" in
  let int := field find dec_int 0 in
  let boolean := field find dec_bool false in
  let duration := field find dec_duration 0 in
  listen ← str "server.listen";
  base_url ← str "server.base_url";
  read_timeout ← duration "server.read_timeout";
  write_timeout ← duration "server.write_timeout";
  query_timeout ← duration "dns.query_timeout";
  concurrency ← int "dns.per_resolver_concurrency";
  protocol ← str "dns.default_protocol";
  retry ← int "dns.retry";
  builtin ← boolean "resolvers.builtin";
  file ← str "resolvers.file";
  countries ← field find dec_strings [] "resolvers.countries";
  driver ← str "storage.driver";
  dsn ← str "storage.dsn";
  retention ← int "storage.retention_days";
  cache ← str "cache.driver";
  ttl ← duration "cache.ttl";
  size ← int "cache.size";
  redis_addr ← str "cache.redis_addr";
  limited ← boolean "ratelimit.enabled";
  anon ← int "ratelimit.anon_per_min";
  keyed ← int "ratelimit.key_per_min";
  geo ← boolean "geoip.enabled";
  mmdb ← str "geoip.mmdb_path";
  level ← str "log.level";
  format ← str "log.format";
  metrics ← boolean "metrics.enabled";
  path ← str "metrics.path";
  Ok (mkConfig (mkServerConfig listen base_url read_timeout write_timeout)
    (mkDNSConfig query_timeout concurrency protocol retry)
    (mkResolversConfig builtin file countries)
    (mkStorageConfig driver dsn retention) (mkCacheConfig cache ttl size redis_addr)
    (mkRateLimitConfig limited anon keyed) (mkGeoIPConfig geo mmdb)
    (mkLogConfig level format) (mkMetricsConfig metrics path)).

(* src: internal/config/defaults.go setDefaults *)
Definition setDefaults : list viper_call :=
  [SetDefault "server.listen" (VStr ":8080");
   SetDefault "server.read_timeout" (VStr "10s");
   SetDefault "server.write_timeout" (VStr "120s");
   SetDefault "dns.query_timeout" (VStr "2s");
   SetDefault "dns.per_resolver_concurrency" (VInt 100);
   SetDefault "dns.default_protocol" (VStr "udp");
   SetDefault "dns.retry" (VInt 1);
   SetDefault "resolvers.builtin" (VBool true);
   SetDefault "storage.driver" (VStr "sqlite");
   SetDefault "storage.dsn" (VStr "file:./dnsmon.db?cache=shared&_fk=1");
   SetDefault "storage.retention_days" (VInt 30);
   SetDefault "cache.driver" (VStr "none");
   SetDefault "cache.ttl" (VStr "60s");
   SetDefault "cache.size" (VInt 10000);
   SetDefault "ratelimit.enabled" (VBool true);
   SetDefault "ratelimit.anon_per_min" (VInt 30);
   SetDefault "ratelimit.key_per_min" (VInt 600);
   SetDefault "log.level" (VStr "info");
   SetDefault "log.format" (VStr "json");
   SetDefault "metrics.enabled" (VBool true);
   SetDefault "metrics.path" (VStr "/metrics")].

(** The calls before the file is read. *)
(* src: internal/config/config.go 91-107 Load *)
Definition load_calls (cfgFile : string) : list viper_call :=
  setDefaults ++ [SetEnvPrefix "DNSMON"; AutomaticEnv; SetEnvKeyReplacer "." "_"] ++
  (if negb (String.eqb cfgFile "") then [SetConfigFile cfgFile]
   else [SetConfigName "config"; SetConfigType "yaml"; AddConfigPath ".";
         AddConfigPath "$HOME/.dnsmon"; AddConfigPath "/etc/dnsmon"]).

(* src: internal/config/config.go Load *)
Definition Load (cfgFile : string) : result Config :=
  let calls := load_calls cfgFile in
  match v_read calls with
  | Some (ReadFailed e) => Err (Wrapf "reading config" e)
  | Some (ConfigFileNotFoundError _) | None =>
      map_err "unmarshaling config" (decode_config (v_find calls))
  end.

End Load.

(** * Lemmas *)

Lemma result_bind_Ok {A B} (m : result A) (f : A → result B) b :
  m ≫= f = Ok b → ∃ a, m = Ok a ∧ f a = Ok b.
Proof. destruct m as [a|e]; [|done]. by exists a. Qed.

Lemma result_bind_Err {A B} (m : result A) (f : A → result B) e :
  m ≫= f = Err e → m = Err e ∨ ∃ a, m = Ok a ∧ f a = Err e.
Proof. destruct m as [a|e']; [eauto|by intros [= ->]; left]. Qed.

(** *** The documented options

    The table of options in [README.md], with the keys of
    [docs/CONFIGURATION.md] that it calls unused: the key in the file, the
    environment variable, the built-in default, and the place in the
    configuration with its type. *)
Inductive setting :=
| Text (get : Config → string)
| Number (get : Config → Z)
| Switch (get : Config → bool)
| Period (get : Config → Z)
| Names (get : Config → list string).

Record documented := mkDocumented {
  docKey : string;
  docVariable : string;
  docDefault : option value;
  docSetting : setting
}.

Definition documented_options : list documented :=
  [mkDocumented "server.listen" "DNSMON_SERVER_LISTEN" (Some (VStr ":8080")) (Text (Listen ∘ cfgServer));
   mkDocumented "server.base_url" "DNSMON_SERVER_BASE_URL" None (Text (BaseURL ∘ cfgServer));
   mkDocumented "server.read_timeout" "DNSMON_SERVER_READ_TIMEOUT" (Some (VStr "10s")) (Period (ReadTimeout ∘ cfgServer));
   mkDocumented "server.write_timeout" "DNSMON_SERVER_WRITE_TIMEOUT" (Some (VStr "120s")) (Period (WriteTimeout ∘ cfgServer));
   mkDocumented "dns.query_timeout" "DNSMON_DNS_QUERY_TIMEOUT" (Some (VStr "2s")) (Period (QueryTimeout ∘ cfgDNS));
   mkDocumented "dns.per_resolver_concurrency" "DNSMON_DNS_PER_RESOLVER_CONCURRENCY" (Some (VInt 100)) (Number (PerResolverConcurrency ∘ cfgDNS));
   mkDocumented "dns.default_protocol" "DNSMON_DNS_DEFAULT_PROTOCOL" (Some (VStr "udp")) (Text (DefaultProtocol ∘ cfgDNS));
   mkDocumented "dns.retry" "DNSMON_DNS_RETRY" (Some (VInt 1)) (Number (Retry ∘ cfgDNS));
   mkDocumented "resolvers.builtin" "DNSMON_RESOLVERS_BUILTIN" (Some (VBool true)) (Switch (Builtin ∘ cfgResolvers));
   mkDocumented "resolvers.file" "DNSMON_RESOLVERS_FILE" None (Text (File ∘ cfgResolvers));
   mkDocumented "resolvers.countries" "DNSMON_RESOLVERS_COUNTRIES" None (Names (Countries ∘ cfgResolvers));
   mkDocumented "storage.driver" "DNSMON_STORAGE_DRIVER" (Some (VStr "sqlite")) (Text (StorageDriver ∘ cfgStorage));
   mkDocumented "storage.dsn" "DNSMON_STORAGE_DSN" (Some (VStr "file:./dnsmon.db?cache=shared&_fk=1")) (Text (DSN ∘ cfgStorage));
   mkDocumented "storage.retention_days" "DNSMON_STORAGE_RETENTION_DAYS" (Some (VInt 30)) (Number (RetentionDays ∘ cfgStorage));
   mkDocumented "cache.driver" "DNSMON_CACHE_DRIVER" (Some (VStr "none")) (Text (CacheDriver ∘ cfgCache));
   mkDocumented "cache.ttl" "DNSMON_CACHE_TTL" (Some (VStr "60s")) (Period (CacheTTL ∘ cfgCache));
   mkDocumented "cache.size" "DNSMON_CACHE_SIZE" (Some (VInt 10000)) (Number (CacheSize ∘ cfgCache));
   mkDocumented "cache.redis_addr" "DNSMON_CACHE_REDIS_ADDR" None (Text (RedisAddr ∘ cfgCache));
   mkDocumented "ratelimit.enabled" "DNSMON_RATELIMIT_ENABLED" (Some (VBool true)) (Switch (RateLimitEnabled ∘ cfgRateLimit));
   mkDocumented "ratelimit.anon_per_min" "DNSMON_RATELIMIT_ANON_PER_MIN" (Some (VInt 30)) (Number (AnonPerMin ∘ cfgRateLimit));
   mkDocumented "ratelimit.key_per_min" "DNSMON_RATELIMIT_KEY_PER_MIN" (Some (VInt 600)) (Number (KeyPerMin ∘ cfgRateLimit));
   mkDocumented "geoip.enabled" "DNSMON_GEOIP_ENABLED" None (Switch (GeoIPEnabled ∘ cfgGeoIP));
   mkDocumented "geoip.mmdb_path" "DNSMON_GEOIP_MMDB_PATH" None (Text (MMDBPath ∘ cfgGeoIP));
   mkDocumented "log.level" "DNSMON_LOG_LEVEL" (Some (VStr "info")) (Text (LogLevel ∘ cfgLog));
   mkDocumented "log.format" "DNSMON_LOG_FORMAT" (Some (VStr "json")) (Text (LogFormat ∘ cfgLog));
   mkDocumented "metrics.enabled" "DNSMON_METRICS_ENABLED" (Some (VBool true)) (Switch (MetricsEnabled ∘ cfgMetrics));
   mkDocumented "metrics.path" "DNSMON_METRICS_PATH" (Some (VStr "/metrics")) (Text (MetricsPath ∘ cfgMetrics))].

(** The configuration has at this place what the value decodes to, and the zero
    of its type when there is no value. *)
Definition reads {DE : Decode} (o : setting) (v : option value) (cfg : Config) : Prop :=
  match o with
  | Text get => from_option (λ v, dec_string v = Ok (get cfg)) (get cfg = "") v
  | Number get => from_option (λ v, dec_int v = Ok (get cfg)) (get cfg = 0) v
  | Switch get => from_option (λ v, dec_bool v = Ok (get cfg)) (get cfg = false) v
  | Period get => from_option (λ v, dec_duration v = Ok (get cfg)) (get cfg = 0) v
  | Names get => from_option (λ v, dec_strings v = Ok (get cfg)) (get cfg = []) v
  end.

(** The value has no reading, for this reason. *)
Definition unreadable {DE : Decode} (o : setting) (v : value) (e : error) : Prop :=
  match o with
  | Text _ => dec_string v = Err e
  | Number _ => dec_int v = Err e
  | Switch _ => dec_bool v = Err e
  | Period _ => dec_duration v = Err e
  | Names _ => dec_strings v = Err e
  end.

Lemma field_Ok {A} find (dec : value → result A) zero key x :
  field find dec zero key = Ok x ↔ from_option (λ v, dec v = Ok x) (x = zero) (find key).
Proof. unfold field. destruct (find key); simpl; [done|]. split; congruence. Qed.

Lemma field_Err {A} find (dec : value → result A) zero key e :
  field find dec zero key = Err e → ∃ v, find key = Some v ∧ dec v = Err e.
Proof. unfold field. destruct (find key); [eauto|done]. Qed.

(** Decoding succeeds with the configuration that reads every documented option. *)
Lemma decode_config_reads {DE : Decode} find cfg : decode_config find = Ok cfg ↔
  Forall (λ d, reads (docSetting d) (find (docKey d)) cfg) documented_options.
Proof.
  split.
  - unfold decode_config. intros H. repeat (apply result_bind_Ok in H as (? & ?%field_Ok & H)).
    injection H as <-. repeat (apply Forall_cons_2; [done|]). constructor.
  - unfold documented_options. rewrite !Forall_cons. cbn [docSetting docKey reads].
    intros H. repeat (let H' := fresh in destruct H as [H' H]; apply field_Ok in H').
    unfold decode_config.
    repeat match goal with E : field _ _ _ _ = Ok _ |- _ => rewrite E; clear E; cbn [mbind result_bind] end.
    by destruct cfg as [[] [] [] [] [] [] [] [] []].
Qed.

(** It fails because of an option. *)
Lemma decode_config_fails {DE : Decode} find e : decode_config find = Err e →
  Exists (λ d, ∃ v, find (docKey d) = Some v ∧ unreadable (docSetting d) v e) documented_options.
Proof.
  unfold decode_config, documented_options. intros H.
  repeat (apply result_bind_Err in H as [H|(? & _ & H)];
    [apply Exists_cons_hd, (field_Err _ _ _ _ _ H)|apply Exists_cons_tl]). done.
Qed.

Lemma decode_config_ext {DE : Decode} f g :
  (∀ key, f key = g key) → decode_config f = decode_config g.
Proof. intros Hfg. unfold decode_config, field. by rewrite !Hfg. Qed.

(** Evaluates a decoding of known values. *)
Ltac decode_known :=
  match goal with
  | VO : ViperOk _, DO : DecodeOk ?DE |- _ =>
      clear VO; destruct DO as [Hs Hi Hb Hd], DE as [ds di db dd dl];
      pose proof (Hd 10 ltac:(lia)) as H10; pose proof (Hd 120 ltac:(lia)) as H120;
      pose proof (Hd 2 ltac:(lia)) as H2; pose proof (Hd 60 ltac:(lia)) as H60;
      clear Hd; vm_compute in Hs, Hi, Hb, H10, H120, H2, H60; vm_compute;
      rewrite ?Hs, ?Hi, ?Hb, ?H10, ?H120, ?H2, ?H60; reflexivity
  end.

Section Facts.
Context {VP : Viper} {DE : Decode} {VO : ViperOk VP} {DO : DecodeOk DE}.

Lemma default_of_load f key : default_of (load_calls f) key = default_of setDefaults key.
Proof. unfold load_calls. by destruct (negb _). Qed.

Lemma automatic_load f : automatic (load_calls f) = true.
Proof. unfold load_calls. by destruct (negb _). Qed.

Lemma env_name_load f key :
  env_name (load_calls f) key = ReplaceAll (smap upper1 ("DNSMON_" +:+ key)) "." "_".
Proof. unfold load_calls. by destruct (negb _). Qed.

(** What [Unmarshal] finds under a key, on the calls of [Load]. *)
Lemma find_load f key : v_find (load_calls f) key =
  match v_file (load_calls f) !! key, default_of setDefaults key with
  | None, None => None
  | Some v, _ | None, Some v => Some
      (let e := os_Getenv (ReplaceAll (smap upper1 ("DNSMON_" +:+ key)) "." "_") in
       if String.eqb e "" then v else VStr e)
  end.
Proof.
  rewrite v_find_layers, default_of_load. unfold env_of. rewrite automatic_load, env_name_load.
  cbn [andb]. cbv zeta. destruct (String.eqb _ _); cbn [negb];
    by destruct (v_file _ !! key), (default_of setDefaults key).
Qed.

Lemma Load_Ok f cfg : Load f = Ok cfg → decode_config (v_find (load_calls f)) = Ok cfg.
Proof.
  unfold Load. by destruct (v_read _) as [[]|], (decode_config _) eqn:E; simpl; intros [= <-].
Qed.

(** The table names the variables and the defaults of the calls. *)
Lemma documented_calls : Forall (λ d,
  ReplaceAll (smap upper1 ("DNSMON_" +:+ docKey d)) "." "_" = docVariable d ∧
  default_of setDefaults (docKey d) = docDefault d) documented_options.
Proof. repeat (apply Forall_cons_2; [by vm_compute|]). constructor. Qed.

(** The value of an option that counts: none when it is neither in the file nor
    has a default; else the variable if it is set, before the file, before the
    default. *)
Definition counts (file : gmap string value) (d : documented) : option value :=
  match file !! docKey d, docDefault d with
  | None, None => None
  | Some v, _ | None, Some v =>
      Some (if String.eqb (os_Getenv (docVariable d)) "" then v else VStr (os_Getenv (docVariable d)))
  end.

Lemma find_counts f :
  Forall (λ d, v_find (load_calls f) (docKey d) = counts (v_file (load_calls f)) d) documented_options.
Proof.
  eapply Forall_impl; [apply documented_calls|]. intros d [Hn Hd].
  rewrite find_load, Hd, Hn. done.
Qed.

(** What is found when there is no file. *)
Definition layered (getenv : string → string) (key : string) : option value :=
  match default_of setDefaults key with
  | None => None
  | Some v => Some
      (let e := getenv (ReplaceAll (smap upper1 ("DNSMON_" +:+ key)) "." "_") in
       if String.eqb e "" then v else VStr e)
  end.

Lemma Load_layered f getenv :
  (∀ e, v_read (load_calls f) ≠ Some (ReadFailed e)) → v_file (load_calls f) = ∅ →
  (∀ name, os_Getenv name = getenv name) →
  Load f = map_err "unmarshaling config" (decode_config (layered getenv)).
Proof.
  intros Hread Hfile Henv. unfold Load.
  assert (decode_config (v_find (load_calls f)) = decode_config (layered getenv)) as ->.
  { apply decode_config_ext. intros key. rewrite find_load, Hfile, lookup_empty, Henv.
    unfold layered. by destruct (default_of setDefaults key). }
  destruct (v_read _) as [[e|e]|]; try done. by destruct (Hread e).
Qed.

(** Without file and environment the values are the defaults. *)
Lemma decode_defaults : decode_config (layered (λ _, "")) = Ok defaultConfig.
Proof. decode_known. Qed.

End Facts.

(** * Properties *)

(** C35: loading gives every documented option the value of the documented
    layers.  A file that cannot be read is an error, a missing one is not.
    Otherwise loading succeeds with a configuration exactly when that has, for
    each of the 27 options, the value that its environment variable, the file
    or the built-in default gives it, in this order, decoded at the type of the
    option; it fails only for an option whose value does not decode; and without
    file and environment it gives the defaults.  An option without a default
    that is not in the file is zero whatever the environment says, but the
    environment also wins for such an option once the file has it. *)
Theorem Load_layers {VP : Viper} {DE : Decode} {VO : ViperOk VP} {DO : DecodeOk DE} cfgFile :
  let calls := load_calls cfgFile in
  let file := v_file calls in
  (∀ e, v_read calls = Some (ReadFailed e) → Load cfgFile = Err (Wrapf "reading config" e)) ∧
  ((∀ e, v_read calls ≠ Some (ReadFailed e)) →
   (∀ cfg, Load cfgFile = Ok cfg ↔
      Forall (λ d, reads (docSetting d) (counts file d) cfg) documented_options) ∧
   (∀ e, Load cfgFile = Err e → ∃ e', e = Wrapf "unmarshaling config" e' ∧
      Exists (λ d, ∃ v, counts file d = Some v ∧ unreadable (docSetting d) v e') documented_options) ∧
   (file = ∅ → (∀ name, os_Getenv name = "") → Load cfgFile = Ok defaultConfig)).
Proof.
  intros calls file. split; [intros e He; unfold Load; fold calls; by rewrite He|]. intros Hread.
  assert (Load cfgFile = map_err "unmarshaling config" (decode_config (v_find calls))) as Hload.
  { unfold Load. fold calls. destruct (v_read calls) as [[e|e]|]; try done. by destruct (Hread e). }
  pose proof (find_counts cfgFile) as Hfind. fold calls file in Hfind. rewrite Hload. split_and!.
  - intros cfg. transitivity (decode_config (v_find calls) = Ok cfg).
    { destruct (decode_config _); simpl; [done|]. by split. }
    rewrite decode_config_reads, !Forall_forall. rewrite Forall_forall in Hfind.
    split; intros H d Hd; specialize (H d Hd); specialize (Hfind d Hd); congruence.
  - intros e He. destruct (decode_config _) as [|e'] eqn:E; [done|]. injection He as <-.
    exists e'. split; [done|]. apply decode_config_fails in E. rewrite Exists_exists in E |- *.
    destruct E as (d & Hd & v & Hv & Hu). rewrite Forall_forall in Hfind.
    exists d. split; [done|]. exists v. by rewrite <-(Hfind d Hd).
  - intros Hfile Henv. rewrite <-Hload, (Load_layered _ (λ _, "")) by done. by rewrite decode_defaults.
Qed.

(** * Witnesses *)

(** A viper that has only the defaults and the environment. *)
Definition env_viper (getenv : string → string) : Viper := {|
  os_Getenv := getenv;
  v_read _ := Some (ConfigFileNotFoundError (External "not found" false));
  v_file _ := ∅;
  v_find calls key :=
    match default_of calls key with
    | None => None
    | Some v =>
        let e := getenv (env_name calls key) in
        Some (if automatic calls && negb (String.eqb e "") then VStr e else v)
    end
|}.

#[export] Instance env_viper_ok getenv : ViperOk (env_viper getenv).
Proof.
  intros calls key. simpl. rewrite lookup_empty. destruct (default_of calls key); [|done].
  unfold env_of. simpl. by destruct (automatic calls && _).
Qed.

(** Seconds as the program writes them. *)
Definition plain_decode : Decode := {|
  dec_string v := match v with VStr s => Ok s | _ => Err (Errorf "expected type string") end;
  dec_int v := match v with VInt n => Ok n | _ => Err (Errorf "expected type int") end;
  dec_bool v := match v with VBool b => Ok b | _ => Err (Errorf "expected type bool") end;
  dec_duration v :=
    match v with
    | VStr s => match Atoi (TrimSuffix s "s") with
                | Some n => Ok (n * second) | None => Err (Errorf "invalid duration") end
    | _ => Err (Errorf "expected type duration")
    end;
  dec_strings v := match v with VList l => Ok l | _ => Err (Errorf "expected a slice") end
|}.

#[export] Instance plain_decode_ok : DecodeOk plain_decode.
Proof.
  split; try done. intros n Hn. simpl. rewrite TrimSuffix_app. unfold Atoi. by rewrite ParseInt_Itoa by (unfold min_int64, max_int64; lia).
Qed.

Definition demo_environment (name : string) : string :=
  if String.eqb name "DNSMON_LOG_LEVEL" then "debug"
  else if String.eqb name "DNSMON_CACHE_REDIS_ADDR" then "redis:6379"
  else if String.eqb name "DNSMON_DNS_QUERY_TIMEOUT" then "5s" else "".

Definition demo_loaded : Config := mkConfig
  (mkServerConfig ":8080" "" (10 * second) (120 * second))
  (mkDNSConfig (5 * second) 100 "udp" 1)
  (mkResolversConfig true "" [])
  (mkStorageConfig "sqlite" "file:./dnsmon.db?cache=shared&_fk=1" 30)
  (mkCacheConfig "none" (60 * second) 10000 "")
  (mkRateLimitConfig true 30 600)
  (mkGeoIPConfig false "")
  (mkLogConfig "debug" "json")
  (mkMetricsConfig true "/metrics").

Lemma Load_layers_witness :
  Load (VP := env_viper demo_environment) (DE := plain_decode) "" = Ok demo_loaded.
Proof.
  destruct (Load_layers (VP := env_viper demo_environment) (DE := plain_decode) "")
    as [_ (H & _)]; [by intros e|].
  apply H. repeat (apply Forall_cons_2; [vm_compute; reflexivity|]). constructor.
Defined.
