(* ===== verification/Resolvers.v ===== *)
(** * The resolver registry

    [internal/resolvers/registry.go] and [internal/resolvers/resolvers.go]: an
    ordered list of resolvers with an index by identifier.  Every operation
    holds the registry's lock for its whole duration, so an operation is one
    step on the state. *)

From S2P Require Import Prelude.
From S2P Require Import GoString.
From S2P Require Import DnsTypes.
From S2P Require Import Config.

Local Open Scope Z_scope.

(* src: internal/resolvers/resolvers.go DefaultPort *)
Definition DefaultPort : Z := 53.

(* src: internal/resolvers/resolvers.go Addr *)
Definition Addr (r : Resolver) : string :=
  let port := if rPort r =? 0 then DefaultPort else rPort r in
  rIP r +:+ ":" +:+ Itoa port.

(* src: internal/resolvers/resolvers.go IsValid *)
Definition IsValid (r : Resolver) : bool := negb (String.eqb (rIP r) "").

(* src: internal/resolvers/registry.go Registry *)
Record Registry := mkRegistry {
  resolvers : list Resolver;
  byID : gmap string Resolver
}.

(* src: internal/resolvers/registry.go NewRegistry *)
Definition NewRegistry : Registry := mkRegistry [] ∅.

(** The body of the loops of [Load] and [LoadFile]. *)
(* src: internal/resolvers/registry.go 36-41 Registry.Load *)
Definition add_valid (reg : Registry) (res : Resolver) : Registry :=
  if IsValid res
  then mkRegistry (resolvers reg ++ [res]) (<[rID res := res]> (byID reg))
  else reg.

(* src: internal/resolvers/registry.go Registry.Load *)
Definition Load (l : list Resolver) (reg : Registry) : Registry :=
  foldl add_valid NewRegistry l.

(* src: internal/resolvers/registry.go Registry.Get *)
Definition Get (id : string) (reg : Registry) : option Resolver := byID reg !! id.

(* src: internal/resolvers/registry.go Registry.All *)
Definition All (reg : Registry) : list Resolver := resolvers reg.

(** The text that the free-text query is searched in. *)
Definition haystack (res : Resolver) : string :=
  rName res +:+ " " +:+ rCity res +:+ " " +:+ rCountry res +:+ " " +:+ rIP res
  +:+ " " +:+ rISP res.

Section Filter.
(** The Unicode case tables, for names outside ASCII. *)
Variable fold_lower fold_upper : string → string.

(* src: internal/resolvers/registry.go Registry.Filter *)
Definition Filter (countries : list string) (q : string) (reg : Registry) : list Resolver :=
  let q := ToLower fold_lower q in
  let countrySet : gset string := list_to_set (ToUpper fold_upper <$> countries) in
  filter (λ res,
    (countrySet = ∅ ∨ rCountry res ∈ countrySet) ∧
    (q = "" ∨ Contains (ToLower fold_lower (haystack res)) q = true)) (resolvers reg).

End Filter.

Section LoadFile.
(** [os.ReadFile] and the JSON decoding of a resolver array. *)
Variable ReadFile : string → result string.
Variable Unmarshal : string → result (list Resolver).

(* src: internal/resolvers/registry.go Registry.LoadFile *)
Definition LoadFile (path : string) (reg : Registry) : option error * Registry :=
  match ReadFile path with
  | Err e => (Some (Wrapf ("reading resolvers file " +:+ path) e), reg)
  | Ok data =>
      match Unmarshal data with
      | Err e => (Some (Wrapf ("parsing resolvers file " +:+ path) e), reg)
      | Ok loaded => (None, foldl add_valid reg loaded)
      end
  end.

(* src: internal/resolvers/registry.go Registry.Reload *)
Definition Reload (cfg : Config) (builtin : list Resolver) (reg : Registry)
    : option error * Registry :=
  let all := if Builtin (cfgResolvers cfg) then builtin else [] in
  let reg := Load all reg in
  if negb (String.eqb (File (cfgResolvers cfg)) "") then
    match LoadFile (File (cfgResolvers cfg)) reg with
    | (Some e, reg) => (Some (Wrapf "loading resolver file" e), reg)
    | (None, reg) => (None, reg)
    end
  else (None, reg).

End LoadFile.

(** * Lemmas *)

(** What the index promises: the resolver it returns for an identifier is the
    last one of the list with that identifier, and every resolver of the list
    is valid. *)
Definition registry_wf (reg : Registry) : Prop :=
  Forall (λ r, IsValid r = true) (resolvers reg) ∧
  ∀ id, byID reg !! id = last (filter (λ r, rID r = id) (resolvers reg)).

Lemma NewRegistry_wf : registry_wf NewRegistry.
Proof. split; [constructor|]. intros id. simpl. by rewrite lookup_empty. Qed.

Lemma add_valid_wf reg r : registry_wf reg → registry_wf (add_valid reg r).
Proof.
  intros [Hv Hi]. unfold add_valid. destruct (IsValid r) eqn:Hr; [|done].
  split; simpl.
  - apply Forall_app_2; auto.
  - intros id. rewrite filter_app. destruct (decide (rID r = id)) as [Heq|Hne].
    + rewrite filter_cons_True, filter_nil, last_snoc by done. subst.
      apply lookup_insert_eq.
    + rewrite filter_cons_False, filter_nil, app_nil_r by done.
      by rewrite lookup_insert_ne.
Qed.

Lemma foldl_add_valid_wf l reg : registry_wf reg → registry_wf (foldl add_valid reg l).
Proof. revert reg. induction l; simpl; auto using add_valid_wf. Qed.

Lemma foldl_add_valid_resolvers l reg :
  resolvers (foldl add_valid reg l) =
  resolvers reg ++ filter (λ r, IsValid r = true) l.
Proof.
  revert reg. induction l as [|r l IH]; intros reg; simpl.
  { by rewrite app_nil_r. }
  rewrite IH. unfold add_valid. destruct (IsValid r) eqn:Hr.
  - rewrite filter_cons_True by done. simpl. by rewrite <-app_assoc.
  - rewrite filter_cons_False by congruence. done.
Qed.

Lemma Load_wf l reg : registry_wf (Load l reg).
Proof. apply foldl_add_valid_wf, NewRegistry_wf. Qed.

Create HintDb registry.
#[export] Hint Resolve NewRegistry_wf add_valid_wf foldl_add_valid_wf Load_wf : registry.

(** What a lookup in a well-formed registry returns. *)
Lemma Get_elem reg id r :
  registry_wf reg → Get id reg = Some r → r ∈ All reg ∧ rID r = id ∧ IsValid r = true.
Proof.
  intros [Hv Hi] Hg. unfold Get in Hg. rewrite Hi in Hg.
  apply last_Some_elem_of, list_elem_of_filter in Hg as [Hid Hin].
  split_and!; [done..|]. by eapply Forall_forall in Hv.
Qed.

Lemma list_to_set_empty_iff (l : list string) :
  (list_to_set l : gset string) = ∅ ↔ l = [].
Proof.
  split; [|by intros ->]. destruct l as [|x l]; [done|].
  intros H. assert (x ∈ (∅ : gset string)); [|set_solver]. rewrite <-H. set_solver.
Qed.

(** * Properties *)

(** Reloading always leaves a well-formed registry (each identifier
    resolves to the last listed resolver that carries it, and all resolvers
    have an address), whose list is the valid built-in resolvers (when they
    are enabled) followed by the valid resolvers of the file; when the file
    cannot be read or parsed the error is reported and the registry holds the
    built-in part alone. *)
Theorem Reload_registry (ReadFile : string → result string)
    (Unmarshal : string → result (list Resolver)) (cfg : Config)
    (builtin : list Resolver) (reg : Registry) :
  let '(err, reg') := Reload ReadFile Unmarshal cfg builtin reg in
  let base := if Builtin (cfgResolvers cfg) then builtin else [] in
  let path := File (cfgResolvers cfg) in
  registry_wf reg' ∧
  (path = "" → err = None ∧ All reg' = filter (λ r, IsValid r = true) base) ∧
  (path ≠ "" → ∀ data loaded, ReadFile path = Ok data → Unmarshal data = Ok loaded →
     err = None ∧ All reg' = filter (λ r, IsValid r = true) (base ++ loaded)) ∧
  (path ≠ "" → is_ok (data ← ReadFile path; Unmarshal data) = false →
     err ≠ None ∧ All reg' = filter (λ r, IsValid r = true) base).
Proof.
  unfold Reload, LoadFile, All.
  set (base := if Builtin _ then builtin else []).
  assert (resolvers (Load base reg) = filter (λ r, IsValid r = true) base) as Hb
    by apply foldl_add_valid_resolvers.
  destruct (String.eqb (File (cfgResolvers cfg)) "") eqn:Hp; simpl.
  { apply String.eqb_eq in Hp. split_and!; auto with registry; done. }
  apply String.eqb_neq in Hp.
  destruct (ReadFile _) as [data|e]; simpl; [destruct (Unmarshal data) as [loaded|e] eqn:HU|].
  - split_and!; auto with registry; try done. intros _ ?? [= <-] HU'.
    rewrite HU in HU'. injection HU' as <-.
    split; [done|]. by rewrite foldl_add_valid_resolvers, Hb, filter_app.
  - split_and!; auto with registry; try done. intros; congruence.
  - split_and!; auto with registry; done.
Qed.

(** A search returns exactly the resolvers of the registry, in their
    order, whose country code is one of the requested codes taken in upper
    case (when any is requested) and whose text contains the lower-cased query
    (when there is one); without criteria it returns them all. *)
Theorem Filter_selects (fl fu : string → string) (cs : list string) (q : string)
    (reg : Registry) :
  (∀ r, r ∈ Filter fl fu cs q reg ↔
    r ∈ All reg ∧ (cs = [] ∨ rCountry r ∈ (ToUpper fu <$> cs)) ∧
    (ToLower fl q = "" ∨ Contains (ToLower fl (haystack r)) (ToLower fl q) = true)) ∧
  sublist (Filter fl fu cs q reg) (All reg) ∧
  Filter fl fu [] "" reg = All reg.
Proof.
  unfold Filter, All. split_and!.
  - intros r. rewrite list_elem_of_filter, list_to_set_empty_iff, elem_of_list_to_set.
    assert (ToUpper fu <$> cs = [] ↔ cs = []) as -> by (by destruct cs). tauto.
  - apply sublist_filter.
  - induction (resolvers reg) as [|r l IH]; [done|].
    rewrite filter_cons_True; [by rewrite IH|]. by split; left.
Qed.
