(* ===== verification/Env.v ===== *)
(** * The environment

    What the program takes from outside: the clock, the cancellation of its
    context and the network.  Messages and resource records are those of the
    DNS library; the functions that build, send and print them are the library's
    and enter as fields of the class [Env] (exchanges, lookups) or as data of
    the records (the text of the types that the program prints through the
    library).

    A [World] joins the state of a store, of a cache and of the environment,
    which the packages share; [on_store], [on_cache] and [on_net] run an
    operation on its part. *)

From S2P Require Import Prelude.
From S2P Require Import GoString.
From S2P Require Import DnsTypes.
From S2P Require Import Crypto.
From S2P Require Import NetIP.

Local Open Scope Z_scope.

(** ** Messages *)

Record RRHeader := mkHdr { hName : string; hRrtype : Z; hTtl : Z }.

(** The last three constructors carry the text of [rr.String()]. *)
Inductive RR :=
| RR_A (h : RRHeader) (A : IP)
| RR_AAAA (h : RRHeader) (AAAA : IP)
| RR_CNAME (h : RRHeader) (Target : string)
| RR_MX (h : RRHeader) (Preference : Z) (Mx : string)
| RR_NS (h : RRHeader) (Ns : string)
| RR_PTR (h : RRHeader) (Ptr : string)
| RR_SOA (h : RRHeader) (Ns Mbox : string) (Serial Refresh Retry Expire Minttl : Z)
| RR_TXT (h : RRHeader) (Txt : list string)
| RR_CAA (h : RRHeader) (Flag : Z) (Tag Value : string)
| RR_SRV (h : RRHeader) (Priority Weight Port : Z) (Target : string)
| RR_DS (h : RRHeader) (KeyTag Algorithm DigestType : Z) (Digest : string)
| RR_DNSKEY (h : RRHeader) (Flags Protocol Algorithm : Z) (PublicKey : string)
| RR_NAPTR (h : RRHeader) (Order Preference : Z) (Flags Service Regexp Replacement : string)
| RR_TLSA (h : RRHeader) (Usage Selector MatchingType : Z) (Certificate : string)
| RR_SVCB (h : RRHeader) (text : string)
| RR_HTTPS (h : RRHeader) (text : string)
| RR_other (h : RRHeader) (text : string).

(** [rr.Header()]. *)
Definition Header (rr : RR) : RRHeader :=
  match rr with
  | RR_A h _ | RR_AAAA h _ | RR_CNAME h _ | RR_MX h _ _ | RR_NS h _ | RR_PTR h _
  | RR_SOA h _ _ _ _ _ _ _ | RR_TXT h _ | RR_CAA h _ _ _ | RR_SRV h _ _ _ _
  | RR_DS h _ _ _ _ | RR_DNSKEY h _ _ _ _ | RR_NAPTR h _ _ _ _ _ _
  | RR_TLSA h _ _ _ _ | RR_SVCB h _ | RR_HTTPS h _ | RR_other h _ => h
  end.

(** The question that the program sends: EDNS0 with the given buffer size. *)
Record Question := mkQuestion {
  qName : string;
  qType : Z;
  RecursionDesired : bool;
  edns0_size : Z;
  edns0_do : bool
}.

Record Msg := mkMsg {
  Rcode : Z;
  Authoritative : bool;
  AuthenticatedData : bool;
  mAnswer : list RR;
  mNs : list RR;
  mExtra : list RR
}.

(** [dns.Client]. *)
Record DnsClientCfg := mkDnsClientCfg { Net : string; Timeout : Z }.

#[global] Instance RRHeader_eq_dec : EqDecision RRHeader.
Proof. solve_decision. Defined.
#[global] Instance Question_eq_dec : EqDecision Question.
Proof. solve_decision. Defined.
#[global] Instance DnsClientCfg_eq_dec : EqDecision DnsClientCfg.
Proof. solve_decision. Defined.

(** ** The environment as a class *)

Class Env (N : Type) := {
  (** [time.Now()]. *)
  Now : M N Time;
  (** [select { case <-ctx.Done(): ctx.Err() ... default: }]. *)
  ctx_Err : M N (option error);
  (** [dc.ExchangeContext(ctx, msg, server)]: a reply, and the round trip time. *)
  ExchangeContext : DnsClientCfg → Question → string → M N (result Msg * Z);
  (** [net.DefaultResolver.LookupIPAddr]. *)
  LookupIPAddr : string → M N (result (list IP));
  (** [rand.Read] into a buffer of the given size. *)
  rand_Read : nat → M N (result (list Z))
}.

(** [net.JoinHostPort]. *)
Definition JoinHostPort (host port : string) : string :=
  if has_char ":" host then "[" +:+ host +:+ "]:" +:+ port else host +:+ ":" +:+ port.

(** ** An environment that follows a script

    The replies of the network and the states of the context are given in
    advance, and what is sent is recorded. *)
Record Script := mkScript {
  sc_replies : list (result Msg * Z);
  sc_hosts : gmap string (list IP);
  sc_cancelled : option error;
  sc_clock : Time;
  sc_sent : list (DnsClientCfg * Question * string)
}.

Definition no_reply : result Msg * Z := (Err (External "no route to host" false), 0).

(** Every reading of the clock is one nanosecond later, and random bytes are
    those of the clock. *)
#[export] Instance script_env : Env Script := {|
  Now s := (sc_clock s, mkScript (sc_replies s) (sc_hosts s) (sc_cancelled s)
                          (sc_clock s + 1) (sc_sent s));
  ctx_Err s := (sc_cancelled s, s);
  ExchangeContext dc q server s :=
    (default no_reply (head (sc_replies s)),
     mkScript (tail (sc_replies s)) (sc_hosts s) (sc_cancelled s) (sc_clock s)
       (sc_sent s ++ [(dc, q, server)]));
  LookupIPAddr host s :=
    (match sc_hosts s !! host with
     | Some l => Ok l
     | None => Err (External "no such host" false)
     end, s);
  rand_Read n s := (Ok (be_bytes n (sc_clock s)),
    mkScript (sc_replies s) (sc_hosts s) (sc_cancelled s) (sc_clock s + 1) (sc_sent s))
|}.

(** Documented: the clock is an instant that fits 64-bit nanoseconds and was
    not set before 1970, and random bytes are bytes, as many as asked for. *)
Class EnvOk (N : Type) (E : Env N) : Prop := {
  Now_range : ∀ n : N, 0 ≤ (Now n).1 < 2 ^ 63;
  rand_bytes : ∀ k (n n' : N) l, rand_Read k n = (Ok l, n') → length l = k ∧ Forall is_byte l
}.

(** An environment without network whose clock counts its readings from
    September 2001 on. *)
#[export] Instance tick_env : Env Z := {|
  Now n := (10 ^ 18 + n mod 10 ^ 18, n + 1);
  ctx_Err n := (None, n);
  ExchangeContext _ _ _ n := (no_reply, n);
  LookupIPAddr _ n := (Err (External "no such host" false), n);
  rand_Read k n := (Ok (be_bytes k n), n + 1)
|}.

#[export] Instance tick_env_ok : EnvOk Z tick_env.
Proof.
  split.
  - intros n. simpl. pose proof (Z.mod_pos_bound n (10 ^ 18)). lia.
  - intros k n n' l [= <- _]. split; [apply be_bytes_length|apply be_bytes_range].
Qed.

(** ** The world *)

Record World (S C N : Type) := mkWorld { w_store : S; w_cache : C; w_net : N }.
Arguments mkWorld {S C N}.
Arguments w_store {S C N}.
Arguments w_cache {S C N}.
Arguments w_net {S C N}.

Section World.
Context {S C N A : Type}.

Definition on_store (m : M S A) : M (World S C N) A := λ w,
  let '(a, s) := m (w_store w) in (a, mkWorld s (w_cache w) (w_net w)).

Definition on_cache (m : M C A) : M (World S C N) A := λ w,
  let '(a, c) := m (w_cache w) in (a, mkWorld (w_store w) c (w_net w)).

Definition on_net (m : M N A) : M (World S C N) A := λ w,
  let '(a, n) := m (w_net w) in (a, mkWorld (w_store w) (w_cache w) n).

End World.
