(* ===== verification/Cache.v ===== *)
(** * Package cache

    [internal/cache/cache.go], [memory.go] and [redis.go]: the cache of query
    results.  The interface is the class [CacheOps]; what a client may rely on
    is the class [CacheLaws]: a value that is read was written under the same
    key, and its time to live has not passed.

    The LRU container and the Redis client are libraries: classes [Lru] and
    [RedisClient], the former with the documented behaviour of its operations
    as [LruOk]. *)

From S2P Require Import Prelude.
From S2P Require Import GoString.
From S2P Require Import DnsTypes.
From S2P Require Import Crypto.
From S2P Require Import Config.

Local Open Scope Z_scope.

(** The operations that read the clock take the current time. *)
(* src: internal/cache/cache.go Cache *)
Class CacheOps (C : Type) := {
  CacheGet : string → Time → M C (option string);
  CacheSet : string → string → Z → Time → M C (option error);
  CacheDelete : string → M C (option error)
}.

(* src: internal/cache/cache.go Key *)
Definition Key (resolverID name qtype : string) : string :=
  hex (Sum1 (resolverID +:+ "|" +:+ name +:+ "|" +:+ qtype)).

(** ** Libraries *)

Class Lru (L V : Type) := {
  lru_New : Z → result L;
  lru_Get : string → L → option V * L;
  lru_Add : string → V → L → L;
  lru_Remove : string → L → L
}.

(** The contents of the container, whatever it evicts. *)
Class LruOk (L V : Type) (O : Lru L V) := {
  lru_peek : L → string → option V;
  lru_New_empty : ∀ size l k, lru_New size = Ok l → lru_peek l k = None;
  lru_New_bad : ∀ size, size <= 0 → is_ok (lru_New size) = false;
  lru_Get_peek : ∀ k l, (lru_Get k l).1 = lru_peek l k;
  lru_Get_keeps : ∀ k l k', lru_peek (lru_Get k l).2 k' = lru_peek l k';
  lru_Add_same : ∀ k v l, lru_peek (lru_Add k v l) k = Some v;
  lru_Add_other : ∀ k v l k' v', k' ≠ k →
    lru_peek (lru_Add k v l) k' = Some v' → lru_peek l k' = Some v';
  lru_Remove_same : ∀ k l, lru_peek (lru_Remove k l) k = None;
  lru_Remove_other : ∀ k l k', k' ≠ k → lru_peek (lru_Remove k l) k' = lru_peek l k'
}.

Class RedisClient (R : Type) := {
  redis_Get : string → M R (result string);
  redis_Set : string → string → Z → Time → M R (option error);
  redis_Del : string → M R (option error)
}.

(** ** The memory cache *)

(* src: internal/cache/memory.go entry *)
Record entry := mkEntry { value : string; expiresAt : Time }.

Section Memory.
Context {L : Type} `{Lru L entry}.

(* src: internal/cache/memory.go Memory *)
Definition Memory : Type := L.

(* src: internal/cache/memory.go NewMemory *)
Definition NewMemory (size : Z) : result Memory := lru_New size.

(* src: internal/cache/memory.go Memory.Get *)
Definition Memory_Get (key : string) (now : Time) : M Memory (option string) := λ m,
  let '(e, m) := lru_Get key m in
  match e with
  | None => (None, m)
  | Some e =>
      if expiresAt e <? now then (None, lru_Remove key m) else (Some (value e), m)
  end.

(* src: internal/cache/memory.go Memory.Set *)
Definition Memory_Set (key val : string) (ttl : Z) (now : Time) : M Memory (option error) :=
  λ m, (None, lru_Add key (mkEntry val (now + ttl)) m).

(* src: internal/cache/memory.go Memory.Delete *)
Definition Memory_Delete (key : string) : M Memory (option error) :=
  λ m, (None, lru_Remove key m).

Definition memory_ops : CacheOps Memory := {|
  CacheGet := Memory_Get; CacheSet := Memory_Set; CacheDelete := Memory_Delete |}.

End Memory.

(** ** The cache that keeps nothing *)

(* src: internal/cache/cache.go noopCache *)
Definition noopCache : Type := unit.

(* src: internal/cache/cache.go 52-55 noopCache *)
Definition noop_cache_ops : CacheOps noopCache := {|
  CacheGet _ _ := mret None;
  CacheSet _ _ _ _ := mret None;
  CacheDelete _ := mret None
|}.

(** ** The Redis cache *)

Section Redis.
Context {R : Type} `{RedisClient R}.

(** A missing key and any other error are both misses. *)
(* src: internal/cache/redis.go Redis.Get *)
Definition Redis_Get (key : string) : M R (option string) :=
  val ← redis_Get key;
  mret match val with Ok v => Some v | Err _ => None end.

(* src: internal/cache/redis.go Redis.Set *)
Definition Redis_Set (key val : string) (ttl : Z) (now : Time) : M R (option error) :=
  err ← redis_Set key val ttl now;
  mret (Wrapf "redis set" <$> err).

(* src: internal/cache/redis.go Redis.Delete *)
Definition Redis_Delete (key : string) : M R (option error) :=
  err ← redis_Del key;
  mret (Wrapf "redis del" <$> err).

Definition redis_ops : CacheOps R := {|
  CacheGet key _ := Redis_Get key; CacheSet := Redis_Set; CacheDelete := Redis_Delete |}.

End Redis.

(** ** Selection *)

(** The implementations behind the interface. *)
Inductive AnyCache (L R : Type) :=
| CMemory (m : L)
| CNoop
| CRedis (r : R).
Arguments CMemory {L R}. Arguments CNoop {L R}. Arguments CRedis {L R}.

Section New.
Context {L R : Type} `{Lru L entry} (NewRedis : string → result R).

(* src: internal/cache/cache.go New *)
Definition New (cfg : CacheConfig) : result (AnyCache L R) :=
  if String.eqb (CacheDriver cfg) "redis" then
    if String.eqb (RedisAddr cfg) ""
    then Err (Errorf "cache driver redis requires cache.redis_addr")
    else CRedis <$> NewRedis (RedisAddr cfg)
  else if String.eqb (CacheDriver cfg) "none" then Ok CNoop
  else CMemory <$> map_err "creating memory cache" (NewMemory (CacheSize cfg)).

End New.

(** * The contract of a cache *)

Class CacheLaws (C : Type) (O : CacheOps C) := {
  (** The entry under a key: the value and the last instant it may be served. *)
  cached : C → string → option (string * Time);
  CacheGet_hit : ∀ k now c v c', CacheGet k now c = (Some v, c') →
    ∃ e, cached c k = Some (v, e) ∧ now <= e;
  CacheGet_keeps : ∀ k now c k' x, cached (CacheGet k now c).2 k' = Some x →
    cached c k' = Some x;
  CacheSet_entry : ∀ k v ttl now c x, cached (CacheSet k v ttl now c).2 k = Some x →
    x = (v, now + ttl) ∨ cached c k = Some x;
  CacheSet_other : ∀ k v ttl now c k' x, k' ≠ k →
    cached (CacheSet k v ttl now c).2 k' = Some x → cached c k' = Some x
}.

#[export] Instance noop_cache_laws : CacheLaws noopCache noop_cache_ops.
Proof. refine {| cached := λ _ _, None |}; done. Defined.

#[export] Instance memory_laws {L} `{O : Lru L entry} `{!LruOk L entry O} :
  CacheLaws Memory memory_ops.
Proof.
  refine {| cached := λ m k, (λ e, (value e, expiresAt e)) <$> lru_peek m k |}; simpl.
  - intros k now c v c'. unfold Memory_Get.
    pose proof (lru_Get_peek k c) as Hp. destruct (lru_Get k c) as [[e|] m]; [|done].
    simpl in Hp. rewrite <-Hp. destruct (Z.ltb_spec (expiresAt e) now); [done|].
    intros [= <- <-]. eexists. split; [done|lia].
  - intros k now c k' x. unfold Memory_Get.
    pose proof (lru_Get_keeps k c k') as Hk. destruct (lru_Get k c) as [[e|] m];
      simpl in *; [|by rewrite Hk].
    destruct (Z.ltb_spec (expiresAt e) now); simpl; [|by rewrite Hk].
    destruct (decide (k' = k)) as [->|Hne]; [by rewrite lru_Remove_same|].
    by rewrite lru_Remove_other, Hk.
  - intros k v ttl now c x. rewrite lru_Add_same. simpl. intros [= <-]. by left.
  - intros k v ttl now c k' x Hne. destruct (lru_peek _ k') as [e|] eqn:E; [|done].
    by apply lru_Add_other in E as ->.
Defined.

(** ** A concrete container *)

(** A map that never evicts. *)
Definition map_lru : Lru (gmap string entry) entry := {|
  lru_New size := if size <=? 0 then Err (Errorf "must provide a positive size") else Ok ∅;
  lru_Get k m := (m !! k, m);
  lru_Add k v m := <[k := v]> m;
  lru_Remove k m := delete k m
|}.

Definition map_lru_ok : LruOk (gmap string entry) entry map_lru.
Proof.
  refine {| lru_peek := λ m k, m !! k |}; simpl; intros;
    repeat match goal with H : context [if ?b then _ else _] |- _ => destruct b eqn:?
      | |- context [if ?b then _ else _] => destruct b eqn:? end;
    simplify_map_eq; try done; lia.
Defined.

(** * Properties *)

(** C40: a value written to the memory cache reads back under its key until its
    time to live has passed, whatever the container held before; afterwards it
    is not served, and it stays gone for every later read, even one whose clock
    went backwards. *)
Theorem Memory_read_back {L} `{O : Lru L entry} `{!LruOk L entry O}
    (k v : string) (ttl t now later : Z) (m : Memory (L := L)) :
  let m1 := (Memory_Set k v ttl t m).2 in
  let '(r, m2) := Memory_Get k now m1 in
  (now ≤ t + ttl → r = Some v ∧ lru_peek m2 k = lru_peek m1 k) ∧
  (t + ttl < now → r = None ∧ (Memory_Get k later m2).1 = None).
Proof.
  simpl. unfold Memory_Get.
  pose proof (lru_Get_peek k (lru_Add k (mkEntry v (t + ttl)) m)) as Hp.
  pose proof (lru_Get_keeps k (lru_Add k (mkEntry v (t + ttl)) m) k) as Hk.
  rewrite lru_Add_same in Hp, Hk |- *.
  destruct (lru_Get k (lru_Add _ _ _)) as [e m2]. simpl in Hp, Hk. subst e. simpl.
  destruct (Z.ltb_spec (t + ttl) now); (split; [intros; lia || done|intros; try lia]).
  pose proof (lru_Get_peek k (lru_Remove k m2)) as Hp.
  rewrite lru_Remove_same in Hp. destruct (lru_Get k (lru_Remove k m2)) as [e m3].
  simpl in Hp. by subst e.
Qed.

Lemma Memory_read_back_witness :
  let m1 := (Memory_Set (H := map_lru) "k" "v" 60 100 ∅).2 in
  let '(r, m2) := Memory_Get (H := map_lru) "k" 161 m1 in
  (161 ≤ 160 → r = Some "v" ∧
     lru_peek (LruOk := map_lru_ok) m2 "k" = lru_peek (LruOk := map_lru_ok) m1 "k") ∧
  (160 < 161 → r = None ∧ (Memory_Get (H := map_lru) "k" 150 m2).1 = None).
Proof. apply (Memory_read_back (LruOk0 := map_lru_ok) "k" "v" 60 100 161 150 ∅). Defined.
