(* ===== verification/DnsClient.v ===== *)
(** * Package dnsclient: queries

    [internal/dnsclient/client.go]: one query to one resolver, with its retry
    loop, and the rendering of resource records.  The interface [Client] is
    the class [ClientOps], which the checker is written against. *)

From S2P Require Import Prelude.
From S2P Require Import GoString.
From S2P Require Import GoFmt.
From S2P Require Import DnsTypes.
From S2P Require Import NetIP.
From S2P Require Import Config.
From S2P Require Import Env.

Local Open Scope Z_scope.

(* src: internal/dnsclient/client.go Client *)
Class ClientOps (N : Type) := {
  Query : Resolver → string → Z → M N (result ResolverResult)
}.

(** [time.Duration.Milliseconds]. *)
Definition Milliseconds (d : Z) : Z := d ÷ 10 ^ 6.

(** [err.(net.Error)] looks at the error itself, not at one it wraps. *)
(* src: internal/dnsclient/client.go isTimeout *)
Definition isTimeout (err : error) : bool :=
  match err with External _ timeout => timeout | _ => false end.

Section Client.
Context `{DnsConsts} `{Unicode}.

(* src: internal/dnsclient/client.go rcodeToStatus *)
Definition rcodeToStatus (rcode : Z) : string :=
  if rcode =? RcodeSuccess then StatusOK
  else if rcode =? RcodeNameError then StatusNXDomain
  else if rcode =? RcodeServerFailure then StatusServFail
  else if rcode =? RcodeRefused then StatusRefused
  else StatusError.

(** The values joined by single blanks. *)
Definition words (l : list string) : string := Join l " ".

(* src: internal/dnsclient/client.go rrToAnswer *)
Definition rrToAnswer (rr : RR) : Answer :=
  let hdr := Header rr in
  mkAnswer (hName hdr) (TypeToString (hRrtype hdr)) (hTtl hdr)
    match rr with
    | RR_A _ A => ip_string A
    | RR_AAAA _ AAAA => ip_string AAAA
    | RR_CNAME _ Target => Target
    | RR_MX _ Preference Mx => words [Itoa Preference; Mx]
    | RR_NS _ Ns => Ns
    | RR_PTR _ Ptr => Ptr
    | RR_SOA _ Ns Mbox Serial Refresh Retry Expire Minttl =>
        words [Ns; Mbox; Itoa Serial; Itoa Refresh; Itoa Retry; Itoa Expire; Itoa Minttl]
    | RR_TXT _ Txt => Join Txt " "
    | RR_CAA _ Flag Tag Value => words [Itoa Flag; Tag; Quote Value]
    | RR_SRV _ Priority Weight Port Target =>
        words [Itoa Priority; Itoa Weight; Itoa Port; Target]
    | RR_DS _ KeyTag Algorithm DigestType Digest =>
        words [Itoa KeyTag; Itoa Algorithm; Itoa DigestType; Digest]
    | RR_DNSKEY _ Flags Protocol Algorithm PublicKey =>
        words [Itoa Flags; Itoa Protocol; Itoa Algorithm; PublicKey]
    | RR_NAPTR _ Order Preference Flags Service Regexp Replacement =>
        words [Itoa Order; Itoa Preference; Quote Flags; Quote Service; Quote Regexp;
               Replacement]
    | RR_TLSA _ Usage Selector MatchingType Certificate =>
        words [Itoa Usage; Itoa Selector; Itoa MatchingType; Certificate]
    | RR_SVCB _ text => text
    | RR_HTTPS _ text => text
    | RR_other _ text => text
    end.

(* src: internal/dnsclient/client.go RRToAnswer *)
Definition RRToAnswer (rr : RR) : Answer := rrToAnswer rr.

(** The EDNS pseudo-record is not an answer. *)
Definition not_opt (rr : RR) : Prop := hRrtype (Header rr) ≠ TypeOPT.

#[export] Instance not_opt_dec rr : Decision (not_opt rr).
Proof. unfold not_opt. apply _. Defined.

Context {N : Type} `{Env N}.

(** How the retry loop ends.  [NoAttempt]: its body never runs, and the code
    after it dereferences a nil reply. *)
Inductive attempts :=
| NoAttempt
| Cancelled (err : error)
| Replied (resp : Msg) (rtt : Z)
| Failed (err : error) (rtt : Z).

(** [left] is [maxAttempts - attempt]. *)
(* src: internal/dnsclient/client.go 58-83 client.Query *)
Fixpoint exchange_loop (left : nat) (dc : DnsClientCfg) (msg : Question)
    (server : string) : M N attempts :=
  match left with
  | O => mret NoAttempt
  | S left' =>
      done ← ctx_Err;
      match done with
      | Some err => mret (Cancelled err)
      | None =>
          reply ← ExchangeContext dc msg server;
          match reply with
          | (Ok resp, rtt) => mret (Replied resp rtt)
          | (Err err, rtt) =>
              if isTimeout err && (0 <? left')%nat
              then exchange_loop left' dc msg server
              else mret (Failed err rtt)
          end
      end
  end.

(** The question of a query, the library client and the server's address. *)
Definition query_msg (name : string) (qtype : Z) : Question :=
  let name := if HasSuffix name "." then name else name +:+ "." in
  mkQuestion name qtype true 4096 false.

Definition query_client (cfg : DNSConfig) (resolver : Resolver) : DnsClientCfg :=
  let proto := rProtocol resolver in
  let proto := if String.eqb proto "" then DefaultProtocol cfg else proto in
  let proto := if String.eqb proto "dot" then "tcp-tls" else proto in
  mkDnsClientCfg proto (QueryTimeout cfg).

Definition query_server (resolver : Resolver) : string :=
  let port := if rPort resolver =? 0 then 53 else rPort resolver in
  JoinHostPort (rIP resolver) (Itoa port).

(** [None]: the call panics. *)
(* src: internal/dnsclient/client.go client.Query *)
Definition client_Query (cfg : DNSConfig) (resolver : Resolver) (name : string)
    (qtype : Z) : M N (option ResolverResult) :=
  let msg := query_msg name qtype in
  let server := query_server resolver in
  let dc := query_client cfg resolver in
  let maxAttempts := 1 + Retry cfg in
  start ← Now;
  out ← exchange_loop (Z.to_nat maxAttempts) dc msg server;
  match out with
  | NoAttempt => mret None
  | Cancelled err =>
      t ← Now;
      mret (Some (result_for resolver StatusTimeout (Milliseconds (t - start)) (Error err) start))
  | Failed err rtt =>
      let status := if isTimeout err then StatusTimeout else StatusError in
      mret (Some (result_for resolver status (Milliseconds rtt) (Error err) start))
  | Replied resp rtt =>
      mret (Some (mkResolverResult resolver (rcodeToStatus (Rcode resp))
        (rrToAnswer <$> mAnswer resp) (rrToAnswer <$> mNs resp)
        (rrToAnswer <$> filter not_opt (mExtra resp))
        (if AuthenticatedData resp then Some true else None)
        (Milliseconds rtt) "" start))
  end.

End Client.

(** The client as an implementation of the interface.  Its configuration has
    a non-negative number of retries, so that no call panics
    ([client_Query_total] below) and the last case does not arise. *)
Definition client_ops `{DnsConsts} `{Unicode} {N} `{Env N} (cfg : DNSConfig)
    : ClientOps N := {|
  Query resolver name qtype n :=
    match client_Query cfg resolver name qtype n with
    | (Some r, n') => (Ok r, n')
    | (None, n') => (Err (Errorf "invalid memory address or nil pointer dereference"), n')
    end
|}.

(** * Lemmas *)

Lemma exchange_loop_attempts {N} `{Env N} left dc msg server n :
  (0 < left)%nat → (exchange_loop left dc msg server n).1 ≠ NoAttempt.
Proof.
  revert n. induction left as [|left IH]; intros n Hl; [lia|]. simpl.
  cbv [mbind M_bind]. destruct (ctx_Err n) as [[e|] n1]; [done|].
  destruct (ExchangeContext dc msg server n1) as [[[resp|e] rtt] n2]; [done|].
  destruct (isTimeout e && (0 <? left)%nat) eqn:E; [|done].
  apply IH. apply andb_true_iff in E as [_ E%Nat.ltb_lt]. done.
Qed.

Lemma client_Query_total `{DnsConsts} `{Unicode} {N} `{Env N} cfg resolver name qtype n :
  0 ≤ Retry cfg → ∃ r n', client_Query cfg resolver name qtype n = (Some r, n').
Proof.
  intros Hr. unfold client_Query. cbv [mbind M_bind].
  destruct (Now n) as [start n1].
  match goal with |- context [exchange_loop ?l ?d ?m ?s n1] =>
    pose proof (exchange_loop_attempts l d m s n1) as Ha;
    destruct (exchange_loop l d m s n1) as [out n2] end.
  destruct out; simpl in *; [exfalso; apply Ha; [lia|done]| |eauto..].
  destruct (Now n2) as [t n3]. eauto.
Qed.

(** ** The numbers and names of a record, from its rendering *)

Definition blank_free (s : string) : Prop := has_char " " s = false.

#[export] Instance blank_free_dec s : Decision (blank_free s).
Proof. unfold blank_free. apply _. Defined.

Lemma Itoa_blank_free z : blank_free (Itoa z).
Proof. by apply Itoa_chars. Qed.

Create HintDb blanks.
#[export] Hint Resolve Itoa_blank_free : blanks.

Lemma words_inj l l' :
  l ≠ [] → l' ≠ [] → Forall blank_free l → Forall blank_free l' → words l = words l' → l = l'.
Proof.
  intros Hl Hl' Hb Hb' He.
  unfold words in He. rewrite <-(Split_Join " " l) by done. by rewrite He, Split_Join.
Qed.

(** The words that a record with several fields is printed with. *)
Definition rr_words (rr : RR) : option (list string) :=
  match rr with
  | RR_MX _ p m => Some [Itoa p; m]
  | RR_SOA _ n m a b c d e => Some [n; m; Itoa a; Itoa b; Itoa c; Itoa d; Itoa e]
  | RR_SRV _ a b c t => Some [Itoa a; Itoa b; Itoa c; t]
  | RR_DS _ a b c t => Some [Itoa a; Itoa b; Itoa c; t]
  | RR_DNSKEY _ a b c t => Some [Itoa a; Itoa b; Itoa c; t]
  | RR_TLSA _ a b c t => Some [Itoa a; Itoa b; Itoa c; t]
  | _ => None
  end.

(** The Go type of a record: its constructor. *)
Definition rr_kind (rr : RR) : nat :=
  match rr with
  | RR_A _ _ => 0 | RR_AAAA _ _ => 1 | RR_CNAME _ _ => 2 | RR_MX _ _ _ => 3
  | RR_NS _ _ => 4 | RR_PTR _ _ => 5 | RR_SOA _ _ _ _ _ _ _ _ => 6 | RR_TXT _ _ => 7
  | RR_CAA _ _ _ _ => 8 | RR_SRV _ _ _ _ _ => 9 | RR_DS _ _ _ _ _ => 10
  | RR_DNSKEY _ _ _ _ _ => 11 | RR_NAPTR _ _ _ _ _ _ _ => 12 | RR_TLSA _ _ _ _ _ => 13
  | RR_SVCB _ _ => 14 | RR_HTTPS _ _ => 15 | RR_other _ _ => 16
  end.

Lemma rr_words_nonempty rr l : rr_words rr = Some l → l ≠ [].
Proof. by destruct rr; intros [= <-]. Qed.

Lemma rr_words_value `{DnsConsts} `{Unicode} rr l :
  rr_words rr = Some l → aValue (rrToAnswer rr) = words l.
Proof. by destruct rr; intros [= <-]. Qed.

(** * Properties *)

(** A reply that makes the loop try again. *)
Definition timed_out (r : result Msg * Z) : bool :=
  match r.1 with Ok _ => false | Err e => isTimeout e end.

(** The result that a reply gives. *)
Definition reply_result `{DnsConsts} `{Unicode} (resolver : Resolver) (start : Time)
    (r : result Msg * Z) : ResolverResult :=
  match r with
  | (Ok resp, rtt) =>
      mkResolverResult resolver (rcodeToStatus (Rcode resp))
        (rrToAnswer <$> mAnswer resp) (rrToAnswer <$> mNs resp)
        (rrToAnswer <$> filter not_opt (mExtra resp))
        (if AuthenticatedData resp then Some true else None) (Milliseconds rtt) "" start
  | (Err e, rtt) =>
      result_for resolver (if isTimeout e then StatusTimeout else StatusError)
        (Milliseconds rtt) (Error e) start
  end.

Lemma exchange_loop_script left dc msg server ts r rest hosts clock sent :
  Forall (λ t, timed_out t = true) ts → (length ts < left)%nat →
  timed_out r = false ∨ left = S (length ts) →
  exchange_loop left dc msg server (mkScript (ts ++ r :: rest) hosts None clock sent) =
    (match r with (Ok resp, rtt) => Replied resp rtt | (Err e, rtt) => Failed e rtt end,
     mkScript rest hosts None clock (sent ++ replicate (S (length ts)) (dc, msg, server))).
Proof.
  intros Hts. revert left sent. induction Hts as [|t ts Ht Hts IH]; intros left sent Hl Hr;
    (destruct left as [|left]; [simpl in Hl; lia|]); cbn -[Nat.ltb]; cbv [mbind M_bind]; cbn -[Nat.ltb].
  - destruct r as [[resp|e] rtt]; [done|]. unfold timed_out in Hr; simpl in Hr.
    destruct Hr as [->|Hr]; [done|]. injection Hr as ->.
    by rewrite Nat.ltb_irrefl, andb_false_r.
  - destruct t as [[resp|e] rtt]; [done|]. unfold timed_out in Ht; simpl in Ht.
    simpl in Hl. rewrite Ht, (proj2 (Nat.ltb_lt 0 left)) by lia. cbn -[replicate].
    rewrite IH; [|lia|destruct Hr as [?|[= ?]]; auto].
    do 2 f_equal. by rewrite <-app_assoc.
Qed.

(** C17: against a network that answers a query with a run of timeouts [ts]
    followed by the reply [r], where the loop stops at [r] because it is not a
    timeout or because the retries are used up, the client sends exactly
    [length ts + 1] identical messages and returns the result of [r] (its
    records rendered in order without the OPT pseudo-record, the response code
    mapped to a status, a library error as a timeout or an error status), at
    the start time of the query; it never sends more than [1 + Retry]. *)
Theorem Query_retries `{DnsConsts} `{Unicode} (cfg : DNSConfig) (resolver : Resolver)
    (name : string) (qtype : Z) (ts : list (result Msg * Z)) (r : result Msg * Z)
    rest hosts clock
    (Hts : Forall (λ t, timed_out t = true) ts)
    (Hlen : Z.of_nat (length ts) ≤ Retry cfg)
    (Hr : timed_out r = false ∨ Z.of_nat (length ts) = Retry cfg) :
  client_Query cfg resolver name qtype (mkScript (ts ++ r :: rest) hosts None clock []) =
    (Some (reply_result resolver clock r),
     mkScript rest hosts None (clock + 1)
       (replicate (S (length ts))
         (query_client cfg resolver, query_msg name qtype, query_server resolver))).
Proof.
  unfold client_Query. cbv [mbind M_bind]. cbn -[exchange_loop Z.to_nat query_msg].
  rewrite exchange_loop_script; [|done|lia|destruct Hr; [by left|right; lia]].
  by destruct r as [[resp|e] rtt].
Qed.

Definition demo_dns : DNSConfig := mkDNSConfig (2 * 10 ^ 9) 100 "udp" 1.

Definition demo_resolver (id ip : string) : Resolver :=
  mkResolver id id ip 53 "udp" "US" "" float_zero float_zero 0 "".

Definition demo_reply : result Msg * Z :=
  (Ok (mkMsg 0 false false [RR_A (mkHdr "a.example." 1 300) [192; 0; 2; 1]] [] []), 5000000).

Lemma Query_retries_witness :
  client_Query (H := iana) (H0 := ascii_only) demo_dns (demo_resolver "g" "8.8.8.8") "a.example" 1
    (mkScript [(Err (External "i/o timeout" true), 0); demo_reply] ∅ None 7 []) =
  (Some (reply_result (H := iana) (H0 := ascii_only) (demo_resolver "g" "8.8.8.8") 7 demo_reply),
   mkScript [] ∅ None 8 (replicate 2
     (mkDnsClientCfg "udp" 2000000000, mkQuestion "a.example." 1 true 4096 false, "8.8.8.8:53"))).
Proof.
  apply (Query_retries (H := iana) (H0 := ascii_only) demo_dns (demo_resolver "g" "8.8.8.8")
    "a.example" 1 [(Err (External "i/o timeout" true), 0)] demo_reply [] ∅ 7);
    [by repeat constructor|vm_compute; done|by left].
Defined.

(** A query panics exactly when the configured number of retries is
    negative, in every environment. *)
Theorem Query_panics `{DnsConsts} `{Unicode} {N} `{Env N} (cfg : DNSConfig)
    (resolver : Resolver) (name : string) (qtype : Z) (n : N) :
  (client_Query cfg resolver name qtype n).1 = None ↔ Retry cfg < 0.
Proof.
  split.
  - intros Hn. destruct (decide (Retry cfg < 0)) as [|Hr]; [done|].
    destruct (client_Query_total cfg resolver name qtype n) as (r & n' & Hq); [lia|].
    by rewrite Hq in Hn.
  - intros Hr. unfold client_Query. cbv [mbind M_bind]. destruct (Now n) as [start n1].
    by replace (Z.to_nat (1 + Retry cfg)) with O by lia.
Qed.

(** The rendering of a record with several fields (MX, SOA, SRV, DS,
    DNSKEY, TLSA) loses nothing: two records of the same Go type whose textual
    fields hold no blank, with the same header and the same rendered value, are
    the same record; so resolvers that the program counts as agreeing on such a
    record do agree. *)
Theorem rrToAnswer_inj `{DnsConsts} `{Unicode} (rr rr' : RR) (l l' : list string)
    (Hk : rr_kind rr = rr_kind rr')
    (Hl : rr_words rr = Some l) (Hl' : rr_words rr' = Some l')
    (Hb : Forall blank_free l) (Hb' : Forall blank_free l')
    (Hh : Header rr = Header rr')
    (Ha : aValue (rrToAnswer rr) = aValue (rrToAnswer rr')) : rr = rr'.
Proof.
  assert (l = l') as El.
  { apply words_inj; eauto using rr_words_nonempty.
    by rewrite <-(rr_words_value rr l), <-(rr_words_value rr' l'), Ha. }
  destruct rr, rr'; try done; simpl in *; simplify_eq;
    repeat match goal with E : Itoa _ = Itoa _ |- _ => apply Itoa_inj in E end; by subst.
Qed.

Lemma rrToAnswer_inj_witness :
  RR_MX (mkHdr "a." 15 60) 10 "mx.a." = RR_MX (mkHdr "a." 15 60) 10 "mx.a.".
Proof.
  apply (rrToAnswer_inj (H := iana) (H0 := ascii_only) _ _ ["10"; "mx.a."] ["10"; "mx.a."]);
    try reflexivity; repeat constructor.
Defined.

(** The six statuses of a result. *)
Definition status_valid (s : string) : Prop :=
  s ∈ [StatusOK; StatusNXDomain; StatusTimeout; StatusServFail; StatusRefused; StatusError].

#[export] Instance status_valid_dec s : Decision (status_valid s).
Proof. unfold status_valid. apply _. Defined.

Lemma rcodeToStatus_valid `{DnsConsts} rc : status_valid (rcodeToStatus rc).
Proof.
  unfold rcodeToStatus, status_valid. repeat case_match; set_solver.
Qed.

(** A result names the resolver that was asked and has one of the statuses. *)
Lemma client_Query_result `{DnsConsts} `{Unicode} {N} `{Env N} cfg resolver name qtype n r n' :
  client_Query cfg resolver name qtype n = (Some r, n') →
  rrResolver r = resolver ∧ status_valid (rrStatus r).
Proof.
  unfold client_Query. cbv [mbind M_bind mret M_ret].
  destruct (Now n) as [start n1].
  destruct (exchange_loop _ _ _ _ n1) as [[|e|resp rtt|e rtt] n2]; simpl; [done|..].
  - destruct (Now n2) as [t n3]. intros [= <- _]. split; [done|]. apply (bool_decide_unpack _). done.
  - intros [= <- _]. split; [done|]. apply rcodeToStatus_valid.
  - intros [= <- _]. split; [done|]. simpl.
    destruct (isTimeout e); apply (bool_decide_unpack _); done.
Qed.
