(* ===== verification/Summary.v ===== *)
(** * The summary of a check

    [buildSummary] and [answersKey] of [internal/checker/checker.go].  The
    function ranges over the map of answer sets, whose order is that of the
    class [MapRange]. *)

From S2P Require Import Prelude.
From S2P Require Import GoString.
From S2P Require Import DnsTypes.

Local Open Scope Z_scope.

(* src: internal/checker/checker.go answersKey *)
Definition answersKey (answers : list Answer) : string :=
  match answers with
  | [] => "<empty>"
  | _ => Join (sort_strings (aValue <$> answers)) ","
  end.

(** The key under which a result is counted. *)
Definition result_key (r : ResolverResult) : string := answersKey (rrAnswers r).

(** Increment of a counter in a map, as [m\[k\]++]. *)
Definition incr (k : string) (m : gmap string Z) : gmap string Z :=
  <[k := default 0 (m !! k) + 1]> m.

(** The counting loop's body. *)
(* src: internal/checker/checker.go 328-342 buildSummary *)
Definition count_result (s : CheckSummary) (r : ResolverResult) : CheckSummary :=
  let '(mkCheckSummary tot resp nx tmo er u sets pct eta) := s in
  if String.eqb (rrStatus r) StatusOK then
    mkCheckSummary tot (resp + 1) nx tmo er u (incr (result_key r) sets) pct eta
  else if String.eqb (rrStatus r) StatusNXDomain then
    mkCheckSummary tot (resp + 1) (nx + 1) tmo er u sets pct eta
  else if String.eqb (rrStatus r) StatusTimeout then
    mkCheckSummary tot resp nx (tmo + 1) er u sets pct eta
  else mkCheckSummary tot resp nx tmo (er + 1) u sets pct eta.

(** The loop over the answer sets: key and count of the first largest one. *)
(* src: internal/checker/checker.go 344-351 buildSummary *)
Definition majority (entries : list (string * Z)) : string * Z :=
  foldl (λ '(majorityKey, majorityCount) '(k, n),
    if majorityCount <? n then (k, n) else (majorityKey, majorityCount)) ("", 0) entries.

(** The largest TTL among the results that serve another answer set. *)
(* src: internal/checker/checker.go 355-368 buildSummary *)
Definition max_ttl (majorityKey : string) (results : list ResolverResult) : Z :=
  foldl (λ maxTTL r,
    if negb (String.eqb (rrStatus r) StatusOK) then maxTTL
    else if String.eqb (result_key r) majorityKey then maxTTL
    else foldl (λ maxTTL a, if maxTTL <? aTTL a then aTTL a else maxTTL) maxTTL (rrAnswers r))
    0 results.

(* src: internal/checker/checker.go buildSummary *)
Definition buildSummary `{MapRange} (results : list ResolverResult) : CheckSummary :=
  let s := foldl count_result
    (mkCheckSummary (Z.of_nat (length results)) 0 0 0 0 0 ∅ 0 None) results in
  let '(mkCheckSummary tot resp nx tmo er _ sets pct eta) := s in
  let seen : gset string := list_to_set (range sets).*1 in
  let unique := Z.of_nat (size seen) in
  if 0 <? resp then
    let '(majorityKey, majorityCount) := majority (range sets) in
    mkCheckSummary tot resp nx tmo er unique sets (majorityCount * 100 / resp)
      (Some (max_ttl majorityKey results))
  else mkCheckSummary tot resp nx tmo er unique sets pct eta.

(** * Lemmas *)

(** How many elements satisfy a boolean test. *)
Definition countb {A} (p : A → bool) (l : list A) : Z :=
  Z.of_nat (length (filter (λ x, p x = true) l)).

Lemma countb_nil {A} (p : A → bool) : countb p [] = 0.
Proof. done. Qed.

Lemma countb_cons {A} (p : A → bool) x l : countb p (x :: l) = Z.b2z (p x) + countb p l.
Proof.
  unfold countb. rewrite filter_cons. case_decide as E.
  - rewrite E. simpl. lia.
  - by apply not_true_is_false in E as ->.
Qed.

Lemma countb_nonneg {A} (p : A → bool) l : 0 ≤ countb p l.
Proof. unfold countb. lia. Qed.

#[export] Instance countb_proper {A} (p : A → bool) : Proper ((≡ₚ) ==> (=)) (countb p).
Proof. intros l l' Hl. unfold countb. by rewrite Hl. Qed.

Lemma countb_app {A} (p : A → bool) l l' : countb p (l ++ l') = countb p l + countb p l'.
Proof. induction l as [|x l IH]; [done|]. simpl. rewrite !countb_cons, IH. lia. Qed.

Lemma countb_pos {A} (p : A → bool) l x : x ∈ l → p x = true → 0 < countb p l.
Proof.
  intros Hx Hp. induction Hx as [x l|x y l _ IH]; rewrite countb_cons;
    [pose proof (countb_nonneg p l); rewrite Hp; simpl; lia|].
  pose proof (IH Hp). destruct (p y); simpl; lia.
Qed.

Lemma countb_none {A} (p : A → bool) l : (∀ x, x ∈ l → p x = false) → countb p l = 0.
Proof.
  intros Hp. induction l as [|x l IH]; [done|]. rewrite countb_cons, Hp, IH; [done| |by left].
  intros y Hy. apply Hp. by right.
Qed.

Lemma countb_elem {A} (p : A → bool) l : 0 < countb p l → ∃ x, x ∈ l ∧ p x = true.
Proof.
  induction l as [|x l IH]; [done|]. rewrite countb_cons. destruct (p x) eqn:E; simpl.
  - intros _. exists x. split; [by left|done].
  - intros Hc. destruct IH as (y & ? & ?); [lia|]. exists y. split; [by right|done].
Qed.

Definition is_OK (r : ResolverResult) : bool := String.eqb (rrStatus r) StatusOK.
Definition is_NXDomain (r : ResolverResult) : bool := String.eqb (rrStatus r) StatusNXDomain.
Definition is_Timeout (r : ResolverResult) : bool := String.eqb (rrStatus r) StatusTimeout.
Definition is_other (r : ResolverResult) : bool :=
  negb (is_OK r) && negb (is_NXDomain r) && negb (is_Timeout r).
Definition responds (r : ResolverResult) : bool := is_OK r || is_NXDomain r.

(** Results that are successful and are counted under [k]. *)
Definition keyed (key : ResolverResult → string) (k : string) (r : ResolverResult) : bool :=
  is_OK r && String.eqb (key r) k.

Definition has_key : string → ResolverResult → bool := keyed result_key.

(** Statuses are distinct strings: at most one of the tests holds. *)
Lemma status_cases r :
  (is_OK r = true ∧ is_NXDomain r = false ∧ is_Timeout r = false) ∨
  (is_OK r = false ∧ is_NXDomain r = true ∧ is_Timeout r = false) ∨
  (is_OK r = false ∧ is_NXDomain r = false ∧ is_Timeout r = true) ∨
  (is_OK r = false ∧ is_NXDomain r = false ∧ is_Timeout r = false).
Proof.
  unfold is_OK, is_NXDomain, is_Timeout.
  destruct (String.eqb_spec (rrStatus r) StatusOK) as [E|]; [rewrite ?E; by left|].
  destruct (String.eqb_spec (rrStatus r) StatusNXDomain) as [E|]; [rewrite ?E; by right; left|].
  destruct (String.eqb_spec (rrStatus r) StatusTimeout) as [E|]; [rewrite ?E; by right; right; left|].
  by right; right; right.
Qed.

(** An equation between the tests, by cases on the status. *)
Ltac by_status :=
  let r := fresh in let A := fresh in let B := fresh in let C := fresh in
  intros r; unfold is_other, responds;
  destruct (status_cases r) as [(A & B & C)|[(A & B & C)|[(A & B & C)|(A & B & C)]]];
  rewrite ?A, ?B, ?C; reflexivity.

(** What the counting loop computes, from any counters on. *)
Lemma count_results s rs :
  foldl count_result s rs =
  mkCheckSummary (TotalResolvers s) (Responded s + countb responds rs)
    (NXDomain s + countb is_NXDomain rs) (Timeouts s + countb is_Timeout rs)
    (Errors s + countb is_other rs) (UniqueAnswerSets s)
    (foldl (λ m r, incr (result_key r) m) (Consensus s) (filter (λ r, is_OK r = true) rs))
    (ConvergedPct s) (PropagationETA s).
Proof.
  revert s. induction rs as [|r rs IH]; intros s.
  { destruct s; simpl. by rewrite !countb_nil, !Z.add_0_r. }
  simpl. rewrite IH. clear IH. rewrite !countb_cons.
  destruct s as [tot resp nx tmo er u sets pct eta]. unfold count_result.
  change (String.eqb (rrStatus r) StatusOK) with (is_OK r).
  change (String.eqb (rrStatus r) StatusNXDomain) with (is_NXDomain r).
  change (String.eqb (rrStatus r) StatusTimeout) with (is_Timeout r).
  unfold is_other, responds.
  destruct (status_cases r) as [(E & -> & ->)|[(E & -> & ->)|[(E & -> & ->)|(E & -> & ->)]]];
    rewrite E;
    rewrite ?filter_cons_False, ?filter_cons_True by congruence; simpl; f_equal; lia.
Qed.

Lemma incr_lookup k m i :
  default 0 (incr k m !! i) = default 0 (m !! i) + Z.b2z (String.eqb k i).
Proof.
  unfold incr. rewrite lookup_insert.
  destruct (String.eqb_spec k i) as [->|]; case_decide; try done; simpl; lia.
Qed.

Lemma countb_filter {A} (p q : A → bool) l :
  countb p (filter (λ x, q x = true) l) = countb (λ x, q x && p x) l.
Proof.
  induction l as [|x l IH]; [done|]. rewrite countb_cons. destruct (q x) eqn:E; simpl.
  - by rewrite filter_cons_True, countb_cons, IH.
  - by rewrite filter_cons_False, IH by congruence.
Qed.

(** The map of counts, for any way to name answer sets. *)
Section Tally.
Variable key : ResolverResult → string.

Definition tally_by (rs : list ResolverResult) : gmap string Z :=
  foldl (λ m r, incr (key r) m) ∅ (filter (λ r, is_OK r = true) rs).

Lemma foldl_incr_lookup rs m k :
  default 0 (foldl (λ m r, incr (key r) m) m rs !! k) =
  default 0 (m !! k) + countb (λ r, String.eqb (key r) k) rs.
Proof.
  revert m. induction rs as [|r rs IH]; intros m; simpl.
  { by rewrite countb_nil, Z.add_0_r. }
  rewrite IH, incr_lookup, countb_cons. lia.
Qed.

Lemma foldl_incr_positive rs m :
  map_Forall (λ _ n, 0 < n) m →
  map_Forall (λ _ n, 0 < n) (foldl (λ m r, incr (key r) m) m rs).
Proof.
  revert m. induction rs as [|r rs IH]; intros m Hm; simpl; [done|].
  apply IH. unfold incr. apply map_Forall_insert_2; [|done].
  destruct (m !! key r) as [n|] eqn:E; simpl; [|done].
  pose proof (Hm _ _ E). simpl in *. lia.
Qed.

(** An entry of the map is the number of results with that answer set. *)
Lemma tally_by_lookup rs k n :
  tally_by rs !! k = Some n ↔ n = countb (keyed key k) rs ∧ 0 < n.
Proof.
  unfold tally_by.
  pose proof (foldl_incr_lookup (filter (λ r, is_OK r = true) rs) ∅ k) as Hl.
  pose proof (foldl_incr_positive (filter (λ r, is_OK r = true) rs) ∅ (map_Forall_empty _)) as Hp.
  rewrite lookup_empty, countb_filter in Hl. simpl in Hl.
  change (λ r, is_OK r && String.eqb (key r) k) with (keyed key k) in Hl.
  destruct (foldl _ _ _ !! k) as [n'|] eqn:E; simpl in Hl.
  - pose proof (Hp _ _ E) as Hpos. simpl in Hpos. split.
    + intros [= ->]. lia.
    + intros [-> _]. f_equal. lia.
  - split; [done|]. intros [-> ?]. lia.
Qed.

Lemma tally_by_default rs k : default 0 (tally_by rs !! k) = countb (keyed key k) rs.
Proof.
  pose proof (countb_nonneg (keyed key k) rs).
  destruct (tally_by rs !! k) as [n|] eqn:E; simpl.
  - by apply tally_by_lookup in E as [-> _].
  - destruct (decide (0 < countb (keyed key k) rs)) as [Hp|]; [|lia].
    assert (tally_by rs !! k = Some (countb (keyed key k) rs)) as E' by by apply tally_by_lookup.
    congruence.
Qed.

Lemma tally_by_pos rs : map_Forall (λ _ n, 0 < n) (tally_by rs).
Proof. intros k n Hl. by apply tally_by_lookup in Hl as [_ ?]. Qed.

(** The map depends on the results up to order. *)
#[export] Instance tally_by_proper : Proper ((≡ₚ) ==> (=)) tally_by.
Proof.
  intros l l' Hl. apply map_eq. intros k. apply option_eq. intros n.
  by rewrite !tally_by_lookup, Hl.
Qed.

End Tally.

Definition tally : list ResolverResult → gmap string Z := tally_by result_key.

Lemma tally_lookup rs k n : tally rs !! k = Some n ↔ n = countb (has_key k) rs ∧ 0 < n.
Proof. apply tally_by_lookup. Qed.

Lemma tally_default rs k : default 0 (tally rs !! k) = countb (has_key k) rs.
Proof. apply tally_by_default. Qed.

Lemma tally_pos rs : map_Forall (λ _ n, 0 < n) (tally rs).
Proof. apply tally_by_pos. Qed.

#[export] Instance tally_proper : Proper ((≡ₚ) ==> (=)) tally.
Proof. apply tally_by_proper. Qed.

(** ** The sum of the counts *)

Definition total (m : gmap string Z) : Z := foldr Z.add 0 (map_to_list m).*2.

#[export] Instance foldr_add_proper : Proper ((≡ₚ) ==> (=)) (foldr Z.add 0).
Proof. apply foldr_permutation_proper; [apply _..|]. intros. lia. Qed.

Lemma total_insert k n m : m !! k = None → total (<[k := n]> m) = n + total m.
Proof.
  intros Hk. unfold total. by rewrite (map_to_list_insert m) by done.
Qed.

Lemma total_incr k m : total (incr k m) = total m + 1.
Proof.
  unfold incr. destruct (m !! k) as [n|] eqn:E; simpl.
  - rewrite <-(insert_delete_id m k n) at 2 by done.
    rewrite <-insert_delete_eq, !total_insert by apply lookup_delete_eq. lia.
  - rewrite total_insert by done. lia.
Qed.

Lemma total_tally rs : total (tally rs) = countb is_OK rs.
Proof.
  unfold tally, tally_by.
  assert (∀ l m, total (foldl (λ m r, incr (result_key r) m) m l) = total m + Z.of_nat (length l))
    as Hf.
  { induction l as [|r l IH]; intros m; simpl; [lia|]. rewrite IH, total_incr. lia. }
  rewrite Hf. done.
Qed.

(** ** The majority *)

Lemma majority_aux (entries : list (string * Z)) (k : string) (n : Z) :
  let '(k', n') := foldl (λ '(mk, mc) '(k, n), if mc <? n then (k, n) else (mk, mc)) (k, n) entries in
  n <= n' ∧ Forall (λ e, e.2 <= n') entries ∧ ((k', n') = (k, n) ∨ (k', n') ∈ entries).
Proof.
  revert k n. induction entries as [|[k1 n1] l IH]; intros k n; simpl.
  { split_and!; [lia|constructor|by left]. }
  destruct (Z.ltb_spec n n1) as [Hlt|Hge].
  - pose proof (IH k1 n1) as H. destruct (foldl _ _ l) as [k' n'].
    destruct H as (H1 & H2 & H3). split_and!; [lia|constructor; [done|done]|].
    right. destruct H3 as [->|H3]; [by left|by right].
  - pose proof (IH k n) as H. destruct (foldl _ _ l) as [k' n'].
    destruct H as (H1 & H2 & H3). split_and!; [lia|constructor; [simpl; lia|done]|].
    destruct H3 as [->|H3]; [by left|right; by right].
Qed.

Lemma majority_spec `{MapRange} m :
  let '(k, n) := majority (range m) in
  0 ≤ n ∧ (∀ k' n', m !! k' = Some n' → n' ≤ n) ∧ ((k = "" ∧ n = 0) ∨ m !! k = Some n).
Proof.
  unfold majority. pose proof (majority_aux (range m) "" 0) as Hm.
  destruct (foldl _ _ _) as [k n]. destruct Hm as (H0 & Hall & Hin). split_and!; [done|..].
  - intros k' n' Hl. apply elem_of_range in Hl. rewrite Forall_forall in Hall.
    by apply (Hall _ Hl).
  - destruct Hin as [[= -> ->]|Hin]; [by left|right]. by apply elem_of_range.
Qed.

(** The count of the majority does not depend on the order of the map. *)
Lemma majority_count (R R' : MapRange) m :
  map_Forall (λ _ n, 0 < n) m →
  (majority (@range R _ m)).2 = (majority (@range R' _ m)).2.
Proof.
  intros Hpos. pose proof (@majority_spec R m) as H1. pose proof (@majority_spec R' m) as H2.
  destruct (majority (@range R _ m)) as [k1 n1], (majority (@range R' _ m)) as [k2 n2].
  simpl. destruct H1 as (? & Hm1 & [[-> ->]|Hk1]), H2 as (? & Hm2 & [[-> ->]|Hk2]); try done.
  - pose proof (Hm1 _ _ Hk2). lia.
  - pose proof (Hm2 _ _ Hk1). lia.
  - pose proof (Hm1 _ _ Hk2). pose proof (Hm2 _ _ Hk1). lia.
Qed.

(** ** The largest TTL *)

(** The TTLs of the answers that are still to expire. *)
Definition stale_ttls (k : string) (rs : list ResolverResult) : list Z :=
  rs ≫= λ r, if is_OK r && negb (String.eqb (result_key r) k) then aTTL <$> rrAnswers r else [].

Lemma foldr_max_out x y l : foldr Z.max (Z.max x y) l = Z.max x (foldr Z.max y l).
Proof. induction l; simpl; lia. Qed.

Lemma foldr_max_app z l1 l2 :
  foldr Z.max (foldr Z.max z l1) l2 = foldr Z.max z (l1 ++ l2).
Proof.
  rewrite foldr_app. induction l1 as [|x l1 IH]; simpl; [done|]. by rewrite foldr_max_out, IH.
Qed.

Lemma fold_max l z :
  foldl (λ mx a, if mx <? aTTL a then aTTL a else mx) z l = foldr Z.max z (aTTL <$> l).
Proof.
  revert z. induction l as [|a l IH]; intros z; simpl; [done|]. rewrite IH.
  rewrite <-foldr_max_out. f_equal. destruct (Z.ltb_spec z (aTTL a)); lia.
Qed.

Lemma foldr_max_spec l z :
  let m := foldr Z.max z l in z ≤ m ∧ Forall (λ x, x ≤ m) l ∧ (m = z ∨ m ∈ l).
Proof.
  induction l as [|x l (IH1 & IH2 & IH3)]; simpl in *; [split_and!; [lia|constructor|by left]|].
  split_and!; [lia| |].
  - constructor; [lia|]. eapply Forall_impl; [apply IH2|]. simpl. lia.
  - destruct (Z.max_spec x (foldr Z.max z l)) as [[_ ->]|[_ ->]]; [|right; by left].
    destruct IH3; [by left|right; by right].
Qed.

Lemma max_ttl_spec k rs : max_ttl k rs = foldr Z.max 0 (stale_ttls k rs).
Proof.
  unfold max_ttl, stale_ttls.
  assert (∀ z, 0 ≤ z → foldl (λ mx r,
    if negb (String.eqb (rrStatus r) StatusOK) then mx
    else if String.eqb (result_key r) k then mx
    else foldl (λ mx a, if mx <? aTTL a then aTTL a else mx) mx (rrAnswers r)) z rs
    = foldr Z.max z (rs ≫= λ r, if is_OK r && negb (String.eqb (result_key r) k)
                                then aTTL <$> rrAnswers r else [])) as Hg; [|by apply Hg].
  induction rs as [|r rs IH]; intros z Hz; [done|]. simpl. unfold is_OK at 1.
  destruct (String.eqb (rrStatus r) StatusOK); simpl; [|by apply IH].
  destruct (String.eqb (result_key r) k); simpl; [by apply IH|].
  rewrite fold_max, IH; [apply foldr_max_app|].
  destruct (foldr_max_spec (aTTL <$> rrAnswers r) z) as [? _]. lia.
Qed.

(** ** The whole function *)

Lemma size_range_keys `{MapRange} (m : gmap string Z) :
  size (list_to_set (range m).*1 : gset string) = size m.
Proof.
  rewrite size_list_to_set by apply NoDup_range.
  by rewrite length_fmap, range_perm, length_map_to_list.
Qed.

Lemma buildSummary_eq `{MapRange} rs :
  buildSummary rs =
  mkCheckSummary (Z.of_nat (length rs)) (countb responds rs) (countb is_NXDomain rs)
    (countb is_Timeout rs) (countb is_other rs) (Z.of_nat (size (tally rs))) (tally rs)
    (if 0 <? countb responds rs
     then (majority (range (tally rs))).2 * 100 / countb responds rs else 0)
    (if 0 <? countb responds rs
     then Some (max_ttl (majority (range (tally rs))).1 rs) else None).
Proof.
  unfold buildSummary. rewrite count_results. simpl.
  change (foldl _ ∅ _) with (tally rs). rewrite size_range_keys, !Z.add_0_l.
  destruct (0 <? countb responds rs); [|done].
  by destruct (majority (range (tally rs))).
Qed.

Lemma countb_mono {A} (p q : A → bool) l :
  (∀ x, p x = true → q x = true) → countb p l ≤ countb q l.
Proof.
  intros Hpq. induction l as [|x l IH]; [done|]. rewrite !countb_cons.
  specialize (Hpq x). destruct (p x); simpl; [rewrite Hpq by done; simpl; lia|].
  destruct (q x); simpl; lia.
Qed.

Lemma countb_full {A} (p q : A → bool) l :
  (∀ x, p x = true → q x = true) →
  countb p l = countb q l ↔ Forall (λ x, q x = true → p x = true) l.
Proof.
  intros Hpq. induction l as [|x l IH]; [by split; constructor|].
  rewrite !countb_cons, Forall_cons, <-IH. pose proof (countb_mono p q l Hpq).
  specialize (Hpq x). destruct (p x), (q x); simpl.
  - split; [by split; [|lia]|]. intros [_ ?]. lia.
  - discriminate (Hpq eq_refl).
  - split; [lia|]. intros [Hq _]. discriminate (Hq eq_refl).
  - split; [by split; [|lia]|]. intros [_ ?]. lia.
Qed.

Lemma has_key_responds k r : has_key k r = true → responds r = true.
Proof. unfold has_key, keyed, responds. by destruct (is_OK r). Qed.

(** The largest answer set against the number of responses. *)
Lemma majority_bounds `{MapRange} rs :
  0 ≤ (majority (range (tally rs))).2 ≤ countb responds rs.
Proof.
  pose proof (majority_spec (tally rs)) as Hm. destruct (majority _) as [k n].
  destruct Hm as (? & _ & [[-> ->]|Hk]); simpl.
  - split; [done|apply countb_nonneg].
  - split; [done|]. apply tally_lookup in Hk as [-> _].
    apply countb_mono, has_key_responds.
Qed.

Lemma countb_disj {A} (p q s : A → bool) l :
  (∀ x, Z.b2z (p x) + Z.b2z (q x) = Z.b2z (s x)) → countb p l + countb q l = countb s l.
Proof.
  intros Hx. induction l as [|x l IH]; [done|]. rewrite !countb_cons, <-IH, <-Hx. lia.
Qed.

Lemma countb_true {A} (l : list A) : countb (λ _, true) l = Z.of_nat (length l).
Proof. induction l as [|x l IH]; [done|]. rewrite countb_cons, IH. simpl. lia. Qed.

Definition agree_on (k : string) (rs : list ResolverResult) : Prop :=
  Forall (λ r, responds r = true → has_key k r = true) rs.

(** The order of the results does not matter. *)
#[export] Instance buildSummary_proper `{MapRange} : Proper ((≡ₚ) ==> (=)) buildSummary.
Proof.
  intros rs rs' Hp.
  rewrite !buildSummary_eq, !max_ttl_spec, <-(tally_proper _ _ Hp), <-!(countb_proper _ _ _ Hp).
  assert (stale_ttls (majority (range (tally rs))).1 rs ≡ₚ
          stale_ttls (majority (range (tally rs))).1 rs') as Hs.
  { unfold stale_ttls. by rewrite Hp. }
  assert (foldr Z.max 0 (stale_ttls (majority (range (tally rs))).1 rs) =
          foldr Z.max 0 (stale_ttls (majority (range (tally rs))).1 rs')) as ->.
  { by apply (foldr_permutation_proper (=) Z.max 0); [apply _..|intros; lia|]. }
  by rewrite (Permutation_length Hp).
Qed.

(** * Properties *)

(** C11: the counters of a summary account for every result exactly once:
    responses, timeouts and errors add up to the number of resolvers; the
    non-existence answers are among the responses, and the answer sets share
    out the other responses; an answer set is in the map with its number of
    results, exactly when it has one; the number of answer sets is the size of
    the map. *)
Theorem buildSummary_counts `{MapRange} (rs : list ResolverResult) :
  let s := buildSummary rs in
  TotalResolvers s = Z.of_nat (length rs) ∧
  Responded s + Timeouts s + Errors s = TotalResolvers s ∧
  0 ≤ NXDomain s ≤ Responded s ∧
  total (Consensus s) = Responded s - NXDomain s ∧
  (∀ k n, Consensus s !! k = Some n ↔ n = countb (has_key k) rs ∧ 0 < n) ∧
  UniqueAnswerSets s = Z.of_nat (size (Consensus s)).
Proof.
  rewrite buildSummary_eq. simpl.
  pose proof (countb_disj is_OK is_NXDomain responds rs ltac:(by_status)) as HR.
  pose proof (countb_disj responds is_Timeout (λ r, responds r || is_Timeout r) rs
    ltac:(by_status)) as HT.
  pose proof (countb_disj (λ r, responds r || is_Timeout r) is_other (λ _, true) rs
    ltac:(by_status)) as HE.
  rewrite countb_true in HE.
  pose proof (countb_nonneg is_OK rs). pose proof (countb_nonneg is_NXDomain rs).
  split_and!; try lia; [|apply tally_lookup]. rewrite total_tally. lia.
Qed.

(** C26: the convergence percentage lies between 0 and 100, is the same for
    every order in which the map of answer sets is visited, and is 100 exactly
    when some resolver responded and all that did returned one and the same
    answer set (a single NXDOMAIN among them keeps it below 100). *)
Theorem ConvergedPct_agreement `{R : MapRange} (rs : list ResolverResult) :
  let pct := ConvergedPct (buildSummary rs) in
  0 ≤ pct ≤ 100 ∧
  (∀ R' : MapRange, ConvergedPct (@buildSummary R' rs) = pct) ∧
  (pct = 100 ↔ 0 < countb responds rs ∧ ∃ k, agree_on k rs).
Proof.
  simpl. rewrite buildSummary_eq. simpl.
  pose proof (majority_bounds rs) as Hb.
  split_and!.
  - destruct (Z.ltb_spec 0 (countb responds rs)); [|done]. apply Z.div_pos; lia.
  - destruct (Z.ltb_spec 0 (countb responds rs)); [|done].
    apply Z.div_le_upper_bound; lia.
  - intros R'. rewrite buildSummary_eq. simpl.
    by rewrite (majority_count R' R) by apply tally_pos.
  - destruct (Z.ltb_spec 0 (countb responds rs)) as [Hpos|]; [|split; [done|lia]].
    pose proof (majority_spec (tally rs)) as Hm. destruct (majority _) as [k n]. simpl in *.
    destruct Hm as (_ & Hmax & Hk). split.
    + intros Hd. split; [done|]. assert (n = countb responds rs) as ->.
      { pose proof (Z.mul_div_le (n * 100) (countb responds rs) Hpos). nia. }
      destruct Hk as [[_ Hk]|Hk]; [lia|]. exists k. apply tally_lookup in Hk as [Hk _].
      by apply countb_full; [apply has_key_responds|].
    + intros [_ [k' Hag]]. apply countb_full in Hag; [|apply has_key_responds].
      assert (tally rs !! k' = Some (countb responds rs)) as Ht
        by (apply tally_lookup; split; [done|lia]).
      apply Hmax in Ht. replace n with (countb responds rs) by lia.
      rewrite Z.mul_comm. by apply Z.div_mul; lia.
Qed.

(** Two visits of a tally find the same majority, unless there is a tie. *)
Lemma majority_order (R R' : MapRange) (key : ResolverResult → string) rs :
  majority (@range R _ (tally_by key rs)) = majority (@range R' _ (tally_by key rs)) ∨
  ∃ k k', k ≠ k' ∧ 0 < countb (keyed key k) rs ∧
    ∀ x, countb (keyed key x) rs ≤ countb (keyed key k) rs ∧
         countb (keyed key x) rs ≤ countb (keyed key k') rs.
Proof.
  destruct (decide (majority (@range R _ (tally_by key rs)) = majority (@range R' _ (tally_by key rs))))
    as [?|Hne]; [by left|right].
  pose proof (majority_count R R' (tally_by key rs) (tally_by_pos key rs)) as Hn.
  pose proof (@majority_spec R (tally_by key rs)) as H1.
  pose proof (@majority_spec R' (tally_by key rs)) as H2.
  destruct (majority (@range R _ _)) as [k n], (majority (@range R' _ _)) as [k' n'].
  simpl in Hn. subst n'. destruct H1 as (_ & Hmax & [[-> ->]|Hk]), H2 as (_ & _ & [[-> H0]|Hk']);
    subst; try done; try (by apply tally_by_lookup in Hk' as [_ ?]);
    try (by apply tally_by_lookup in Hk as [_ ?]).
  assert (k ≠ k') as Hkk by congruence. exists k, k'.
  apply tally_by_lookup in Hk as [Hk Hpos], Hk' as [Hk' _]. rewrite <-Hk, <-Hk'. split_and!; [done..|].
  intros x. assert (countb (keyed key x) rs ≤ n); [|done]. rewrite <-tally_by_default.
  destruct (tally_by key rs !! x) as [c|] eqn:Em; simpl; [by apply Hmax in Em|lia].
Qed.

(** The order of the map shows in the estimate only. *)
Lemma summary_but_estimate (R R' : MapRange) rs :
  let s := @buildSummary R rs in let s' := @buildSummary R' rs in
  s' = mkCheckSummary (TotalResolvers s) (Responded s) (NXDomain s) (Timeouts s) (Errors s)
         (UniqueAnswerSets s) (Consensus s) (ConvergedPct s) (PropagationETA s').
Proof.
  simpl. rewrite (@buildSummary_eq R), (@buildSummary_eq R'). simpl.
  by rewrite (majority_count R R') by apply tally_pos.
Qed.

(** C33: two summaries of the same results agree, in whatever order the
    concurrent queries have finished and in whatever orders the two calls visit
    their maps: in every field but the propagation estimate always, and in that
    one too unless two answer sets tie for the majority. *)
Theorem buildSummary_permutation (R R' : MapRange) (rs rs' : list ResolverResult)
    (Hp : rs ≡ₚ rs') :
  let s := @buildSummary R rs in
  let s' := @buildSummary R' rs' in
  s' = mkCheckSummary (TotalResolvers s) (Responded s) (NXDomain s) (Timeouts s) (Errors s)
         (UniqueAnswerSets s) (Consensus s) (ConvergedPct s) (PropagationETA s') ∧
  (is_Some (PropagationETA s') ↔ is_Some (PropagationETA s)) ∧
  (s' = s ∨ ∃ k k', k ≠ k' ∧ 0 < countb (has_key k) rs ∧
     ∀ x, countb (has_key x) rs ≤ countb (has_key k) rs ∧ countb (has_key x) rs ≤ countb (has_key k') rs).
Proof.
  cbv zeta. rewrite <-(@buildSummary_proper R' _ _ Hp). clear rs' Hp. split_and!.
  - apply summary_but_estimate.
  - rewrite !buildSummary_eq. simpl. by destruct (0 <? countb responds rs).
  - destruct (majority_order R R' result_key rs) as [He|Htie]; [left|by right].
    by rewrite !buildSummary_eq; unfold tally; rewrite He.
Qed.

(** The propagation estimate is present exactly when some resolver
    responded; it is then the largest remaining TTL among the answers that
    differ from a largest answer set (0 when there are none), hence a 32-bit
    number, and when every response agrees it is 0. *)
Theorem PropagationETA_spec `{MapRange} (rs : list ResolverResult)
    (Hwf : Forall (λ r, Forall Answer_wf (rrAnswers r)) rs) :
  match PropagationETA (buildSummary rs) with
  | None => countb responds rs = 0
  | Some eta => ∃ k,
      0 < countb responds rs ∧ (∀ k', countb (has_key k') rs ≤ countb (has_key k) rs) ∧
      Forall (λ ttl, ttl ≤ eta) (stale_ttls k rs) ∧ (eta = 0 ∨ eta ∈ stale_ttls k rs) ∧
      0 ≤ eta < 2 ^ 32 ∧ (∀ k', agree_on k' rs → eta = 0)
  end.
Proof.
  rewrite buildSummary_eq. simpl. pose proof (countb_nonneg responds rs).
  destruct (Z.ltb_spec 0 (countb responds rs)) as [Hpos|]; [|lia].
  pose proof (majority_spec (tally rs)) as Hm. destruct (majority _) as [k n]. simpl.
  destruct Hm as (Hn & Hmax & Hk). rewrite max_ttl_spec. exists k.
  destruct (foldr_max_spec (stale_ttls k rs) 0) as (Hge & Hall & Hin).
  set (eta := foldr Z.max 0 _) in *. clearbody eta.
  assert (∀ k', countb (has_key k') rs ≤ countb (has_key k) rs) as Hbest.
  { intros k'. rewrite <-!tally_default. destruct Hk as [[-> ->]|Hk].
    - destruct (tally rs !! k') as [n'|] eqn:E; simpl.
      + pose proof (Hmax _ _ E). pose proof (tally_pos _ _ _ E). simpl in *. lia.
      + rewrite tally_default. apply countb_nonneg.
    - rewrite Hk. simpl. destruct (tally rs !! k') as [n'|] eqn:E; simpl; [|done].
      by apply Hmax in E. }
  split_and!; try done.
  - destruct Hin as [->|Hin]; [done|].
    unfold stale_ttls in Hin. apply list_elem_of_bind in Hin as (r & Hr & Hrs).
    destruct (is_OK r && _); [|by apply elem_of_nil in Hr].
    apply list_elem_of_fmap in Hr as (a & -> & Ha).
    rewrite Forall_forall in Hwf. specialize (Hwf _ Hrs). rewrite Forall_forall in Hwf.
    apply (Hwf a Ha).
  - intros k' Hag. destruct Hin as [->|Hin]; [done|exfalso].
    unfold stale_ttls in Hin. apply list_elem_of_bind in Hin as (r & Hr & Hrs).
    destruct (is_OK r) eqn:Hok; [|by apply elem_of_nil in Hr]. simpl in Hr.
    destruct (String.eqb_spec (result_key r) k) as [|Hne]; [by apply elem_of_nil in Hr|].
    assert (has_key k' r = true) as Hk'.
    { unfold agree_on in Hag. rewrite Forall_forall in Hag. apply (Hag _ Hrs). unfold responds. by rewrite Hok. }
    apply countb_full in Hag; [|apply has_key_responds].
    specialize (Hbest k'). rewrite Hag in Hbest.
    assert (countb (has_key k) rs = countb responds rs) as Hf
      by (pose proof (countb_mono _ _ rs (has_key_responds k)); lia).
    apply countb_full in Hf; [|apply has_key_responds]. rewrite Forall_forall in Hf.
    specialize (Hf _ Hrs). unfold responds, has_key, keyed in Hf. rewrite Hok in Hf.
    by apply Hne, String.eqb_eq, Hf.
Qed.

(** *** Concrete results *)

Definition demo_result (id : string) (status : string) (answers : list (Z * string))
    : ResolverResult :=
  mkResolverResult (mkResolver id id "192.0.2.1" 53 "udp" "US" "" float_zero float_zero 0 "")
    status ((λ p, mkAnswer "a.example." "A" p.1 p.2) <$> answers) [] [] None 0 "" 0.

(** Two resolvers that serve different addresses. *)
Definition split_results : list ResolverResult :=
  [demo_result "r1" StatusOK [(300, "192.0.2.1")]; demo_result "r2" StatusOK [(60, "192.0.2.2")]].

(** A majority of two against one. *)
Definition clear_results : list ResolverResult :=
  demo_result "r3" StatusOK [(120, "192.0.2.2")] :: split_results.

Lemma buildSummary_permutation_witness :
  PropagationETA (@buildSummary range_forward clear_results) = Some 300 ∧
  @buildSummary range_backward (reverse clear_results) = @buildSummary range_forward clear_results.
Proof.
  split; [by vm_compute|].
  destruct (buildSummary_permutation range_forward range_backward clear_results
    (reverse clear_results)) as (_ & _ & [H|(k & k' & Hkk & Hpos & Hk)]);
    [by rewrite reverse_Permutation|exact H|exfalso].
  destruct (Hk "192.0.2.2") as [H1 H2].
  assert (∀ x, 2 ≤ countb (has_key x) clear_results → x = "192.0.2.2") as Hx.
  { intros x Hc. change (2 ≤ countb (has_key x) clear_results) in Hc.
    assert (countb (has_key x) clear_results = Z.b2z (String.eqb "192.0.2.2" x) +
      (Z.b2z (String.eqb "192.0.2.1" x) + (Z.b2z (String.eqb "192.0.2.2" x) + 0))) as Ec
      by (unfold clear_results, split_results; by rewrite !countb_cons).
    rewrite Ec in Hc. destruct (String.eqb_spec "192.0.2.2" x); [done|].
    by destruct (String.eqb "192.0.2.1" x). }
  apply Hkk. by rewrite (Hx k H1), (Hx k' H2).
Defined.

Lemma PropagationETA_spec_witness :
  match PropagationETA (@buildSummary range_forward split_results) with
  | None => countb responds split_results = 0
  | Some eta => ∃ k,
      0 < countb responds split_results ∧
      (∀ k', countb (has_key k') split_results ≤ countb (has_key k) split_results) ∧
      Forall (λ ttl, ttl ≤ eta) (stale_ttls k split_results) ∧
      (eta = 0 ∨ eta ∈ stale_ttls k split_results) ∧
      0 ≤ eta < 2 ^ 32 ∧ (∀ k', agree_on k' split_results → eta = 0)
  end.
Proof.
  apply (@PropagationETA_spec range_forward).
  repeat constructor; vm_compute; done.
Defined.

(** When two answer sets tie for the majority, the estimate depends on the
    order in which the map is visited: one and the same check of two resolvers
    can report 60 or 300 seconds. *)
Theorem PropagationETA_ties :
  [PropagationETA (@buildSummary range_forward split_results);
   PropagationETA (@buildSummary range_backward split_results)] ≡ₚ [Some 60; Some 300].
Proof. apply (bool_decide_unpack _). vm_compute. done. Qed.

(** Two sets of answers count as agreeing exactly when their values are
    the same up to order, provided that no value contains a comma or is the
    placeholder of an empty set; without the proviso the single text
    ["a,b"] agrees with the two texts ["a"] and ["b"], and the text
    ["<empty>"] with no answer at all. *)
Theorem answersKey_agreement :
  (∀ a b : list Answer,
    let plain := λ x, has_char "," (aValue x) = false ∧ aValue x ≠ "<empty>" in
    Forall plain a → Forall plain b →
    answersKey a = answersKey b ↔ aValue <$> a ≡ₚ aValue <$> b) ∧
  answersKey [mkAnswer "t." "TXT" 0 "a,b"] =
    answersKey [mkAnswer "t." "TXT" 0 "b"; mkAnswer "t." "TXT" 0 "a"] ∧
  answersKey [mkAnswer "t." "TXT" 0 "<empty>"] = answersKey [].
Proof.
  split_and!; [|reflexivity..]. intros a b plain Ha Hb.
  assert (∀ x, Forall plain x → x ≠ [] →
    Split "," (answersKey x) = sort_strings (aValue <$> x) ∧ answersKey x ≠ "<empty>") as Hk.
  { intros x Hx Hn. assert (answersKey x = Join (sort_strings (aValue <$> x)) ",") as ->
      by (by destruct x).
    assert (sort_strings (aValue <$> x) ≠ []) as Hne.
    { intros E. apply (f_equal length) in E. rewrite sort_strings_length in E. by destruct x. }
    assert (Split "," (Join (sort_strings (aValue <$> x)) ",") = sort_strings (aValue <$> x)) as HS.
    { apply Split_Join; [done|]. rewrite sort_strings_perm. apply Forall_fmap.
      eapply Forall_impl; [apply Hx|]. by intros y [Hy _]. }
    split; [done|]. intros E. rewrite E in HS.
    assert ("<empty>" ∈ aValue <$> x) as Hin.
    { rewrite <-sort_strings_perm, <-HS. by left. }
    apply list_elem_of_fmap in Hin as (y & Hy & Hyx). rewrite Forall_forall in Hx.
    by destruct (Hx y Hyx). }
  split.
  - intros E. destruct (decide (a = [])) as [->|Hna], (decide (b = [])) as [->|Hnb].
    + done.
    + by destruct (Hk b Hb Hnb) as [_ []].
    + by destruct (Hk a Ha Hna) as [_ []].
    + apply sort_strings_eq. destruct (Hk a Ha Hna) as [<- _], (Hk b Hb Hnb) as [<- _]. by rewrite E.
  - intros Hp. pose proof (Permutation_length Hp) as Hl. rewrite !length_fmap in Hl.
    destruct a as [|x a], b as [|y b]; try done. unfold answersKey.
    by rewrite (sort_strings_proper _ _ Hp).
Qed.
