(* ===== verification/Sched.v ===== *)
(** * Goroutines

    A body of a goroutine is a [Prog]: a sequence of atomic actions on the
    shared world.  A pool of goroutines that share a counting semaphore (the
    buffered channel [sem] of the program) is a step relation on [pool]: at any
    time any task that is able to may take its next action.  [pool_run]
    executes a pool under a scheduler; the lemmas relate it to the relation:
    it makes only steps of the relation, it finishes within a known number of
    steps, and every complete execution of the relation is one of its runs. *)

From S2P Require Import Prelude.
From stdpp Require Import relations.

(** ** Programs of atomic actions *)

Inductive Prog (W A : Type) : Type :=
| Return (a : A)
| Act {X : Type} (m : M W X) (k : X → Prog W A).
Arguments Return {W A} a.
Arguments Act {W A X} m k.

Fixpoint pbind {W A B} (p : Prog W A) (f : A → Prog W B) : Prog W B :=
  match p with
  | Return a => f a
  | Act m k => Act m (λ x, pbind (k x) f)
  end.

#[global] Instance Prog_ret W : MRet (Prog W) := λ A a, Return a.
#[global] Instance Prog_bind W : MBind (Prog W) := λ A B f p, pbind p f.

(** One atomic action. *)
Definition act {W X} (m : M W X) : Prog W X := Act m Return.

(** Without interference. *)
Fixpoint run {W A} (p : Prog W A) : M W A := λ w,
  match p with
  | Return a => (a, w)
  | Act m k => let '(x, w') := m w in run (k x) w'
  end.

(** At most [n] actions. *)
Fixpoint bounded {W A} (n : nat) (p : Prog W A) {struct p} : Prop :=
  match p with
  | Return _ => True
  | Act m k => match n with O => False | S n' => ∀ x, bounded n' (k x) end
  end.

(** Every action keeps the invariant [I] and the result satisfies [Q],
    whatever other tasks that keep [I] do in between. *)
Fixpoint safe {W A} (I : W → Prop) (Q : A → Prop) (p : Prog W A) : Prop :=
  match p with
  | Return a => Q a
  | Act m k => ∀ w, I w → I (m w).2 ∧ safe I Q (k (m w).1)
  end.

(** ** Pools *)

Inductive task (W A : Type) : Type :=
| Waiting (p : Prog W A)   (* before the send on the semaphore *)
| Running (p : Prog W A)   (* holds a slot of the semaphore *)
| Finished (a : A).
Arguments Waiting {W A} p.
Arguments Running {W A} p.
Arguments Finished {W A} a.

Record pool (W A : Type) := mkPool { p_tasks : list (task W A); p_world : W }.
Arguments mkPool {W A}.
Arguments p_tasks {W A}.
Arguments p_world {W A}.

Section Pool.
Context {W A : Type}.

Definition is_running (t : task W A) : bool :=
  match t with Running _ => true | _ => false end.

(** The number of values in the semaphore's channel. *)
Fixpoint running (ts : list (task W A)) : nat :=
  match ts with
  | [] => 0
  | t :: ts' => (if is_running t then 1 else 0) + running ts'
  end.

Definition start (ps : list (Prog W A)) (w : W) : pool W A := mkPool (Waiting <$> ps) w.

(** Task [i] takes its next action; [None] when it cannot. *)
Definition task_step (cap i : nat) (s : pool W A) : option (pool W A) :=
  match p_tasks s !! i with
  | Some (Waiting p) =>
      if decide (running (p_tasks s) < cap)
      then Some (mkPool (<[i := Running p]> (p_tasks s)) (p_world s)) else None
  | Some (Running (Act m k)) =>
      let '(x, w') := m (p_world s) in
      Some (mkPool (<[i := Running (k x)]> (p_tasks s)) w')
  | Some (Running (Return a)) =>
      Some (mkPool (<[i := Finished a]> (p_tasks s)) (p_world s))
  | _ => None
  end.

Definition step (cap : nat) (s s' : pool W A) : Prop := ∃ i, task_step cap i s = Some s'.

Definition task_result (t : task W A) : option A :=
  match t with Finished a => Some a | _ => None end.

(** The results, once all tasks are done. *)
Definition results (s : pool W A) : option (list A) := mapM task_result (p_tasks s).

(** The first of the given tasks that can move. *)
Fixpoint first_step (cap : nat) (js : list nat) (s : pool W A) : option (pool W A) :=
  match js with
  | [] => None
  | i :: js' =>
      match task_step cap i s with Some s' => Some s' | None => first_step cap js' s end
  end.

(** The scheduler names the task to move; when that one cannot, another does. *)
Definition pick (cap i : nat) (s : pool W A) : option (pool W A) :=
  first_step cap (i :: seq 0 (length (p_tasks s))) s.

Fixpoint pool_run (fuel cap : nat) (sched : nat → nat) (s : pool W A) : pool W A :=
  match fuel with
  | O => s
  | S f =>
      match pick cap (sched 0) s with
      | None => s
      | Some s' => pool_run f cap (λ n, sched (S n)) s'
      end
  end.

(** *** The semaphore *)

Lemma running_insert (ts : list (task W A)) i t t' :
  ts !! i = Some t →
  running (<[i := t']> ts) + (if is_running t then 1 else 0) =
  running ts + (if is_running t' then 1 else 0).
Proof.
  revert i. induction ts as [|u ts IH]; intros [|i] Hi; simplify_eq/=; [lia|].
  specialize (IH i Hi). lia.
Qed.

Lemma task_step_cap cap i s s' :
  running (p_tasks s) ≤ cap → task_step cap i s = Some s' → running (p_tasks s') ≤ cap.
Proof.
  intros Hc Hs. unfold task_step in Hs.
  destruct (p_tasks s !! i) as [[p|[a|X m k]|a]|] eqn:E; try done;
    [case_decide; try done|..|destruct (m (p_world s)) as [x w']]; simplify_eq; simpl.
  - pose proof (running_insert _ _ _ (Running p) E). simpl in *. lia.
  - pose proof (running_insert _ _ _ (Finished a) E). simpl in *. lia.
  - pose proof (running_insert _ _ _ (Running (k x)) E). simpl in *. lia.
Qed.

Lemma running_start ps : running (Waiting <$> ps) = 0.
Proof. induction ps; simpl; auto. Qed.

Lemma steps_cap cap s s' :
  rtc (step cap) s s' → running (p_tasks s) ≤ cap → running (p_tasks s') ≤ cap.
Proof. induction 1 as [|s s1 s' [i Hs]]; eauto using task_step_cap. Qed.

(** *** Progress *)

Lemma running_pos ts : 0 < running ts → ∃ (i : nat) p, ts !! i = Some (Running p).
Proof.
  induction ts as [|t ts IH]; simpl; [lia|].
  destruct t as [p|p|a]; simpl; intros H;
    [|by exists 0%nat, p|]; destruct IH as (i & p' & Hi); try lia; by exists (S i), p'.
Qed.

Lemma results_None s : results s = None →
  ∃ (i : nat) t, p_tasks s !! i = Some t ∧ task_result t = None.
Proof.
  unfold results. induction (p_tasks s) as [|t ts IH]; simpl; [done|].
  destruct (task_result t) as [a|] eqn:Et; simpl.
  - destruct (mapM task_result ts); simpl; [done|]. intros _.
    destruct IH as (i & t' & Hi & Ht); [done|]. by exists (S i), t'.
  - intros _. by exists 0%nat, t.
Qed.

(** Unless all tasks are done, one can move. *)
Lemma progress cap s : 0 < cap → results s = None → ∃ i s', task_step cap i s = Some s'.
Proof.
  intros Hc Hr. destruct (decide (0 < running (p_tasks s))) as [Hp|Hp].
  - apply running_pos in Hp as (i & p & Hi). exists i. unfold task_step. rewrite Hi.
    destruct p as [a|X m k]; [eauto|]. destruct (m (p_world s)). eauto.
  - apply results_None in Hr as (i & t & Hi & Ht). exists i. unfold task_step. rewrite Hi.
    destruct t as [p|p|a]; [| |done].
    + rewrite decide_True by lia. eauto.
    + exfalso. apply Hp. pose proof (running_insert _ _ _ (Waiting p) Hi). simpl in *. lia.
Qed.

Lemma first_step_Some cap js s s' :
  first_step cap js s = Some s' → ∃ i, task_step cap i s = Some s'.
Proof.
  induction js as [|i js IH]; simpl; [done|].
  destruct (task_step cap i s) eqn:E; [intros [= <-]; eauto|auto].
Qed.

Lemma first_step_None cap js s :
  first_step cap js s = None → ∀ i, i ∈ js → task_step cap i s = None.
Proof.
  induction js as [|j js IH]; simpl; intros H i Hi; [by apply elem_of_nil in Hi|].
  destruct (task_step cap j s) eqn:E; [done|].
  apply elem_of_cons in Hi as [->|Hi]; auto.
Qed.

Lemma pick_None cap i s : 0 < cap → pick cap i s = None → is_Some (results s).
Proof.
  intros Hc Hp. destruct (results s) eqn:Hr; [eauto|exfalso].
  destruct (progress cap s Hc Hr) as (j & s' & Hj).
  rewrite (first_step_None _ _ _ Hp j) in Hj; [done|]. right. apply elem_of_seq.
  unfold task_step in Hj. destruct (p_tasks s !! j) as [t|] eqn:E; [|done].
  apply lookup_lt_Some in E. lia.
Qed.

Lemma pick_own cap i s s' : task_step cap i s = Some s' → pick cap i s = Some s'.
Proof. intros H. unfold pick. simpl. by rewrite H. Qed.

(** *** Termination *)

(** A bound on the number of steps that a task will still take. *)
Definition weighs (t : task W A) (k : nat) : Prop :=
  match t with
  | Waiting p => ∃ n, bounded n p ∧ k = n + 2
  | Running p => ∃ n, bounded n p ∧ k = n + 1
  | Finished _ => k = 0
  end.

Definition pool_weighs (s : pool W A) (k : nat) : Prop :=
  ∃ ks, Forall2 weighs (p_tasks s) ks ∧ k = sum_list ks.

Lemma sum_list_insert ks i k k' :
  ks !! i = Some k → sum_list (<[i := k']> ks) + k = sum_list ks + k'.
Proof.
  revert i. induction ks as [|x ks IH]; intros [|i] Hi; simplify_eq/=; [lia|].
  specialize (IH i Hi). lia.
Qed.

Lemma pool_weighs_insert s k i t t' w :
  pool_weighs s k → p_tasks s !! i = Some t →
  (∀ k1, weighs t k1 → ∃ k2, weighs t' k2 ∧ k2 < k1) →
  ∃ k', k' < k ∧ pool_weighs (mkPool (<[i := t']> (p_tasks s)) w) k'.
Proof.
  intros (ks & Hks & ->) Hi Hw.
  destruct (Forall2_lookup_l _ _ _ _ _ Hks Hi) as (k1 & Hk1 & Ht).
  destruct (Hw k1 Ht) as (k2 & Ht' & Hlt).
  exists (sum_list (<[i := k2]> ks)). split.
  - pose proof (sum_list_insert ks i k1 k2 Hk1). lia.
  - exists (<[i := k2]> ks). split; [by apply Forall2_insert|done].
Qed.

Lemma task_step_weighs cap i s s' k :
  pool_weighs s k → task_step cap i s = Some s' → ∃ k', k' < k ∧ pool_weighs s' k'.
Proof.
  intros Hk Hs. unfold task_step in Hs.
  destruct (p_tasks s !! i) as [[p|[a|X m c]|a]|] eqn:E; try done;
    [case_decide; try done|..|destruct (m (p_world s)) as [x w']]; simplify_eq;
    eapply pool_weighs_insert; try done; intros k1 (n & Hn & ->).
  - exists (n + 1). split; [by exists n|lia].
  - exists 0. split; [done|lia].
  - destruct n as [|n]; [done|]. exists (n + 1). split; [by exists n|lia].
Qed.

Lemma start_weighs n ps w :
  Forall (bounded n) ps → pool_weighs (start ps w) (length ps * (n + 2)).
Proof.
  intros Hps. exists (replicate (length ps) (n + 2)). split; simpl.
  - induction Hps; simpl; constructor; eauto. by exists n.
  - induction ps as [|p ps IH]; [done|]. apply Forall_cons in Hps as [_ Hps]. simpl.
    rewrite IH by done. lia.
Qed.

Lemma nsteps_weighs cap j s s' k :
  nsteps (step cap) j s s' → pool_weighs s k → ∃ k', j + k' ≤ k ∧ pool_weighs s' k'.
Proof.
  intros Hs. revert k. induction Hs as [s|j s s1 s' [i Hi] _ IH]; intros k Hk.
  { exists k. split; [lia|done]. }
  destruct (task_step_weighs _ _ _ _ _ Hk Hi) as (k1 & Hlt & Hk1).
  destruct (IH k1 Hk1) as (k2 & Hle & Hk2). exists k2. split; [lia|done].
Qed.

(** *** Runs *)

Lemma pool_run_steps fuel cap sched s : rtc (step cap) s (pool_run fuel cap sched s).
Proof.
  revert sched s. induction fuel as [|f IH]; intros sched s; simpl; [done|].
  destruct (pick cap (sched 0) s) as [s'|] eqn:E; [|done].
  apply first_step_Some in E. eapply rtc_l; [exact E|apply IH].
Qed.

Lemma pool_run_done fuel cap sched s k :
  0 < cap → pool_weighs s k → k ≤ fuel → is_Some (results (pool_run fuel cap sched s)).
Proof.
  intros Hc. revert sched s k. induction fuel as [|f IH]; intros sched s k Hk Hf; simpl.
  - assert (k = 0) as -> by lia. destruct (results s) eqn:Hr; [eauto|].
    destruct (progress cap s Hc Hr) as (i & s' & Hi).
    destruct (task_step_weighs _ _ _ _ _ Hk Hi) as (? & ? & _). lia.
  - destruct (pick cap (sched 0) s) as [s'|] eqn:E; [|by eapply pick_None].
    apply first_step_Some in E as [i Hi].
    destruct (task_step_weighs _ _ _ _ _ Hk Hi) as (k1 & Hlt & Hk1).
    eapply IH; [done|lia].
Qed.

Lemma results_stuck cap i s l : results s = Some l → task_step cap i s = None.
Proof.
  unfold results, task_step. intros Hr. destruct (p_tasks s !! i) as [t|] eqn:E; [|done].
  apply mapM_Some in Hr. destruct (Forall2_lookup_l _ _ _ _ _ Hr E) as (a & _ & Ht).
  by destruct t.
Qed.

Lemma pool_run_stop fuel cap sched s l :
  results s = Some l → pool_run fuel cap sched s = s.
Proof.
  intros Hr. destruct fuel as [|f]; [done|]. simpl.
  destruct (pick cap (sched 0) s) as [s'|] eqn:E; [|done].
  apply first_step_Some in E as [i Hi]. by rewrite (results_stuck _ _ _ _ Hr) in Hi.
Qed.

(** Every complete execution is the run of some scheduler. *)
Lemma pool_run_complete fuel cap j s s' l :
  nsteps (step cap) j s s' → results s' = Some l → j ≤ fuel →
  ∃ sched, pool_run fuel cap sched s = s'.
Proof.
  intros Hs. revert fuel. induction Hs as [s|j s s1 s' [i Hi] _ IH]; intros fuel Hr Hf.
  { exists (λ _, 0). by eapply pool_run_stop. }
  destruct fuel as [|f]; [lia|]. destruct (IH f Hr) as [sched Hsched]; [lia|].
  exists (λ n, match n with O => i | S n' => sched n' end). simpl.
  by rewrite (pick_own _ _ _ _ Hi).
Qed.

(** *** Safety *)

Definition task_safe (I : W → Prop) (Q : A → Prop) (t : task W A) : Prop :=
  match t with
  | Waiting p | Running p => safe I Q p
  | Finished a => Q a
  end.

Definition pool_safe (I : W → Prop) (Qs : list (A → Prop)) (s : pool W A) : Prop :=
  I (p_world s) ∧ Forall2 (task_safe I) Qs (p_tasks s).

Lemma task_step_safe I Qs cap i s s' :
  pool_safe I Qs s → task_step cap i s = Some s' → pool_safe I Qs s'.
Proof.
  intros [HI Ht] Hs. unfold task_step in Hs.
  destruct (p_tasks s !! i) as [t|] eqn:E; [|done].
  destruct (Forall2_lookup_r _ _ _ _ _ Ht E) as (Q & HQ & Hsafe).
  rewrite <-(list_insert_id Qs i Q HQ).
  destruct t as [p|[a|X m k]|a]; try done; [case_decide; [|done]|..].
  - simplify_eq. split; [done|]. by apply Forall2_insert.
  - simplify_eq. split; [done|]. by apply Forall2_insert.
  - simpl in Hsafe. destruct (Hsafe _ HI) as [HI' Hk].
    destruct (m (p_world s)) as [x w']. simplify_eq. split; [done|]. by apply Forall2_insert.
Qed.

Lemma start_safe I Qs ps w : I w → Forall2 (safe I) Qs ps → pool_safe I Qs (start ps w).
Proof.
  intros HI HF. split; [done|]. simpl. apply Forall2_fmap_r. done.
Qed.

Lemma steps_safe I Qs cap s s' : rtc (step cap) s s' → pool_safe I Qs s → pool_safe I Qs s'.
Proof. induction 1 as [|s s1 s' [i Hi]]; eauto using task_step_safe. Qed.

Lemma results_safe I Qs s l :
  pool_safe I Qs s → results s = Some l → Forall2 (λ Q a, Q a) Qs l.
Proof.
  intros [_ Ht] Hr. unfold results in Hr. apply mapM_Some in Hr.
  revert l Hr. induction Ht as [|Q t Qs ts Hq _ IH]; intros l Hr.
  - apply Forall2_nil_inv_l in Hr as ->. constructor.
  - apply Forall2_cons_inv_l in Hr as (a & l' & Ha & Hr & ->).
    constructor; [|auto]. by destruct t; simplify_eq/=.
Qed.

End Pool.

(** ** Rules for programs *)

Lemma safe_mono {W A} (I : W → Prop) (Q Q' : A → Prop) p :
  safe I Q p → (∀ a, Q a → Q' a) → safe I Q' p.
Proof.
  induction p as [a|X m k IH]; simpl; intros Hs Hq; [auto|].
  intros w HI. destruct (Hs w HI). auto.
Qed.

Lemma safe_bind {W A B} (I : W → Prop) (Q : B → Prop) (p : Prog W A) (f : A → Prog W B) :
  safe I (λ a, safe I Q (f a)) p → safe I Q (p ≫= f).
Proof.
  induction p as [a|X m k IH]; simpl; intros Hs; [done|].
  intros w HI. destruct (Hs w HI). split; [done|]. by apply IH.
Qed.

Lemma safe_act {W X} (I : W → Prop) (Q : X → Prop) (m : M W X) :
  (∀ w, I w → I (m w).2 ∧ Q (m w).1) → safe I Q (act m).
Proof. done. Qed.

Lemma bounded_mono {W A} n n' (p : Prog W A) : bounded n p → n ≤ n' → bounded n' p.
Proof.
  revert n n'. induction p as [a|X m k IH]; intros n n'; simpl; [done|].
  destruct n as [|n]; [done|]. destruct n' as [|n']; [lia|]. intros Hb Hl x.
  eapply IH; [apply Hb|lia].
Qed.

Lemma bounded_bind {W A B} n n' (p : Prog W A) (f : A → Prog W B) :
  bounded n p → (∀ a, bounded n' (f a)) → bounded (n + n') (p ≫= f).
Proof.
  revert n. induction p as [a|X m k IH]; intros n Hp Hf.
  - eapply bounded_mono; [apply Hf|lia].
  - destruct n as [|n]; [done|]. simpl. intros x. by apply IH.
Qed.

Lemma bounded_act {W X} (m : M W X) : bounded 1 (act m).
Proof. done. Qed.

Create HintDb bounded.
#[export] Hint Resolve bounded_act : bounded.
