(* ===== verification/GoTime.v ===== *)
(** * Calendar time

    The parts of the Go package [time] that turn an instant into text: the
    UTC calendar date of an instant, and the layout RFC 3339 without a
    fraction of a second ([time.RFC3339] of a UTC time, which is also the
    layout of the CSV export). *)

From S2P Require Import Prelude.
From S2P Require Import GoString.
From S2P Require Import DnsTypes.
From S2P Require Import Session.

Local Open Scope Z_scope.

(** [time.Time{}]: the first of January of the year 1. *)
Definition zero_time : Time := -62135596800 * 10 ^ 9.

(** Days since 1970-01-01 to a proleptic Gregorian date, by 400-year eras that
    start on 1 March. *)
Definition civil_of_days (z : Z) : Z * Z * Z :=
  let z := z + 719468 in
  let era := z / 146097 in
  let doe := z mod 146097 in
  let yoe := (doe - doe / 1460 + doe / 36524 - doe / 146096) / 365 in
  let doy := doe - (365 * yoe + yoe / 4 - yoe / 100) in
  let mp := (5 * doy + 2) / 153 in
  let d := doy - (153 * mp + 2) / 5 + 1 in
  let m := if mp <? 10 then mp + 3 else mp - 9 in
  let y := yoe + era * 400 + (if m <=? 2 then 1 else 0) in
  (y, m, d).

(** [z] in decimal with at least [n] digits. *)
Definition pad (n : nat) (z : Z) : string :=
  let s := Itoa z in
  String.string_of_list_ascii (replicate (n - String.length s) "0"%char) +:+ s.

(** [t.UTC().Format("2006-01-02T15:04:05Z")]. *)
Definition FormatRFC3339 (t : Time) : string :=
  let s := Unix t in
  let '(y, m, d) := civil_of_days (s / 86400) in
  let sod := s mod 86400 in
  pad 4 y +:+ "-" +:+ pad 2 m +:+ "-" +:+ pad 2 d +:+ "T" +:+
  pad 2 (sod / 3600) +:+ ":" +:+ pad 2 (sod / 60 mod 60) +:+ ":" +:+
  pad 2 (sod mod 60) +:+ "Z".

Example format_epoch : FormatRFC3339 0 = "1970-01-01T00:00:00Z".
Proof. vm_compute. reflexivity. Qed.

Example format_leap_day :
  FormatRFC3339 (1709210096 * 10 ^ 9 + 999999999) = "2024-02-29T12:34:56Z".
Proof. vm_compute. reflexivity. Qed.

Example format_before_epoch : FormatRFC3339 (-1) = "1969-12-31T23:59:59Z".
Proof. vm_compute. reflexivity. Qed.

(** The inverse of [civil_of_days]. *)
Definition days_of_civil (y m d : Z) : Z :=
  let y := if m <=? 2 then y - 1 else y in
  let era := y / 400 in
  let yoe := y mod 400 in
  let doy := (153 * (if m <=? 2 then m + 9 else m - 3) + 2) / 5 + d - 1 in
  era * 146097 + (yoe * 365 + yoe / 4 - yoe / 100 + doy) - 719468.

(** [n] decimal digits in front of [s]. *)
Definition take_digits (n : nat) (s : string) : option (Z * string) :=
  if (String.length s <? n)%nat then None
  else z ← (if sforall is_digit (stake n s) then parse_digits (stake n s) else None);
       Some (z, sdrop n s).

(** [time.Parse(time.RFC3339, s)] on the texts that [FormatRFC3339] writes
    (four-digit year, no fraction, zone [Z]). *)
Definition ParseRFC3339 (s : string) : option Time :=
  '(y, s) ← take_digits 4 s; s ← scan_lit "-" s;
  '(m, s) ← take_digits 2 s; s ← scan_lit "-" s;
  '(d, s) ← take_digits 2 s; s ← scan_lit "T" s;
  '(h, s) ← take_digits 2 s; s ← scan_lit ":" s;
  '(mi, s) ← take_digits 2 s; s ← scan_lit ":" s;
  '(se, s) ← take_digits 2 s; s ← scan_lit "Z" s;
  if String.eqb s "" && (1 <=? m) && (m <=? 12) && (1 <=? d) && (d <=? 31)
     && (h <? 24) && (mi <? 60) && (se <? 60)
  then Some ((days_of_civil y m d * 86400 + h * 3600 + mi * 60 + se) * 10 ^ 9)
  else None.

Example parse_leap_day :
  ParseRFC3339 "2024-02-29T12:34:56Z" = Some (1709210096 * 10 ^ 9).
Proof. vm_compute. reflexivity. Qed.

(** The calendar date of a day count, and back. *)
Lemma days_of_civil_of_days z :
  let '(y, m, d) := civil_of_days z in days_of_civil y m d = z.
Proof.
  unfold civil_of_days, days_of_civil.
  set (doe := (z + 719468) mod 146097).
  assert (0 ≤ doe < 146097) as Hdoe by (apply Z.mod_pos_bound; lia).
  assert (z = (z + 719468) / 146097 * 146097 + doe - 719468) as Hz.
  { pose proof (Z.div_mod (z + 719468) 146097). subst doe. lia. }
  set (era := (z + 719468) / 146097) in *. clearbody era doe.
  set (yoe := (doe - doe / 1460 + doe / 36524 - doe / 146096) / 365).
  assert (0 ≤ yoe < 400 ∧ 0 ≤ doe - (365 * yoe + yoe / 4 - yoe / 100) < 366) as [Hy Hd].
  { subst yoe. Z.to_euclidean_division_equations. lia. }
  set (doy := doe - (365 * yoe + yoe / 4 - yoe / 100)) in *.
  set (mp := (5 * doy + 2) / 153).
  assert (0 ≤ mp < 12) as Hmp by (subst mp; Z.to_euclidean_division_equations; lia).
  assert (((if mp <? 10 then mp + 3 else mp - 9) <=? 2) = (10 <=? mp)) as Hm.
  { destruct (Z.ltb_spec mp 10), (Z.leb_spec 10 mp); lia. }
  rewrite Hm. rewrite Hz. subst doy.
  destruct (Z.leb_spec 10 mp), (Z.ltb_spec mp 10); try lia;
    Z.to_euclidean_division_equations; lia.
Qed.

(** ** Instants and their text

    The clock of the program reads instants between 1970 and 2262. *)
Definition time_ok (t : Time) : Prop := 0 ≤ t < 2 ^ 63.

#[export] Instance time_ok_dec t : Decision (time_ok t).
Proof. unfold time_ok. apply _. Defined.

(** The value of a text of decimal digits. *)
Fixpoint digits_val (acc : Z) (s : string) : Z :=
  match s with
  | "" => acc
  | String c s' => digits_val (acc * 10 + (code c - 48)) s'
  end.

Definition pad_check (n : nat) (z : Z) : bool :=
  (String.length (pad n z) =? n)%nat && sforall is_digit (pad n z) &&
  bool_decide (parse_digits (pad n z) = Some z) && (digits_val 0 (pad n z) =? z).

(** [p] holds of every number below [n], checked by counting. *)
Definition all_below (p : Z → bool) (n : Z) : bool :=
  (N.iter (Z.to_N n) (λ '(b, i), (b && p i, i + 1)) (true, 0)).1.

Lemma all_below_ok p n z : all_below p n = true → 0 ≤ z < n → p z = true.
Proof.
  unfold all_below. intros H Hz.
  assert (∀ k, ∃ b, N.iter k (λ '(b, i), (b && p i, i + 1)) (true, 0) = (b, Z.of_N k) ∧
    (b = true → ∀ z, 0 ≤ z < Z.of_N k → p z = true)) as Hi.
  { clear. apply N.peano_ind; [exists true; split; [done|lia]|].
    intros k (b & Hb & IH). rewrite N.iter_succ, Hb.
    exists (b && p (Z.of_N k)). split; [f_equal; lia|].
    intros [Hb' Hp]%andb_true_iff z Hz. destruct (decide (z = Z.of_N k)) as [->|]; [done|].
    apply IH; [done|lia]. }
  destruct (Hi (Z.to_N n)) as (b & Hb & Hall). rewrite Hb in H. apply Hall; [done|lia].
Qed.

Lemma pad2_check z : 0 ≤ z < 100 → pad_check 2 z = true.
Proof.
  apply all_below_ok. vm_compute. done.
Qed.

Lemma pad4_check z : 0 ≤ z < 10000 → pad_check 4 z = true.
Proof.
  apply all_below_ok. vm_compute. done.
Qed.

Lemma take_digits_pad n z s : pad_check n z = true → take_digits n (pad n z +:+ s) = Some (z, s).
Proof.
  unfold pad_check. intros [[[Hl Hd]%andb_true_iff Hp]%andb_true_iff _]%andb_true_iff.
  apply Nat.eqb_eq in Hl. apply bool_decide_eq_true in Hp. unfold take_digits.
  revert Hl Hd Hp. generalize (pad n z) as p. intros p <- Hd Hp.
  rewrite slength_app, stake_app, sdrop_app, Hd, Hp.
  replace (_ <? _)%nat with false by (symmetry; apply Nat.ltb_ge; lia). done.
Qed.

Lemma digits_val_acc acc s :
  digits_val acc s = acc * 10 ^ Z.of_nat (String.length s) + digits_val 0 s.
Proof.
  revert acc. induction s as [|c s IH]; intros acc; [simpl; lia|]. cbn [digits_val String.length].
  rewrite IH, (IH (0 * 10 + _)), Nat2Z.inj_succ, Z.pow_succ_r by lia. lia.
Qed.

Lemma digits_val_range s :
  sforall is_digit s = true → 0 ≤ digits_val 0 s < 10 ^ Z.of_nat (String.length s).
Proof.
  induction s as [|c s IH]; [done|]. cbn [sforall digits_val String.length].
  intros [Hc Hs]%andb_true_iff. specialize (IH Hs).
  rewrite digits_val_acc, Nat2Z.inj_succ, Z.pow_succ_r by lia.
  unfold is_digit in Hc. assert (0 ≤ code c - 48 ≤ 9) by lia. nia.
Qed.

(** Texts of digits of the same length are ordered as their values. *)
Lemma compare_digits a b s s' :
  String.length a = String.length b → sforall is_digit a = true → sforall is_digit b = true →
  String.compare (a +:+ s) (b +:+ s') =
  match Z.compare (digits_val 0 a) (digits_val 0 b) with
  | Eq => String.compare s s'
  | c => c
  end.
Proof.
  revert b. induction a as [|c a IH]; intros [|d b] Hl Ha Hb; try done.
  cbn [sforall] in Ha, Hb. apply andb_true_iff in Ha as [Hc Ha], Hb as [Hd Hb].
  injection Hl as Hl. specialize (IH b Hl Ha Hb).
  cbn [String.append String.compare digits_val]. rewrite !(digits_val_acc (0 * 10 + _)), Hl.
  pose proof (digits_val_range a Ha) as Hra. pose proof (digits_val_range b Hb) as Hrb.
  rewrite Hl in Hra. set (p := 10 ^ Z.of_nat (String.length b)) in *.
  assert (Ascii.compare c d = Z.compare (code c) (code d)) as ->.
  { unfold Ascii.compare, code. by rewrite N2Z.inj_compare. }
  destruct (Z.compare_spec (code c) (code d)) as [He|He|He].
  - rewrite He, IH.
    by destruct (Z.compare_spec (digits_val 0 a) (digits_val 0 b)),
      (Z.compare_spec ((0 * 10 + (code d - 48)) * p + digits_val 0 a)
         ((0 * 10 + (code d - 48)) * p + digits_val 0 b)); try lia.
  - by destruct (Z.compare_spec ((0 * 10 + (code c - 48)) * p + digits_val 0 a)
      ((0 * 10 + (code d - 48)) * p + digits_val 0 b)); try nia.
  - by destruct (Z.compare_spec ((0 * 10 + (code c - 48)) * p + digits_val 0 a)
      ((0 * 10 + (code d - 48)) * p + digits_val 0 b)); try nia.
Qed.

Lemma compare_pad n x y s s' : pad_check n x = true → pad_check n y = true →
  String.compare (pad n x +:+ s) (pad n y +:+ s') =
  match Z.compare x y with Eq => String.compare s s' | c => c end.
Proof.
  unfold pad_check. intros [[[Hl Hd]%andb_true_iff _]%andb_true_iff Hx%Z.eqb_eq]%andb_true_iff
    [[[Hl' Hd']%andb_true_iff _]%andb_true_iff Hy%Z.eqb_eq]%andb_true_iff.
  apply Nat.eqb_eq in Hl, Hl'. rewrite compare_digits by (done || congruence). by rewrite Hx, Hy.
Qed.

(** *** The order of dates

    Years that start on 1 March, by their number [Y] since 1 March 0, and the
    month [mp] within: the first day of the year, and of the month. *)
Definition year_start (Y : Z) : Z := 365 * Y + Y / 4 - Y / 100 + Y / 400.
Definition month_start (mp : Z) : Z := (153 * mp + 2) / 5.

Lemma year_start_mono Y Y' : Y ≤ Y' → year_start Y ≤ year_start Y'.
Proof. unfold year_start. intros. Z.to_euclidean_division_equations. lia. Qed.

Lemma month_start_mono m m' : m ≤ m' → month_start m ≤ month_start m'.
Proof. unfold month_start. intros. Z.to_euclidean_division_equations. lia. Qed.

Lemma civil_spec z :
  let '(y, m, d) := civil_of_days z in
  ∃ Y mp, 0 ≤ mp < 12 ∧ 1 ≤ m ≤ 12 ∧ 12 * y + m = 12 * Y + mp + 3 ∧
    year_start Y ≤ z + 719468 < year_start (Y + 1) ∧
    month_start mp ≤ z + 719468 - year_start Y < month_start (mp + 1) ∧
    d = z + 719468 - year_start Y - month_start mp + 1.
Proof.
  unfold civil_of_days. set (t := z + 719468).
  set (doe := t mod 146097). set (era := t / 146097).
  assert (0 ≤ doe < 146097) as Hdoe by (apply Z.mod_pos_bound; lia).
  assert (t = era * 146097 + doe) as Ht by (pose proof (Z.div_mod t 146097); subst era doe; lia).
  clearbody t era doe.
  set (yoe := (doe - doe / 1460 + doe / 36524 - doe / 146096) / 365).
  assert (0 ≤ yoe < 400 ∧ year_start yoe ≤ doe < year_start (yoe + 1)) as [Hy Hd].
  { subst yoe. unfold year_start. Z.to_euclidean_division_equations. lia. }
  assert (∀ k, year_start (400 * era + k) = 146097 * era + year_start k) as Hera.
  { intros k. unfold year_start.
    replace ((400 * era + k) / 4) with (100 * era + k / 4)
      by (rewrite <-Z.div_add_l by lia; f_equal; lia).
    replace ((400 * era + k) / 100) with (4 * era + k / 100)
      by (rewrite <-Z.div_add_l by lia; f_equal; lia).
    replace ((400 * era + k) / 400) with (era + k / 400)
      by (rewrite <-Z.div_add_l by lia; f_equal; lia). lia. }
  set (doy := doe - (365 * yoe + yoe / 4 - yoe / 100)).
  assert (doy = doe - year_start yoe ∧ 0 ≤ doy < 366) as [Hdoy Hr].
  { subst doy. revert Hd. unfold year_start. clearbody yoe. intros.
    Z.to_euclidean_division_equations. lia. }
  set (mp := (5 * doy + 2) / 153).
  assert (0 ≤ mp < 12 ∧ month_start mp ≤ doy < month_start (mp + 1)) as [Hmp Hm].
  { subst mp. unfold month_start. clear -Hr. clearbody doy.
    Z.to_euclidean_division_equations. lia. }
  clearbody yoe doy mp. exists (400 * era + yoe), mp.
  rewrite <-(Z.add_assoc (400 * era) yoe 1), !Hera. unfold month_start in *.
  destruct (Z.ltb_spec mp 10).
  - destruct (Z.leb_spec (mp + 3) 2); [lia|]. split_and!; lia.
  - destruct (Z.leb_spec (mp - 9) 2); [|lia]. split_and!; lia.
Qed.

(** A date is before another. *)
Definition date_lt (x y : Z * Z * Z) : Prop :=
  let '(y1, m1, d1) := x in let '(y2, m2, d2) := y in
  y1 < y2 ∨ (y1 = y2 ∧ (m1 < m2 ∨ (m1 = m2 ∧ d1 < d2))).

Lemma civil_mono x y : x < y → date_lt (civil_of_days x) (civil_of_days y).
Proof.
  intros Hxy. pose proof (civil_spec x) as Hx. pose proof (civil_spec y) as Hy.
  destruct (civil_of_days x) as [[y1 m1] d1], (civil_of_days y) as [[y2 m2] d2].
  destruct Hx as (Y1 & p1 & Hp1 & Hm1 & Hk1 & HY1 & HM1 & Hd1).
  destruct Hy as (Y2 & p2 & Hp2 & Hm2 & Hk2 & HY2 & HM2 & Hd2). unfold date_lt.
  assert (Y1 ≤ Y2) as HY.
  { destruct (Z.le_gt_cases Y1 Y2); [done|].
    pose proof (year_start_mono (Y2 + 1) Y1 ltac:(lia)). lia. }
  destruct (decide (Y1 = Y2)) as [->|]; [|lia].
  assert (p1 ≤ p2) as HM.
  { destruct (Z.le_gt_cases p1 p2); [done|].
    pose proof (month_start_mono (p2 + 1) p1 ltac:(lia)). lia. }
  destruct (decide (p1 = p2)) as [->|]; lia.
Qed.

Lemma civil_range z : 0 ≤ z < 106752 →
  let '(y, m, d) := civil_of_days z in 0 ≤ y < 10000 ∧ 1 ≤ m ≤ 12 ∧ 1 ≤ d ≤ 31.
Proof.
  intros Hz. pose proof (civil_spec z) as Hs. destruct (civil_of_days z) as [[y m] d].
  destruct Hs as (Y & p & Hp & Hm & Hk & HY & HM & Hd).
  unfold year_start, month_start in *. Z.to_euclidean_division_equations. lia.
Qed.

(** *** Order and round trip of the text *)

(** The fields of a text that [FormatRFC3339] writes. *)
Lemma format_fields t : time_ok t →
  let s := Unix t in let sod := s mod 86400 in
  let '(y, m, d) := civil_of_days (s / 86400) in
  pad_check 4 y = true ∧ Forall (λ z, pad_check 2 z = true)
    [m; d; sod / 3600; sod / 60 mod 60; sod mod 60] ∧
  1 ≤ m ≤ 12 ∧ 1 ≤ d ≤ 31 ∧ sod / 3600 < 24.
Proof.
  intros Ht s sod. unfold time_ok in Ht.
  assert (0 ≤ s < 9223372037) as Hs.
  { subst s. unfold Unix. Z.to_euclidean_division_equations. lia. }
  assert (0 ≤ sod < 86400) as Hsod by (apply Z.mod_pos_bound; lia).
  pose proof (civil_range (s / 86400)) as Hc.
  destruct (civil_of_days (s / 86400)) as [[y m] d].
  destruct Hc as (? & ? & ?); [Z.to_euclidean_division_equations; lia|].
  split_and!; try lia; [by apply pad4_check| |Z.to_euclidean_division_equations; lia].
  repeat constructor; apply pad2_check; Z.to_euclidean_division_equations; lia.
Qed.

(** The instant without its fraction of a second. *)
Definition whole_second (t : Time) : Time := Unix t * 10 ^ 9.

Lemma ParseRFC3339_Format t : time_ok t → ParseRFC3339 (FormatRFC3339 t) = Some (whole_second t).
Proof.
  intros Ht. pose proof (format_fields t Ht) as Hf. cbv zeta in Hf.
  unfold FormatRFC3339, ParseRFC3339.
  pose proof (days_of_civil_of_days (Unix t / 86400)) as Hd.
  destruct (civil_of_days (Unix t / 86400)) as [[y m] d].
  destruct Hf as (Hy & H & Hm & Hdd & Hh). rewrite !Forall_cons in H.
  destruct H as (H1 & H2 & H3 & H4 & H5 & _).
  rewrite take_digits_pad by done. cbn [mbind option_bind]. rewrite scan_lit_app.
  do 4 (cbn [mbind option_bind]; rewrite take_digits_pad by done;
        cbn [mbind option_bind]; rewrite scan_lit_app).
  cbn [mbind option_bind]. rewrite take_digits_pad by done. cbn [mbind option_bind].
  rewrite <-(sapp_nil_r "Z"), scan_lit_app. cbn [mbind option_bind]. rewrite Hd.
  pose proof (Z.mod_pos_bound (Unix t) 86400 ltac:(lia)).
  pose proof (Z.mod_pos_bound (Unix t mod 86400 / 60) 60 ltac:(lia)).
  pose proof (Z.mod_pos_bound (Unix t mod 86400) 60 ltac:(lia)).
  destruct (_ && _) eqn:E; [|simpl in E; lia].
  unfold whole_second. do 2 f_equal. Z.to_euclidean_division_equations. lia.
Qed.

(** The texts are ordered as the seconds. *)
Lemma compare_Format t u : time_ok t → time_ok u →
  String.compare (FormatRFC3339 t) (FormatRFC3339 u) = Z.compare (Unix t) (Unix u).
Proof.
  intros Ht Hu. pose proof (format_fields t Ht) as Hft. pose proof (format_fields u Hu) as Hfu. cbv zeta in Hft, Hfu.
  unfold FormatRFC3339.
  pose proof (civil_mono (Unix t / 86400) (Unix u / 86400)) as Hlt.
  pose proof (civil_mono (Unix u / 86400) (Unix t / 86400)) as Hgt.
  assert (Unix t / 86400 = Unix u / 86400 →
    civil_of_days (Unix t / 86400) = civil_of_days (Unix u / 86400)) as Heq by congruence.
  destruct (civil_of_days (Unix t / 86400)) as [[y m] d],
    (civil_of_days (Unix u / 86400)) as [[y' m'] d'].
  destruct Hft as (Hy & H & _), Hfu as (Hy' & H' & _). rewrite !Forall_cons in H, H'.
  destruct H as (H1 & H2 & H3 & H4 & H5 & _), H' as (H1' & H2' & H3' & H4' & H5' & _).
  assert (∀ (c : ascii) s s', String.compare (String c "" +:+ s) (String c "" +:+ s')
    = String.compare s s') as Hlit.
  { intros c s s'. simpl. unfold Ascii.compare. by rewrite N.compare_refl. }
  rewrite compare_pad by done. rewrite Hlit, compare_pad by done. rewrite Hlit, compare_pad by done.
  rewrite Hlit, compare_pad by done. rewrite Hlit, compare_pad by done.
  rewrite Hlit, compare_pad by done. change (String.compare "Z" "Z") with Eq.
  unfold date_lt in *.
  set (a := Unix t) in *. set (b := Unix u) in *. clearbody a b. clear -Hlt Hgt Heq.
  assert (a / 86400 < b / 86400 ∨ a / 86400 = b / 86400 ∨ b / 86400 < a / 86400) as [Hc|[Hc|Hc]] by lia.
  - specialize (Hlt Hc). assert (a < b) as Hab by (Z.to_euclidean_division_equations; lia).
    rewrite (proj2 (Z.compare_lt_iff a b)) by done.
    destruct (Z.compare_spec y y'), (Z.compare_spec m m'), (Z.compare_spec d d'); lia || done.
  - specialize (Heq Hc). injection Heq as -> -> ->. rewrite !Z.compare_refl.
    destruct (Z.compare_spec (a mod 86400 / 3600) (b mod 86400 / 3600)),
      (Z.compare_spec (a mod 86400 / 60 mod 60) (b mod 86400 / 60 mod 60)),
      (Z.compare_spec (a mod 86400 mod 60) (b mod 86400 mod 60)),
      (Z.compare_spec a b); try done; exfalso; Z.to_euclidean_division_equations; lia.
  - specialize (Hgt Hc). assert (b < a) as Hab by (Z.to_euclidean_division_equations; lia).
    rewrite (proj2 (Z.compare_gt_iff a b)) by done.
    destruct (Z.compare_spec y y'), (Z.compare_spec m m'), (Z.compare_spec d d'); lia || done.
Qed.

Lemma Unix_whole_second t : Unix (whole_second t) = Unix t.
Proof. unfold whole_second, Unix. by rewrite Z.div_mul. Qed.

Lemma Format_whole_second t : FormatRFC3339 (whole_second t) = FormatRFC3339 t.
Proof. unfold FormatRFC3339. by rewrite Unix_whole_second. Qed.

Lemma whole_second_ok t : time_ok t → time_ok (whole_second t).
Proof.
  unfold time_ok, whole_second, Unix. intros. Z.to_euclidean_division_equations. lia.
Qed.

Lemma Format_le t u : time_ok t → time_ok u →
  String.le (FormatRFC3339 t) (FormatRFC3339 u) ↔ Unix t ≤ Unix u.
Proof.
  intros Ht Hu. unfold String.le, String.leb. rewrite compare_Format by done.
  by destruct (Z.compare_spec (Unix t) (Unix u)); split; try lia.
Qed.

Lemma Format_ltb t u : time_ok t → time_ok u →
  String.ltb (FormatRFC3339 t) (FormatRFC3339 u) = (Unix t <? Unix u).
Proof. intros Ht Hu. unfold String.ltb, Z.ltb. by rewrite compare_Format. Qed.
