(* ===== verification/Storage.v ===== *)
(** * The storage interface

    [internal/storage/storage.go]: the interface through which the rest of the
    program reads and writes checks, settings, tokens, schedules, monitors and
    changelog entries, and the [Noop] implementation.

    The interface is the class [StorageOps] on the state of a store.  What a
    persistent implementation promises is the class [StorageLaws]: its state
    has a [view] as an abstract store, and every operation on a store without
    faults acts on the view as the corresponding abstract operation. *)

From S2P Require Import Prelude.
From S2P Require Import GoString.
From S2P Require Import DnsTypes.
From S2P Require Import Settings.
From S2P Require Import Session.
From S2P Require Import GoTime.

Local Open Scope Z_scope.

(* src: internal/storage/storage.go Storage *)
Class StorageOps (S : Type) := {
  SaveCheck : Check → M S (option error);
  GetCheck : string → M S (result Check);
  ListChecks : Z → Z → M S (result (list Check));
  DeleteCheck : string → M S (option error);
  (** The time argument is the clock that the purge compares with. *)
  PurgeOldChecks : Z → Time → M S (option error);
  GetSettings : M S (result Settings);
  SaveSettings : Settings → M S (option error);
  ListAPITokens : M S (result (list APIToken));
  CreateAPIToken : APIToken → M S (option error);
  DeleteAPIToken : string → M S (option error);
  ListSchedules : M S (result (list Schedule));
  SaveSchedule : Schedule → M S (option error);
  DeleteSchedule : string → M S (option error);
  ListMonitors : M S (result (list Monitor));
  GetMonitor : string → M S (result Monitor);
  SaveMonitor : Monitor → M S (option error);
  DeleteMonitor : string → M S (option error);
  ListMonitorEvents : string → Z → M S (result (list MonitorEvent));
  AppendMonitorEvent : MonitorEvent → M S (option error)
}.

(** ** The store that keeps nothing *)

(* src: internal/storage/storage.go Noop *)
Definition Noop := unit.

(* src: internal/storage/storage.go 50-98 Noop *)
#[export] Instance noop_ops : StorageOps Noop := {|
  SaveCheck _ s := (None, s);
  GetCheck _ s := (Err ErrNotFound, s);
  ListChecks _ _ s := (Ok [], s);
  DeleteCheck _ s := (None, s);
  PurgeOldChecks _ _ s := (None, s);
  GetSettings s := (Ok Default, s);
  SaveSettings _ s := (None, s);
  ListAPITokens s := (Ok [], s);
  CreateAPIToken _ s := (None, s);
  DeleteAPIToken _ s := (None, s);
  ListSchedules s := (Ok [], s);
  SaveSchedule _ s := (None, s);
  DeleteSchedule _ s := (None, s);
  ListMonitors s := (Ok [], s);
  GetMonitor _ s := (Err ErrNotFound, s);
  SaveMonitor _ s := (None, s);
  DeleteMonitor _ s := (None, s);
  ListMonitorEvents _ _ s := (Ok [], s);
  AppendMonitorEvent _ s := (None, s)
|}.

(** ** The abstract store *)

Record AbsStore := mkAbsStore {
  abs_checks : gmap string Check;
  abs_settings : option Settings;
  abs_tokens : gmap string APIToken;
  abs_schedules : gmap string Schedule;
  abs_monitors : gmap string Monitor;
  abs_events : gmap string MonitorEvent
}.

Definition abs_empty : AbsStore := mkAbsStore ∅ None ∅ ∅ ∅ ∅.

Definition set_checks (a : AbsStore) x := mkAbsStore x (abs_settings a) (abs_tokens a)
  (abs_schedules a) (abs_monitors a) (abs_events a).
Definition set_settings (a : AbsStore) x := mkAbsStore (abs_checks a) x (abs_tokens a)
  (abs_schedules a) (abs_monitors a) (abs_events a).
Definition set_tokens (a : AbsStore) x := mkAbsStore (abs_checks a) (abs_settings a) x
  (abs_schedules a) (abs_monitors a) (abs_events a).
Definition set_schedules (a : AbsStore) x := mkAbsStore (abs_checks a) (abs_settings a)
  (abs_tokens a) x (abs_monitors a) (abs_events a).
Definition set_monitors (a : AbsStore) x := mkAbsStore (abs_checks a) (abs_settings a)
  (abs_tokens a) (abs_schedules a) x (abs_events a).
Definition set_events (a : AbsStore) x := mkAbsStore (abs_checks a) (abs_settings a)
  (abs_tokens a) (abs_schedules a) (abs_monitors a) x.

(** Deletion by identifier: an absent one is [ErrNotFound]. *)
Definition abs_delete {A} (m : gmap string A) (id : string) : option error * gmap string A :=
  match m !! id with
  | Some _ => (None, delete id m)
  | None => (Some ErrNotFound, m)
  end.

(** Insertion under a primary key: a taken identifier stays as it is. *)
Definition abs_insert {A} (id : string) (a : A) (m : gmap string A) : gmap string A :=
  match m !! id with Some _ => m | None => <[id := a]> m end.

Definition abs_get {A} (m : gmap string A) (id : string) : result A :=
  match m !! id with Some a => Ok a | None => Err ErrNotFound end.

Definition events_of (a : AbsStore) (mid : string) : gmap string MonitorEvent :=
  filter (λ p, evMonitorID p.2 = mid) (abs_events a).

(** The limit of a changelog listing: 100 when none is given. *)
Definition event_limit (limit : Z) : nat := Z.to_nat (if limit <=? 0 then 100 else limit).

(** A time column keeps an instant at the resolution of the store: the
    argument [keep] below.  A listing with the most recent first is one up to
    that resolution. *)
Definition newest_first {A} (keep : Time → Time) (created : A → Time) (l : list A) : Prop :=
  StronglySorted (λ x y, keep (created y) ≤ keep (created x)) l.

(** A token as the stores keep it: never used, created at a kept instant. *)
Definition kept_token (keep : Time → Time) (tk : APIToken) : APIToken :=
  mkAPIToken (tokID tk) (tokName tk) (tokHash tk) (tokPrefix tk)
    (keep (tokCreatedAt tk)) None.

(** The oldest instant that a purge keeps. *)
Definition purge_cutoff (days : Z) (now : Time) : Time := now - days * 86400 * 10 ^ 9.

(** The checks that a purge keeps. *)
Definition abs_purge (keep : Time → Time) (days : Z) (now : Time) (m : gmap string Check) : gmap string Check :=
  filter (λ p, keep (purge_cutoff days now) ≤ keep (cCreatedAt p.2)) m.

(** ** What an implementation promises

    [healthy s] says that no operation will fail for reasons outside the
    program (disk, network) from [s] on.  The [ok] predicates single out the
    values that the encoding of the store represents exactly (text that is
    valid UTF-8, finite coordinates) and the pages and purges it accepts;
    [kept] is the resolution of its time columns. *)
Class StorageLaws (S : Type) (O : StorageOps S) := {
  view : S → AbsStore;
  healthy : S → Prop;
  okCheck : Check → Prop;
  okSettings : Settings → Prop;
  okSchedule : Schedule → Prop;
  okMonitor : Monitor → Prop;
  okEvent : MonitorEvent → Prop;
  okToken : APIToken → Prop;
  okPage : Z → Z → Prop;
  okPurge : Z → Time → Prop;
  kept : Time → Time;
  okPage_nonneg : ∀ limit offset, 0 ≤ limit → 0 ≤ offset → okPage limit offset;
  SaveCheck_law : ∀ c s, healthy s → okCheck c → ∃ s', SaveCheck c s = (None, s') ∧ healthy s' ∧
    view s' = set_checks (view s) (<[cID c := c]> (abs_checks (view s)));
  GetCheck_law : ∀ id s, healthy s → ∃ s', GetCheck id s = (abs_get (abs_checks (view s)) id, s')
    ∧ healthy s' ∧ view s' = view s;
  DeleteCheck_law : ∀ id s, healthy s → ∃ s',
    DeleteCheck id s = ((abs_delete (abs_checks (view s)) id).1, s') ∧ healthy s' ∧
    view s' = set_checks (view s) (abs_delete (abs_checks (view s)) id).2;
  GetSettings_law : ∀ s, healthy s → ∃ s',
    GetSettings s = (Ok (default Default (abs_settings (view s))), s') ∧
    healthy s' ∧ view s' = view s;
  SaveSettings_law : ∀ x s, healthy s → okSettings x → ∃ s', SaveSettings x s = (None, s') ∧ healthy s' ∧
    view s' = set_settings (view s) (Some x);
  GetMonitor_law : ∀ id s, healthy s → ∃ s',
    GetMonitor id s = (abs_get (abs_monitors (view s)) id, s') ∧ healthy s' ∧ view s' = view s;
  SaveMonitor_law : ∀ m s, healthy s → okMonitor m → ∃ s', SaveMonitor m s = (None, s') ∧ healthy s' ∧
    view s' = set_monitors (view s) (<[mID m := m]> (abs_monitors (view s)));
  DeleteMonitor_law : ∀ id s, healthy s → ∃ s',
    DeleteMonitor id s = ((abs_delete (abs_monitors (view s)) id).1, s') ∧ healthy s' ∧
    view s' =
      (if decide (abs_monitors (view s) !! id = None) then view s
       else set_events (set_monitors (view s) (delete id (abs_monitors (view s))))
              (filter (λ p, evMonitorID p.2 ≠ id) (abs_events (view s))));
  ListMonitorEvents_law : ∀ mid limit s, healthy s → ∃ s' l,
    ListMonitorEvents mid limit s = (Ok (take (event_limit limit) l), s') ∧
    healthy s' ∧ view s' = view s ∧
    l ≡ₚ (map_to_list (events_of (view s) mid)).*2 ∧ newest_first kept evTimestamp l;
  (** An entry whose identifier is taken is refused. *)
  AppendMonitorEvent_law : ∀ e s, healthy s → okEvent e → ∃ err s',
    AppendMonitorEvent e s = (err, s') ∧ healthy s' ∧
    (err = None ↔ abs_events (view s) !! evID e = None) ∧
    view s' = set_events (view s) (abs_insert (evID e) e (abs_events (view s)));
  ListSchedules_law : ∀ s, healthy s → ∃ s' l, ListSchedules s = (Ok l, s') ∧
    healthy s' ∧ view s' = view s ∧ l ≡ₚ (map_to_list (abs_schedules (view s))).*2;
  SaveSchedule_law : ∀ x s, healthy s → okSchedule x → ∃ s', SaveSchedule x s = (None, s') ∧ healthy s' ∧
    view s' = set_schedules (view s) (<[schID x := x]> (abs_schedules (view s)));
  DeleteSchedule_law : ∀ id s, healthy s → ∃ s',
    DeleteSchedule id s = ((abs_delete (abs_schedules (view s)) id).1, s') ∧ healthy s' ∧
    view s' = set_schedules (view s) (abs_delete (abs_schedules (view s)) id).2;
  ListMonitors_law : ∀ s, healthy s → ∃ s' l, ListMonitors s = (Ok l, s') ∧
    healthy s' ∧ view s' = view s ∧ l ≡ₚ (map_to_list (abs_monitors (view s))).*2;
  ListChecks_law : ∀ limit offset s, healthy s → okPage limit offset → ∃ s' l,
    ListChecks limit offset s = (Ok (limit_offset limit offset l), s') ∧
    healthy s' ∧ view s' = view s ∧
    l ≡ₚ (map_to_list (abs_checks (view s))).*2 ∧ newest_first kept cCreatedAt l;
  PurgeOldChecks_law : ∀ days now s, healthy s → okPurge days now → ∃ s',
    PurgeOldChecks days now s = (None, s') ∧ healthy s' ∧
    view s' = set_checks (view s) (abs_purge kept days now (abs_checks (view s)));
  ListAPITokens_law : ∀ s, healthy s → ∃ s' l, ListAPITokens s = (Ok l, s') ∧
    healthy s' ∧ view s' = view s ∧
    l ≡ₚ (map_to_list (abs_tokens (view s))).*2 ∧ newest_first kept tokCreatedAt l;
  (** A token whose identifier is taken is refused. *)
  CreateAPIToken_law : ∀ tk s, healthy s → okToken tk → ∃ err s',
    CreateAPIToken tk s = (err, s') ∧ healthy s' ∧
    (err = None ↔ abs_tokens (view s) !! tokID tk = None) ∧
    view s' = set_tokens (view s) (abs_insert (tokID tk) (kept_token kept tk) (abs_tokens (view s)));
  DeleteAPIToken_law : ∀ id s, healthy s → ∃ s',
    DeleteAPIToken id s = ((abs_delete (abs_tokens (view s)) id).1, s') ∧ healthy s' ∧
    view s' = set_tokens (view s) (abs_delete (abs_tokens (view s)) id).2
}.

(** ** Histories of operations *)

Inductive op :=
| OSaveCheck (c : Check) | OGetCheck (id : string) | ODeleteCheck (id : string)
| OGetSettings | OSaveSettings (x : Settings)
| OGetMonitor (id : string) | OSaveMonitor (m : Monitor) | ODeleteMonitor (id : string)
| OListMonitors
| OListMonitorEvents (mid : string) (limit : Z) | OAppendMonitorEvent (e : MonitorEvent)
| OListSchedules | OSaveSchedule (x : Schedule) | ODeleteSchedule (id : string)
| OListChecks (limit offset : Z) | OPurgeOldChecks (days : Z) (now : Time)
| OListAPITokens | OCreateAPIToken (tk : APIToken) | ODeleteAPIToken (id : string).

Inductive resp :=
| RDone (e : option error)
| RCheck (r : result Check)
| RSettings (r : result Settings)
| RMonitor (r : result Monitor)
| RMonitors (r : result (list Monitor))
| REvents (r : result (list MonitorEvent))
| RSchedules (r : result (list Schedule))
| RChecks (r : result (list Check))
| RTokens (r : result (list APIToken)).

Definition do_op {S} `{StorageOps S} (o : op) : M S resp :=
  match o with
  | OSaveCheck c => RDone <$> SaveCheck c
  | OGetCheck id => RCheck <$> GetCheck id
  | ODeleteCheck id => RDone <$> DeleteCheck id
  | OGetSettings => RSettings <$> GetSettings
  | OSaveSettings x => RDone <$> SaveSettings x
  | OGetMonitor id => RMonitor <$> GetMonitor id
  | OSaveMonitor m => RDone <$> SaveMonitor m
  | ODeleteMonitor id => RDone <$> DeleteMonitor id
  | OListMonitors => RMonitors <$> ListMonitors
  | OListMonitorEvents mid limit => REvents <$> ListMonitorEvents mid limit
  | OAppendMonitorEvent e => RDone <$> AppendMonitorEvent e
  | OListSchedules => RSchedules <$> ListSchedules
  | OSaveSchedule x => RDone <$> SaveSchedule x
  | ODeleteSchedule id => RDone <$> DeleteSchedule id
  | OListChecks limit offset => RChecks <$> ListChecks limit offset
  | OPurgeOldChecks days now => RDone <$> PurgeOldChecks days now
  | OListAPITokens => RTokens <$> ListAPITokens
  | OCreateAPIToken tk => RDone <$> CreateAPIToken tk
  | ODeleteAPIToken id => RDone <$> DeleteAPIToken id
  end.

Fixpoint do_ops {S} `{StorageOps S} (os : list op) : M S (list resp) :=
  match os with
  | [] => mret []
  | o :: os' => r ← do_op o; rs ← do_ops os'; mret (r :: rs)
  end.

(** The abstract effect of an operation. *)
Definition abs_next (keep : Time → Time) (o : op) (a : AbsStore) : AbsStore :=
  match o with
  | OSaveCheck c => set_checks a (<[cID c := c]> (abs_checks a))
  | ODeleteCheck id => set_checks a (delete id (abs_checks a))
  | OSaveSettings x => set_settings a (Some x)
  | OSaveMonitor m => set_monitors a (<[mID m := m]> (abs_monitors a))
  | ODeleteMonitor id =>
      if decide (abs_monitors a !! id = None) then a
      else set_events (set_monitors a (delete id (abs_monitors a)))
             (filter (λ p, evMonitorID p.2 ≠ id) (abs_events a))
  | OAppendMonitorEvent e => set_events a (abs_insert (evID e) e (abs_events a))
  | OSaveSchedule x => set_schedules a (<[schID x := x]> (abs_schedules a))
  | ODeleteSchedule id => set_schedules a (delete id (abs_schedules a))
  | OPurgeOldChecks days now => set_checks a (abs_purge keep days now (abs_checks a))
  | OCreateAPIToken tk => set_tokens a (abs_insert (tokID tk) (kept_token keep tk) (abs_tokens a))
  | ODeleteAPIToken id => set_tokens a (delete id (abs_tokens a))
  | _ => a
  end.

Definition abs_deleted {A} (m : gmap string A) (id : string) : option error :=
  match m !! id with Some _ => None | None => Some ErrNotFound end.

(** The answers an operation may give: schedules and monitors are listed in
    any order; checks, tokens and the events of a monitor with the most recent
    first, of which a limited listing is a section. *)
Definition abs_answer (keep : Time → Time) (o : op) (a : AbsStore) (r : resp) : Prop :=
  match o with
  | OSaveCheck _ | OSaveSettings _ | OSaveMonitor _ | OSaveSchedule _
  | OPurgeOldChecks _ _ => r = RDone None
  | OAppendMonitorEvent e => ∃ err, r = RDone err ∧ (err = None ↔ abs_events a !! evID e = None)
  | OCreateAPIToken tk => ∃ err, r = RDone err ∧ (err = None ↔ abs_tokens a !! tokID tk = None)
  | OGetCheck id => r = RCheck (abs_get (abs_checks a) id)
  | ODeleteCheck id => r = RDone (abs_deleted (abs_checks a) id)
  | OGetSettings => r = RSettings (Ok (default Default (abs_settings a)))
  | OGetMonitor id => r = RMonitor (abs_get (abs_monitors a) id)
  | ODeleteMonitor id => r = RDone (abs_deleted (abs_monitors a) id)
  | OListMonitors => ∃ l, r = RMonitors (Ok l) ∧ l ≡ₚ (map_to_list (abs_monitors a)).*2
  | OListMonitorEvents mid limit => ∃ l,
      r = REvents (Ok (take (event_limit limit) l)) ∧
      l ≡ₚ (map_to_list (events_of a mid)).*2 ∧ newest_first keep evTimestamp l
  | OListSchedules => ∃ l, r = RSchedules (Ok l) ∧ l ≡ₚ (map_to_list (abs_schedules a)).*2
  | ODeleteSchedule id => r = RDone (abs_deleted (abs_schedules a) id)
  | OListChecks limit offset => ∃ l, r = RChecks (Ok (limit_offset limit offset l)) ∧
      l ≡ₚ (map_to_list (abs_checks a)).*2 ∧ newest_first keep cCreatedAt l
  | OListAPITokens => ∃ l, r = RTokens (Ok l) ∧
      l ≡ₚ (map_to_list (abs_tokens a)).*2 ∧ newest_first keep tokCreatedAt l
  | ODeleteAPIToken id => r = RDone (abs_deleted (abs_tokens a) id)
  end.

(** The answers of a history, from an abstract store on. *)
Fixpoint abs_history (keep : Time → Time) (os : list op) (a : AbsStore) (rs : list resp) : Prop :=
  match os, rs with
  | [], [] => True
  | o :: os', r :: rs' => abs_answer keep o a r ∧ abs_history keep os' (abs_next keep o a) rs'
  | _, _ => False
  end.

Definition abs_final (keep : Time → Time) (os : list op) (a : AbsStore) : AbsStore :=
  foldl (λ a o, abs_next keep o a) a os.

(** What a caller respects: stored values are representable, and pages and
    purges are ones that the store accepts. *)
Definition op_pre {S} {O : StorageOps S} `{!StorageLaws S O} (o : op) (a : AbsStore) : Prop :=
  match o with
  | OSaveCheck c => okCheck c
  | OSaveSettings x => okSettings x
  | OSaveMonitor m => okMonitor m
  | OAppendMonitorEvent e => okEvent e
  | OSaveSchedule x => okSchedule x
  | OListChecks limit offset => okPage limit offset
  | OPurgeOldChecks days now => okPurge days now
  | OCreateAPIToken tk => okToken tk
  | _ => True
  end.

Fixpoint ops_pre {S} {O : StorageOps S} `{!StorageLaws S O} (os : list op) (a : AbsStore) : Prop :=
  match os with
  | [] => True
  | o :: os' => op_pre o a ∧ ops_pre os' (abs_next kept o a)
  end.

(** * Lemmas *)

Lemma abs_delete_spec {A} (m : gmap string A) id :
  abs_delete m id = (abs_deleted m id, delete id m).
Proof.
  unfold abs_delete, abs_deleted. destruct (m !! id) eqn:E; [done|].
  by rewrite delete_id.
Qed.

Lemma set_checks_same a : set_checks a (abs_checks a) = a.
Proof. by destruct a. Qed.

Section History.
Context {S : Type} {O : StorageOps S} `{!StorageLaws S O}.

(** One operation on a healthy store. *)
Lemma do_op_correct o s : healthy s → op_pre o (view s) → ∃ r s',
  do_op o s = (r, s') ∧ healthy s' ∧ view s' = abs_next kept o (view s) ∧ abs_answer kept o (view s) r.
Proof.
  intros Hh Hp.
  destruct o; simpl in *; unfold fmap, M_fmap;
    [ destruct (SaveCheck_law c s Hh Hp) as (s' & -> & ? & ?)
    | destruct (GetCheck_law id s Hh) as (s' & -> & ? & ?)
    | destruct (DeleteCheck_law id s Hh) as (s' & -> & ? & Hv);
      rewrite abs_delete_spec in Hv |- *
    | destruct (GetSettings_law s Hh) as (s' & -> & ? & ?)
    | destruct (SaveSettings_law x s Hh Hp) as (s' & -> & ? & ?)
    | destruct (GetMonitor_law id s Hh) as (s' & -> & ? & ?)
    | destruct (SaveMonitor_law m s Hh Hp) as (s' & -> & ? & ?)
    | destruct (DeleteMonitor_law id s Hh) as (s' & -> & ? & Hv);
      rewrite abs_delete_spec
    | destruct (ListMonitors_law s Hh) as (s' & l & -> & ? & ? & ?)
    | destruct (ListMonitorEvents_law mid limit s Hh) as (s' & l & -> & ? & ? & ? & ?)
    | destruct (AppendMonitorEvent_law e s Hh Hp) as (err & s' & -> & ? & ? & ?)
    | destruct (ListSchedules_law s Hh) as (s' & l & -> & ? & ? & ?)
    | destruct (SaveSchedule_law x s Hh Hp) as (s' & -> & ? & ?)
    | destruct (DeleteSchedule_law id s Hh) as (s' & -> & ? & Hv);
      rewrite abs_delete_spec in Hv |- *
    | destruct (ListChecks_law limit offset s Hh Hp) as (s' & l & -> & ? & ? & ? & ?)
    | destruct (PurgeOldChecks_law days now s Hh Hp) as (s' & -> & ? & ?)
    | destruct (ListAPITokens_law s Hh) as (s' & l & -> & ? & ? & ? & ?)
    | destruct (CreateAPIToken_law tk s Hh Hp) as (err & s' & -> & ? & ? & ?)
    | destruct (DeleteAPIToken_law id s Hh) as (s' & -> & ? & Hv);
      rewrite abs_delete_spec in Hv |- * ];
    eexists _, _; (split; [reflexivity|]); (split; [done|]); (split; [done|]);
    simpl; eauto.
Qed.

(** A whole history. *)
Lemma do_ops_correct os s : healthy s → ops_pre os (view s) → ∃ rs s',
  do_ops os s = (rs, s') ∧ healthy s' ∧ view s' = abs_final kept os (view s) ∧
  abs_history kept os (view s) rs.
Proof.
  revert s. induction os as [|o os IH]; intros s Hh Hp; simpl in *.
  { eexists _, _. done. }
  destruct Hp as [Hp Hps].
  destruct (do_op_correct o s Hh Hp) as (r & s1 & Ho & Hh1 & Hv1 & Ha).
  rewrite <-Hv1 in Hps. destruct (IH s1 Hh1 Hps) as (rs & s2 & Hos & Hh2 & Hv2 & Has).
  exists (r :: rs), s2. cbv [mbind M_bind mret M_ret]. rewrite Ho, Hos.
  rewrite Hv1 in Hv2, Has. done.
Qed.

End History.
