(* ===== verification/Interleave.v ===== *)
(** * Requests that run at the same time

    [net/http] serves every request on a goroutine of its own, and the requests
    share the store, whose calls are atomic (one statement or transaction each,
    [internal/storage]).  This file gives that a meaning that the handlers, as
    functions on the state of a store, can be run under: a store [shared] on
    which every call of a request first finds whatever state the other requests
    have left behind, and which records the calls; and the step relation
    [request_step], in which any of the requests in flight makes its next call.

    [StoreKeeps] is what a handler may then still rely on: an invariant of the
    abstract store that all calls preserve.  The store of a single request and
    the shared one are its two instances, so that a handler that is proved
    against the class is right in both. *)

From S2P Require Import Prelude.
From S2P Require Import GoString.
From S2P Require Import DnsTypes.
From S2P Require Import Crypto.
From S2P Require Import Settings.
From S2P Require Import Env.
From S2P Require Import GoTime.
From S2P Require Import Storage.

Local Open Scope Z_scope.

(** ** The store that a request shares *)

(** [sh_next]: the states in which the next calls find the store; after the
    last of them the request is left alone.  [sh_calls]: the calls so far. *)
Record shared (S : Type) := mkShared {
  sh_now : S;
  sh_next : list S;
  sh_calls : list op
}.
Arguments mkShared {S}.
Arguments sh_now {S}.
Arguments sh_next {S}.
Arguments sh_calls {S}.

Section Shared.
Context {S : Type} {SO : StorageOps S}.

(** The call [o], made by [m], in the state that it finds. *)
Definition at_call {A} (o : op) (m : M S A) : M (shared S) A := λ sh,
  let '(a, s) := m (default (sh_now sh) (head (sh_next sh))) in
  (a, mkShared s (tail (sh_next sh)) (sh_calls sh ++ [o])).

Definition shared_ops : StorageOps (shared S) := {|
  SaveCheck c := at_call (OSaveCheck c) (SaveCheck c);
  GetCheck id := at_call (OGetCheck id) (GetCheck id);
  ListChecks limit offset := at_call (OListChecks limit offset) (ListChecks limit offset);
  DeleteCheck id := at_call (ODeleteCheck id) (DeleteCheck id);
  PurgeOldChecks days now := at_call (OPurgeOldChecks days now) (PurgeOldChecks days now);
  GetSettings := at_call OGetSettings GetSettings;
  SaveSettings x := at_call (OSaveSettings x) (SaveSettings x);
  ListAPITokens := at_call OListAPITokens ListAPITokens;
  CreateAPIToken tk := at_call (OCreateAPIToken tk) (CreateAPIToken tk);
  DeleteAPIToken id := at_call (ODeleteAPIToken id) (DeleteAPIToken id);
  ListSchedules := at_call OListSchedules ListSchedules;
  SaveSchedule x := at_call (OSaveSchedule x) (SaveSchedule x);
  DeleteSchedule id := at_call (ODeleteSchedule id) (DeleteSchedule id);
  ListMonitors := at_call OListMonitors ListMonitors;
  GetMonitor id := at_call (OGetMonitor id) (GetMonitor id);
  SaveMonitor m := at_call (OSaveMonitor m) (SaveMonitor m);
  DeleteMonitor id := at_call (ODeleteMonitor id) (DeleteMonitor id);
  ListMonitorEvents mid limit := at_call (OListMonitorEvents mid limit) (ListMonitorEvents mid limit);
  AppendMonitorEvent e := at_call (OAppendMonitorEvent e) (AppendMonitorEvent e)
|}.

(** ** Interleavings *)

(** What a request does to the store from its beginning to its end. *)
Abbreviation request := (shared S → shared S).

(** The next call of a request whose earlier calls found the store in the
    states [seen], when it finds it in [s]; [None] when it makes no more. *)
Definition next_call (p : request) (seen : list S) (s : S) : option op :=
  sh_calls (p (mkShared s (seen ++ [s]) [])) !! length seen.

(** The store, and what each request has seen of it. *)
Inductive request_step (reqs : list request) : relation (S * list (list S)) :=
| request_call i p seen hist s o :
    reqs !! i = Some p → hist !! i = Some seen → next_call p seen s = Some o →
    request_step reqs (s, hist) ((do_op o s).2, <[i := seen ++ [s]]> hist).

(** The states that requests which begin on the store [s] can lead to. *)
Definition interleaved (reqs : list request) (s : S) : S * list (list S) → Prop :=
  rtc (request_step reqs) (s, replicate (length reqs) []).

End Shared.

(** ** What a handler relies on *)

(** An operation that only reads. *)
Definition reading (o : op) : Prop :=
  match o with
  | OGetCheck _ | OGetSettings | OGetMonitor _ | OListMonitors | OListMonitorEvents _ _
  | OListSchedules | OListAPITokens => True
  | OListChecks limit offset => 0 ≤ limit ∧ 0 ≤ offset
  | _ => False
  end.

(** Under [J], a call that [G] allows answers as some store with the invariant
    [I] would, and [J] holds again. *)
Class StoreKeeps {S} (SO : StorageOps S) (keep : Time → Time) (I : AbsStore → Prop)
    (G : op → Prop) (J : S → Prop) : Prop := {
  reading_allowed : ∀ o, reading o → G o;
  do_op_keeps : ∀ o s, G o → J s →
    J (do_op o s).2 ∧ ∃ a, I a ∧ abs_answer keep o a (do_op o s).1
}.

#[local] Existing Instance shared_ops.

Section Keeps.
Context {S : Type} {SO : StorageOps S} `{SL : !StorageLaws S SO} (I : AbsStore → Prop).

(** A call that the store represents and that preserves the invariant. *)
Definition allowed (o : op) : Prop :=
  (∀ a, op_pre o a) ∧ ∀ a, I a → I (abs_next kept o a).

Definition store_ok (s : S) : Prop := healthy s ∧ I (view s).

Lemma allowed_reading o : reading o → allowed o.
Proof. destruct o; try done. intros [? ?]. split; [|done]. intros a. by apply okPage_nonneg. Qed.

Lemma store_keeps : StoreKeeps SO kept I allowed store_ok.
Proof.
  split; [exact allowed_reading|]. intros o s [Hp Ho] [Hh HI].
  destruct (do_op_correct o s Hh (Hp _)) as (r & s' & -> & Hh' & Hv & Ha).
  cbn [fst snd]. split; [split; [done|rewrite Hv; by apply Ho]|by exists (view s)].
Qed.

(** What may be demanded of the calls of a request besides. *)
Context (G : op → Prop) (HG : ∀ o, G o → allowed o) (HR : ∀ o, reading o → G o).

(** Whatever state a call finds has the invariant, and the calls so far are as
    demanded. *)
Definition shared_ok (sh : shared S) : Prop :=
  store_ok (sh_now sh) ∧ Forall store_ok (sh_next sh) ∧ Forall G (sh_calls sh).

Lemma do_op_shared o (sh : shared S) :
  do_op o sh = at_call o (do_op o) sh.
Proof.
  unfold at_call. destruct o; cbn [do_op]; unfold fmap, M_fmap; cbn [SaveCheck GetCheck ListChecks
    DeleteCheck PurgeOldChecks GetSettings SaveSettings ListAPITokens CreateAPIToken DeleteAPIToken
    ListSchedules SaveSchedule DeleteSchedule ListMonitors GetMonitor SaveMonitor DeleteMonitor
    ListMonitorEvents AppendMonitorEvent shared_ops]; unfold at_call;
    match goal with |- context [let '(_, _) := ?m ?s in _] => by destruct (m s) end.
Qed.

Lemma shared_keeps : StoreKeeps shared_ops kept I G shared_ok.
Proof.
  split; [exact HR|]. intros o [s next calls] Ho (Hs & Hn & Hc).
  rewrite do_op_shared. unfold at_call. cbn [sh_now sh_next sh_calls] in *.
  assert (store_ok (default s (head next))) as Hf by (by destruct Hn).
  pose proof (do_op_keeps (StoreKeeps := store_keeps) o _ (HG o Ho) Hf) as [Hs' Ha].
  destruct (do_op o (default s (head next))) as [r s']. cbn [fst snd] in *.
  split; [|done]. split; [done|]. split; [by destruct Hn|].
  by apply Forall_app_2, Forall_cons_2; [..|constructor].
Qed.

(** A call that a request makes next is one of those that it makes in the end. *)
Lemma next_call_ok (p : shared S → shared S) seen s o :
  (∀ sh, shared_ok sh → shared_ok (p sh)) → Forall store_ok seen → store_ok s →
  next_call p seen s = Some o → G o.
Proof.
  intros Hp Hseen Hs Ho.
  assert (shared_ok (mkShared s (seen ++ [s]) [])) as Hsh.
  { split; [done|]. split; [|constructor]. by apply Forall_app_2, Forall_cons_2. }
  destruct (Hp _ Hsh) as (_ & _ & Hc). by eapply Forall_lookup_1 in Hc.
Qed.

(** An invariant of the store and of what the requests see. *)
Definition system_ok (x : S * list (list S)) : Prop :=
  store_ok x.1 ∧ Forall (Forall store_ok) x.2.

Lemma request_step_ok reqs x x' :
  Forall (λ p, ∀ sh, shared_ok sh → shared_ok (p sh)) reqs →
  request_step reqs x x' → system_ok x → system_ok x'.
Proof.
  intros Hreqs Hstep [Hs Hh]. destruct Hstep as [i p seen hist s o Hi Hseen Ho].
  cbn [fst snd] in *. eapply Forall_lookup_1 in Hreqs; [|exact Hi].
  pose proof (Forall_lookup_1 _ _ _ _ Hh Hseen) as Hok.
  pose proof (next_call_ok p seen s o Hreqs Hok Hs Ho) as Ha.
  split; [by apply (do_op_keeps (StoreKeeps := store_keeps) o s (HG o Ha))|]. apply Forall_insert; [done|].
  by apply Forall_app_2, Forall_cons_2.
Qed.

(** Requests each of which keeps the invariant whatever the others do, as long
    as they keep it, keep it together. *)
Lemma interleaved_ok reqs s x :
  Forall (λ p, ∀ sh, shared_ok sh → shared_ok (p sh)) reqs →
  store_ok s → interleaved reqs s x → system_ok x.
Proof.
  intros Hreqs Hs Hx. refine (rtc_ind_r system_ok _ _ _ _ Hx).
  - split; [done|]. apply Forall_replicate. constructor.
  - intros y z _ Hstep Hy. by eapply request_step_ok.
Qed.

End Keeps.

(** ** The steps of a computation on the world *)

Section Steps.
Context {S C N : Type} {SO : StorageOps S} {EN : Env N}
  (keep : Time → Time) (I : AbsStore → Prop) (G : op → Prop) (J : S → Prop)
  `{SK : !StoreKeeps SO keep I G J}.

Abbreviation world := (World S C N).

Definition calm (w : world) : Prop := J (w_store w).

(** A call [m] is the operation [o], whose answer is wrapped by [f]. *)
Lemma keeping_call {A} (o : op) (f : A → resp) (m : M S A) (Q : A → Prop) :
  (do_op o : M S resp) = (f <$> m) → G o →
  (∀ a x, I a → abs_answer keep o a (f x) → Q x) → keeping calm Q (on_store m).
Proof.
  intros Hm Ho HQ w Hw. destruct (do_op_keeps o (w_store w) Ho Hw) as [Hs (a & Ha & Hx)].
  rewrite Hm in Hs, Hx. unfold fmap, M_fmap in Hs, Hx. unfold on_store.
  destruct (m (w_store w)) as [x s]. split; [done|]. by eapply HQ.
Qed.

Lemma keeping_write (o : op) (m : M S (option error)) :
  do_op o = (RDone <$> m) → G o → keeping calm (λ _, True) (on_store m).
Proof. intros Hm Ho. by eapply keeping_call. Qed.

Lemma keeping_read {A} (o : op) (f : A → resp) (m : M S A) :
  do_op o = (f <$> m) → reading o → keeping calm (λ _, True) (on_store m).
Proof. intros Hm Ho. eapply keeping_call; [done|by apply reading_allowed|done]. Qed.

Lemma keeping_get_settings : keeping calm (λ _, True) (on_store GetSettings).
Proof. by apply (keeping_read OGetSettings RSettings). Qed.

Lemma keeping_get_check id : keeping calm (λ _, True) (on_store (GetCheck id)).
Proof. by apply (keeping_read (OGetCheck id) RCheck). Qed.

Lemma keeping_list_checks limit offset : 0 ≤ limit → 0 ≤ offset →
  keeping calm (λ _, True) (on_store (ListChecks limit offset)).
Proof. intros. by apply (keeping_read (OListChecks limit offset) RChecks). Qed.

Lemma keeping_list_tokens : keeping calm (λ _, True) (on_store ListAPITokens).
Proof. by apply (keeping_read OListAPITokens RTokens). Qed.

Lemma keeping_list_monitors : keeping calm (λ _, True) (on_store ListMonitors).
Proof. by apply (keeping_read OListMonitors RMonitors). Qed.

Lemma keeping_list_events mid limit :
  keeping calm (λ _, True) (on_store (ListMonitorEvents mid limit)).
Proof. by apply (keeping_read (OListMonitorEvents mid limit) REvents). Qed.

Lemma keeping_net {A} (Q : A → Prop) (m : M N A) :
  (∀ n, Q (m n).1) → keeping calm Q (on_net m).
Proof.
  intros Hm w Hw. specialize (Hm (w_net w)). unfold on_net. by destruct (m (w_net w)).
Qed.

Lemma keeping_any_net {A} (m : M N A) : keeping calm (λ _, True) (on_net m).
Proof. by apply keeping_net. Qed.

Lemma keeping_now `{EO : !EnvOk N EN} : keeping calm time_ok (on_net Now).
Proof. apply keeping_net. intros n. apply (Now_range n). Qed.

Lemma keeping_rand `{EO : !EnvOk N EN} k :
  keeping calm (λ r, ∀ l, r = Ok l → length l = k ∧ Forall is_byte l) (on_net (rand_Read k)).
Proof.
  apply keeping_net. intros n l Hl. apply (rand_bytes k n (rand_Read k n).2).
  rewrite <-Hl. by destruct (rand_Read k n).
Qed.

End Steps.

(** The rules for the steps, and the tactic that takes a computation apart. *)
Create HintDb keeps.

#[export] Hint Resolve keeping_get_check keeping_list_checks keeping_list_tokens
  keeping_list_monitors keeping_list_events keeping_rand : keeps.
#[export] Hint Extern 1 (keeping _ _ (on_net _)) => solve [simple eapply keeping_now; eassumption] : keeps.
#[export] Hint Resolve keeping_get_settings | 10 : keeps.
#[export] Hint Extern 10 (keeping _ _ (on_net _)) => simple apply keeping_any_net : keeps.

Ltac keeps_step :=
  match goal with
  | |- keeping _ _ (mret _) => apply keeping_ret
  | |- keeping _ _ (_ ≫= _) =>
      first [ solve [eauto with keeps]
            | eapply keeping_bind; [solve [eauto with keeps]|cbv beta; intros ? ?]
            | apply (keeping_bind _ (λ _, True)); [|intros ? _] ]
  | |- keeping _ _ (match ?x with _ => _ end) => destruct x eqn:?
  | |- keeping _ _ _ => solve [eauto with keeps]
  end.

Ltac keeps := cbv beta zeta; intros; repeat keeps_step; try done.
