(* ===== verification/Sql.v ===== *)
(** * Database tables

    The six tables of the migrations, and the statements that the SQL stores
    execute on them, at the level of rows.  The type [col] of the time columns
    differs between the two engines: text for SQLite, instants for PostgreSQL.
    The engine is not part of the repository: the order in which it returns
    rows that an [ORDER BY] does not distinguish is an instance of [RowOrder],
    and any statement may fail, as the list [faults] of the state decides (for
    PostgreSQL also because it refuses a text that is not valid UTF-8). *)

From S2P Require Import Prelude.
From S2P Require Import GoString.
From S2P Require Import DnsTypes.

Local Open Scope Z_scope.

(** What the two engines do differently: the comparison of time columns, the
    conversion of an instant to a column and back, the bound of a purge (an
    error when the statement is refused), the pages that are refused and the
    message for a primary key that is taken. *)
Class Dialect (col : Type) := {
  col_le : relation col;
  col_lt : col → col → bool;
  to_col : Time → col;
  of_col : col → option Time;
  purge_bound : Z → Time → result col;
  page_error : Z → Z → option error;
  duplicate_key : string
}.

(** The rows of an [ORDER BY ... DESC]: a permutation sorted by the column. *)
Class RowOrder (col : Type) `{Dialect col} := {
  order_desc : ∀ {A}, list (col * A) → list (col * A);
  order_perm : ∀ {A} (l : list (col * A)), order_desc l ≡ₚ l;
  order_sorted : ∀ {A} (l : list (col * A)),
    StronglySorted (λ x y, col_le y.1 x.1) (order_desc l)
}.

Definition row_ge {col A} (le : relation col) (x y : col * A) : Prop := le y.1 x.1.

#[export] Instance row_ge_dec {col A} (le : relation col) `{!RelDecision le} :
  RelDecision (@row_ge col A le).
Proof. intros x y. unfold row_ge. apply _. Defined.

#[export] Instance row_ge_total {col A} (le : relation col) `{!Total le} :
  Total (@row_ge col A le).
Proof. intros x y. unfold row_ge. destruct (total le x.1 y.1); auto. Qed.

#[export] Instance row_ge_trans {col A} (le : relation col) `{!Transitive le} :
  Transitive (@row_ge col A le).
Proof. intros x y z. unfold row_ge. intros. by etrans. Qed.

(** An engine that sorts stably. *)
Definition stable_order {col} {DI : Dialect col}
    `{!RelDecision (col_le (col := col)), !Total (col_le (col := col)),
      !Transitive (col_le (col := col))} : RowOrder col := {|
  order_desc := λ A l, merge_sort (row_ge col_le) l;
  order_perm := λ A l, merge_sort_Permutation (row_ge col_le) l;
  order_sorted := λ A l, StronglySorted_merge_sort (row_ge col_le) l
|}.

Section Tables.
Variables col blob : Type.

(** Rows of [schedules] and [monitors]: a document and two time columns. *)
Record DocRow := mkDocRow { dData : blob; dCreated : col; dUpdated : col }.

Record CheckRow := mkCheckRow {
  ckName : string; ckType : string; ckCreated : col; ckData : blob
}.

Record TokenRow := mkTokenRow {
  tkName : string; tkHash : string; tkPrefix : string; tkCreated : col;
  tkLastUsed : option col
}.

Record EventRow := mkEventRow { evrMonitor : string; evrTs : col; evrData : blob }.

Record Tables := mkTables {
  t_checks : gmap string CheckRow;
  t_settings : option blob;
  t_tokens : gmap string TokenRow;
  t_schedules : gmap string DocRow;
  t_monitors : gmap string DocRow;
  t_events : gmap string EventRow
}.

(** The tables after the migrations have run on a new database. *)
Definition empty_tables : Tables := mkTables ∅ None ∅ ∅ ∅ ∅.

(** A connection: the tables, and what happens to the coming statements
    ([Some msg]: fails with that text). *)
Record DB := mkDB { tables : Tables; faults : list (option string) }.

(** One statement. *)
Definition exec {A} (f : Tables → result A * Tables) : M DB (result A) := λ db,
  match faults db with
  | Some msg :: fs => (Err (External msg false), mkDB (tables db) fs)
  | fs => let '(r, t) := f (tables db) in (r, mkDB t (tail fs))
  end.

(** A statement that only reads. *)
Definition query {A} (f : Tables → A) : M DB (result A) := exec (λ t, (Ok (f t), t)).

(** [DELETE ... WHERE id = ?]: the number of rows affected. *)
Definition del_row {A} (id : string) (m : gmap string A) : Z * gmap string A :=
  match m !! id with Some _ => (1, delete id m) | None => (0, m) end.

Definition with_checks (t : Tables) x := mkTables x (t_settings t) (t_tokens t)
  (t_schedules t) (t_monitors t) (t_events t).
Definition with_settings (t : Tables) x := mkTables (t_checks t) x (t_tokens t)
  (t_schedules t) (t_monitors t) (t_events t).
Definition with_tokens (t : Tables) x := mkTables (t_checks t) (t_settings t) x
  (t_schedules t) (t_monitors t) (t_events t).
Definition with_schedules (t : Tables) x := mkTables (t_checks t) (t_settings t)
  (t_tokens t) x (t_monitors t) (t_events t).
Definition with_monitors (t : Tables) x := mkTables (t_checks t) (t_settings t)
  (t_tokens t) (t_schedules t) x (t_events t).
Definition with_events (t : Tables) x := mkTables (t_checks t) (t_settings t)
  (t_tokens t) (t_schedules t) (t_monitors t) x.

(** [INSERT ... ON CONFLICT(id) DO UPDATE SET data = ..., updated_at = ...]:
    the creation column of an existing row stays. *)
Definition upsert_doc (id : string) (data : blob) (created updated : col)
    (m : gmap string DocRow) : gmap string DocRow :=
  match m !! id with
  | Some row => <[id := mkDocRow data (dCreated row) updated]> m
  | None => <[id := mkDocRow data created updated]> m
  end.

(** [INSERT] into a table with a primary key. *)
Definition insert_new {A} (taken : string) (id : string) (row : A) (m : gmap string A)
    : result unit * gmap string A :=
  match m !! id with
  | Some _ => (Err (External taken false), m)
  | None => (Ok tt, <[id := row]> m)
  end.

End Tables.

Arguments mkDocRow {col blob}. Arguments dData {col blob}. Arguments dCreated {col blob}.
Arguments dUpdated {col blob}. Arguments mkCheckRow {col blob}. Arguments ckName {col blob}.
Arguments ckType {col blob}. Arguments ckCreated {col blob}. Arguments ckData {col blob}.
Arguments mkEventRow {col blob}. Arguments evrMonitor {col blob}. Arguments evrTs {col blob}.
Arguments evrData {col blob}. Arguments mkTables {col blob}. Arguments t_checks {col blob}.
Arguments t_settings {col blob}. Arguments t_tokens {col blob}. Arguments t_schedules {col blob}.
Arguments t_monitors {col blob}. Arguments t_events {col blob}.
Arguments empty_tables {col blob}. Arguments mkDB {col blob}. Arguments tables {col blob}.
Arguments faults {col blob}. Arguments with_checks {col blob}.
Arguments with_settings {col blob}. Arguments with_tokens {col blob}.
Arguments with_schedules {col blob}. Arguments with_monitors {col blob}.
Arguments with_events {col blob}. Arguments upsert_doc {col blob}. Arguments mkTokenRow {col}.
Arguments tkName {col}. Arguments tkHash {col}. Arguments tkPrefix {col}.
Arguments tkCreated {col}. Arguments tkLastUsed {col}. Arguments exec {col blob A}.
Arguments query {col blob A}. 

(** Decoding the documents of a result set: the first bad one is the error. *)
Fixpoint decode_all {blob A} `{Codec blob A} (what : string) (l : list blob)
    : result (list A) :=
  match l with
  | [] => Ok []
  | b :: l' =>
      match unmarshal b with
      | None => Err (Wrapf ("unmarshaling " +:+ what) (External "invalid document" false))
      | Some a => as_ ← decode_all what l'; Ok (a :: as_)
      end
  end.

(** * Lemmas *)

Lemma exec_healthy {col blob A} (f : Tables col blob → result A * Tables col blob) db :
  faults db = [] → exec f db = ((f (tables db)).1, mkDB (f (tables db)).2 []).
Proof. unfold exec. intros ->. simpl. by destruct (f (tables db)). Qed.

Lemma query_healthy {col blob A} (f : Tables col blob → A) db :
  faults db = [] → query f db = (Ok (f (tables db)), mkDB (tables db) []).
Proof. intros H. unfold query. by rewrite exec_healthy. Qed.

Lemma decode_all_omap {blob A} `{Codec blob A} what (l : list blob) :
  Forall (λ b, is_Some (unmarshal (A := A) b)) l →
  decode_all what l = Ok (omap unmarshal l).
Proof.
  induction 1 as [|b l [a Ha] Hl IH]; [done|]. simpl. rewrite Ha.
  by rewrite IH.
Qed.
