(* ===== verification/SqlStore.v ===== *)
(** * Statements of the SQL stores

    The shapes of the statements that both SQL stores execute, and the
    reference store: the operations of the storage interface over the tables
    for any [Dialect].  [Sqlite] and [Postgres] model the two stores as they
    are written; each is shown to be the reference store for its dialect, and
    the laws are proved once, of the reference store ([SqlRefine]). *)

From S2P Require Import Prelude.
From S2P Require Import GoString.
From S2P Require Import DnsTypes.
From S2P Require Import Settings.
From S2P Require Import GoTime.
From S2P Require Import Storage.
From S2P Require Import Sql.

Local Open Scope Z_scope.

(** [fmt.Errorf("marshaling ...: %w", err)]. *)
Definition marshal_failed (what : string) : error :=
  Wrapf ("marshaling " +:+ what) (External "unsupported value" false).

Section Statements.
Context {col blob : Type}.

Abbreviation db := (DB col blob).
Abbreviation Tables := (Tables col blob).

(** [_, err = db.ExecContext(...); if err != nil { return fmt.Errorf(...) }]. *)
Definition exec_err (what : string) (m : M db (result unit)) : M db (option error) :=
  r ← m;
  mret match r with Ok _ => None | Err e => Some (Wrapf what e) end.

Definition update (f : Tables → Tables) : M db (result unit) :=
  exec (λ t, (Ok tt, f t)).

(** A single row that is decoded; [what] names it in the messages. *)
Definition get_doc {A} `{Codec blob A} (what : string)
    (f : Tables → option blob) : M db (result A) :=
  r ← query f;
  mret match r with
       | Err e => Err (Wrapf ("scanning " +:+ what +:+ " row") e)
       | Ok None => Err ErrNotFound
       | Ok (Some data) =>
           match unmarshal data with
           | None => Err (Wrapf ("unmarshaling " +:+ what) (External "invalid document" false))
           | Some a => Ok a
           end
       end.

(** The result set of a query, whose documents are decoded in order. *)
Definition decode_rows {A} `{Codec blob A} (q what : string)
    (m : M db (result (list blob))) : M db (result (list A)) :=
  r ← m;
  mret match r with
       | Err e => Err (Wrapf ("querying " +:+ q) e)
       | Ok l => decode_all what l
       end.

Definition list_docs {A} `{Codec blob A} (q what : string)
    (f : Tables → list blob) : M db (result (list A)) :=
  decode_rows q what (query f).

(** [ORDER BY created_at DESC] over document rows. *)
Definition docs_desc `{RowOrder col} (m : gmap string (DocRow col blob)) : list blob :=
  (order_desc ((λ p, (dCreated p.2, dData p.2)) <$> map_to_list m)).*2.

(** [LIMIT ... OFFSET ...] over the checks ordered by [created_at DESC]. *)
Definition check_page `{RowOrder col} (limit offset : Z) (t : Tables) : list blob :=
  limit_offset limit offset
    (order_desc ((λ p, (ckCreated p.2, ckData p.2)) <$> map_to_list (t_checks t))).*2.

(** The events of a monitor ordered by [ts DESC]. *)
Definition event_page `{RowOrder col} (monitorID : string) (limit : Z) (t : Tables) : list blob :=
  limit_offset limit 0
    (order_desc ((λ p, (evrTs p.2, evrData p.2)) <$>
       map_to_list (filter (λ p, evrMonitor p.2 = monitorID) (t_events t)))).*2.

(** The tokens ordered by [created_at DESC]. *)
Definition token_rows `{RowOrder col} (t : Tables) : list (string * TokenRow col) :=
  (order_desc ((λ p, (tkCreated p.2, p)) <$> map_to_list (t_tokens t))).*2.

(** A [DELETE] by identifier, whose row count is inspected. *)
Definition delete_by_id (what : string)
    (f : Tables → Z * Tables) : M db (option error) :=
  r ← exec (λ t, let '(n, t') := f t in (Ok n, t'));
  mret match r with
       | Err e => Some (Wrapf ("deleting " +:+ what) e)
       | Ok n => if n =? 0 then Some ErrNotFound else None
       end.

(** [DELETE FROM checks WHERE created_at < bound]. *)
Definition purge_rows `{Dialect col} (bound : col) (t : Tables) : Tables :=
  with_checks t (filter (λ p, ¬ (col_lt (ckCreated p.2) bound = true)) (t_checks t)).

(** A token as it is read back. *)
Definition token_of_row `{Dialect col} (p : string * TokenRow col) : APIToken :=
  let '(id, r) := p in
  mkAPIToken id (tkName r) (tkHash r) (tkPrefix r)
    (default zero_time (of_col (tkCreated r))) (tkLastUsed r ≫= of_col).

End Statements.

(** ** The reference store *)

Section Reference.
Context {col blob : Type} `{RowOrder col}.
Context `{Codec blob Check, Codec blob Settings, Codec blob Schedule,
  Codec blob Monitor, Codec blob MonitorEvent}.

Abbreviation db := (DB col blob).

Definition ref_SaveCheck (c : Check) : M db (option error) :=
  match marshal c with
  | None => mret (Some (marshal_failed "check"))
  | Some data =>
      exec_err "inserting check" (update (λ t, with_checks t
        (<[cID c := mkCheckRow (cName c) (cType c) (to_col (cCreatedAt c)) data]> (t_checks t))))
  end.

Definition ref_GetCheck (id : string) : M db (result Check) :=
  get_doc "check" (λ t, ckData <$> t_checks t !! id).

Definition ref_ListChecks (limit offset : Z) : M db (result (list Check)) :=
  decode_rows "checks" "check" (exec (λ t,
    match page_error limit offset with
    | Some e => (Err e, t)
    | None => (Ok (check_page limit offset t), t)
    end)).

Definition ref_DeleteCheck (id : string) : M db (option error) :=
  delete_by_id "check" (λ t,
    let '(n, m) := del_row id (t_checks t) in (n, with_checks t m)).

Definition ref_PurgeOldChecks (retentionDays : Z) (now : Time) : M db (option error) :=
  exec_err "purging old checks" (exec (λ t,
    match purge_bound retentionDays now with
    | Err e => (Err e, t)
    | Ok bound => (Ok tt, purge_rows bound t)
    end)).

Definition ref_GetSettings : M db (result Settings) :=
  r ← get_doc "settings" t_settings;
  mret match r with Err ErrNotFound => Ok Default | r => r end.

Definition ref_SaveSettings (s : Settings) : M db (option error) :=
  match marshal s with
  | None => mret (Some (marshal_failed "settings"))
  | Some data => exec_err "saving settings" (update (λ t, with_settings t (Some data)))
  end.

Definition ref_ListAPITokens : M db (result (list APIToken)) :=
  r ← query token_rows;
  mret match r with
       | Err e => Err (Wrapf "querying api tokens" e)
       | Ok rows => Ok (token_of_row <$> rows)
       end.

Definition ref_CreateAPIToken (tk : APIToken) : M db (option error) :=
  exec_err "creating api token" (exec (λ t,
    let '(r, m) := insert_new duplicate_key (tokID tk)
      (mkTokenRow (tokName tk) (tokHash tk) (tokPrefix tk) (to_col (tokCreatedAt tk)) None)
      (t_tokens t) in
    (r, with_tokens t m))).

Definition ref_DeleteAPIToken (id : string) : M db (option error) :=
  delete_by_id "api token" (λ t,
    let '(n, m) := del_row id (t_tokens t) in (n, with_tokens t m)).

Definition ref_ListSchedules : M db (result (list Schedule)) :=
  list_docs "schedules" "schedule" (λ t, docs_desc (t_schedules t)).

Definition ref_SaveSchedule (x : Schedule) : M db (option error) :=
  match marshal x with
  | None => mret (Some (marshal_failed "schedule"))
  | Some data =>
      exec_err "saving schedule" (update (λ t, with_schedules t
        (upsert_doc (schID x) data (to_col (schCreatedAt x)) (to_col (schUpdatedAt x))
           (t_schedules t))))
  end.

Definition ref_DeleteSchedule (id : string) : M db (option error) :=
  delete_by_id "schedule" (λ t,
    let '(n, m) := del_row id (t_schedules t) in (n, with_schedules t m)).

Definition ref_ListMonitors : M db (result (list Monitor)) :=
  list_docs "monitors" "monitor" (λ t, docs_desc (t_monitors t)).

Definition ref_GetMonitor (id : string) : M db (result Monitor) :=
  get_doc "monitor" (λ t, dData <$> t_monitors t !! id).

Definition ref_SaveMonitor (m : Monitor) : M db (option error) :=
  match marshal m with
  | None => mret (Some (marshal_failed "monitor"))
  | Some data =>
      exec_err "saving monitor" (update (λ t, with_monitors t
        (upsert_doc (mID m) data (to_col (mCreatedAt m)) (to_col (mUpdatedAt m))
           (t_monitors t))))
  end.

Definition ref_DeleteMonitor (id : string) : M db (option error) :=
  r ← delete_by_id "monitor" (λ t,
    let '(n, m) := del_row id (t_monitors t) in (n, with_monitors t m));
  match r with
  | Some e => mret (Some e)
  | None =>
      _ ← update (λ t, with_events t (filter (λ p, evrMonitor p.2 ≠ id) (t_events t)));
      mret None
  end.

Definition ref_ListMonitorEvents (monitorID : string) (limit : Z)
    : M db (result (list MonitorEvent)) :=
  let limit := if limit <=? 0 then 100 else limit in
  list_docs "monitor events" "monitor event" (event_page monitorID limit).

Definition ref_AppendMonitorEvent (e : MonitorEvent) : M db (option error) :=
  match marshal e with
  | None => mret (Some (marshal_failed "monitor event"))
  | Some data =>
      exec_err "appending monitor event" (exec (λ t,
        let '(r, m) := insert_new duplicate_key (evID e)
          (mkEventRow (evMonitorID e) (to_col (evTimestamp e)) data) (t_events t) in
        (r, with_events t m)))
  end.

#[local] Instance ref_ops : StorageOps db := {|
  SaveCheck := ref_SaveCheck; GetCheck := ref_GetCheck;
  ListChecks := ref_ListChecks; DeleteCheck := ref_DeleteCheck;
  PurgeOldChecks := ref_PurgeOldChecks;
  GetSettings := ref_GetSettings; SaveSettings := ref_SaveSettings;
  ListAPITokens := ref_ListAPITokens; CreateAPIToken := ref_CreateAPIToken;
  DeleteAPIToken := ref_DeleteAPIToken;
  ListSchedules := ref_ListSchedules; SaveSchedule := ref_SaveSchedule;
  DeleteSchedule := ref_DeleteSchedule;
  ListMonitors := ref_ListMonitors; GetMonitor := ref_GetMonitor;
  SaveMonitor := ref_SaveMonitor; DeleteMonitor := ref_DeleteMonitor;
  ListMonitorEvents := ref_ListMonitorEvents;
  AppendMonitorEvent := ref_AppendMonitorEvent
|}.

End Reference.

(** ** Opening a database *)

(** The package [database/sql] as [New] uses it; [D] is the connection. *)
Class SqlDriver (D : Type) := {
  sql_Open : string → string → M D (option error);
  SetMaxOpenConns : Z → M D unit;
  PingContext : M D (option error);
  ExecScript : string → M D (option error);
  db_Close : M D unit
}.

(** An embedded file system: the entries of a directory, each with whether it
    is a directory, and the contents of files. *)
Record EmbedFS := mkEmbedFS {
  ReadDir : string → result (list (string * bool));
  ReadFile : string → result string
}.

(** The names of the scripts among the entries. *)
Definition script_names (entries : list (string * bool)) : list string :=
  (filter (λ e, negb e.2 && HasSuffix e.1 ".sql") entries).*1.

(** The scripts in the given order, up to the first failure. *)
Fixpoint run_scripts {D} `{SqlDriver D} (fs : EmbedFS) (names : list string) : M D (option error) :=
  match names with
  | [] => mret None
  | name :: names' =>
      match ReadFile fs ("migrations/" +:+ name) with
      | Err e => mret (Some (Wrapf ("reading migration " +:+ name) e))
      | Ok data =>
          err ← ExecScript data;
          match err with
          | Some e => mret (Some (Wrapf ("executing migration " +:+ name) e))
          | None => run_scripts fs names'
          end
      end
  end.
