(* ===== verification/Sqlite.v ===== *)
(** * The SQLite store

    [internal/storage/sqlite/sqlite.go], [settings.go] and [monitors.go]: every
    method of the store as the sequence of statements it executes, and the
    opening of the database with its migrations.  Documents are stored as JSON;
    time columns as RFC 3339 text, which SQLite compares byte by byte. *)

From S2P Require Import Prelude.
From S2P Require Import GoString.
From S2P Require Import DnsTypes.
From S2P Require Import Settings.
From S2P Require Import GoTime.
From S2P Require Import Storage.
From S2P Require Import Sql.
From S2P Require Import SqlStore.

Local Open Scope Z_scope.

Definition unique_failed : string := "UNIQUE constraint failed".

(** SQLite takes a negative limit as no limit and a negative offset as none. *)
#[export] Instance text_dialect : Dialect string := {|
  col_le := String.le; col_lt := String.ltb;
  to_col := FormatRFC3339; of_col := ParseRFC3339;
  purge_bound days now := Ok (FormatRFC3339 (now - days * 86400 * 10 ^ 9));
  page_error _ _ := None;
  duplicate_key := unique_failed
|}.

Section Sqlite.
Context {blob : Type} `{!RowOrder string}.
Context `{Codec blob Check, Codec blob Settings, Codec blob Schedule,
  Codec blob Monitor, Codec blob MonitorEvent}.

Abbreviation db := (DB string blob).

(* src: internal/storage/sqlite/sqlite.go Store.SaveCheck *)
Definition sqlite_SaveCheck (c : Check) : M db (option error) :=
  match marshal c with
  | None => mret (Some (marshal_failed "check"))
  | Some data =>
      exec_err "inserting check" (update (λ t, with_checks t
        (<[cID c := mkCheckRow (cName c) (cType c) (FormatRFC3339 (cCreatedAt c)) data]>
         (t_checks t))))
  end.

(* src: internal/storage/sqlite/sqlite.go Store.GetCheck *)
Definition sqlite_GetCheck (id : string) : M db (result Check) :=
  get_doc "check" (λ t, ckData <$> t_checks t !! id).

(* src: internal/storage/sqlite/sqlite.go Store.ListChecks *)
Definition sqlite_ListChecks (limit offset : Z) : M db (result (list Check)) :=
  list_docs "checks" "check" (check_page limit offset).

(* src: internal/storage/sqlite/sqlite.go Store.DeleteCheck *)
Definition sqlite_DeleteCheck (id : string) : M db (option error) :=
  delete_by_id "check" (λ t,
    let '(n, m) := del_row id (t_checks t) in (n, with_checks t m)).

(* src: internal/storage/sqlite/sqlite.go Store.PurgeOldChecks *)
Definition sqlite_PurgeOldChecks (retentionDays : Z) (now : Time) : M db (option error) :=
  let cutoff := FormatRFC3339 (now - retentionDays * 86400 * 10 ^ 9) in
  exec_err "purging old checks" (update (purge_rows cutoff)).

(* src: internal/storage/sqlite/settings.go Store.GetSettings *)
Definition sqlite_GetSettings : M db (result Settings) :=
  r ← get_doc "settings" t_settings;
  mret match r with Err ErrNotFound => Ok Default | r => r end.

(* src: internal/storage/sqlite/settings.go Store.SaveSettings *)
Definition sqlite_SaveSettings (s : Settings) : M db (option error) :=
  match marshal s with
  | None => mret (Some (marshal_failed "settings"))
  | Some data => exec_err "saving settings" (update (λ t, with_settings t (Some data)))
  end.

(** A scanned row; a creation time that does not parse is the zero time. *)
(* src: internal/storage/sqlite/settings.go 57-75 Store.ListAPITokens *)
Definition scan_token (p : string * TokenRow string) : APIToken :=
  let '(id, r) := p in
  mkAPIToken id (tkName r) (tkHash r) (tkPrefix r)
    (default zero_time (ParseRFC3339 (tkCreated r)))
    match tkLastUsed r with Some lastUsed => ParseRFC3339 lastUsed | None => None end.

(* src: internal/storage/sqlite/settings.go Store.ListAPITokens *)
Definition sqlite_ListAPITokens : M db (result (list APIToken)) :=
  r ← query token_rows;
  mret match r with
       | Err e => Err (Wrapf "querying api tokens" e)
       | Ok rows => Ok (scan_token <$> rows)
       end.

(* src: internal/storage/sqlite/settings.go Store.CreateAPIToken *)
Definition sqlite_CreateAPIToken (tk : APIToken) : M db (option error) :=
  exec_err "creating api token" (exec (λ t,
    let '(r, m) := insert_new unique_failed (tokID tk)
      (mkTokenRow (tokName tk) (tokHash tk) (tokPrefix tk)
         (FormatRFC3339 (tokCreatedAt tk)) None) (t_tokens t) in
    (r, with_tokens t m))).

(* src: internal/storage/sqlite/settings.go Store.DeleteAPIToken *)
Definition sqlite_DeleteAPIToken (id : string) : M db (option error) :=
  delete_by_id "api token" (λ t,
    let '(n, m) := del_row id (t_tokens t) in (n, with_tokens t m)).

(* src: internal/storage/sqlite/settings.go Store.ListSchedules *)
Definition sqlite_ListSchedules : M db (result (list Schedule)) :=
  list_docs "schedules" "schedule" (λ t, docs_desc (t_schedules t)).

(* src: internal/storage/sqlite/settings.go Store.SaveSchedule *)
Definition sqlite_SaveSchedule (x : Schedule) : M db (option error) :=
  match marshal x with
  | None => mret (Some (marshal_failed "schedule"))
  | Some data =>
      exec_err "saving schedule" (update (λ t, with_schedules t
        (upsert_doc (schID x) data (FormatRFC3339 (schCreatedAt x))
           (FormatRFC3339 (schUpdatedAt x)) (t_schedules t))))
  end.

(* src: internal/storage/sqlite/settings.go Store.DeleteSchedule *)
Definition sqlite_DeleteSchedule (id : string) : M db (option error) :=
  delete_by_id "schedule" (λ t,
    let '(n, m) := del_row id (t_schedules t) in (n, with_schedules t m)).

(* src: internal/storage/sqlite/monitors.go Store.ListMonitors *)
Definition sqlite_ListMonitors : M db (result (list Monitor)) :=
  list_docs "monitors" "monitor" (λ t, docs_desc (t_monitors t)).

(* src: internal/storage/sqlite/monitors.go Store.GetMonitor *)
Definition sqlite_GetMonitor (id : string) : M db (result Monitor) :=
  get_doc "monitor" (λ t, dData <$> t_monitors t !! id).

(* src: internal/storage/sqlite/monitors.go Store.SaveMonitor *)
Definition sqlite_SaveMonitor (m : Monitor) : M db (option error) :=
  match marshal m with
  | None => mret (Some (marshal_failed "monitor"))
  | Some data =>
      exec_err "saving monitor" (update (λ t, with_monitors t
        (upsert_doc (mID m) data (FormatRFC3339 (mCreatedAt m))
           (FormatRFC3339 (mUpdatedAt m)) (t_monitors t))))
  end.

(** The events are deleted by a second statement, whose error is dropped. *)
(* src: internal/storage/sqlite/monitors.go Store.DeleteMonitor *)
Definition sqlite_DeleteMonitor (id : string) : M db (option error) :=
  r ← delete_by_id "monitor" (λ t,
    let '(n, m) := del_row id (t_monitors t) in (n, with_monitors t m));
  match r with
  | Some e => mret (Some e)
  | None =>
      _ ← update (λ t, with_events t
        (filter (λ p, evrMonitor p.2 ≠ id) (t_events t)));
      mret None
  end.

(* src: internal/storage/sqlite/monitors.go Store.ListMonitorEvents *)
Definition sqlite_ListMonitorEvents (monitorID : string) (limit : Z)
    : M db (result (list MonitorEvent)) :=
  let limit := if limit <=? 0 then 100 else limit in
  list_docs "monitor events" "monitor event" (event_page monitorID limit).

(* src: internal/storage/sqlite/monitors.go Store.AppendMonitorEvent *)
Definition sqlite_AppendMonitorEvent (e : MonitorEvent) : M db (option error) :=
  match marshal e with
  | None => mret (Some (marshal_failed "monitor event"))
  | Some data =>
      exec_err "appending monitor event" (exec (λ t,
        let '(r, m) := insert_new unique_failed (evID e)
          (mkEventRow (evMonitorID e) (FormatRFC3339 (evTimestamp e)) data) (t_events t) in
        (r, with_events t m)))
  end.

#[export] Instance sqlite_ops : StorageOps db := {|
  SaveCheck := sqlite_SaveCheck; GetCheck := sqlite_GetCheck;
  ListChecks := sqlite_ListChecks; DeleteCheck := sqlite_DeleteCheck;
  PurgeOldChecks := sqlite_PurgeOldChecks;
  GetSettings := sqlite_GetSettings; SaveSettings := sqlite_SaveSettings;
  ListAPITokens := sqlite_ListAPITokens; CreateAPIToken := sqlite_CreateAPIToken;
  DeleteAPIToken := sqlite_DeleteAPIToken;
  ListSchedules := sqlite_ListSchedules; SaveSchedule := sqlite_SaveSchedule;
  DeleteSchedule := sqlite_DeleteSchedule;
  ListMonitors := sqlite_ListMonitors; GetMonitor := sqlite_GetMonitor;
  SaveMonitor := sqlite_SaveMonitor; DeleteMonitor := sqlite_DeleteMonitor;
  ListMonitorEvents := sqlite_ListMonitorEvents;
  AppendMonitorEvent := sqlite_AppendMonitorEvent
|}.

(** It is the reference store for its dialect. *)
Lemma sqlite_is_reference : sqlite_ops = ref_ops.
Proof. reflexivity. Qed.

End Sqlite.

(** ** Opening *)

Section Open.
Context {D : Type} `{SqlDriver D}.

(* src: internal/storage/sqlite/sqlite.go Store.migrate *)
Definition sqlite_migrate (migrationsFS : EmbedFS) : M D (option error) :=
  match ReadDir migrationsFS "migrations" with
  | Err e => mret (Some (Wrapf "reading migrations dir" e))
  | Ok entries => run_scripts migrationsFS (sort_strings (script_names entries))
  end.

(** The connection is limited to one: SQLite locks the whole file. *)
(* src: internal/storage/sqlite/sqlite.go New *)
Definition sqlite_New (migrationsFS : EmbedFS) (dsn : string) : M D (option error) :=
  err ← sql_Open "sqlite" dsn;
  match err with
  | Some e => mret (Some (Wrapf "opening sqlite db" e))
  | None =>
      _ ← SetMaxOpenConns 1;
      err ← PingContext;
      match err with
      | Some e => _ ← db_Close; mret (Some (Wrapf "pinging sqlite db" e))
      | None =>
          err ← sqlite_migrate migrationsFS;
          match err with
          | Some e => _ ← db_Close; mret (Some (Wrapf "running migrations" e))
          | None => mret None
          end
      end
  end.

End Open.
