(* ===== verification/Postgres.v ===== *)
(** * The PostgreSQL store

    [internal/storage/postgres/postgres.go], [settings.go] and [monitors.go]:
    every method of the store as the sequence of statements it executes, and
    the opening of the database with its migrations.  Documents are stored as
    JSON; time columns are instants, at the resolution of the engine.

    What the engine and its driver make of arguments is the class [PgEngine],
    with what the store relies on as [PgEngineOk]. *)

From S2P Require Import Prelude.
From S2P Require Import GoString.
From S2P Require Import DnsTypes.
From S2P Require Import Settings.
From S2P Require Import GoTime.
From S2P Require Import Storage.
From S2P Require Import Sql.
From S2P Require Import SqlStore.

Local Open Scope Z_scope.

(** The instant that a [TIMESTAMPTZ] column keeps; the text that an integer is
    sent as for a parameter of type text, if it can be; an instant minus a text
    cast to an interval; the pages that are refused (a negative [LIMIT] or
    [OFFSET]); the message for a primary key that is taken. *)
Class PgEngine := {
  to_timestamptz : Time → Time;
  bind_text : Z → result string;
  minus_interval : Time → string → result Time;
  page_refused : Z → Z → option error;
  unique_violation : string
}.

(** A column keeps an instant it has kept as it is, and a page of no negative
    number is not refused. *)
Class PgEngineOk (E : PgEngine) := {
  timestamptz_ok : ∀ t, time_ok t → time_ok (to_timestamptz t);
  timestamptz_kept : ∀ t, time_ok t → to_timestamptz (to_timestamptz t) = to_timestamptz t;
  page_accepted : ∀ limit offset, 0 ≤ limit → 0 ≤ offset → page_refused limit offset = None
}.

(** [NOW() - ($1 || ' days')::INTERVAL]. *)
Definition days_before {E : PgEngine} (retentionDays : Z) (now : Time) : result Time :=
  days ← bind_text retentionDays;
  minus_interval now (days +:+ " days").

#[export] Instance timestamptz_dialect {E : PgEngine} : Dialect Time := {|
  col_le := Z.le; col_lt := Z.ltb;
  to_col := to_timestamptz; of_col := Some;
  purge_bound := days_before; page_error := page_refused;
  duplicate_key := unique_violation
|}.

Section Postgres.
Context {blob : Type} {E : PgEngine} `{!RowOrder Time}.
Context `{Codec blob Check, Codec blob Settings, Codec blob Schedule,
  Codec blob Monitor, Codec blob MonitorEvent}.

Abbreviation db := (DB Time blob).

(* src: internal/storage/postgres/postgres.go Store.SaveCheck *)
Definition postgres_SaveCheck (c : Check) : M db (option error) :=
  match marshal c with
  | None => mret (Some (marshal_failed "check"))
  | Some data =>
      exec_err "inserting check" (update (λ t, with_checks t
        (<[cID c := mkCheckRow (cName c) (cType c) (to_timestamptz (cCreatedAt c)) data]>
         (t_checks t))))
  end.

(* src: internal/storage/postgres/postgres.go Store.GetCheck *)
Definition postgres_GetCheck (id : string) : M db (result Check) :=
  get_doc "check" (λ t, ckData <$> t_checks t !! id).

(* src: internal/storage/postgres/postgres.go Store.ListChecks *)
Definition postgres_ListChecks (limit offset : Z) : M db (result (list Check)) :=
  decode_rows "checks" "check" (exec (λ t,
    match page_refused limit offset with
    | Some e => (Err e, t)
    | None => (Ok (check_page limit offset t), t)
    end)).

(* src: internal/storage/postgres/postgres.go Store.DeleteCheck *)
Definition postgres_DeleteCheck (id : string) : M db (option error) :=
  delete_by_id "check" (λ t,
    let '(n, m) := del_row id (t_checks t) in (n, with_checks t m)).

(* src: internal/storage/postgres/postgres.go Store.PurgeOldChecks *)
Definition postgres_PurgeOldChecks (retentionDays : Z) (now : Time) : M db (option error) :=
  exec_err "purging old checks" (exec (λ t,
    match days_before retentionDays now with
    | Err e => (Err e, t)
    | Ok cutoff => (Ok tt, purge_rows cutoff t)
    end)).

(* src: internal/storage/postgres/settings.go Store.GetSettings *)
Definition postgres_GetSettings : M db (result Settings) :=
  r ← get_doc "settings" t_settings;
  mret match r with Err ErrNotFound => Ok Default | r => r end.

(* src: internal/storage/postgres/settings.go Store.SaveSettings *)
Definition postgres_SaveSettings (s : Settings) : M db (option error) :=
  match marshal s with
  | None => mret (Some (marshal_failed "settings"))
  | Some data => exec_err "saving settings" (update (λ t, with_settings t (Some data)))
  end.

(** A scanned row. *)
(* src: internal/storage/postgres/settings.go 57-70 Store.ListAPITokens *)
Definition scan_token (p : string * TokenRow Time) : APIToken :=
  let '(id, r) := p in
  mkAPIToken id (tkName r) (tkHash r) (tkPrefix r) (tkCreated r)
    match tkLastUsed r with Some lastUsed => Some lastUsed | None => None end.

(* src: internal/storage/postgres/settings.go Store.ListAPITokens *)
Definition postgres_ListAPITokens : M db (result (list APIToken)) :=
  r ← query token_rows;
  mret match r with
       | Err e => Err (Wrapf "querying api tokens" e)
       | Ok rows => Ok (scan_token <$> rows)
       end.

(* src: internal/storage/postgres/settings.go Store.CreateAPIToken *)
Definition postgres_CreateAPIToken (tk : APIToken) : M db (option error) :=
  exec_err "creating api token" (exec (λ t,
    let '(r, m) := insert_new unique_violation (tokID tk)
      (mkTokenRow (tokName tk) (tokHash tk) (tokPrefix tk)
         (to_timestamptz (tokCreatedAt tk)) None) (t_tokens t) in
    (r, with_tokens t m))).

(* src: internal/storage/postgres/settings.go Store.DeleteAPIToken *)
Definition postgres_DeleteAPIToken (id : string) : M db (option error) :=
  delete_by_id "api token" (λ t,
    let '(n, m) := del_row id (t_tokens t) in (n, with_tokens t m)).

(* src: internal/storage/postgres/settings.go Store.ListSchedules *)
Definition postgres_ListSchedules : M db (result (list Schedule)) :=
  list_docs "schedules" "schedule" (λ t, docs_desc (t_schedules t)).

(* src: internal/storage/postgres/settings.go Store.SaveSchedule *)
Definition postgres_SaveSchedule (x : Schedule) : M db (option error) :=
  match marshal x with
  | None => mret (Some (marshal_failed "schedule"))
  | Some data =>
      exec_err "saving schedule" (update (λ t, with_schedules t
        (upsert_doc (schID x) data (to_timestamptz (schCreatedAt x))
           (to_timestamptz (schUpdatedAt x)) (t_schedules t))))
  end.

(* src: internal/storage/postgres/settings.go Store.DeleteSchedule *)
Definition postgres_DeleteSchedule (id : string) : M db (option error) :=
  delete_by_id "schedule" (λ t,
    let '(n, m) := del_row id (t_schedules t) in (n, with_schedules t m)).

(* src: internal/storage/postgres/monitors.go Store.ListMonitors *)
Definition postgres_ListMonitors : M db (result (list Monitor)) :=
  list_docs "monitors" "monitor" (λ t, docs_desc (t_monitors t)).

(* src: internal/storage/postgres/monitors.go Store.GetMonitor *)
Definition postgres_GetMonitor (id : string) : M db (result Monitor) :=
  get_doc "monitor" (λ t, dData <$> t_monitors t !! id).

(* src: internal/storage/postgres/monitors.go Store.SaveMonitor *)
Definition postgres_SaveMonitor (m : Monitor) : M db (option error) :=
  match marshal m with
  | None => mret (Some (marshal_failed "monitor"))
  | Some data =>
      exec_err "saving monitor" (update (λ t, with_monitors t
        (upsert_doc (mID m) data (to_timestamptz (mCreatedAt m))
           (to_timestamptz (mUpdatedAt m)) (t_monitors t))))
  end.

(** The events are deleted by a second statement, whose error is dropped. *)
(* src: internal/storage/postgres/monitors.go Store.DeleteMonitor *)
Definition postgres_DeleteMonitor (id : string) : M db (option error) :=
  r ← delete_by_id "monitor" (λ t,
    let '(n, m) := del_row id (t_monitors t) in (n, with_monitors t m));
  match r with
  | Some e => mret (Some e)
  | None =>
      _ ← update (λ t, with_events t
        (filter (λ p, evrMonitor p.2 ≠ id) (t_events t)));
      mret None
  end.

(* src: internal/storage/postgres/monitors.go Store.ListMonitorEvents *)
Definition postgres_ListMonitorEvents (monitorID : string) (limit : Z)
    : M db (result (list MonitorEvent)) :=
  let limit := if limit <=? 0 then 100 else limit in
  list_docs "monitor events" "monitor event" (event_page monitorID limit).

(* src: internal/storage/postgres/monitors.go Store.AppendMonitorEvent *)
Definition postgres_AppendMonitorEvent (e : MonitorEvent) : M db (option error) :=
  match marshal e with
  | None => mret (Some (marshal_failed "monitor event"))
  | Some data =>
      exec_err "appending monitor event" (exec (λ t,
        let '(r, m) := insert_new unique_violation (evID e)
          (mkEventRow (evMonitorID e) (to_timestamptz (evTimestamp e)) data) (t_events t) in
        (r, with_events t m)))
  end.

#[export] Instance postgres_ops : StorageOps db := {|
  SaveCheck := postgres_SaveCheck; GetCheck := postgres_GetCheck;
  ListChecks := postgres_ListChecks; DeleteCheck := postgres_DeleteCheck;
  PurgeOldChecks := postgres_PurgeOldChecks;
  GetSettings := postgres_GetSettings; SaveSettings := postgres_SaveSettings;
  ListAPITokens := postgres_ListAPITokens; CreateAPIToken := postgres_CreateAPIToken;
  DeleteAPIToken := postgres_DeleteAPIToken;
  ListSchedules := postgres_ListSchedules; SaveSchedule := postgres_SaveSchedule;
  DeleteSchedule := postgres_DeleteSchedule;
  ListMonitors := postgres_ListMonitors; GetMonitor := postgres_GetMonitor;
  SaveMonitor := postgres_SaveMonitor; DeleteMonitor := postgres_DeleteMonitor;
  ListMonitorEvents := postgres_ListMonitorEvents;
  AppendMonitorEvent := postgres_AppendMonitorEvent
|}.

(** It is the reference store for its dialect. *)
Lemma postgres_is_reference : postgres_ops = ref_ops.
Proof. reflexivity. Qed.

End Postgres.

(** ** Opening *)

Section Open.
Context {D : Type} `{SqlDriver D}.

(* src: internal/storage/postgres/postgres.go Store.migrate *)
Definition postgres_migrate (migrationsFS : EmbedFS) : M D (option error) :=
  match ReadDir migrationsFS "migrations" with
  | Err e => mret (Some (Wrapf "reading migrations dir" e))
  | Ok entries => run_scripts migrationsFS (sort_strings (script_names entries))
  end.

(* src: internal/storage/postgres/postgres.go New *)
Definition postgres_New (migrationsFS : EmbedFS) (dsn : string) : M D (option error) :=
  err ← sql_Open "pgx" dsn;
  match err with
  | Some e => mret (Some (Wrapf "opening postgres db" e))
  | None =>
      err ← PingContext;
      match err with
      | Some e => _ ← db_Close; mret (Some (Wrapf "pinging postgres db" e))
      | None =>
          err ← postgres_migrate migrationsFS;
          match err with
          | Some e => _ ← db_Close; mret (Some (Wrapf "running migrations" e))
          | None => mret None
          end
      end
  end.

End Open.
