(* ===== verification/SqlRefine.v ===== *)
(** * The SQL stores implement the abstract store

    The abstraction function from tables to the abstract store, the health
    invariant of a connection, the laws of the reference store of [SqlStore]
    for any dialect whose columns behave ([DialectOk]), and from them the
    instances of [StorageLaws] of the SQLite and the PostgreSQL store. *)

From S2P Require Import Prelude.
From S2P Require Import GoString.
From S2P Require Import DnsTypes.
From S2P Require Import Settings.
From S2P Require Import Session.
From S2P Require Import GoTime.
From S2P Require Import Storage.
From S2P Require Import Sql.
From S2P Require Import SqlStore.
From S2P Require Import Sqlite.
From S2P Require Import Postgres.

Local Open Scope Z_scope.

(** ** Maps of decoded documents *)

Lemma values_omap {A B} (f : A → option B) (m : gmap string A) :
  (map_to_list (omap f m)).*2 ≡ₚ omap f (map_to_list m).*2.
Proof.
  induction m as [|i x m Hi IH] using map_ind.
  { by rewrite omap_empty, !map_to_list_empty. }
  rewrite (map_to_list_insert m) by done. csimpl.
  destruct (f x) as [y|] eqn:E.
  - rewrite (omap_insert_Some _ _ _ _ y) by done.
    rewrite map_to_list_insert by (by rewrite lookup_omap, Hi). csimpl. by rewrite IH.
  - rewrite (omap_insert_None) by done.
    rewrite delete_id by (by rewrite lookup_omap, Hi). done.
Qed.

Lemma omap_take_all {A B} (f : A → option B) n l :
  Forall (λ x, is_Some (f x)) l → omap f (take n l) = take n (omap f l).
Proof.
  intros Hl. revert n. induction Hl as [|x l [y Hy] Hl IH]; intros [|n]; try done.
  simpl. rewrite Hy. simpl. by rewrite IH.
Qed.

Lemma omap_limit_offset {A B} (f : A → option B) limit offset l :
  Forall (λ x, is_Some (f x)) l →
  omap f (limit_offset limit offset l) = limit_offset limit offset (omap f l).
Proof.
  intros Hl. unfold limit_offset.
  assert (∀ n, omap f (drop n l) = drop n (omap f l)) as Hd.
  { intros n. revert n. induction Hl as [|x l [y Hy] Hl IH]; intros [|n]; csimpl; try done.
    rewrite Hy. simpl. apply IH. }
  destruct (limit <? 0); [apply Hd|]. rewrite omap_take_all by (by apply Forall_drop). by rewrite Hd.
Qed.

Lemma Forall_limit_offset {A} (P : A → Prop) limit offset l :
  Forall P l → Forall P (limit_offset limit offset l).
Proof.
  intros Hl. unfold limit_offset. destruct (limit <? 0); [by apply Forall_drop|].
  by apply Forall_take, Forall_drop.
Qed.

Lemma omap_Some_fmap {A B} (f : A → B) (l : list A) : omap (λ x, Some (f x)) l = f <$> l.
Proof. induction l as [|x l IH]; csimpl; [done|]. by rewrite IH. Qed.

(** The entries of a map of which every value is kept. *)
Lemma map_to_list_imap_Some {A B} (f : string * A → B) (m : gmap string A) :
  (map_to_list (map_imap (λ i x, Some (f (i, x))) m)).*2 ≡ₚ f <$> map_to_list m.
Proof.
  induction m as [|i x m Hi IH] using map_ind.
  { rewrite map_imap_empty, !map_to_list_empty. done. }
  rewrite (map_imap_insert_Some _ _ _ _ (f (i, x))) by done.
  rewrite !map_to_list_insert by (done || by rewrite map_lookup_imap, Hi). csimpl. by rewrite IH.
Qed.

(** ** Time columns

    Instants for which [col_ok] holds are kept at the resolution [keep], and
    comparing columns is comparing what they keep. *)
Class DialectOk (col : Type) (DI : Dialect col) := {
  col_ok : Time → Prop;
  keep : Time → Time;
  of_to_col : ∀ t, col_ok t → of_col (to_col t : col) = Some (keep t);
  keep_ok : ∀ t, col_ok t → col_ok (keep t);
  to_col_keep : ∀ t, col_ok t → to_col (keep t) = (to_col t : col);
  col_le_keep : ∀ t u, col_ok t → col_ok u → col_le (to_col t : col) (to_col u) → keep t ≤ keep u;
  col_lt_keep : ∀ t u, col_ok t → col_ok u →
    col_lt (to_col t : col) (to_col u) = true ↔ keep t < keep u;
  page_error_nonneg : ∀ limit offset,
    0 ≤ limit → 0 ≤ offset → page_error (col := col) limit offset = None;
  (** The purges that the engine takes as whole days. *)
  purge_ok : Z → Time → Prop;
  purge_ok_bound : ∀ days now, purge_ok days now →
    purge_bound (col := col) days now = Ok (to_col (purge_cutoff days now)) ∧
    col_ok (purge_cutoff days now)
}.

Section Refine.
Context {col blob : Type} {DI : Dialect col} `{!RowOrder col} {DO : DialectOk col DI}.
Context `{Codec blob Check, Codec blob Settings, Codec blob Schedule,
  Codec blob Monitor, Codec blob MonitorEvent}.

Abbreviation db := (DB col blob).
Abbreviation Tables := (Tables col blob).
#[local] Existing Instance ref_ops.

(** The decoded contents of the tables. *)
Definition sql_view (d : db) : AbsStore :=
  let t := tables d in
  mkAbsStore
    (omap (λ r, unmarshal (ckData r)) (t_checks t))
    (t_settings t ≫= unmarshal)
    (map_imap (λ id r, Some (token_of_row (id, r))) (t_tokens t))
    (omap (λ r, unmarshal (dData r)) (t_schedules t))
    (omap (λ r, unmarshal (dData r)) (t_monitors t))
    (omap (λ r, unmarshal (evrData r)) (t_events t)).

(** A time column that agrees with the instant it was written from. *)
Definition column_of (k : col) (t : Time) : Prop := k = to_col t ∧ col_ok t.

(** A listing ordered by a time column that agrees with the documents has the
    most recent document first. *)
Lemma ordered_newest {A B} (f : B → option A) (created : A → Time) (rows : list (col * B)) :
  StronglySorted (λ x y, col_le y.1 x.1) rows →
  Forall (λ p, ∃ a, f p.2 = Some a ∧ column_of p.1 (created a)) rows →
  newest_first keep created (omap f rows.*2).
Proof.
  intros Hs Hf. unfold newest_first. induction Hs as [|p rows Hs IH Hp]; csimpl; [constructor|].
  apply Forall_cons in Hf as [(a & Ha & Hk & Ht) Hf]. rewrite Ha.
  constructor; [by apply IH|]. apply Forall_forall. intros b Hb.
  apply list_elem_of_omap in Hb as (x & Hx & Hb).
  apply list_elem_of_fmap in Hx as (q & -> & Hq).
  rewrite Forall_forall in Hp, Hf. destruct (Hf q Hq) as (b' & Hb' & Hk' & Ht').
  assert (b' = b) as -> by congruence.
  specialize (Hp q Hq). simpl in Hp. rewrite Hk, Hk' in Hp. by apply col_le_keep in Hp.
Qed.

Definition check_row_ok (r : CheckRow col blob) : Prop :=
  ∃ c : Check, unmarshal (ckData r) = Some c ∧ column_of (ckCreated r) (cCreatedAt c).

Definition event_row_ok (r : EventRow col blob) : Prop :=
  ∃ e : MonitorEvent, unmarshal (evrData r) = Some e ∧ evMonitorID e = evrMonitor r ∧
    column_of (evrTs r) (evTimestamp e).

(** Every stored document decodes, and the columns of checks, tokens and events
    agree with their documents. *)
Definition rows_ok (t : Tables) : Prop :=
  map_Forall (λ _ r, check_row_ok r) (t_checks t) ∧
  (∀ b, t_settings t = Some b → is_Some (unmarshal (A := Settings) b)) ∧
  map_Forall (λ _ r, is_Some (unmarshal (A := Schedule) (dData r))) (t_schedules t) ∧
  map_Forall (λ _ r, is_Some (unmarshal (A := Monitor) (dData r))) (t_monitors t) ∧
  map_Forall (λ _ r, event_row_ok r) (t_events t) ∧
  map_Forall (λ _ r, ∃ t, column_of (tkCreated r) t) (t_tokens t).

Definition sql_healthy (d : db) : Prop := faults d = [] ∧ rows_ok (tables d).

Lemma empty_healthy : sql_healthy (mkDB empty_tables []).
Proof. split; [done|]. split_and!; try apply map_Forall_empty. done. Qed.

(** Runs the statements of an operation on a connection without faults. *)
Ltac run_stmts :=
  cbv [mbind M_bind mret M_ret]; rewrite ?exec_healthy, ?query_healthy by done; simpl.

Ltac start d Hh :=
  destruct d as [t fs]; pose proof Hh as [Hf Hr]; simpl in Hf, Hr; subst fs;
  pose proof Hr as (Hck & Hse & Hsc & Hmo & Hev & Htk).

Lemma check_rows_decode (m : gmap string (CheckRow col blob)) :
  map_Forall (λ _ r, check_row_ok r) m →
  map_Forall (λ _ r, is_Some (unmarshal (A := Check) (ckData r))) m.
Proof. intros Hm. eapply map_Forall_impl; [done|]. intros _ r (c & Hc & _). eauto. Qed.

Lemma event_rows_decode (m : gmap string (EventRow col blob)) :
  map_Forall (λ _ r, event_row_ok r) m →
  map_Forall (λ _ r, is_Some (unmarshal (A := MonitorEvent) (evrData r))) m.
Proof. intros Hm. eapply map_Forall_impl; [done|]. intros _ r (c & Hc & _). eauto. Qed.

(** ** One lemma per kind of operation *)

Lemma get_doc_run {A} `{Codec blob A} what (f : Tables → option blob) t :
  (∀ b, f t = Some b → is_Some (unmarshal (A := A) b)) →
  get_doc (A := A) what f (mkDB t []) =
  (match f t ≫= unmarshal with Some a => Ok a | None => Err ErrNotFound end, mkDB t []).
Proof.
  intros Hd. unfold get_doc. run_stmts. destruct (f t) as [b|]; simpl; [|done].
  destruct (Hd b eq_refl) as [a Ha]. by rewrite Ha.
Qed.

Lemma list_docs_run {A} `{Codec blob A} q what (f : Tables → list blob) t :
  Forall (λ b, is_Some (unmarshal (A := A) b)) (f t) →
  list_docs (A := A) q what f (mkDB t []) = (Ok (omap unmarshal (f t)), mkDB t []).
Proof. intros Hd. unfold list_docs, decode_rows. run_stmts. by rewrite decode_all_omap. Qed.

Lemma delete_by_id_run what (f : Tables → Z * Tables) t :
  delete_by_id what f (mkDB t []) =
  (if (f t).1 =? 0 then Some ErrNotFound else None, mkDB (f t).2 []).
Proof. unfold delete_by_id. run_stmts. by destruct (f t). Qed.

(** Deleting a row deletes the decoded document. *)
Lemma del_row_view {A B} (g : A → option B) (m : gmap string A) id :
  map_Forall (λ _ r, is_Some (g r)) m →
  (if (del_row id m).1 =? 0 then Some ErrNotFound else None)
    = (abs_delete (omap g m) id).1 ∧
  omap g (del_row id m).2 = (abs_delete (omap g m) id).2.
Proof.
  intros Hm. unfold del_row, abs_delete. rewrite lookup_omap.
  destruct (m !! id) as [r|] eqn:E; simpl; [|done].
  destruct (Hm _ _ E) as [a ->]. simpl. by rewrite omap_delete.
Qed.

Lemma del_row_Forall {A} (P : string → A → Prop) (m : gmap string A) id :
  map_Forall P m → map_Forall P (del_row id m).2.
Proof.
  unfold del_row. destruct (m !! id); simpl; [|done]. apply map_Forall_delete.
Qed.

Lemma upsert_lookup (m : gmap string (DocRow col blob)) id b c u i :
  dData <$> upsert_doc id b c u m !! i = if decide (id = i) then Some b else dData <$> m !! i.
Proof.
  unfold upsert_doc. destruct (m !! id) as [r|] eqn:E; rewrite lookup_insert;
    by case_decide.
Qed.

Lemma upsert_view {A} `{Codec blob A} (m : gmap string (DocRow col blob)) id b c u (a : A) :
  unmarshal b = Some a →
  omap (λ r, unmarshal (A := A) (dData r)) (upsert_doc id b c u m) =
  <[id := a]> (omap (λ r, unmarshal (dData r)) m).
Proof.
  intros Hb. unfold upsert_doc.
  destruct (m !! id) as [r|]; by rewrite (omap_insert_Some _ _ _ _ a).
Qed.

Lemma upsert_Forall {A} `{Codec blob A} (m : gmap string (DocRow col blob)) id b c u :
  is_Some (unmarshal (A := A) b) →
  map_Forall (λ _ r, is_Some (unmarshal (A := A) (dData r))) m →
  map_Forall (λ _ r, is_Some (unmarshal (A := A) (dData r))) (upsert_doc id b c u m).
Proof.
  intros Hb Hm. unfold upsert_doc. destruct (m !! id); by apply map_Forall_insert_2.
Qed.

(** The documents of an ordered listing, and their decoding. *)
Lemma ordered_docs {A R} `{Codec blob A} (k : R → col) (g : R → blob) (m : gmap string R) :
  map_Forall (λ _ r, is_Some (unmarshal (A := A) (g r))) m →
  let l := (order_desc ((λ p, (k p.2, g p.2)) <$> map_to_list m)).*2 in
  Forall (λ b, is_Some (unmarshal (A := A) b)) l ∧
  omap (unmarshal (A := A)) l ≡ₚ (map_to_list (omap (λ r, unmarshal (A := A) (g r)) m)).*2.
Proof.
  intros Hm l.
  assert (l ≡ₚ g <$> (map_to_list m).*2) as Hl.
  { subst l. rewrite order_perm, <-!list_fmap_compose. done. }
  split.
  - rewrite Hl. apply Forall_fmap, Forall_fmap, Forall_forall.
    intros [i r] Hi%elem_of_map_to_list. apply (Hm _ _ Hi).
  - rewrite Hl, values_omap. clear. generalize (map_to_list m).*2 as rs.
    induction rs as [|r rs IH]; [done|]. csimpl. destruct (unmarshal (g r)); [by constructor|done].
Qed.

(** The same listing, by a column that agrees with the documents. *)
Lemma ordered_docs_newest {A R} `{Codec blob A} (created : A → Time) (k : R → col)
    (g : R → blob) (m : gmap string R) :
  map_Forall (λ _ r, ∃ a : A, unmarshal (g r) = Some a ∧ column_of (k r) (created a)) m →
  newest_first keep created (omap (unmarshal (A := A))
    (order_desc ((λ p, (k p.2, g p.2)) <$> map_to_list m)).*2).
Proof.
  intros Hm. apply ordered_newest; [apply order_sorted|].
  rewrite order_perm. apply Forall_fmap, Forall_forall.
  intros [i r] Hi%elem_of_map_to_list. destruct (Hm _ _ Hi) as (a & Ha & Hk & Ht). by exists a.
Qed.

(** ** The laws *)

Context `{!CodecOk blob Check _, !CodecOk blob Settings _, !CodecOk blob Schedule _,
  !CodecOk blob Monitor _, !CodecOk blob MonitorEvent _}.

Ltac encode x Hok b Hm Hu := destruct (codec_round_trip x Hok) as (b & Hm & Hu).

Lemma ref_SaveCheck_law (c : Check) (d : db) :
  sql_healthy d → faithful c ∧ col_ok (cCreatedAt c) → ∃ d', SaveCheck c d = (None, d') ∧ sql_healthy d' ∧
    sql_view d' = set_checks (sql_view d) (<[cID c := c]> (abs_checks (sql_view d))).
Proof.
  intros Hh [Hok Ht]. start d Hh. encode c Hok b Hm Hu.
  simpl. unfold ref_SaveCheck, exec_err, update. rewrite Hm. run_stmts.
  eexists. split; [done|]. split.
  - split; [done|]. split_and!; simpl; try done.
    apply map_Forall_insert_2; [by exists c|done].
  - unfold sql_view, set_checks; simpl. f_equal. by rewrite (omap_insert_Some _ _ _ _ c).
Qed.

Lemma ref_GetCheck_law id (d : db) : sql_healthy d → ∃ d',
  GetCheck id d = (abs_get (abs_checks (sql_view d)) id, d') ∧ sql_healthy d' ∧
  sql_view d' = sql_view d.
Proof.
  intros Hh. start d Hh. simpl. unfold ref_GetCheck. rewrite get_doc_run.
  - eexists. split; [|done]. unfold abs_get. rewrite lookup_omap.
    by destruct (t_checks t !! id).
  - intros b (r & Hb & ->)%fmap_Some. apply (check_rows_decode _ Hck _ _ Hb).
Qed.

Lemma ref_DeleteCheck_law id (d : db) : sql_healthy d → ∃ d',
  DeleteCheck id d = ((abs_delete (abs_checks (sql_view d)) id).1, d') ∧
  sql_healthy d' ∧
  sql_view d' = set_checks (sql_view d) (abs_delete (abs_checks (sql_view d)) id).2.
Proof.
  intros Hh. start d Hh. simpl. unfold ref_DeleteCheck. rewrite delete_by_id_run.
  destruct (del_row_view (λ r, unmarshal (A := Check) (ckData r)) _ id
    (check_rows_decode _ Hck)) as [HD1 HD2].
  pose proof (del_row_Forall _ _ id Hck) as HD3.
  revert HD1 HD2 HD3. destruct (del_row id (t_checks t)) as [n m]; simpl; intros HD1 HD2 HD3.
  eexists. split; [by rewrite HD1|]. split.
  - split; [done|]. by split_and!.
  - unfold sql_view, set_checks; simpl. by rewrite HD2.
Qed.

Lemma ref_GetSettings_law (d : db) : sql_healthy d → ∃ d',
  GetSettings d = (Ok (default Default (abs_settings (sql_view d))), d') ∧
  sql_healthy d' ∧ sql_view d' = sql_view d.
Proof.
  intros Hh. start d Hh. simpl. unfold ref_GetSettings. cbv [mbind M_bind].
  rewrite get_doc_run by done. eexists. split; [|done]. cbv [mret M_ret]. simpl.
  destruct (t_settings t) as [b|]; simpl; [|done]. destruct (Hse b eq_refl) as [x Hx].
  unfold mbind in *. simpl. by rewrite Hx.
Qed.

Lemma ref_SaveSettings_law (x : Settings) (d : db) :
  sql_healthy d → faithful x → ∃ d', SaveSettings x d = (None, d') ∧ sql_healthy d' ∧
    sql_view d' = set_settings (sql_view d) (Some x).
Proof.
  intros Hh Hok. start d Hh. encode x Hok b Hm Hu.
  simpl. unfold ref_SaveSettings, exec_err, update. rewrite Hm. run_stmts.
  eexists. split; [done|]. split.
  - split; [done|]. split_and!; simpl; try done. by intros ? [= <-].
  - unfold sql_view, set_settings; simpl. by rewrite Hu.
Qed.

Lemma ref_GetMonitor_law id (d : db) : sql_healthy d → ∃ d',
  GetMonitor id d = (abs_get (abs_monitors (sql_view d)) id, d') ∧ sql_healthy d' ∧
  sql_view d' = sql_view d.
Proof.
  intros Hh. start d Hh. simpl. unfold ref_GetMonitor. rewrite get_doc_run.
  - eexists. split; [|done]. unfold abs_get. rewrite lookup_omap.
    by destruct (t_monitors t !! id).
  - intros b (r & Hb & ->)%fmap_Some. apply (Hmo _ _ Hb).
Qed.

Lemma ref_SaveMonitor_law (m : Monitor) (d : db) :
  sql_healthy d → faithful m → ∃ d', SaveMonitor m d = (None, d') ∧ sql_healthy d' ∧
    sql_view d' = set_monitors (sql_view d) (<[mID m := m]> (abs_monitors (sql_view d))).
Proof.
  intros Hh Hok. start d Hh. encode m Hok b Hm Hu.
  simpl. unfold ref_SaveMonitor, exec_err, update. rewrite Hm. run_stmts.
  eexists. split; [done|]. split.
  - split; [done|]. split_and!; simpl; try done. by apply upsert_Forall.
  - unfold sql_view, set_monitors; simpl. by rewrite (upsert_view _ _ _ _ _ m).
Qed.

(** Deleting the event rows of a monitor deletes the decoded events. *)
Lemma filter_events_view (id : string) (m : gmap string (EventRow col blob)) :
  map_Forall (λ _ r, event_row_ok r) m →
  omap (λ r, unmarshal (A := MonitorEvent) (evrData r))
    (filter (λ p, evrMonitor p.2 ≠ id) m) =
  filter (λ p, evMonitorID p.2 ≠ id) (omap (λ r, unmarshal (evrData r)) m).
Proof.
  intros Hm. apply map_eq. intros i.
  rewrite lookup_omap, !map_lookup_filter, lookup_omap.
  destruct (m !! i) as [r|] eqn:E; simpl; [|done].
  destruct (Hm _ _ E) as (e & He & Hid & _). rewrite He. simpl. rewrite Hid.
  by destruct (decide (evrMonitor r ≠ id)) as [Hne|Hne]; simpl;
    repeat case_guard; simpl; try done; rewrite ?He.
Qed.

Lemma ref_DeleteMonitor_law id (d : db) : sql_healthy d → ∃ d',
  DeleteMonitor id d = ((abs_delete (abs_monitors (sql_view d)) id).1, d') ∧
  sql_healthy d' ∧
  sql_view d' =
    (if decide (abs_monitors (sql_view d) !! id = None) then sql_view d
     else set_events (set_monitors (sql_view d) (delete id (abs_monitors (sql_view d))))
            (filter (λ p, evMonitorID p.2 ≠ id) (abs_events (sql_view d)))).
Proof.
  intros Hh. start d Hh. simpl. unfold ref_DeleteMonitor, del_row, abs_delete.
  cbv [mbind M_bind]. rewrite delete_by_id_run. rewrite lookup_omap.
  destruct (t_monitors t !! id) as [r|] eqn:E; simpl.
  - destruct (Hmo _ _ E) as [a ->]. simpl. unfold update. run_stmts.
    eexists. split; [done|]. split.
    + split; [done|]. split_and!; simpl; try done.
      * by apply map_Forall_delete.
      * intros i x [Hx _]%map_lookup_filter_Some. apply (Hev _ _ Hx).
    + unfold sql_view, set_events, set_monitors; simpl.
      by rewrite omap_delete, filter_events_view.
  - eexists. split; [done|]. split; [done|]. unfold sql_view; simpl. by destruct t.
Qed.

(** The rows of a monitor are the rows of its events. *)
Lemma monitor_events_view mid (m : gmap string (EventRow col blob)) :
  map_Forall (λ _ r, event_row_ok r) m →
  omap (λ r, unmarshal (A := MonitorEvent) (evrData r)) (filter (λ p, evrMonitor p.2 = mid) m) =
  filter (λ p, evMonitorID p.2 = mid) (omap (λ r, unmarshal (evrData r)) m).
Proof.
  intros Hev. apply map_eq. intros i. rewrite lookup_omap, !map_lookup_filter, lookup_omap.
  destruct (m !! i) as [r|] eqn:E; simpl; [|done].
  destruct (Hev _ _ E) as (e & He & Hid & _). rewrite He. simpl. rewrite Hid.
  repeat case_guard; simpl; try done; rewrite ?He; done.
Qed.

(** A positive limit takes the head of the ordered rows. *)
Lemma event_page_take mid limit (t : Tables) :
  event_page mid (if limit <=? 0 then 100 else limit) t =
  take (event_limit limit) (order_desc ((λ p, (evrTs p.2, evrData p.2)) <$>
    map_to_list (filter (λ p, evrMonitor p.2 = mid) (t_events t)))).*2.
Proof.
  unfold event_page, limit_offset, event_limit. simpl.
  destruct (Z.leb_spec limit 0); simpl; [done|]. by destruct (Z.ltb_spec limit 0); [lia|].
Qed.

Lemma ref_ListMonitorEvents_law mid limit (d : db) : sql_healthy d → ∃ d' l,
  ListMonitorEvents mid limit d = (Ok (take (event_limit limit) l), d') ∧
  sql_healthy d' ∧ sql_view d' = sql_view d ∧
  l ≡ₚ (map_to_list (events_of (sql_view d) mid)).*2 ∧ newest_first keep evTimestamp l.
Proof.
  intros Hh. start d Hh. simpl. unfold ref_ListMonitorEvents.
  assert (map_Forall (λ _ r, event_row_ok r) (filter (λ p, evrMonitor p.2 = mid) (t_events t)))
    as Hrows by (intros i x [Hx _]%map_lookup_filter_Some; apply (Hev _ _ Hx)).
  destruct (ordered_docs (A := MonitorEvent) evrTs evrData _ (event_rows_decode _ Hrows))
    as [Hd Hp].
  assert (newest_first keep evTimestamp (omap (unmarshal (A := MonitorEvent))
    (order_desc ((λ p, (evrTs p.2, evrData p.2)) <$>
       map_to_list (filter (λ p, evrMonitor p.2 = mid) (t_events t)))).*2)) as Hn.
  { apply ordered_docs_newest. eapply map_Forall_impl; [done|].
    intros _ r (e & He & _ & Hc). by exists e. }
  rewrite list_docs_run, event_page_take; [|rewrite event_page_take; by apply Forall_take].
  eexists _, _. rewrite omap_take_all by done.
  split; [done|]. split; [done|]. split; [done|]. split; [|done].
  rewrite Hp. unfold events_of. simpl. by rewrite monitor_events_view.
Qed.

Lemma ref_AppendMonitorEvent_law (e : MonitorEvent) (d : db) :
  sql_healthy d → faithful e ∧ col_ok (evTimestamp e) → ∃ err d',
    AppendMonitorEvent e d = (err, d') ∧ sql_healthy d' ∧
    (err = None ↔ abs_events (sql_view d) !! evID e = None) ∧
    sql_view d' =
      set_events (sql_view d) (abs_insert (evID e) e (abs_events (sql_view d))).
Proof.
  intros Hh [Hok Ht]. start d Hh. encode e Hok b Hm Hu.
  simpl. unfold ref_AppendMonitorEvent, exec_err, insert_new, abs_insert. rewrite Hm, lookup_omap.
  run_stmts. destruct (t_events t !! evID e) as [r|] eqn:E; simpl.
  - destruct (Hev _ _ E) as (e' & -> & _). simpl. eexists _, _. split; [done|].
    split; [done|]. by destruct t.
  - eexists _, _. split; [done|]. split; [|split; [done|]].
    + split; [done|]. split_and!; simpl; try done.
      apply map_Forall_insert_2; [by exists e|done].
    + unfold sql_view, set_events; simpl. by rewrite (omap_insert_Some _ _ _ _ e).
Qed.

Lemma ref_ListSchedules_law (d : db) : sql_healthy d → ∃ d' l,
  ListSchedules d = (Ok l, d') ∧ sql_healthy d' ∧ sql_view d' = sql_view d ∧
  l ≡ₚ (map_to_list (abs_schedules (sql_view d))).*2.
Proof.
  intros Hh. start d Hh. simpl. unfold ref_ListSchedules.
  destruct (ordered_docs (A := Schedule) dCreated dData _ Hsc) as [Hd Hp].
  rewrite list_docs_run by done. eexists _, _. done.
Qed.

Lemma ref_SaveSchedule_law (x : Schedule) (d : db) :
  sql_healthy d → faithful x → ∃ d', SaveSchedule x d = (None, d') ∧ sql_healthy d' ∧
    sql_view d' =
      set_schedules (sql_view d) (<[schID x := x]> (abs_schedules (sql_view d))).
Proof.
  intros Hh Hok. start d Hh. encode x Hok b Hm Hu.
  simpl. unfold ref_SaveSchedule, exec_err, update. rewrite Hm. run_stmts.
  eexists. split; [done|]. split.
  - split; [done|]. split_and!; simpl; try done. by apply upsert_Forall.
  - unfold sql_view, set_schedules; simpl. by rewrite (upsert_view _ _ _ _ _ x).
Qed.

Lemma ref_DeleteSchedule_law id (d : db) : sql_healthy d → ∃ d',
  DeleteSchedule id d = ((abs_delete (abs_schedules (sql_view d)) id).1, d') ∧
  sql_healthy d' ∧
  sql_view d' =
    set_schedules (sql_view d) (abs_delete (abs_schedules (sql_view d)) id).2.
Proof.
  intros Hh. start d Hh. simpl. unfold ref_DeleteSchedule. rewrite delete_by_id_run.
  destruct (del_row_view (λ r, unmarshal (A := Schedule) (dData r)) _ id Hsc) as [HD1 HD2].
  pose proof (del_row_Forall _ _ id Hsc) as HD3.
  revert HD1 HD2 HD3. destruct (del_row id (t_schedules t)) as [n m]; simpl; intros HD1 HD2 HD3.
  eexists. split; [by rewrite HD1|]. split.
  - split; [done|]. by split_and!.
  - unfold sql_view, set_schedules; simpl. by rewrite HD2.
Qed.

Lemma ref_ListMonitors_law (d : db) : sql_healthy d → ∃ d' l,
  ListMonitors d = (Ok l, d') ∧ sql_healthy d' ∧ sql_view d' = sql_view d ∧
  l ≡ₚ (map_to_list (abs_monitors (sql_view d))).*2.
Proof.
  intros Hh. start d Hh. simpl. unfold ref_ListMonitors.
  destruct (ordered_docs (A := Monitor) dCreated dData _ Hmo) as [Hd Hp].
  rewrite list_docs_run by done. eexists _, _. done.
Qed.

Lemma ref_ListChecks_law limit offset (d : db) :
  sql_healthy d → page_error (col := col) limit offset = None → ∃ d' l,
  ListChecks limit offset d = (Ok (limit_offset limit offset l), d') ∧
  sql_healthy d' ∧ sql_view d' = sql_view d ∧
  l ≡ₚ (map_to_list (abs_checks (sql_view d))).*2 ∧ newest_first keep cCreatedAt l.
Proof.
  intros Hh Hpage. start d Hh. simpl. unfold ref_ListChecks, decode_rows, check_page. run_stmts.
  rewrite Hpage. simpl.
  destruct (ordered_docs (A := Check) ckCreated ckData _ (check_rows_decode _ Hck)) as [Hd Hp].
  pose proof (ordered_docs_newest cCreatedAt ckCreated ckData _ Hck) as Hn.
  set (l := (order_desc _).*2) in *. exists (mkDB t []), (omap unmarshal l).
  rewrite decode_all_omap by (by apply Forall_limit_offset). by rewrite omap_limit_offset.
Qed.

(** A purge of rows is a purge of the decoded checks. *)
Lemma purge_view days now (m : gmap string (CheckRow col blob)) :
  map_Forall (λ _ r, check_row_ok r) m → col_ok (purge_cutoff days now) →
  omap (λ r, unmarshal (ckData r))
    (filter (λ p, ¬ (col_lt (ckCreated p.2) (to_col (purge_cutoff days now)) = true)) m) =
  abs_purge keep days now (omap (λ r, unmarshal (ckData r)) m).
Proof.
  intros Hm Ht. apply map_eq. intros i. unfold abs_purge.
  rewrite lookup_omap, !map_lookup_filter, lookup_omap.
  destruct (m !! i) as [r|] eqn:E; simpl; [|done].
  destruct (Hm _ _ E) as (c & Hc & Hcol & Hok). rewrite Hc. simpl.
  assert (¬ (col_lt (ckCreated r) (to_col (purge_cutoff days now)) = true) ↔
    keep (purge_cutoff days now) ≤ keep (cCreatedAt c)) as Hlt
    by (rewrite Hcol, col_lt_keep by done; lia).
  repeat case_guard; simpl; rewrite ?Hc; try done; exfalso; tauto.
Qed.

Lemma ref_PurgeOldChecks_law days now (d : db) :
  sql_healthy d → purge_ok days now → ∃ d',
  PurgeOldChecks days now d = (None, d') ∧ sql_healthy d' ∧
  sql_view d' = set_checks (sql_view d) (abs_purge keep days now (abs_checks (sql_view d))).
Proof.
  intros Hh [Hb Ht]%purge_ok_bound. start d Hh. simpl. unfold ref_PurgeOldChecks, exec_err. run_stmts.
  rewrite Hb. simpl. eexists. split; [done|]. split.
  - split; [done|]. split_and!; simpl; try done.
    intros i x [Hx _]%map_lookup_filter_Some. apply (Hck _ _ Hx).
  - unfold sql_view, set_checks; simpl. by rewrite purge_view.
Qed.

(** A token row that is read back has the column of its creation time. *)
Lemma token_row_created (m : gmap string (TokenRow col)) i r :
  map_Forall (λ _ r, ∃ t, column_of (tkCreated r) t) m → m !! i = Some r →
  column_of (tkCreated r) (tokCreatedAt (token_of_row (i, r))).
Proof.
  intros Hm Hi. destruct (Hm _ _ Hi) as (t & Ht & Hok). simpl.
  rewrite Ht, of_to_col by done. simpl.
  split; [by rewrite to_col_keep|by apply keep_ok].
Qed.

Lemma ref_ListAPITokens_law (d : db) : sql_healthy d → ∃ d' l,
  ListAPITokens d = (Ok l, d') ∧ sql_healthy d' ∧ sql_view d' = sql_view d ∧
  l ≡ₚ (map_to_list (abs_tokens (sql_view d))).*2 ∧ newest_first keep tokCreatedAt l.
Proof.
  intros Hh. start d Hh. simpl. unfold ref_ListAPITokens. run_stmts.
  eexists _, _. split; [done|]. split; [done|]. split; [done|].
  unfold token_rows. set (rows := order_desc _).
  assert (rows ≡ₚ (λ p, (tkCreated p.2, p)) <$> map_to_list (t_tokens t)) as Hrows
    by apply order_perm.
  split.
  - etrans; [|symmetry; apply (map_to_list_imap_Some token_of_row)].
    rewrite Hrows, <-!list_fmap_compose. done.
  - rewrite <-(omap_Some_fmap token_of_row). apply ordered_newest; [apply order_sorted|].
    rewrite Hrows. apply Forall_fmap, Forall_forall. intros [i r] Hi%elem_of_map_to_list.
    exists (token_of_row (i, r)). split; [done|]. by eapply token_row_created.
Qed.

Lemma ref_CreateAPIToken_law (tk : APIToken) (d : db) :
  sql_healthy d → col_ok (tokCreatedAt tk) → ∃ err d',
    CreateAPIToken tk d = (err, d') ∧ sql_healthy d' ∧
    (err = None ↔ abs_tokens (sql_view d) !! tokID tk = None) ∧
    sql_view d' = set_tokens (sql_view d)
      (abs_insert (tokID tk) (kept_token keep tk) (abs_tokens (sql_view d))).
Proof.
  intros Hh Hok. start d Hh. simpl.
  unfold ref_CreateAPIToken, exec_err, insert_new, abs_insert. rewrite map_lookup_imap.
  run_stmts. destruct (t_tokens t !! tokID tk) as [r|] eqn:E; simpl.
  - eexists _, _. split; [done|]. split; [done|]. by destruct t.
  - eexists _, _. split; [done|]. split; [|split; [done|]].
    + split; [done|]. split_and!; simpl; try done.
      apply map_Forall_insert_2; [by exists (tokCreatedAt tk)|done].
    + unfold sql_view, set_tokens; simpl. f_equal.
      rewrite (map_imap_insert_Some _ _ _ _ (kept_token keep tk)); [done|].
      simpl. by rewrite of_to_col.
Qed.

Lemma ref_DeleteAPIToken_law id (d : db) : sql_healthy d → ∃ d',
  DeleteAPIToken id d = ((abs_delete (abs_tokens (sql_view d)) id).1, d') ∧
  sql_healthy d' ∧
  sql_view d' = set_tokens (sql_view d) (abs_delete (abs_tokens (sql_view d)) id).2.
Proof.
  intros Hh. start d Hh. simpl. unfold ref_DeleteAPIToken. rewrite delete_by_id_run.
  pose proof (del_row_Forall _ _ id Htk) as HD3. unfold abs_delete. rewrite map_lookup_imap.
  revert HD3. unfold del_row. destruct (t_tokens t !! id) as [r|] eqn:E; simpl; intros HD3.
  - eexists. split; [done|]. split; [split; [done|]; by split_and!|].
    unfold sql_view, set_tokens; simpl. f_equal. apply map_eq. intros i.
    rewrite map_lookup_imap. destruct (decide (i = id)) as [->|Hne].
    + by rewrite !lookup_delete_eq.
    + by rewrite !lookup_delete_ne, map_lookup_imap by done.
  - eexists. split; [done|]. split; [split; [done|]; by split_and!|]. by destruct t.
Qed.

Definition ref_laws : StorageLaws db ref_ops := {|
  view := sql_view; healthy := sql_healthy;
  okCheck c := faithful c ∧ col_ok (cCreatedAt c); okSettings := faithful; okSchedule := faithful;
  okMonitor := faithful; okEvent e := faithful e ∧ col_ok (evTimestamp e);
  okToken tk := col_ok (tokCreatedAt tk);
  okPage limit offset := page_error (col := col) limit offset = None;
  okPurge := purge_ok;
  kept := keep; okPage_nonneg := page_error_nonneg;
  SaveCheck_law := ref_SaveCheck_law; GetCheck_law := ref_GetCheck_law;
  DeleteCheck_law := ref_DeleteCheck_law;
  GetSettings_law := ref_GetSettings_law; SaveSettings_law := ref_SaveSettings_law;
  GetMonitor_law := ref_GetMonitor_law; SaveMonitor_law := ref_SaveMonitor_law;
  DeleteMonitor_law := ref_DeleteMonitor_law;
  ListMonitorEvents_law := ref_ListMonitorEvents_law;
  AppendMonitorEvent_law := ref_AppendMonitorEvent_law;
  ListSchedules_law := ref_ListSchedules_law;
  SaveSchedule_law := ref_SaveSchedule_law;
  DeleteSchedule_law := ref_DeleteSchedule_law;
  ListMonitors_law := ref_ListMonitors_law;
  ListChecks_law := ref_ListChecks_law; PurgeOldChecks_law := ref_PurgeOldChecks_law;
  ListAPITokens_law := ref_ListAPITokens_law;
  CreateAPIToken_law := ref_CreateAPIToken_law;
  DeleteAPIToken_law := ref_DeleteAPIToken_law
|}.

Lemma empty_view : sql_view (mkDB empty_tables []) = abs_empty.
Proof.
  unfold sql_view, abs_empty. simpl. f_equal; apply omap_empty.
Qed.

(** A history on a new database. *)
Lemma ref_implements_store (os : list op) :
  ops_pre (S := db) (O := ref_ops) (StorageLaws0 := ref_laws) os abs_empty → ∃ rs (d : db),
    do_ops os (mkDB empty_tables []) = (rs, d) ∧ faults d = [] ∧
    abs_history keep os abs_empty rs ∧ sql_view d = abs_final keep os abs_empty.
Proof.
  intros Hp. rewrite <-empty_view in Hp.
  destruct (@do_ops_correct db _ ref_laws os _ empty_healthy Hp) as (rs & d & Hd & [Hf _] & Hv & Ha).
  simpl in Hv, Ha. rewrite empty_view in Hv, Ha. exists rs, d. by split_and!.
Qed.

End Refine.

(** ** The two stores *)

(** Text columns keep whole seconds. *)
Lemma text_le t u : time_ok t → time_ok u →
  String.le (FormatRFC3339 t) (FormatRFC3339 u) → whole_second t ≤ whole_second u.
Proof. intros Ht Hu Hle. apply Format_le in Hle; [|done..]. unfold whole_second. lia. Qed.

Lemma text_lt t u : time_ok t → time_ok u →
  String.ltb (FormatRFC3339 t) (FormatRFC3339 u) = true ↔ whole_second t < whole_second u.
Proof. intros Ht Hu. rewrite Format_ltb by done. unfold whole_second. lia. Qed.

#[export] Instance text_dialect_ok : DialectOk string text_dialect := {|
  col_ok := time_ok; keep := whole_second;
  of_to_col := ParseRFC3339_Format; keep_ok := whole_second_ok;
  to_col_keep t _ := Format_whole_second t;
  col_le_keep := text_le; col_lt_keep := text_lt;
  page_error_nonneg _ _ _ _ := eq_refl;
  purge_ok days now := time_ok (purge_cutoff days now);
  purge_ok_bound days now Hc := conj eq_refl Hc
|}.

(** A purge of PostgreSQL for which the driver sends the number of days as
    decimal text, and the engine takes the interval as days of 24 hours, from a
    clock at the resolution of its columns. *)
Definition pg_purge_ok {E : PgEngine} (days : Z) (now : Time) : Prop :=
  bind_text days = Ok (Itoa days) ∧
  minus_interval now (Itoa days +:+ " days") = Ok (purge_cutoff days now) ∧
  to_timestamptz (purge_cutoff days now) = purge_cutoff days now ∧
  time_ok (purge_cutoff days now).

(** Columns of PostgreSQL keep what the engine keeps of an instant. *)
#[export] Instance timestamptz_dialect_ok {E : PgEngine} {EO : PgEngineOk E} :
  DialectOk Time timestamptz_dialect.
Proof.
  refine (Build_DialectOk Time timestamptz_dialect time_ok to_timestamptz _ _ _ _ _ _ pg_purge_ok _).
  - done.
  - apply timestamptz_ok.
  - apply timestamptz_kept.
  - done.
  - intros t u _ _. apply Z.ltb_lt.
  - apply page_accepted.
  - intros days now (Hb & Hm & Hk & Ht). split; [|done].
    simpl. unfold days_before. by rewrite Hb; simpl; rewrite Hm, Hk.
Defined.

Section Stores.
Context {blob : Type}.
Context `{Codec blob Check, Codec blob Settings, Codec blob Schedule,
  Codec blob Monitor, Codec blob MonitorEvent}.
Context `{!CodecOk blob Check _, !CodecOk blob Settings _, !CodecOk blob Schedule _,
  !CodecOk blob Monitor _, !CodecOk blob MonitorEvent _}.

#[export] Instance sqlite_laws `{!RowOrder string} :
  StorageLaws (DB string blob) sqlite_ops := ref_laws.

#[export] Instance postgres_laws {E : PgEngine} {EO : PgEngineOk E} `{!RowOrder Time} :
  StorageLaws (DB Time blob) postgres_ops := ref_laws.

(** C5: the SQLite store refines the abstract store.  On a new database that
    suffers no fault, any sequence of interface calls whose saved values are
    representable answers exactly as the abstract maps do: missing documents
    are reported, taken identifiers of changelog entries and tokens are
    refused, pages of checks and changelogs are sections of a listing with the
    most recent first, a purge drops exactly the checks older than its cutoff,
    deleting a monitor cascades to its changelog; and it ends in tables that
    decode to the final abstract store.  Times are kept to the second. *)
Theorem sqlite_implements_store `{!RowOrder string} (os : list op) :
  ops_pre (O := sqlite_ops) os abs_empty → ∃ rs (d : DB string blob),
    do_ops os (mkDB empty_tables []) = (rs, d) ∧ faults d = [] ∧
    abs_history whole_second os abs_empty rs ∧ sql_view d = abs_final whole_second os abs_empty.
Proof. exact (ref_implements_store (DI := text_dialect) os). Qed.

(** C6: the PostgreSQL store refines the same abstract store, with times kept
    as its columns keep them: on a new database without faults, every history
    whose saved values are representable, whose pages the engine accepts and
    whose purges it computes as days of 24 hours answers as the abstract maps
    do and ends in tables that decode to the final abstract store. *)
Theorem postgres_implements_store {E : PgEngine} {EO : PgEngineOk E} `{!RowOrder Time}
    (os : list op) :
  ops_pre (O := postgres_ops) os abs_empty → ∃ rs (d : DB Time blob),
    do_ops os (mkDB empty_tables []) = (rs, d) ∧ faults d = [] ∧
    abs_history to_timestamptz os abs_empty rs ∧
    sql_view d = abs_final to_timestamptz os abs_empty.
Proof. exact (ref_implements_store (DI := timestamptz_dialect) os). Qed.

End Stores.

(** ** A concrete encoding *)

(** Documents kept as they are, tagged with their type. *)
Inductive doc :=
| DCheck (c : Check) | DSettings (s : Settings) | DSchedule (s : Schedule)
| DMonitor (m : Monitor) | DEvent (e : MonitorEvent).

#[export] Instance doc_Check : Codec doc Check := {|
  marshal c := Some (DCheck c); faithful _ := True;
  unmarshal b := match b with DCheck c => Some c | _ => None end |}.
#[export] Instance doc_Settings : Codec doc Settings := {|
  marshal c := Some (DSettings c); faithful _ := True;
  unmarshal b := match b with DSettings c => Some c | _ => None end |}.
#[export] Instance doc_Schedule : Codec doc Schedule := {|
  marshal c := Some (DSchedule c); faithful _ := True;
  unmarshal b := match b with DSchedule c => Some c | _ => None end |}.
#[export] Instance doc_Monitor : Codec doc Monitor := {|
  marshal c := Some (DMonitor c); faithful _ := True;
  unmarshal b := match b with DMonitor c => Some c | _ => None end |}.
#[export] Instance doc_MonitorEvent : Codec doc MonitorEvent := {|
  marshal c := Some (DEvent c); faithful _ := True;
  unmarshal b := match b with DEvent c => Some c | _ => None end |}.

#[export] Instance doc_order : RowOrder string := stable_order.
#[export] Instance doc_order_pg {E : PgEngine} : RowOrder Time := stable_order.

#[export] Instance doc_Check_ok : CodecOk doc Check doc_Check.
Proof. split. eauto. Qed.
#[export] Instance doc_Settings_ok : CodecOk doc Settings doc_Settings.
Proof. split. eauto. Qed.
#[export] Instance doc_Schedule_ok : CodecOk doc Schedule doc_Schedule.
Proof. split. eauto. Qed.
#[export] Instance doc_Monitor_ok : CodecOk doc Monitor doc_Monitor.
Proof. split. eauto. Qed.
#[export] Instance doc_MonitorEvent_ok : CodecOk doc MonitorEvent doc_MonitorEvent.
Proof. split. eauto. Qed.

Definition sample_history : list op :=
  [OSaveSettings Default; OGetSettings; OListSchedules; OGetMonitor "m1";
   OAppendMonitorEvent (mkMonitorEvent "e1" "m1" 0 MonitorStatusOK [] "" false);
   OSaveMonitor (mkMonitor "m1" "" MonitorChange "a.example" "A" [] "" "" true 0 0);
   ODeleteMonitor "m1"; OListMonitorEvents "m1" 0;
   OSaveCheck (mkCheck "c1" "a.example" "A" (10 ^ 18) []
     (mkCheckSummary 0 0 0 0 0 0 ∅ 0 None));
   OListChecks 20 0; OPurgeOldChecks 30 (2 * 10 ^ 18); OListChecks 20 0;
   OCreateAPIToken (mkAPIToken "t1" "ci" "hash" "prefix" (10 ^ 18 + 5) None);
   OListAPITokens; ODeleteAPIToken "t1"].

Lemma sqlite_implements_store_witness : ∃ rs (d : DB string doc),
  do_ops sample_history (mkDB empty_tables []) = (rs, d) ∧ faults d = [] ∧
  abs_history whole_second sample_history abs_empty rs ∧
  sql_view d = abs_final whole_second sample_history abs_empty.
Proof.
  apply sqlite_implements_store. unfold sample_history. cbn [ops_pre op_pre].
  split_and!; try exact I; try (vm_compute; done).
Defined.

(** An engine with microseconds, whose session is in UTC and whose driver sends
    integers as decimal text. *)
Definition utc_engine : PgEngine := {|
  to_timestamptz t := t / 1000 * 1000;
  bind_text n := Ok (Itoa n);
  minus_interval now s :=
    match Atoi (TrimSuffix s " days") with
    | Some days => Ok (now - days * 86400 * 10 ^ 9)
    | None => Err (External "invalid input syntax for type interval" false)
    end;
  page_refused limit offset :=
    if (limit <? 0) || (offset <? 0) then Some (External "LIMIT must not be negative" false)
    else None;
  unique_violation := "duplicate key value violates unique constraint"
|}.

#[export] Instance utc_engine_ok : PgEngineOk utc_engine.
Proof.
  split; simpl.
  - unfold time_ok. intros t Ht. Z.to_euclidean_division_equations. lia.
  - intros t _. by rewrite Z.div_mul.
  - intros limit offset Hl Ho. destruct (Z.ltb_spec limit 0), (Z.ltb_spec offset 0); done || lia.
Qed.

Lemma postgres_implements_store_witness : ∃ rs (d : DB Time doc),
  do_ops (H := postgres_ops (E := utc_engine)) sample_history (mkDB empty_tables []) = (rs, d) ∧
  faults d = [] ∧
  abs_history (to_timestamptz (PgEngine := utc_engine)) sample_history abs_empty rs ∧
  sql_view (DI := timestamptz_dialect (E := utc_engine)) d =
    abs_final (to_timestamptz (PgEngine := utc_engine)) sample_history abs_empty.
Proof.
  apply (postgres_implements_store (E := utc_engine)). unfold sample_history.
  cbn [ops_pre op_pre]. split_and!; try exact I; try (vm_compute; done).
Defined.

(** ** Opening *)

(** A driver that records what is done with the connection; [bad] says which
    scripts fail. *)
Inductive driver_call := CallOpen (name dsn : string) | CallConns (n : Z) | CallPing
  | CallExec (script : string) | CallClose.

Definition recording_driver (bad : string → option error) : SqlDriver (list driver_call) := {|
  sql_Open name dsn l := (None, l ++ [CallOpen name dsn]);
  SetMaxOpenConns n l := (tt, l ++ [CallConns n]);
  PingContext l := (None, l ++ [CallPing]);
  ExecScript s l := (bad s, l ++ [CallExec s]);
  db_Close l := (tt, l ++ [CallClose])
|}.

Section Opening.
Variables (bad : string → option error) (fs : EmbedFS) (content : string → string).
Hypothesis Hread : ∀ name, ReadFile fs ("migrations/" +:+ name) = Ok (content name).

#[local] Instance driver : SqlDriver (list driver_call) := recording_driver bad.

(** The scripts run in the given order, up to and including the first that
    fails. *)
Lemma run_scripts_log names l : ∃ done_ rest, names = done_ ++ rest ∧
  Forall (λ n, bad (content n) = None) done_ ∧
  match rest with
  | [] => run_scripts fs names l = (None, l ++ ((CallExec ∘ content) <$> done_))
  | n :: _ => ∃ e, bad (content n) = Some e ∧ run_scripts fs names l =
      (Some (Wrapf ("executing migration " +:+ n) e), l ++ ((CallExec ∘ content) <$> done_ ++ [n]))
  end.
Proof.
  revert l. induction names as [|n names IH]; intros l.
  { exists [], []. split; [done|]. split; [done|]. by rewrite app_nil_r. }
  cbn [run_scripts]. rewrite Hread. cbv [mbind M_bind mret M_ret].
  cbn [ExecScript driver recording_driver]. destruct (bad (content n)) as [e|] eqn:Hb.
  - exists [], (n :: names). split; [done|]. split; [done|]. by exists e.
  - destruct (IH (l ++ [CallExec (content n)])) as (ok & rest & -> & Hok & Hrun).
    exists (n :: ok), rest. split; [done|]. split; [by constructor|]. destruct rest as [|m rest].
    + rewrite Hrun. by rewrite <-app_assoc.
    + destruct Hrun as (e & He & Hrun). exists e. split; [done|]. rewrite Hrun. by rewrite <-app_assoc.
Qed.

(** A store that opens has run every script of the directory, in the order of
    their names; one that does not has closed its connection after the script
    that failed. *)
Theorem New_migrates entries dsn :
  ReadDir fs "migrations" = Ok entries →
  let '(err, calls) := postgres_New fs dsn [] in
  ∃ done_ rest, sort_strings (script_names entries) = done_ ++ rest ∧
    let start := [CallOpen "pgx" dsn; CallPing] ++ ((CallExec ∘ content) <$> done_) in
    match rest with
    | [] => err = None ∧ calls = start
    | n :: _ => is_Some err ∧ calls = start ++ [CallExec (content n); CallClose]
    end.
Proof.
  intros Hdir. unfold postgres_New. cbv [mbind M_bind mret M_ret]. simpl.
  unfold postgres_migrate. rewrite Hdir.
  destruct (run_scripts_log (sort_strings (script_names entries)) [CallOpen "pgx" dsn; CallPing])
    as (ok & rest & Hs & _ & Hrun).
  destruct rest as [|n rest].
  - rewrite Hrun. by exists ok, [].
  - destruct Hrun as (e & He & ->). simpl. exists ok, (n :: rest). split; [done|].
    split; [eauto|]. by rewrite fmap_app, <-app_assoc.
Qed.

End Opening.
