(* ===== verification/Checker.v ===== *)
(** * Package checker: propagation checks

    [internal/checker/checker.go]: validation of requests, choice of the
    resolvers, the cached query, the concurrent fan-out, [Check] and [Lookup].

    The checker works on a [World] through the interfaces of the storage, the
    cache and the client.  The goroutines of [fanOut] are a pool of programs
    ([Sched]); the order in which they run is the argument [sched].  The
    Prometheus counters have no effect on the results and are left out. *)

From S2P Require Import Prelude.
From S2P Require Import GoString.
From S2P Require Import GoFmt.
From S2P Require Import DnsTypes.
From S2P Require Import Crypto.
From S2P Require Import Permalink.
From S2P Require Import Settings.
From S2P Require Import NetIP.
From S2P Require Import Config.
From S2P Require Import Resolvers.
From S2P Require Import Env.
From S2P Require Import Cache.
From S2P Require Import DnsClient.
From S2P Require Import Summary.
From S2P Require Import Sched.
From S2P Require Import Storage.

Local Open Scope Z_scope.

(* src: internal/checker/checker.go maxResolvers *)
Definition maxResolvers : nat := 200.

(** The characters of the regular expression [^\[a-zA-Z0-9._\-\]+$]. *)
(* src: internal/checker/checker.go domainRE *)
Definition domain_char (c : ascii) : bool :=
  let z := code c in
  ((97 <=? z) && (z <=? 122)) || ((65 <=? z) && (z <=? 90)) || ((48 <=? z) && (z <=? 57))
  || (z =? 46) || (z =? 95) || (z =? 45).

Definition domainRE (s : string) : bool := negb (String.eqb s "") && sforall domain_char s.

(* src: internal/checker/checker.go CheckRequest *)
Record CheckRequest := mkCheckRequest {
  crName : string;
  crType : string;
  crResolverIDs : list string;
  crCustomResolvers : list Resolver;
  crSave : bool;
  crAllowPrivate : bool;
  crNoCache : bool
}.

(* src: internal/checker/checker.go LookupRequest *)
Record LookupRequest := mkLookupRequest {
  lrName : string;
  lrType : string;
  lrResolver : string;
  lrProtocol : string
}.

(** The client, the cache and the storage are behind the world; [ckStorage]
    says whether the storage is non-nil. *)
(* src: internal/checker/checker.go Checker *)
Record Checker := mkChecker {
  ckRegistry : Registry;
  ckStorage : bool;
  ckCfg : Config
}.

Section Validation.
Context `{D : DnsConsts} `{U : Unicode}.

(* src: internal/checker/checker.go isPrivateOrLocal *)
Definition isPrivateOrLocal (name : string) : bool :=
  let lower := ToLower fold_lower name in
  if HasSuffix lower ".local" || String.eqb lower "local" then true else
  match ParseIP name with
  | None => false
  | Some ip => IsLoopback ip || IsPrivate ip || IsLinkLocalUnicast ip || IsLinkLocalMulticast ip
  end.

(* src: internal/checker/checker.go validateRequest *)
Definition validateRequest (req : CheckRequest) : option error :=
  if String.eqb (crName req) "" then Some (Errorf "name is required")
  else if negb (domainRE (crName req)) then
    Some (Errorf ("invalid domain name: " +:+ crName req))
  else if negb (bool_decide (is_Some (ParseType (crType req)))) then
    Some (Errorf ("unsupported record type: " +:+ crType req))
  else if decide (maxResolvers < length (crResolverIDs req) + length (crCustomResolvers req))%nat
  then Some (Errorf ("too many resolvers: max " +:+ Itoa (Z.of_nat maxResolvers)))
  else if negb (crAllowPrivate req) && isPrivateOrLocal (crName req) then
    Some (Errorf "private or local domain names are not allowed")
  else None.

(** The loop over the requested identifiers: the first unknown one fails. *)
(* src: internal/checker/checker.go 205-214 Checker.buildResolverList *)
Fixpoint pick_ids (reg : Registry) (disabled : gset string) (ids : list string)
    : result (list Resolver) :=
  match ids with
  | [] => Ok []
  | id :: ids' =>
      if decide (id ∈ disabled) then pick_ids reg disabled ids' else
      match Get id reg with
      | None => Err (Errorf ("resolver not found: " +:+ id))
      | Some r => rs ← pick_ids reg disabled ids'; Ok (r :: rs)
      end
  end.

(** The loop over the custom resolvers. *)
(* src: internal/checker/checker.go 226-231 Checker.buildResolverList *)
Fixpoint add_customs (allowPrivate : bool) (crs : list Resolver) : result (list Resolver) :=
  match crs with
  | [] => Ok []
  | cr :: crs' =>
      if negb allowPrivate && isPrivateOrLocal (rIP cr) then
        Err (Errorf ("custom resolver IP " +:+ Quote (rIP cr) +:+ " is a private or local address"))
      else rs ← add_customs allowPrivate crs'; Ok (cr :: rs)
  end.

(** The list, from the set of disabled resolvers. *)
Definition resolver_list (reg : Registry) (disabled : gset string) (req : CheckRequest)
    : result (list Resolver) :=
  known ←
    match crResolverIDs req with
    | [] => Ok (filter (λ r, ¬ rID r ∈ disabled) (All reg))
    | ids => pick_ids reg disabled ids
    end;
  custom ← add_customs (crAllowPrivate req) (crCustomResolvers req);
  let list := known ++ custom in
  Ok (if decide (maxResolvers < length list)%nat then take maxResolvers list else list).

End Validation.

Section Checker.
Context `{D : DnsConsts} `{U : Unicode} `{R : MapRange}.
Context {S C N : Type} `{SO : StorageOps S} `{CO : CacheOps C} `{EN : Env N} `{CL : ClientOps N}.
Context `{J : Codec string ResolverResult}.

Abbreviation world := (World S C N).

Definition now : M world Time := on_net Now.

(* src: internal/checker/checker.go Checker.disabledResolverSet *)
Definition disabledResolverSet (c : Checker) : M world (gset string) :=
  if negb (ckStorage c) then mret ∅ else
  s ← on_store GetSettings;
  mret match s with
       | Err _ => ∅
       | Ok s => list_to_set (sDisabledResolvers s)
       end.

(* src: internal/checker/checker.go Checker.buildResolverList *)
Definition buildResolverList (c : Checker) (req : CheckRequest)
    : M world (result (list Resolver)) :=
  disabled ← disabledResolverSet c;
  mret (resolver_list (ckRegistry c) disabled req).

(** The access to the cache and the query are each one atomic action. *)
(* src: internal/checker/checker.go Checker.queryWithCache *)
Definition queryWithCache (c : Checker) (resolver : Resolver) (name qtype : string)
    (noCache : bool) : Prog world ResolverResult :=
  let cacheKey := Key (rID resolver) name qtype in
  hit ←
    (if noCache then mret None else
     data ← act (t ← now; on_cache (CacheGet cacheKey t));
     mret (data ≫= unmarshal));
  match hit with
  | Some result => mret result
  | None =>
      let qtypeNum := ParseType0 qtype in
      q ← act (on_net (Query resolver name qtypeNum));
      match q with
      | Err err =>
          t ← act now;
          mret (result_for resolver StatusError 0 (Error err) t)
      | Ok result =>
          if noCache then mret result else
          match marshal result with
          | None => mret result
          | Some data =>
              _ ← act (t ← now; on_cache (CacheSet cacheKey data (CacheTTL (cfgCache (ckCfg c))) t));
              mret result
          end
      end
  end.

(** The capacity of the semaphore's channel. *)
(* src: internal/checker/checker.go 258-263 Checker.fanOut *)
Definition concurrency (c : Checker) : nat :=
  let n := PerResolverConcurrency (cfgDNS (ckCfg c)) in
  Z.to_nat (if n <=? 0 then 4 else n).

(** The goroutines, before they start. *)
Definition goroutines (c : Checker) (name qtype : string) (resolverList : list Resolver)
    (noCache : bool) : list (Prog world ResolverResult) :=
  (λ r, queryWithCache c r name qtype noCache) <$> resolverList.

(** Five steps a goroutine are enough ([fanOut_semaphore] below): the
    semaphore, at most three actions and the write of the result. *)
(* src: internal/checker/checker.go Checker.fanOut *)
Definition fanOut (sched : nat → nat) (c : Checker) (name qtype : string)
    (resolverList : list Resolver) (noCache : bool) : M world (list ResolverResult) := λ w,
  let s := pool_run (5 * length resolverList) (concurrency c) sched
             (start (goroutines c name qtype resolverList noCache) w) in
  (default [] (results s), p_world s).

(** A failed save is reported along with the check. *)
(* src: internal/checker/checker.go Checker.Check *)
Definition Checker_Check (sched : nat → nat) (c : Checker) (req : CheckRequest)
    : M world (option Check * option error) :=
  match validateRequest req with
  | Some err => mret (None, Some err)
  | None =>
      list ← buildResolverList c req;
      match list with
      | Err err => mret (None, Some err)
      | Ok resolverList =>
          results ← fanOut sched c (crName req) (crType req) resolverList (crNoCache req);
          t1 ← now;
          t2 ← now;
          let check := mkCheck (Permalink.NewID (crName req) (crType req) t1)
            (crName req) (crType req) t2 results (buildSummary results) in
          if crSave req then
            err ← on_store (SaveCheck check);
            mret (Some check, Wrapf "saving check" <$> err)
          else mret (Some check, None)
      end
  end.

(** The resolver that a lookup asks. *)
(* src: internal/checker/checker.go 165-189 Checker.Lookup *)
Definition lookup_resolver (c : Checker) (req : LookupRequest) : M world (result Resolver) :=
  let custom ip proto := mkResolver "custom" ip ip 53 proto "" "" float_zero float_zero 0 "" in
  if String.eqb (lrResolver req) "" then
    mret (Ok (mkResolver "custom" "Custom" "8.8.8.8" 53 "udp" "" "" float_zero float_zero 0 ""))
  else
  match Get (lrResolver req) (ckRegistry c) with
  | Some r =>
      disabled ← disabledResolverSet c;
      mret (if decide (lrResolver req ∈ disabled)
            then Err (Errorf ("resolver is disabled: " +:+ lrResolver req)) else Ok r)
  | None =>
      let customIP := lrResolver req in
      mret (if isPrivateOrLocal customIP then
              Err (Errorf ("resolver IP " +:+ Quote customIP +:+ " is a private or local address"))
            else Ok (custom customIP
              (if String.eqb (lrProtocol req) "" then DefaultProtocol (cfgDNS (ckCfg c))
               else lrProtocol req)))
  end.

(* src: internal/checker/checker.go Checker.Lookup *)
Definition Lookup (c : Checker) (req : LookupRequest) : M world (result ResolverResult) :=
  if String.eqb (lrName req) "" then mret (Err (Errorf "name is required"))
  else if negb (bool_decide (is_Some (ParseType (lrType req)))) then
    mret (Err (Errorf ("unsupported record type: " +:+ lrType req)))
  else
  resolver ← lookup_resolver c req;
  match resolver with
  | Err err => mret (Err err)
  | Ok resolver =>
      let qtype := ParseType0 (lrType req) in
      r ← on_net (Query resolver (lrName req) qtype);
      mret (map_err "querying resolver" r)
  end.

End Checker.

(** * Lemmas *)

(** ** Private and local names *)

Definition quad_char (c : ascii) : bool := is_digit c || bool_decide (c = "."%char).

Lemma Itoa_quad z : is_byte z → sforall quad_char (Itoa z) = true.
Proof.
  revert z. refine (byte_forall (λ z, sforall quad_char (Itoa z) = true) _).
  vm_compute. reflexivity.
Qed.

Lemma dotted_quad a b c d :
  is_byte a → is_byte b → is_byte c → is_byte d → sforall quad_char (dotted [a; b; c; d]) = true.
Proof.
  intros. unfold dotted. simpl. repeat (rewrite sforall_app; simpl).
  by rewrite !Itoa_quad.
Qed.

Lemma quad_char_cases c : quad_char c = true →
  (code c <? 128) = true ∧ lower1 c = c ∧ c ≠ "l"%char.
Proof. destruct c as [[] [] [] [] [] [] [] []]; vm_compute; try done. Qed.

Lemma quad_lower fold s : sforall quad_char s = true → ToLower fold s = s.
Proof.
  intros Hs. unfold ToLower.
  assert (is_ascii s = true ∧ smap lower1 s = s) as [-> ->]; [|done].
  unfold is_ascii. induction s as [|c s IH]; [done|]. simpl in *.
  apply andb_true_iff in Hs as [Hc Hs]. destruct (quad_char_cases c Hc) as (-> & -> & _).
  destruct (IH Hs) as [-> ->]. done.
Qed.

Lemma quad_no_l s : sforall quad_char s = true → has_char "l" s = false.
Proof. intros Hs. by apply (sforall_has_char quad_char). Qed.

(** An address in dotted form is judged by its classes. *)
Lemma isPrivateOrLocal_dotted `{Unicode} a b c d :
  is_byte a → is_byte b → is_byte c → is_byte d →
  let ip := v4_prefix ++ [a; b; c; d] in
  isPrivateOrLocal (dotted [a; b; c; d]) =
    IsLoopback ip || IsPrivate ip || IsLinkLocalUnicast ip || IsLinkLocalMulticast ip.
Proof.
  intros Ha Hb Hc Hd ip. unfold isPrivateOrLocal.
  pose proof (dotted_quad a b c d Ha Hb Hc Hd) as Hq.
  rewrite quad_lower, ParseIP_dotted by done.
  pose proof (quad_no_l _ Hq) as Hl.
  destruct (HasSuffix (dotted [a; b; c; d]) ".local") eqn:Hs.
  { apply HasSuffix_spec in Hs as [p Hp]. rewrite Hp, has_char_app in Hl.
    by apply orb_false_iff in Hl as [_ ?]. }
  destruct (String.eqb_spec (dotted [a; b; c; d]) "local") as [E|]; [by rewrite E in Hl|].
  done.
Qed.

(** ** The list of resolvers *)

Lemma pick_ids_spec reg disabled ids l :
  pick_ids reg disabled ids = Ok l →
  Forall2 (λ id r, Get id reg = Some r) (filter (λ id, ¬ (id ∈ disabled)) ids) l.
Proof.
  revert l. induction ids as [|id ids IH]; intros l; simpl.
  { intros [= <-]. constructor. }
  case_decide as Hd.
  - intros Hl. rewrite filter_cons_False by (intros ?; done). auto.
  - destruct (Get id reg) as [r|] eqn:Hg; [|done].
    rewrite filter_cons_True by done.
    destruct (pick_ids reg disabled ids) as [rs|]; simpl; [|done].
    intros [= <-]. constructor; auto.
Qed.

Lemma pick_ids_error reg disabled ids e :
  pick_ids reg disabled ids = Err e →
  ∃ id, id ∈ ids ∧ (id ∉ disabled) ∧ Get id reg = None ∧
    e = Errorf (("resolver not found: " +:+ id)%string).
Proof.
  induction ids as [|id ids IH]; simpl; [done|]. case_decide as Hd.
  { intros He. destruct (IH He) as (i & ? & ?). exists i. split; [by right|done]. }
  destruct (Get id reg) as [r|] eqn:Hg; simpl.
  - destruct (pick_ids reg disabled ids) as [rs|e']; simpl; [done|]. intros [= ->].
    destruct (IH eq_refl) as (i & ? & ?). exists i. split; [by right|done].
  - intros [= <-]. exists id. split; [by left|done].
Qed.

Lemma add_customs_spec `{Unicode} allow crs l :
  add_customs allow crs = Ok l →
  l = crs ∧ Forall (λ cr, allow = true ∨ isPrivateOrLocal (rIP cr) = false) crs.
Proof.
  revert l. induction crs as [|cr crs IH]; intros l; simpl.
  { intros [= <-]. by split. }
  destruct (negb allow && isPrivateOrLocal (rIP cr)) eqn:E; [done|].
  destruct (add_customs allow crs) as [rs|]; simpl; [|done]. intros [= <-].
  destruct (IH _ eq_refl) as [-> HF]. split; [done|]. constructor; [|done].
  destruct allow; [by left|right]. simpl in E. done.
Qed.

Lemma add_customs_error `{Unicode} allow crs e :
  add_customs allow crs = Err e →
  allow = false ∧ ∃ cr, cr ∈ crs ∧ isPrivateOrLocal (rIP cr) = true.
Proof.
  induction crs as [|cr crs IH]; simpl; [done|].
  destruct (negb allow && isPrivateOrLocal (rIP cr)) eqn:E.
  { intros _. apply andb_true_iff in E as [E%negb_true_iff Hp]. split; [done|].
    exists cr. split; [by left|done]. }
  destruct (add_customs allow crs) as [rs|e']; simpl; [done|]. intros [= ->].
  destruct (IH eq_refl) as [? (cr' & ? & ?)]. split; [done|]. exists cr'. split; [by right|done].
Qed.

(** Where the resolvers of a request without identifiers or with them come
    from. *)
Definition known_resolvers (reg : Registry) (disabled : gset string) (ids : list string)
    (l : list Resolver) : Prop :=
  match ids with
  | [] => l = filter (λ r, ¬ rID r ∈ disabled) (All reg)
  | _ => Forall2 (λ id r, Get id reg = Some r) (filter (λ id, ¬ (id ∈ disabled)) ids) l
  end.

(** A known resolver is an enabled one of the registry. *)
Lemma known_resolvers_enabled reg disabled ids l :
  registry_wf reg → known_resolvers reg disabled ids l →
  Forall (λ r, r ∈ All reg ∧ ¬ rID r ∈ disabled) l.
Proof.
  intros Hreg. unfold known_resolvers. destruct ids as [|id ids].
  - intros ->. apply Forall_forall. intros r Hr. by apply list_elem_of_filter in Hr as [? ?].
  - intros HF. apply Forall_forall. intros r Hr.
    apply list_elem_of_lookup in Hr as [i Hi].
    destruct (Forall2_lookup_r _ _ _ _ _ HF Hi) as (id' & Hid & Hg).
    destruct (Get_elem _ _ _ Hreg Hg) as (? & <- & _). split; [done|].
    by apply list_elem_of_lookup_2, list_elem_of_filter in Hid as [? _].
Qed.

Lemma resolver_list_Ok `{Unicode} reg disabled req l :
  resolver_list reg disabled req = Ok l →
  ∃ known, known_resolvers reg disabled (crResolverIDs req) known ∧
    l = take maxResolvers (known ++ crCustomResolvers req) ∧
    Forall (λ cr, crAllowPrivate req = true ∨ isPrivateOrLocal (rIP cr) = false)
      (crCustomResolvers req).
Proof.
  unfold resolver_list. intros Hl.
  destruct (match crResolverIDs req with [] => _ | _ => _ end) as [known|] eqn:Hk; [|done].
  simpl in Hl. destruct (add_customs _ _) as [crs|] eqn:Hc; [|done]. simpl in Hl.
  apply add_customs_spec in Hc as [-> HF]. exists known. split_and!; [|..|done].
  - unfold known_resolvers. destruct (crResolverIDs req) as [|id ids]; [congruence|].
    by apply pick_ids_spec.
  - injection Hl as <-. case_decide; [done|]. by rewrite take_ge by lia.
Qed.

(** * Properties *)

(** On an IPv4 address in dotted form the guard rejects exactly the
    loopback block 127/8, the private blocks 10/8, 172.16/12 and 192.168/16,
    the link-local block 169.254/16 and the local multicast block 224.0.0/24. *)
Theorem isPrivateOrLocal_quad `{Unicode} (a b c d : Z)
    (Ha : is_byte a) (Hb : is_byte b) (Hc : is_byte c) (Hd : is_byte d) :
  isPrivateOrLocal (dotted [a; b; c; d]) = true ↔
  a = 127 ∨ a = 10 ∨ (a = 172 ∧ 16 ≤ b ≤ 31) ∨ (a = 192 ∧ b = 168) ∨
  (a = 169 ∧ b = 254) ∨ (a = 224 ∧ b = 0 ∧ c = 0).
Proof.
  rewrite isPrivateOrLocal_dotted by done.
  unfold IsLoopback, IsPrivate, IsLinkLocalUnicast, IsLinkLocalMulticast.
  assert (To4 (v4_prefix ++ [a; b; c; d]) = Some [a; b; c; d]) as -> by reflexivity.
  unfold ip_at. simpl nth. rewrite land_f0_16 by done.
  rewrite !orb_true_iff, !andb_true_iff, !Z.eqb_eq, !Z.leb_le. lia.
Qed.

Lemma isPrivateOrLocal_quad_witness :
  @isPrivateOrLocal ascii_only (dotted [172; 31; 0; 1]) = true ↔
  172 = 127 ∨ 172 = 10 ∨ (172 = 172 ∧ 16 ≤ 31 ≤ 31) ∨ (172 = 192 ∧ 31 = 168) ∨
  (172 = 169 ∧ 31 = 254) ∨ (172 = 224 ∧ 31 = 0 ∧ 0 = 0).
Proof. apply isPrivateOrLocal_quad; unfold is_byte; lia. Defined.

(** A request is accepted exactly when its name is a non-empty string of
    domain characters, its type is one of the supported record types, it names
    at most 200 resolvers in all and, unless private names are allowed, its
    name is not private or local; in particular an accepted name has none of
    the separators of the cache key and of the log. *)
Theorem validateRequest_accepts `{DnsConsts} `{Unicode} (req : CheckRequest) :
  (validateRequest req = None ↔
    crName req ≠ "" ∧ sforall domain_char (crName req) = true ∧
    crType req ∈ dom SupportedTypes ∧
    (length (crResolverIDs req) + length (crCustomResolvers req) ≤ 200)%nat ∧
    (crAllowPrivate req = true ∨ isPrivateOrLocal (crName req) = false)) ∧
  (validateRequest req = None →
    has_char "|" (crName req) = false ∧ has_char " " (crName req) = false).
Proof.
  assert (validateRequest req = None ↔
    crName req ≠ "" ∧ sforall domain_char (crName req) = true ∧
    crType req ∈ dom SupportedTypes ∧
    (length (crResolverIDs req) + length (crCustomResolvers req) ≤ 200)%nat ∧
    (crAllowPrivate req = true ∨ isPrivateOrLocal (crName req) = false)) as Hiff.
  { unfold validateRequest, domainRE, maxResolvers. rewrite elem_of_dom. unfold ParseType.
    generalize SupportedTypes. intros types.
    destruct (String.eqb_spec (crName req) "") as [|Hn]; [by split; [|intros [? _]]|]. simpl.
    destruct (sforall domain_char (crName req)); simpl; [|by split; [|intros (_ & ? & _)]].
    case_bool_decide as Ht; simpl; [|by split; [|intros (_ & _ & ? & _)]].
    case_decide as Hl; [by split; [|intros (_ & _ & _ & ? & _); lia]|].
    destruct (crAllowPrivate req), (isPrivateOrLocal (crName req)); simpl;
      (split; [intros Hv; try discriminate Hv; split_and!; auto; lia|by intros (_ & _ & _ & _ & [?|?])]). }
  split; [exact Hiff|]. intros Hv. apply Hiff in Hv as (_ & Hd & _).
  split; by apply (sforall_has_char domain_char).
Qed.

(** C13: whatever the storage answers, a list of resolvers that is built
    respects the guards: it has at most 200 entries; every entry is an enabled
    resolver of the registry or a custom resolver of the request, which is not
    a private address unless that is allowed; when nothing is cut off, every
    custom resolver is in it and, if no identifiers are given, every enabled
    resolver; and building fails only for an unknown identifier that is not
    disabled or a private custom resolver. *)
Theorem buildResolverList_guards `{U : Unicode} {S C N} `{SO : StorageOps S} (c : Checker)
    (req : CheckRequest) (w : World S C N) (Hreg : registry_wf (ckRegistry c)) :
  let disabled := (disabledResolverSet c w).1 in
  match (buildResolverList c req w).1 with
  | Ok l =>
      (length l ≤ 200)%nat ∧
      Forall (λ r, (r ∈ All (ckRegistry c) ∧ ¬ rID r ∈ disabled) ∨
        (r ∈ crCustomResolvers req ∧
         (crAllowPrivate req = true ∨ isPrivateOrLocal (rIP r) = false))) l ∧
      ((length l < 200)%nat →
        (∀ r, r ∈ crCustomResolvers req → r ∈ l) ∧
        (crResolverIDs req = [] → ∀ r, r ∈ All (ckRegistry c) → ¬ (rID r ∈ disabled) → r ∈ l))
  | Err e =>
      (∃ id, id ∈ crResolverIDs req ∧ ¬ (id ∈ disabled) ∧ Get id (ckRegistry c) = None) ∨
      (crAllowPrivate req = false ∧ ∃ r, r ∈ crCustomResolvers req ∧ isPrivateOrLocal (rIP r) = true)
  end.
Proof.
  unfold buildResolverList. cbv [mbind M_bind mret M_ret].
  destruct (disabledResolverSet c w) as [disabled w']. simpl.
  destruct (resolver_list _ _ _) as [l|e] eqn:Hl.
  - apply resolver_list_Ok in Hl as (known & Hk & -> & Hc).
    split_and!; [rewrite length_take; unfold maxResolvers; lia| |].
    + apply Forall_take, Forall_app. split.
      * eapply Forall_impl; [by eapply known_resolvers_enabled|]. by left.
      * apply Forall_forall. intros r Hr. right. rewrite Forall_forall in Hc. auto.
    + rewrite length_take. unfold maxResolvers. intros Hlt. rewrite take_ge by lia.
      split; [set_solver|]. intros Hids r Hr Hd. rewrite Hids in Hk. simpl in Hk. subst known.
      apply elem_of_app. left. by apply list_elem_of_filter.
  - unfold resolver_list in Hl.
    destruct (match crResolverIDs req with [] => _ | _ => _ end) as [known|e'] eqn:Hk; simpl in Hl.
    + destruct (add_customs _ _) as [crs|e''] eqn:Hc; [done|]. right. by eapply add_customs_error.
    + left. destruct (crResolverIDs req) as [|id ids]; [done|].
      apply pick_ids_error in Hk as (i & ? & ? & ? & _). eauto.
Qed.

Definition demo_checker : Checker :=
  mkChecker (Load [demo_resolver "r1" "1.1.1.1"; demo_resolver "r2" "9.9.9.9"] NewRegistry)
    true defaultConfig.

Definition demo_request : CheckRequest :=
  mkCheckRequest "example.com" "A" [] [demo_resolver "x" "4.4.4.4"] false false false.

Lemma buildResolverList_guards_witness :
  let w : World Noop unit unit := mkWorld tt tt tt in
  let disabled := (disabledResolverSet demo_checker w).1 in
  match (buildResolverList (U := ascii_only) demo_checker demo_request w).1 with
  | Ok l =>
      (length l ≤ 200)%nat ∧
      Forall (λ r, (r ∈ All (ckRegistry demo_checker) ∧ ¬ rID r ∈ disabled) ∨
        (r ∈ crCustomResolvers demo_request ∧ (crAllowPrivate demo_request = true ∨
           isPrivateOrLocal (U := ascii_only) (rIP r) = false))) l ∧
      ((length l < 200)%nat →
        (∀ r, r ∈ crCustomResolvers demo_request → r ∈ l) ∧
        (crResolverIDs demo_request = [] →
          ∀ r, r ∈ All (ckRegistry demo_checker) → ¬ (rID r ∈ disabled) → r ∈ l))
  | Err e =>
      (∃ id, id ∈ crResolverIDs demo_request ∧ ¬ (id ∈ disabled) ∧
         Get id (ckRegistry demo_checker) = None) ∨
      (crAllowPrivate demo_request = false ∧ ∃ r, r ∈ crCustomResolvers demo_request ∧
         isPrivateOrLocal (U := ascii_only) (rIP r) = true)
  end.
Proof.
  apply (buildResolverList_guards (U := ascii_only) demo_checker demo_request).
  apply Load_wf.
Defined.

(** A lookup sends its single query to the default resolver, to an
    enabled resolver of the registry, or to an address that the guard does not
    know as private; in every other case it fails without a query, leaving the
    network as it was. *)
Theorem Lookup_guards `{D : DnsConsts} `{U : Unicode} {S C N} `{SO : StorageOps S} `{CL : ClientOps N}
    (c : Checker) (req : LookupRequest) (w : World S C N) (Hreg : registry_wf (ckRegistry c)) :
  let '(r, w') := Lookup c req w in
  let disabled := (disabledResolverSet c w).1 in
  (∃ e, r = Err e ∧ w_net w' = w_net w) ∨
  (∃ resolver,
    lrName req ≠ "" ∧ is_Some (ParseType (lrType req)) ∧
    (lrResolver req = "" ∧ rIP resolver = "8.8.8.8" ∨
     resolver ∈ All (ckRegistry c) ∧ rID resolver = lrResolver req ∧ ¬ (rID resolver ∈ disabled) ∨
     isPrivateOrLocal (rIP resolver) = false ∧ rIP resolver = lrResolver req ∧ rPort resolver = 53) ∧
    let '(q, n) := Query resolver (lrName req) (ParseType0 (lrType req)) (w_net w) in
    r = map_err "querying resolver" q ∧ w_net w' = n).
Proof.
  unfold Lookup.
  destruct (String.eqb_spec (lrName req) "") as [|Hn]; [left; by eexists|].
  case_bool_decide as Ht; simpl; [|left; by eexists].
  assert (w_net (disabledResolverSet c w).2 = w_net w) as Hnet.
  { unfold disabledResolverSet. destruct (ckStorage c); [|done]. simpl.
    cbv [mbind M_bind mret M_ret on_store]. by destruct (GetSettings (w_store w)). }
  unfold lookup_resolver. cbv [mbind M_bind mret M_ret].
  destruct (String.eqb_spec (lrResolver req) "") as [Hr|Hr].
  { unfold on_net. destruct (Query _ _ _ (w_net w)) as [q n] eqn:Hq.
    right. eexists. do 2 (split; [done|]). split; [|by rewrite Hq]. by left. }
  destruct (Get (lrResolver req) (ckRegistry c)) as [res|] eqn:Hg.
  - destruct (disabledResolverSet c w) as [disabled w1]. simpl in *.
    case_decide as Hd; [left; by eexists|].
    apply Get_elem in Hg as (Hin & Hid & _); [|done].
    unfold on_net. rewrite Hnet. destruct (Query _ _ _ (w_net w)) as [q n] eqn:Hq.
    right. exists res. do 2 (split; [done|]). split; [|by rewrite Hq]. right; left. by rewrite Hid.
  - destruct (isPrivateOrLocal (lrResolver req)) eqn:Hp; [left; by eexists|].
    unfold on_net. destruct (Query _ _ _ (w_net w)) as [q n] eqn:Hq.
    right. eexists. do 2 (split; [done|]). split; [|by rewrite Hq]. by right; right.
Qed.

(** A client over a scripted network. *)
Definition demo_client : ClientOps Script := client_ops (H := iana) (H0 := ascii_only) demo_dns.

Definition demo_net : Script := mkScript [demo_reply] ∅ None 7 [].

Lemma Lookup_guards_witness :
  let w : World Noop unit Script := mkWorld tt tt demo_net in
  let req := mkLookupRequest "a.example" "A" "r2" "" in
  let '(r, w') := Lookup (D := iana) (U := ascii_only) (CL := demo_client) demo_checker req w in
  let disabled := (disabledResolverSet demo_checker w).1 in
  (∃ e, r = Err e ∧ w_net w' = w_net w) ∨
  (∃ resolver,
    lrName req ≠ "" ∧ is_Some (ParseType (H := iana) (lrType req)) ∧
    (lrResolver req = "" ∧ rIP resolver = "8.8.8.8" ∨
     resolver ∈ All (ckRegistry demo_checker) ∧ rID resolver = lrResolver req ∧
       ¬ (rID resolver ∈ disabled) ∨
     isPrivateOrLocal (U := ascii_only) (rIP resolver) = false ∧
       rIP resolver = lrResolver req ∧ rPort resolver = 53) ∧
    let '(q, n) := Query (ClientOps := demo_client) resolver (lrName req)
                     (ParseType0 (H := iana) (lrType req)) (w_net w) in
    r = map_err "querying resolver" q ∧ w_net w' = n).
Proof.
  apply (Lookup_guards (D := iana) (U := ascii_only) (CL := demo_client) demo_checker
    (mkLookupRequest "a.example" "A" "r2" "") (mkWorld tt tt demo_net : World Noop unit Script)).
  apply Load_wf.
Defined.

(** Local addresses and names that the guard does not know. *)
Lemma isPrivateOrLocal_misses :
  Forall (λ name, @isPrivateOrLocal ascii_only name = false)
    ["localhost"; "0.0.0.0"; "100.64.0.1"; "printer.local."; "239.255.255.250"].
Proof. repeat constructor. Qed.
