(* ===== verification/FanOut.v ===== *)
(** * The fan-out and the check

    Theorems on [queryWithCache], [fanOut] and [Checker_Check] of [Checker]:
    the use of the semaphore, where results come from, and what is saved. *)

From S2P Require Import Prelude.
From S2P Require Import GoString.
From S2P Require Import GoFmt.
From S2P Require Import DnsTypes.
From S2P Require Import Permalink.
From S2P Require Import Settings.
From S2P Require Import Config.
From S2P Require Import Resolvers.
From S2P Require Import Env.
From S2P Require Import Cache.
From S2P Require Import DnsClient.
From S2P Require Import Summary.
From S2P Require Import Sched.
From S2P Require Import GoTime.
From S2P Require Import Storage.
From S2P Require Import Interleave.
From S2P Require Import Sql.
From S2P Require Import Sqlite.
From S2P Require Import SqlRefine.
From S2P Require Import Checker.
From stdpp Require Import relations.

Section FanOut.
Context `{D : DnsConsts} `{U : Unicode} `{R : MapRange}.
Context {S C N : Type} `{SO : StorageOps S} `{CO : CacheOps C} `{EN : Env N} `{CL : ClientOps N}.
Context `{J : Codec string ResolverResult}.

Abbreviation world := (World S C N).

(** ** One goroutine *)

Lemma queryWithCache_bounded c r name qtype noCache :
  bounded 3 (queryWithCache (S := S) (C := C) (N := N) c r name qtype noCache).
Proof.
  unfold queryWithCache.
  apply (bounded_bind 1 2); [destruct noCache; simpl; done|].
  intros [res|]; [done|]. apply (bounded_bind 1 1); [done|].
  intros [res|e]; [|done]. destruct noCache; [done|]. by destruct (marshal res).
Qed.

Lemma goroutines_bounded c name qtype l noCache :
  Forall (bounded 3) (goroutines (S := S) (C := C) (N := N) c name qtype l noCache).
Proof.
  apply Forall_fmap, Forall_forall. intros r _. apply queryWithCache_bounded.
Qed.

Lemma concurrency_pos c : 0 < concurrency c.
Proof. unfold concurrency. destruct (Z.leb_spec (PerResolverConcurrency (cfgDNS (ckCfg c))) 0); lia. Qed.

Lemma goroutines_weigh c name qtype l noCache (w : world) :
  pool_weighs (start (goroutines c name qtype l noCache) w) (length l * 5).
Proof.
  replace (length l) with (length (goroutines (S := S) (C := C) (N := N) c name qtype l noCache))
    by apply length_fmap.
  apply (start_weighs 3), goroutines_bounded.
Qed.

(** The run of [fanOut] is complete. *)
Lemma fanOut_done sched c name qtype l noCache (w : world) :
  let s := pool_run (5 * length l) (concurrency c) sched
             (start (goroutines c name qtype l noCache) w) in
  results s = Some (fanOut sched c name qtype l noCache w).1.
Proof.
  intros s. destruct (pool_run_done (5 * length l) (concurrency c) sched _ _
    (concurrency_pos c) (goroutines_weigh c name qtype l noCache w)) as [rs Hrs]; [lia|].
  unfold fanOut. fold s in Hrs |- *. by rewrite Hrs.
Qed.

(** Invariants of the goroutines carry over to the results. *)
Lemma fanOut_safe (I : world → Prop) (Q : Resolver → ResolverResult → Prop)
    sched c name qtype l noCache (w : world) :
  I w → (∀ r, safe I (Q r) (queryWithCache c r name qtype noCache)) →
  let '(rs, w') := fanOut sched c name qtype l noCache w in Forall2 Q l rs ∧ I w'.
Proof.
  intros HI HQ. pose proof (fanOut_done sched c name qtype l noCache w) as Hd. cbv zeta in Hd.
  destruct (fanOut sched c name qtype l noCache w) as [rs w'] eqn:Hf. simpl in Hd.
  assert (pool_safe I (Q <$> l) (start (goroutines c name qtype l noCache) w)) as Hs.
  { apply start_safe; [done|]. unfold goroutines. apply Forall2_fmap.
    apply Forall2_same_length_lookup_2; [done|]. intros i r r' Hr Hr'. simplify_eq. apply HQ. }
  eapply steps_safe in Hs; [|apply (pool_run_steps (5 * length l) (concurrency c) sched)].
  split.
  - eapply results_safe in Hd; [|exact Hs]. by apply Forall2_fmap_l in Hd.
  - destruct Hs as [Hs _]. unfold fanOut in Hf. by simplify_eq.
Qed.

(** ** What the client's answers satisfy *)

Section Live.
Variable P : Resolver → string → Z → ResolverResult → Prop.

(** Every answer of the client to a query satisfies [P], and so does the
    result that stands for an error. *)
Definition client_ensures : Prop := ∀ r name q n,
  match (Query r name q n).1 with
  | Ok res => P r name q res
  | Err e => ∀ t, P r name q (result_for r StatusError 0%Z (Error e) t)
  end.

(** The answers that the client gives are encoded faithfully. *)
Definition client_faithful : Prop := ∀ r name q n res,
  (Query r name q n).1 = Ok res → faithful res.

(** A result of a query under the same cache key. *)
Definition same_key (r : Resolver) (name qtype : string) (res : ResolverResult) : Prop :=
  ∃ r' name' qtype', Key (rID r') name' qtype' = Key (rID r) name qtype ∧
    P r' name' (ParseType0 qtype') res.

Context `{!CacheLaws C CO}.

(** What the cache holds are results of queries under their keys. *)
Definition cache_ok (c : C) : Prop := ∀ k data e res,
  cached c k = Some (data, e) → unmarshal data = Some res →
  ∃ r name qtype, Key (rID r) name qtype = k ∧ P r name (ParseType0 qtype) res.

Lemma query_step (r : Resolver) name q (w : world) :
  client_ensures →
  let '(res, w') := on_net (Query r name q) w in
  w_cache w' = w_cache w ∧ w_store w' = w_store w ∧
  match res with
  | Ok res => P r name q res
  | Err e => ∀ t, P r name q (result_for r StatusError 0%Z (Error e) t)
  end.
Proof.
  intros HP. specialize (HP r name q (w_net w)). unfold on_net.
  by destruct (Query r name q (w_net w)) as [res n].
Qed.

(** Without the cache, a result is a live answer and nothing is stored. *)
Lemma queryWithCache_live c r name qtype (s0 : S) (c0 : C) :
  client_ensures →
  safe (λ w : world, w_store w = s0 ∧ w_cache w = c0) (P r name (ParseType0 qtype))
    (queryWithCache c r name qtype true).
Proof.
  intros HP. unfold queryWithCache. simpl. intros w [Hs Hc].
  pose proof (query_step r name (ParseType0 qtype) w HP) as Hq.
  unfold on_net in Hq |- *. destruct (Query _ _ _ (w_net w)) as [res n]. simpl in Hq |- *.
  destruct Hq as (_ & _ & Hq). split; [done|].
  destruct res as [res|e]; simpl; [done|]. intros w1 [Hs1 Hc1].
  unfold now, on_net. destruct (Now (w_net w1)) as [t n1]. simpl. split; [done|apply Hq].
Qed.

(** With the cache, a result is a live answer to a query under the same key,
    given now or earlier. *)
Lemma queryWithCache_cached `{!CodecOk string ResolverResult J} c r name qtype :
  client_ensures → client_faithful →
  safe (λ w : world, cache_ok (w_cache w)) (same_key r name qtype)
    (queryWithCache c r name qtype false).
Proof.
  intros HP HF. unfold queryWithCache, same_key. apply safe_bind. simpl. intros w Hok.
  cbv [mbind M_bind now on_net on_cache]. destruct (Now (w_net w)) as [t n]. simpl.
  destruct (CacheGet _ t (w_cache w)) as [data c1] eqn:Hget. simpl.
  assert (cache_ok c1) as Hok1.
  { intros k d e res Hc. eapply Hok. pose proof (CacheGet_keeps (Key (rID r) name qtype) t (w_cache w) k (d, e)) as Hk.
    rewrite Hget in Hk. by apply Hk. }
  split; [done|].
  change (option_bind _ _ unmarshal data) with (data ≫= unmarshal).
  destruct (data ≫= unmarshal) as [res|] eqn:Hhit; simpl.
  { destruct data as [d|]; [|done]. simpl in Hhit.
    destruct (CacheGet_hit _ _ _ _ _ Hget) as (e & He & _).
    destruct (Hok _ _ _ _ He Hhit) as (r' & n' & q' & ? & ?). by exists r', n', q'. }
  intros w1 Hok2.
  pose proof (query_step r name (ParseType0 qtype) w1 HP) as Hq.
  pose proof (HF r name (ParseType0 qtype) (w_net w1)) as Hfaith. unfold on_net in Hq |- *.
  destruct (Query _ _ _ (w_net w1)) as [q n1]. simpl in Hq, Hfaith |- *.
  destruct Hq as (_ & _ & Hq). split; [done|].
  destruct q as [res|e]; simpl.
  - assert (∃ r' name' qtype', Key (rID r') name' qtype' = Key (rID r) name qtype ∧
      P r' name' (ParseType0 qtype') res) as Hsame by (by exists r, name, qtype).
    destruct (marshal res) as [d|] eqn:Hm; [|done]. simpl. intros w2 Hok3.
    cbv [mbind M_bind]. destruct (Now (w_net w2)) as [t2 n2]. simpl.
    destruct (CacheSet _ d _ t2 (w_cache w2)) as [err c2] eqn:Hset. simpl. split; [|done].
    intros k d' e' res' Hc Hu.
    destruct (decide (k = Key (rID r) name qtype)) as [->|Hne].
    + pose proof (CacheSet_entry (Key (rID r) name qtype) d (CacheTTL (cfgCache (ckCfg c))) t2 (w_cache w2)
        (d', e')) as He. rewrite Hset in He. destruct (He Hc) as [[= -> _]|Hold]; [|by eapply Hok3].
      destruct (codec_round_trip res (Hfaith res eq_refl)) as (d2 & Hm2 & Hu2).
      exists r, name, qtype. split; [done|]. by simplify_eq.
    + pose proof (CacheSet_other (Key (rID r) name qtype) d (CacheTTL (cfgCache (ckCfg c))) t2 (w_cache w2)
        k (d', e') Hne) as Ho. rewrite Hset in Ho. eapply Hok3; [by apply Ho|done].
  - intros w2 Hok3. unfold now, on_net. destruct (Now (w_net w2)) as [t2 n2]. simpl.
    split; [done|]. exists r, name, qtype. split; [done|]. apply Hq.
Qed.

End Live.

(** ** The check *)

(** The queries do not touch the store. *)
Lemma queryWithCache_store c r name qtype noCache (s0 : S) :
  safe (λ w : world, w_store w = s0) (λ _, True) (queryWithCache c r name qtype noCache).
Proof.
  assert (∀ {X} (m : M N X) (w : world), w_store w = s0 → w_store (on_net m w).2 = s0) as Hn.
  { intros X m w <-. unfold on_net. by destruct (m (w_net w)). }
  assert (∀ {X} (f : Time → M C X) (w : world), w_store w = s0 →
    w_store ((t ← now; on_cache (f t)) w).2 = s0) as Hc.
  { intros X f w <-. cbv [mbind M_bind now on_net on_cache].
    destruct (Now (w_net w)) as [t n]. simpl. by destruct (f t (w_cache w)). }
  unfold queryWithCache. apply safe_bind.
  assert (∀ hit : option ResolverResult, safe (λ w : world, w_store w = s0) (λ _, True)
    match hit with
    | Some result => mret result
    | None => q ← act (on_net (Query r name (ParseType0 qtype)));
        match q with
        | Err err => t ← act now; mret (result_for r StatusError 0%Z (Error err) t)
        | Ok result => if noCache then mret result else
            match marshal result with
            | None => mret result
            | Some data => _ ← act (t ← now; on_cache (CacheSet (Key (rID r) name qtype) data
                                       (CacheTTL (cfgCache (ckCfg c))) t));
                           mret result
            end
        end
    end) as Hrest.
  { intros [res|]; [done|]. intros w Hw. split; [by apply Hn|].
    destruct (on_net _ w).1 as [res|e]; simpl.
    - destruct noCache; [done|]. destruct (marshal res); [|done]. intros w1 Hw1.
      split; [by apply Hc|done].
    - intros w1 Hw1. split; [by apply Hn|done]. }
  destruct noCache; [apply Hrest|]. intros w Hw. split; [by apply Hc|]. apply Hrest.
Qed.

Lemma fanOut_length sched c name qtype l noCache (w : world) :
  length (fanOut sched c name qtype l noCache w).1 = length l.
Proof.
  pose proof (fanOut_safe (λ _, True) (λ _ _, True) sched c name qtype l noCache w I) as Hs.
  destruct (fanOut sched c name qtype l noCache w) as [rs w'].
  destruct Hs as [Hs _]; [|by apply Forall2_length in Hs].
  intros r. generalize (queryWithCache (S := S) (C := C) (N := N) c r name qtype noCache).
  induction p as [a|X m k IH]; simpl; auto.
Qed.

Lemma disabledResolverSet_store `{!StorageLaws S SO} c (w : world) :
  healthy (w_store w) →
  healthy (w_store (disabledResolverSet c w).2) ∧
  view (w_store (disabledResolverSet c w).2) = view (w_store w).
Proof.
  intros Hh. unfold disabledResolverSet. destruct (ckStorage c); simpl; [|done].
  cbv [mbind M_bind mret M_ret on_store].
  destruct (GetSettings_law (w_store w) Hh) as (s' & -> & ? & ?). done.
Qed.

Lemma disabledResolverSet_cache c (w : world) :
  w_cache (disabledResolverSet c w).2 = w_cache w ∧ w_net (disabledResolverSet c w).2 = w_net w.
Proof.
  unfold disabledResolverSet. destruct (ckStorage c); simpl; [|done].
  cbv [mbind M_bind mret M_ret on_store]. by destruct (GetSettings (w_store w)) as [[]].
Qed.

Lemma resolver_list_length reg disabled req l :
  resolver_list reg disabled req = Ok l → length l ≤ 200.
Proof.
  intros (known & _ & -> & _)%resolver_list_Ok. rewrite length_take. unfold maxResolvers. lia.
Qed.

(** The answers of a fan-out, with and without the cache. *)
Lemma fanOut_answers P `{!CacheLaws C CO} `{!CodecOk string ResolverResult J}
    sched c name qtype l noCache (w : world) :
  client_ensures P → client_faithful → cache_ok P (w_cache w) →
  let '(rs, w') := fanOut sched c name qtype l noCache w in
  if noCache then
    Forall2 (λ r res, P r name (ParseType0 qtype) res) l rs ∧ w_cache w' = w_cache w
  else Forall2 (λ r res, same_key P r name qtype res) l rs ∧ cache_ok P (w_cache w').
Proof.
  intros HP HF Hc. destruct noCache.
  - pose proof (fanOut_safe (λ w1 : world, w_store w1 = w_store w ∧ w_cache w1 = w_cache w)
      (λ r res, P r name (ParseType0 qtype) res) sched c name qtype l true w (conj eq_refl eq_refl)) as H.
    destruct (fanOut _ _ _ _ _ _ w) as [rs w']. destruct H as [? [_ ?]]; [|done].
    intros r. by apply queryWithCache_live.
  - apply (fanOut_safe (λ w, cache_ok P (w_cache w))); [done|].
    intros r. by apply queryWithCache_cached.
Qed.

(** What a check does to the store: nothing, or the save at its end. *)
Lemma Check_run `{!StorageLaws S SO} sched c req (w : world) :
  healthy (w_store w) →
  let '((check, err), w') := Checker_Check sched c req w in
  ∃ s, healthy s ∧ view s = view (w_store w) ∧
  match check with
  | Some k => (∃ n, cCreatedAt k = (Now n).1) ∧
      if crSave req then
        let '(e, s') := SaveCheck k s in err = (Wrapf "saving check" <$> e) ∧ w_store w' = s'
      else err = None ∧ w_store w' = s
  | None => w_store w' = s
  end.
Proof.
  intros Hh. unfold Checker_Check. destruct (validateRequest req) as [e|]; [by exists (w_store w)|].
  unfold buildResolverList. cbv [mbind M_bind mret M_ret].
  pose proof (disabledResolverSet_store c w Hh) as [Hh1 Hv1].
  destruct (disabledResolverSet c w) as [disabled w1]. simpl in Hh1, Hv1.
  destruct (resolver_list _ _ _) as [l|e]; [|by exists (w_store w1)].
  pose proof (fanOut_safe (λ w2 : world, w_store w2 = w_store w1) (λ _ _, True) sched c
    (crName req) (crType req) l (crNoCache req) w1 eq_refl) as Hs.
  destruct (fanOut _ _ _ _ _ _ w1) as [rs w2]. destruct Hs as [_ Hw2].
  { intros r. apply queryWithCache_store. }
  unfold now, on_net. destruct (Now (w_net w2)) as [t1 n3]. simpl.
  destruct (Now n3) as [t2 n4] eqn:Hn. simpl.
  destruct (crSave req); [unfold on_store; simpl; destruct (SaveCheck _ _) as [err s1] eqn:Hsave|];
    exists (w_store w2); rewrite Hw2; (split; [done|split; [done|]]); simpl.
  - split; [by exists n3; rewrite Hn|]. rewrite <-Hw2, Hsave. done.
  - split; [by exists n3; rewrite Hn|done].
Qed.

(** A check that is not saved leaves the store alone. *)
Lemma Check_keeps_store `{!StorageLaws S SO} sched c req (w : world) :
  crSave req = false → healthy (w_store w) →
  healthy (w_store (Checker_Check sched c req w).2) ∧
  view (w_store (Checker_Check sched c req w).2) = view (w_store w).
Proof.
  intros Hsave Hh. pose proof (Check_run sched c req w Hh) as H. rewrite Hsave in H.
  destruct (Checker_Check sched c req w) as [[[k|] err] w']; simpl.
  - by destruct H as (s & ? & ? & _ & _ & ->).
  - by destruct H as (s & ? & ? & ->).
Qed.

(** A check adds at most itself to the stored checks. *)
Lemma Check_adds `{SL : !StorageLaws S SO} `{EO : !EnvOk N EN} sched c req (w : world) :
  (∀ k : Check, time_ok (cCreatedAt k) → okCheck k) → healthy (w_store w) →
  let w' := (Checker_Check sched c req w).2 in
  healthy (w_store w') ∧ (view (w_store w') = view (w_store w) ∨
    ∃ k, view (w_store w') = set_checks (view (w_store w))
                               (<[cID k := k]> (abs_checks (view (w_store w))))).
Proof.
  intros Hok Hh. pose proof (Check_run sched c req w Hh) as H.
  destruct (Checker_Check sched c req w) as [[[k|] err] w']; simpl;
    destruct H as (s & Hs & Hv & H); [|by rewrite H; auto].
  destruct H as [[n Hn] H]. assert (okCheck k) as Hk.
  { apply Hok. rewrite Hn. apply Now_range. }
  destruct (crSave req); [|by destruct H as [_ ->]; auto].
  destruct (SaveCheck_law k s Hs Hk) as (s' & Hsave & Hh' & Hv'). rewrite Hsave in H.
  destruct H as [_ ->]. split; [done|]. right. exists k. by rewrite Hv', Hv.
Qed.

(** ** Checks next to other requests *)

Section Calm.
Context (keep : Time → Time) (I : AbsStore → Prop) (G : op → Prop)
  (K : S → Prop) `{SK : !StoreKeeps SO keep I G K}.

Lemma keeping_disabled c : keeping (calm K) (λ _, True) (disabledResolverSet (C := C) (N := N) c).
Proof. unfold disabledResolverSet. keeps. Qed.

Lemma keeping_fanOut sched c name qtype l noCache :
  keeping (calm K) (λ _, True) (fanOut sched c name qtype l noCache).
Proof.
  intros w Hw. pose proof (fanOut_safe (λ w2 : world, w_store w2 = w_store w) (λ _ _, True) sched c
    name qtype l noCache w eq_refl (λ r, queryWithCache_store c r name qtype noCache _)) as Hs.
  destruct (fanOut _ _ _ _ _ _ w) as [rs w2]. destruct Hs as [_ Hw2]. split; [|done].
  unfold calm. simpl. by rewrite Hw2.
Qed.

(** What a check saves, if it saves. *)
Definition check_made (req : CheckRequest) (k : Check) : Prop :=
  time_ok (cCreatedAt k) ∧ validateRequest req = None ∧ cName k = crName req ∧
  cType k = crType req ∧ cSummary k = buildSummary (cResults k).

Lemma keeping_Check `{EO : !EnvOk N EN} sched c req :
  (∀ k, crSave req = true → check_made req k → G (OSaveCheck k)) →
  keeping (calm K) (λ _, True) (Checker_Check sched c req).
Proof.
  intros Hsave. unfold Checker_Check. destruct (validateRequest req) eqn:Hv; [keeps|].
  unfold buildResolverList.
  pose proof keeping_disabled. apply (keeping_bind _ (λ _, True)); [keeps|].
  intros [l|e] _; [|keeps]. eapply keeping_bind; [apply keeping_fanOut|]. intros rs _.
  unfold now. do 2 (eapply keeping_bind; [by apply keeping_now|intros ? ?]).
  cbv zeta. destruct (crSave req); [|keeps].
  eapply keeping_bind; [|keeps]. eapply (keeping_write _ _ _ _ (OSaveCheck _)); [done|].
  by apply Hsave.
Qed.

Lemma keeping_Lookup c req : keeping (calm K) (λ _, True) (Checker.Lookup (C := C) (N := N) c req).
Proof.
  assert (keeping (calm K) (λ _, True) (lookup_resolver (C := C) (N := N) c req)) as Hr.
  { unfold lookup_resolver. pose proof keeping_disabled. keeps. }
  unfold Checker.Lookup. keeps.
Qed.

End Calm.

(** * Properties *)

(** C4: the goroutines of a fan-out never hold more than the semaphore's
    capacity of slots and never block for good; every interleaving ends after
    at most five steps a resolver, with one result per resolver, and is the run
    of [fanOut] under some scheduler; conversely every run of [fanOut] is a
    complete interleaving. *)
Theorem fanOut_semaphore c name qtype (l : list Resolver) noCache (w : world) :
  let cap := concurrency c in
  let s0 := start (goroutines c name qtype l noCache) w in
  0 < cap ∧
  (∀ s, rtc (step cap) s0 s →
     running (p_tasks s) ≤ cap ∧ (results s = None → ∃ s', step cap s s')) ∧
  (∀ j s, nsteps (step cap) j s0 s → j ≤ 5 * length l) ∧
  (∀ s rs, rtc (step cap) s0 s → results s = Some rs →
     length rs = length l ∧
     ∃ sched, fanOut sched c name qtype l noCache w = (rs, p_world s)) ∧
  (∀ sched, ∃ s, rtc (step cap) s0 s ∧
     results s = Some (fanOut sched c name qtype l noCache w).1).
Proof.
  intros cap s0. pose proof (goroutines_weigh c name qtype l noCache w) as Hw.
  assert (∀ j s, nsteps (step cap) j s0 s → j ≤ 5 * length l) as Hj.
  { intros j s Hs. destruct (nsteps_weighs _ _ _ _ _ Hs Hw) as (k & ? & _). lia. }
  split_and!; [apply concurrency_pos|..|done| |].
  - intros s Hs. split.
    + eapply steps_cap; [done|]. simpl. unfold goroutines. rewrite running_start. lia.
    + intros Hr. destruct (progress cap s (concurrency_pos c) Hr) as (i & s' & Hi).
      by exists s', i.
  - intros s rs Hs Hr.
    assert (∃ sched, fanOut sched c name qtype l noCache w = (rs, p_world s)) as [sched Hf].
    { apply rtc_nsteps in Hs as [j Hs].
      destruct (pool_run_complete (5 * length l) _ _ _ _ _ Hs Hr (Hj _ _ Hs)) as [sched Hp].
      exists sched. unfold fanOut. fold cap s0. by rewrite Hp, Hr. }
    split; [|by exists sched]. by rewrite <-(fanOut_length sched c name qtype l noCache w), Hf.
  - intros sched. eexists. split; [apply pool_run_steps|].
    apply (fanOut_done sched c name qtype l noCache w).
Qed.

(** A fan-out that bypasses the cache (as monitors and streams request)
    gives each resolver, in the order of the list and under every scheduler, an
    answer of the client to a query of that very resolver, and leaves the cache
    and the store as they were. *)
Theorem fanOut_live (P : Resolver → string → Z → ResolverResult → Prop)
    sched c name qtype (l : list Resolver) (w : world) (HP : client_ensures P) :
  let '(rs, w') := fanOut sched c name qtype l true w in
  Forall2 (λ r res, P r name (ParseType0 qtype) res) l rs ∧
  w_store w' = w_store w ∧ w_cache w' = w_cache w.
Proof.
  apply (fanOut_safe (λ w1, w_store w1 = w_store w ∧ w_cache w1 = w_cache w)); [done|].
  intros r. by apply queryWithCache_live.
Qed.

(** C10: with the cache, a result is an answer of the client, now or earlier,
    to a query with the same cache key as the one asked, and afterwards the
    cache again holds only such answers.  (The key names the resolver by its
    identifier, so an answer can come from a custom resolver that carries the
    identifier of a built-in one.) *)
Theorem fanOut_cached (P : Resolver → string → Z → ResolverResult → Prop)
    `{!CacheLaws C CO} `{!CodecOk string ResolverResult J}
    sched c name qtype (l : list Resolver) (w : world)
    (HP : client_ensures P) (HF : client_faithful) (Hc : cache_ok P (w_cache w)) :
  let '(rs, w') := fanOut sched c name qtype l false w in
  Forall2 (λ r res, same_key P r name qtype res) l rs ∧ cache_ok P (w_cache w').
Proof. by apply (fanOut_answers P sched c name qtype l false). Qed.

(** C39: a check is reported only for a valid request on a list that can be
    built; otherwise the error is returned and nothing is queried, cached or
    saved: an invalid request does nothing at all, and a list that cannot be
    built leaves the contents of the store.  A reported check has the name and
    the type asked for and, for each of the at most 200 resolvers of the list and
    in their order, an answer of the client: to a query of that very resolver
    when the cache is bypassed, which then stays as it was, else to a query with
    the same cache key, given now or earlier.  Its summary is that of its
    results; unless it is to be saved there is no error and nothing is stored. *)
Theorem Check_reports (P : Resolver → string → Z → ResolverResult → Prop)
    `{SL : !StorageLaws S SO} `{CLaws : !CacheLaws C CO} `{CK : !CodecOk string ResolverResult J}
    sched c (req : CheckRequest) (w : world)
    (HP : client_ensures P) (HF : client_faithful) (Hc : cache_ok P (w_cache w))
    (Hh : healthy (w_store w)) :
  let '((check, err), w') := Checker_Check sched c req w in
  match validateRequest req, (buildResolverList c req w).1 with
  | Some e, _ => check = None ∧ err = Some e ∧ w' = w
  | None, Err e => check = None ∧ err = Some e ∧ w_cache w' = w_cache w ∧ w_net w' = w_net w ∧
      healthy (w_store w') ∧ view (w_store w') = view (w_store w)
  | None, Ok l => ∃ k, check = Some k ∧ length l ≤ 200 ∧
      cName k = crName req ∧ cType k = crType req ∧ cSummary k = buildSummary (cResults k) ∧
      (if crNoCache req then
         Forall2 (λ r res, P r (crName req) (ParseType0 (crType req)) res) l (cResults k) ∧
         w_cache w' = w_cache w
       else
         Forall2 (λ r res, same_key P r (crName req) (crType req) res) l (cResults k) ∧
         cache_ok P (w_cache w')) ∧
      (crSave req = false → err = None ∧
         healthy (w_store w') ∧ view (w_store w') = view (w_store w))
  end.
Proof.
  pose proof (λ H, Check_keeps_store sched c req w H Hh) as Hkeep. revert Hkeep.
  unfold Checker_Check. destruct (validateRequest req) as [e|]; [done|].
  unfold buildResolverList. cbv [mbind M_bind mret M_ret].
  pose proof (disabledResolverSet_store c w Hh) as [Hh1 Hv1].
  destruct (disabledResolverSet_cache c w) as [Hc1 Hn1].
  destruct (disabledResolverSet c w) as [disabled w1]. cbn [fst snd] in *.
  destruct (resolver_list (ckRegistry c) disabled req) as [l|e] eqn:Hl; [|done].
  rewrite <-Hc1 in Hc |- *.
  pose proof (fanOut_answers P sched c (crName req) (crType req) l (crNoCache req) w1 HP HF Hc) as Hf.
  destruct (fanOut _ _ _ _ _ _ w1) as [rs w2].
  assert (∀ {X} (m : M N X) (w0 : world), w_cache (on_net m w0).2 = w_cache w0) as Hcache
    by (intros X m w0; unfold on_net; by destruct (m (w_net w0))).
  pose proof (Hcache _ Now w2) as H2. unfold now. destruct (on_net Now w2) as [t1 w3].
  pose proof (Hcache _ Now w3) as H3. destruct (on_net Now w3) as [t2 w4]. cbn [fst snd] in *.
  rewrite <-H2, <-H3 in Hf.
  destruct (crSave req); cbv beta; [unfold on_store; destruct (SaveCheck _ (w_store w4)) as [err s5]|];
    intros Hkeep; eexists; (split; [done|]);
    (split; [by eapply resolver_list_length|split_and!; [done..|by destruct (crNoCache req)|]]);
    [done|intros _; split; [done|by apply Hkeep]].
Qed.

(** C25: a check that is saved to a store without faults, which represents it,
    can be read back under its identifier, as it was returned, and nothing else
    in the store changes; a check that is not to be saved leaves the store's
    contents as they were. *)
Theorem Check_saved `{!StorageLaws S SO} sched c (req : CheckRequest) (w : world)
    (Hh : healthy (w_store w)) :
  let '((check, err), w') := Checker_Check sched c req w in
  match check with
  | Some k => okCheck k →
      err = None ∧ healthy (w_store w') ∧
      if crSave req then
        (GetCheck (cID k) (w_store w')).1 = Ok k ∧
        view (w_store w') = set_checks (view (w_store w))
                              (<[cID k := k]> (abs_checks (view (w_store w))))
      else view (w_store w') = view (w_store w)
  | None => view (w_store w') = view (w_store w)
  end.
Proof.
  pose proof (Check_run sched c req w Hh) as H.
  destruct (Checker_Check sched c req w) as [[[k|] err] w'];
    destruct H as (s & Hs & Hv & H); [|by rewrite H].
  intros Hrep. destruct H as [_ H]. destruct (crSave req).
  - destruct (SaveCheck_law k s Hs Hrep) as (s' & Hsave & Hh' & Hv'). rewrite Hsave in H.
    destruct H as [-> ->]. split_and!; [done..| |by rewrite Hv', Hv].
    destruct (GetCheck_law (cID k) s' Hh') as (s2 & -> & _).
    rewrite Hv'. simpl. unfold abs_get. by rewrite lookup_insert_eq.
  - destruct H as [-> ->]. split_and!; done.
Qed.

End FanOut.

#[export] Hint Resolve keeping_disabled keeping_fanOut keeping_Lookup : keeps.

(** * Concrete instances *)

(** The DNS client discharges what the fan-out asks of a client. *)
Lemma client_ops_ensures `{D : DnsConsts} `{U : Unicode} {N} `{EN : Env N} (cfg : DNSConfig) :
  client_ensures (CL := client_ops cfg)
    (λ r _ _ res, rrResolver res = r ∧ status_valid (rrStatus res)).
Proof.
  intros r name q n. simpl.
  destruct (client_Query cfg r name q n) as [[res|] n'] eqn:Hq; simpl.
  - by eapply client_Query_result.
  - intros t. split; [done|]. apply (bool_decide_unpack _). done.
Qed.

(** The encoding of a single result. *)
Definition one_result : ResolverResult := result_for (demo_resolver "r1" "1.1.1.1") StatusOK 0%Z "" 0%Z.

Definition one_codec : Codec string ResolverResult := {|
  marshal r := if decide (r = one_result) then Some "one" else None;
  unmarshal s := if decide (s = "one") then Some one_result else None;
  faithful r := r = one_result
|}.

Lemma one_codec_ok : CodecOk string ResolverResult one_codec.
Proof. split. intros r ->. by exists "one". Qed.

Definition one_client : ClientOps Script := {| Query _ _ _ := mret (Ok one_result) |}.

Lemma fanOut_live_witness :
  let w : World Noop noopCache Script := mkWorld tt tt demo_net in
  let '(rs, w') := fanOut (D := iana) (CO := noop_cache_ops) (CL := demo_client)
    (J := one_codec) (λ n, n) demo_checker "a.example" "A" (All (ckRegistry demo_checker)) true w in
  Forall2 (λ r res, rrResolver res = r ∧ status_valid (rrStatus res))
    (All (ckRegistry demo_checker)) rs ∧
  w_store w' = w_store w ∧ w_cache w' = w_cache w.
Proof.
  apply (fanOut_live (D := iana) (CO := noop_cache_ops) (CL := demo_client) (J := one_codec)
    (λ r _ _ res, rrResolver res = r ∧ status_valid (rrStatus res))).
  apply (client_ops_ensures (D := iana) (U := ascii_only)).
Defined.

Lemma fanOut_cached_witness :
  let w : World Noop Memory Script := mkWorld tt ∅ demo_net in
  let P := λ (_ : Resolver) (_ : string) (_ : Z) (res : ResolverResult), res = one_result in
  let '(rs, w') := fanOut (D := iana) (CO := memory_ops (H := map_lru)) (CL := one_client)
    (J := one_codec) (λ n, n) demo_checker "a.example" "A" (All (ckRegistry demo_checker)) false w in
  Forall2 (λ r res, same_key (D := iana) P r "a.example" "A" res)
    (All (ckRegistry demo_checker)) rs ∧
  cache_ok (D := iana) (CacheLaws0 := memory_laws (LruOk0 := map_lru_ok)) (J := one_codec) P
    (w_cache w').
Proof.
  apply (fanOut_cached (D := iana) (CL := one_client) (J := one_codec)
    (λ _ _ _ res, res = one_result)
    (CacheLaws0 := memory_laws (LruOk0 := map_lru_ok)) (CodecOk0 := one_codec_ok)).
  - done.
  - intros r name q n res [= <-]. done.
  - done.
Defined.

Lemma Check_saved_witness :
  let w : World (DB string doc) noopCache Script := mkWorld (mkDB empty_tables []) tt demo_net in
  let req := mkCheckRequest "a.example" "A" [] [] true false false in
  let '((check, err), w') := Checker_Check (D := iana) (U := ascii_only) (R := range_forward)
    (CO := noop_cache_ops) (CL := demo_client) (J := one_codec) (λ n, n) demo_checker req w in
  match check with
  | Some k => okCheck (StorageLaws := sqlite_laws) k →
      err = None ∧ healthy (StorageLaws := sqlite_laws) (w_store w') ∧
      if crSave req then
        (GetCheck (cID k) (w_store w')).1 = Ok k ∧
        view (StorageLaws := sqlite_laws) (w_store w') =
          set_checks (view (StorageLaws := sqlite_laws) (w_store w))
            (<[cID k := k]> (abs_checks (view (StorageLaws := sqlite_laws) (w_store w))))
      else view (StorageLaws := sqlite_laws) (w_store w') = view (StorageLaws := sqlite_laws) (w_store w)
  | None => view (StorageLaws := sqlite_laws) (w_store w') = view (StorageLaws := sqlite_laws) (w_store w)
  end.
Proof.
  apply (Check_saved (D := iana) (U := ascii_only) (R := range_forward) (CO := noop_cache_ops)
    (CL := demo_client) (J := one_codec) (StorageLaws0 := sqlite_laws)).
  apply empty_healthy.
Defined.

Lemma Check_reports_witness :
  let w : World (DB string doc) Memory Script := mkWorld (mkDB empty_tables []) ∅ demo_net in
  let req := mkCheckRequest "a.example" "A" [] [] false false false in
  ∃ k, (Checker_Check (D := iana) (U := ascii_only) (R := range_forward)
      (CO := memory_ops (H := map_lru)) (CL := one_client) (J := one_codec) (λ n, n)
      demo_checker req w).1 = (Some k, None) ∧
    Forall (eq one_result) (cResults k) ∧ length (cResults k) = 2%nat.
Proof.
  intros w req.
  pose proof (Check_reports (D := iana) (U := ascii_only) (R := range_forward) (CL := one_client)
    (J := one_codec) (λ _ _ _ res, one_result = res) (SL := sqlite_laws)
    (CLaws := memory_laws (LruOk0 := map_lru_ok)) (CK := one_codec_ok)
    (λ n, n) demo_checker req w ltac:(done) ltac:(by intros r name q n res [= <-]) ltac:(done)
    (empty_healthy (blob := doc))) as H.
  destruct (Checker_Check (D := iana) (U := ascii_only) (R := range_forward)
    (CO := memory_ops (H := map_lru)) (CL := one_client) (J := one_codec) (λ n, n)
    demo_checker req w) as [[check err] w'].
  assert (validateRequest (D := iana) (U := ascii_only) req = None) as E
    by (vm_compute; reflexivity).
  rewrite E in H. clear E.
  assert ((buildResolverList (U := ascii_only) (S := DB string doc) (C := Memory) (N := Script)
    demo_checker req w).1 =
    Ok [demo_resolver "r1" "1.1.1.1"; demo_resolver "r2" "9.9.9.9"]) as E by (vm_compute; reflexivity).
  rewrite E in H. clear E. cbn [crNoCache crSave req] in H.
  destruct H as (k & -> & _ & _ & _ & _ & (Hr & _) & Herr). destruct (Herr eq_refl) as [-> _].
  exists k. split; [done|]. split; [|by apply Forall2_length in Hr].
  clear - Hr. induction Hr as [|r res l rs (? & ? & ? & _ & Hres) _ IH]; constructor; done.
Defined.
