(* ===== verification/Monitor.v ===== *)
(** * Package monitor

    [internal/monitor/monitor.go]: the evaluator, which runs a propagation
    check for a monitor, decides, records a changelog entry, moves the baseline
    of a change monitor and notifies the bound channel.

    The check runner and the notifier are interfaces: the classes
    [CheckRunner] and [Notifier].  [Run] mutates the monitor it is given; the
    model returns the monitor it leaves behind. *)

From S2P Require Import Prelude.
From S2P Require Import GoString.
From S2P Require Import DnsTypes.
From S2P Require Import Settings.
From S2P Require Import Session.
From S2P Require Import Env.
From S2P Require Import GoTime.
From S2P Require Import Storage.
From S2P Require Import Interleave.
From S2P Require Import Summary.
From S2P Require Import Sql.
From S2P Require Import Sqlite.
From S2P Require Import SqlRefine.
From S2P Require Import DnsClient.
From S2P Require Import Checker.
From S2P Require Import FanOut.

Local Open Scope Z_scope.

(* src: internal/monitor/monitor.go CheckRunner *)
Class CheckRunner (W : Type) := {
  run_check : CheckRequest → M W (result Check)
}.

(* src: internal/monitor/monitor.go Notifier *)
Class Notifier (N : Type) := {
  Send : NotificationChannel → string → M N (option error)
}.

(* src: internal/monitor/monitor.go label *)
Definition label (m : Monitor) : string :=
  let name := if String.eqb (mName m) "" then mFQDN m else mName m in
  name +:+ " (" +:+ mFQDN m +:+ " " +:+ mRecordType m +:+ ")".

(* src: internal/monitor/monitor.go answerValues *)
Definition answerValues (r : ResolverResult) : list string := aValue <$> rrAnswers r.

(* src: internal/monitor/monitor.go normalize *)
Definition normalize (vs : list string) : list string := sort_strings vs.

(** The loop that compares two slices of the same length. *)
Fixpoint same_elems (na nb : list string) : bool :=
  match na, nb with
  | x :: na', y :: nb' => if String.eqb x y then same_elems na' nb' else false
  | _, _ => true
  end.

(* src: internal/monitor/monitor.go setEqual *)
Definition setEqual (a b : list string) : bool :=
  if decide (length a ≠ length b) then false
  else same_elems (normalize a) (normalize b).

(* src: internal/monitor/monitor.go join *)
Definition join (vs : list string) : string :=
  match vs with [] => "(empty)" | _ => Join vs ", " end.

(** The counting loop of [consensus], over the successful results. *)
(* src: internal/monitor/monitor.go 190-198 consensus *)
Definition count_values (acc : gmap string Z * gmap string (list string)) (r : ResolverResult)
    : gmap string Z * gmap string (list string) :=
  let '(counts, repr) := acc in
  if negb (String.eqb (rrStatus r) StatusOK) then acc else
  let vs := normalize (answerValues r) in
  let key := Join vs "," in
  (incr key counts, <[key := vs]> repr).

(** [nil] is the empty list. *)
(* src: internal/monitor/monitor.go consensus *)
Definition consensus `{MapRange} (check : Check) : list string :=
  let '(counts, repr) := foldl count_values (∅, ∅) (cResults check) in
  let '(best, _) :=
    foldl (λ '(best, bestN) '(k, n), if bestN <? n then (k, n) else (best, bestN))
      ("", 0) (range counts) in
  default [] (repr !! best).

Section Evaluator.
Context `{R : MapRange}.
Context {S C N : Type} `{SO : StorageOps S} `{EN : Env N} `{CR : CheckRunner (World S C N)}
  `{NO : Notifier N}.

Abbreviation world := (World S C N).

(** The first enabled channel with the given identifier. *)
Fixpoint bound_channel (id : string) (cs : list NotificationChannel)
    : option NotificationChannel :=
  match cs with
  | [] => None
  | c :: cs' =>
      if String.eqb (chID c) id && chEnabled c then Some c else bound_channel id cs'
  end.

(* src: internal/monitor/monitor.go Evaluator.maybeNotify *)
Definition maybeNotify (m : Monitor) (message : string) : M world bool :=
  if String.eqb (mChannelID m) "" then mret false else
  s ← on_store GetSettings;
  match s with
  | Err _ => mret false
  | Ok s =>
      match bound_channel (mChannelID m) (sNotifications s) with
      | None => mret false
      | Some c => err ← on_net (Send c message); mret (bool_decide (err = None))
      end
  end.

Definition set_event (ev : MonitorEvent) (status : string) (observed : list string)
    (message : string) (notified : bool) : MonitorEvent :=
  mkMonitorEvent (evID ev) (evMonitorID ev) (evTimestamp ev) status observed message notified.

(* src: internal/monitor/monitor.go Evaluator.evaluateChange *)
Definition evaluateChange (m : Monitor) (check : Check) (ev : MonitorEvent)
    : M world (Monitor * MonitorEvent) :=
  let observed := consensus check in
  if decide (length (mExpected m) = 0%nat) then
    t ← on_net Now;
    let m := set_mExpected m observed t in
    _ ← on_store (SaveMonitor m);
    mret (m, set_event ev MonitorStatusOK observed ("Baseline captured: " +:+ join observed) false)
  else if negb (setEqual observed (mExpected m)) then
    let old := mExpected m in
    let message := "Changed: " +:+ join old +:+ " → " +:+ join observed in
    t ← on_net Now;
    let m := set_mExpected m observed t in
    _ ← on_store (SaveMonitor m);
    notified ← maybeNotify m
      ("[dnsmon] " +:+ label m +:+ ": value changed from " +:+ join old +:+ " to " +:+ join observed);
    mret (m, set_event ev MonitorStatusChanged observed message notified)
  else mret (m, set_event ev MonitorStatusOK observed "No change." false).

(** The counting loop of [evaluatePropagation]: responded and matched. *)
(* src: internal/monitor/monitor.go 108-119 Evaluator.evaluatePropagation *)
Definition count_matched (expected : list string) (acc : Z * Z) (r : ResolverResult) : Z * Z :=
  let '(responded, matched) := acc in
  if String.eqb (rrStatus r) StatusOK then
    (responded + 1, if setEqual (answerValues r) expected then matched + 1 else matched)
  else if String.eqb (rrStatus r) StatusNXDomain then (responded + 1, matched)
  else (responded, matched).

(* src: internal/monitor/monitor.go Evaluator.evaluatePropagation *)
Definition evaluatePropagation (m : Monitor) (check : Check) (ev : MonitorEvent)
    : M world MonitorEvent :=
  let '(responded, matched) := foldl (count_matched (mExpected m)) (0, 0) (cResults check) in
  let observed := consensus check in
  if (0 <? responded) && (matched =? responded) then
    mret (set_event ev MonitorStatusOK observed
      ("Propagated: all " +:+ Itoa responded +:+ " resolvers return the expected value.") false)
  else
    let message := "Not propagated: " +:+ Itoa matched +:+ " of " +:+ Itoa responded
                   +:+ " resolvers match the expected value." in
    notified ← maybeNotify m
      ("[dnsmon] " +:+ label m +:+ ": propagation incomplete — " +:+ Itoa matched +:+ "/"
       +:+ Itoa responded +:+ " resolvers match expected " +:+ join (mExpected m));
    mret (set_event ev MonitorStatusNotPropagated observed message notified).

(** [settings.NewID()], whose buffer stays zero when reading fails. *)
Definition fresh_id : M world string :=
  buf ← on_net (rand_Read 8);
  mret (Session.NewID match buf with Ok b => b | Err _ => replicate 8 0 end).

(** The monitor as the call leaves it, and the event. *)
(* src: internal/monitor/monitor.go Evaluator.Run *)
Definition Run (m : Monitor) : M world (Monitor * MonitorEvent) :=
  id ← fresh_id;
  t ← on_net Now;
  let ev := mkMonitorEvent id (mID m) t "" [] "" false in
  check ← run_check (mkCheckRequest (mFQDN m) (mRecordType m) [] [] false false true);
  match check with
  | Err err =>
      let ev := set_event ev MonitorStatusError [] ("Check failed: " +:+ Error err) false in
      _ ← on_store (AppendMonitorEvent ev);
      mret (m, ev)
  | Ok check =>
      mev ← (if String.eqb (mType m) MonitorChange then evaluateChange m check ev
             else ev ← evaluatePropagation m check ev; mret (m, ev));
      _ ← on_store (AppendMonitorEvent mev.2);
      mret mev
  end.

(* src: internal/monitor/monitor.go Evaluator.RunByID *)
Definition RunByID (id : string) : M world (result MonitorEvent) :=
  m ← on_store (GetMonitor id);
  match m with
  | Err err => mret (Err err)
  | Ok m => mev ← Run m; mret (Ok mev.2)
  end.

End Evaluator.

(** The checker as the runner of a monitor's checks. *)
Definition checker_runner `{D : DnsConsts} `{U : GoFmt.Unicode} `{R : MapRange} {S C N}
    `{SO : StorageOps S} `{CO : Cache.CacheOps C} `{EN : Env N} `{CL : DnsClient.ClientOps N}
    `{J : Codec string ResolverResult} (sched : nat → nat) (c : Checker)
    : CheckRunner (World S C N) := {|
  run_check req :=
    r ← Checker_Check sched c req;
    mret match r with
         | (_, Some err) => Err err
         | (Some k, None) => Ok k
         | (None, None) => Err (Errorf "no check")
         end
|}.

(** * Lemmas *)

Lemma same_elems_eq na nb : length na = length nb → same_elems na nb = true ↔ na = nb.
Proof.
  revert nb. induction na as [|x na IH]; intros [|y nb] Hl; simplify_eq/=; [done|].
  destruct (String.eqb_spec x y) as [->|Hne]; [|by split; [|intros [= ? _]]].
  rewrite IH by done. split; [by intros ->|by intros [= ->]].
Qed.

Lemma setEqual_perm a b : setEqual a b = true ↔ a ≡ₚ b.
Proof.
  unfold setEqual, normalize. case_decide as Hl.
  - split; [done|]. by intros Hp%Permutation_length.
  - rewrite same_elems_eq.
    + apply sort_strings_eq.
    + rewrite !sort_strings_length. lia.
Qed.

Lemma setEqual_false a b : setEqual a b = false ↔ ¬ a ≡ₚ b.
Proof. rewrite <-setEqual_perm. by destruct (setEqual a b). Qed.

(** The key of a result's value set. *)
Definition values_key (r : ResolverResult) : string := Join (normalize (answerValues r)) ",".

Definition has_values : string → ResolverResult → bool := keyed values_key.

(** The two maps of [consensus] after the loop. *)
Lemma count_values_fst acc rs :
  (foldl count_values acc rs).1 =
  foldl (λ m r, incr (values_key r) m) acc.1 (filter (λ r, is_OK r = true) rs).
Proof.
  revert acc. induction rs as [|r rs IH]; intros [counts repr]; simpl; [done|].
  rewrite IH. change (String.eqb (rrStatus r) StatusOK) with (is_OK r).
  destruct (is_OK r) eqn:Hok; simpl.
  - by rewrite filter_cons_True.
  - by rewrite filter_cons_False by congruence.
Qed.

Lemma count_values_snd rs k :
  match (foldl count_values (∅, ∅) rs).2 !! k with
  | Some vs => ∃ r, r ∈ rs ∧ is_OK r = true ∧ values_key r = k ∧ vs = normalize (answerValues r)
  | None => ∀ r, r ∈ rs → is_OK r = true → values_key r ≠ k
  end.
Proof.
  induction rs as [|r rs IH] using rev_ind; simpl.
  { rewrite lookup_empty. intros r Hr. by apply elem_of_nil in Hr. }
  rewrite foldl_snoc. destruct (foldl count_values (∅, ∅) rs) as [counts repr]. simpl in *.
  change (String.eqb (rrStatus r) StatusOK) with (is_OK r).
  destruct (is_OK r) eqn:Hok; simpl.
  - fold (values_key r). rewrite lookup_insert. case_decide as Hk.
    + exists r. split; [apply elem_of_app; right; by left|done].
    + destruct (repr !! k) as [vs|].
      * destruct IH as (r' & ? & ?). exists r'. split; [apply elem_of_app; by left|done].
      * intros r' [Hr|Hr%list_elem_of_singleton]%elem_of_app; [by apply IH|by subst].
  - destruct (repr !! k) as [vs|].
    + destruct IH as (r' & ? & ?). exists r'. split; [apply elem_of_app; by left|done].
    + intros r' [Hr|Hr%list_elem_of_singleton]%elem_of_app; [by apply IH|subst; congruence].
Qed.

Lemma count_matched_spec expected rs acc :
  foldl (count_matched expected) acc rs =
  (acc.1 + countb responds rs,
   acc.2 + countb (λ r, is_OK r && setEqual (answerValues r) expected) rs).
Proof.
  revert acc. induction rs as [|r rs IH]; intros [a b]; simpl.
  { by rewrite !countb_nil, !Z.add_0_r. }
  rewrite IH, !countb_cons.
  change (String.eqb (rrStatus r) StatusOK) with (is_OK r).
  change (String.eqb (rrStatus r) StatusNXDomain) with (is_NXDomain r).
  unfold responds. destruct (is_OK r), (is_NXDomain r), (setEqual (answerValues r) expected);
    simpl; f_equal; lia.
Qed.

(** * Properties *)

(** The observed values of a check are the value set of one of its
    successful results, and no other value set is returned by more of them;
    they are empty when no result is successful. *)
Theorem consensus_majority `{MapRange} (check : Check) :
  (countb is_OK (cResults check) = 0 ∧ consensus check = []) ∨
  (∃ r, r ∈ cResults check ∧ is_OK r = true ∧ consensus check = sort_strings (answerValues r) ∧
     ∀ r', countb (has_values (values_key r')) (cResults check)
           ≤ countb (has_values (values_key r)) (cResults check)).
Proof.
  unfold consensus.
  pose proof (count_values_fst (∅, ∅) (cResults check)) as Hc.
  pose proof (count_values_snd (cResults check)) as Hr.
  destruct (foldl count_values (∅, ∅) (cResults check)) as [counts repr]. simpl in Hc, Hr.
  change (foldl _ ("", 0) (range counts)) with (majority (range counts)).
  change (counts = tally_by values_key (cResults check)) in Hc. subst counts.
  pose proof (majority_spec (tally_by values_key (cResults check))) as Hm.
  destruct (majority _) as [best n]. destruct Hm as (Hn & Hmax & Hbest).
  specialize (Hr best). destruct (repr !! best) as [vs|]; simpl.
  - right. destruct Hr as (r & Hin & Hok & <- & ->). exists r. split_and!; [done..|].
    intros r'. unfold has_values. rewrite <-!tally_by_default.
    destruct (tally_by _ _ !! values_key r') as [n'|] eqn:E'; simpl;
      [|rewrite tally_by_default; apply countb_nonneg].
    apply Hmax in E'. destruct Hbest as [[_ ->]| ->]; [|done].
    rewrite tally_by_default. pose proof (countb_nonneg (keyed values_key (values_key r)) (cResults check)). lia.
  - left. split; [|done]. destruct Hbest as [[-> ->]|Hb].
    + apply countb_none. intros r Hin. destruct (is_OK r) eqn:Hok; [exfalso|done].
      assert (0 < countb (keyed values_key (values_key r)) (cResults check)) as Hp.
      { apply (countb_pos _ _ r Hin). unfold keyed. by rewrite Hok, String.eqb_refl. }
      assert (tally_by values_key (cResults check) !! values_key r =
        Some (countb (keyed values_key (values_key r)) (cResults check))) as Ht
        by by apply tally_by_lookup.
      apply Hmax in Ht. lia.
    + exfalso. apply tally_by_lookup in Hb as [-> Hp].
      apply countb_elem in Hp as (r & Hin & Hk). unfold keyed in Hk.
      apply andb_true_iff in Hk as [Hok Hk]. apply String.eqb_eq in Hk. by apply (Hr r).
Qed.

(** The observed values do not depend on the order in which the map is visited,
    unless two value sets tie for the majority. *)
Lemma consensus_order (R R' : MapRange) (check : Check) :
  @consensus R check = @consensus R' check ∨
  ∃ k k', k ≠ k' ∧ 0 < countb (has_values k) (cResults check) ∧
    ∀ x, countb (has_values x) (cResults check) ≤ countb (has_values k) (cResults check) ∧
         countb (has_values x) (cResults check) ≤ countb (has_values k') (cResults check).
Proof.
  unfold consensus. pose proof (count_values_fst (∅, ∅) (cResults check)) as Hc.
  destruct (foldl count_values (∅, ∅) (cResults check)) as [counts repr]. simpl in Hc.
  change (counts = tally_by values_key (cResults check)) in Hc. subst counts.
  change (foldl _ ("", 0) (@range R _ ?m)) with (majority (@range R _ m)).
  change (foldl _ ("", 0) (@range R' _ ?m)) with (majority (@range R' _ m)).
  destruct (majority_order R R' values_key (cResults check)) as [->|?]; [by left|by right].
Qed.

(** Two value lists are equal for a monitor exactly when they hold the
    same values with the same multiplicities, in whatever order. *)
Theorem setEqual_multiset (a b : list string) :
  (setEqual a b = true ↔ a ≡ₚ b) ∧ setEqual a b = setEqual b a.
Proof.
  split; [apply setEqual_perm|].
  destruct (setEqual b a) eqn:E; [by apply setEqual_perm; apply setEqual_perm in E|].
  apply setEqual_false. apply setEqual_false in E. by intros ?.
Qed.

(** A result that counts as propagated. *)
Definition matches (expected : list string) (r : ResolverResult) : Prop :=
  is_OK r = true ∧ answerValues r ≡ₚ expected.

Section Evaluation.
Context `{R : MapRange}.
Context {S C N : Type} `{SO : StorageOps S} `{EN : Env N} `{CR : CheckRunner (World S C N)}
  `{NO : Notifier N}.

Abbreviation world := (World S C N).

(** Sending a notification does not change what is stored. *)
Lemma maybeNotify_store `{!StorageLaws S SO} m message (w : world) :
  healthy (w_store w) →
  let '(_, w') := maybeNotify m message w in
  healthy (w_store w') ∧ view (w_store w') = view (w_store w) ∧ w_cache w' = w_cache w.
Proof.
  intros Hh. unfold maybeNotify. destruct (String.eqb (mChannelID m) ""); [done|].
  cbv [mbind M_bind mret M_ret on_store].
  destruct (GetSettings_law (w_store w) Hh) as (s' & -> & Hh' & Hv'). simpl.
  destruct (bound_channel _ _) as [ch|]; [|done]. unfold on_net. simpl.
  by destruct (Send ch message (w_net w)).
Qed.

Lemma bound_channel_spec id cs :
  match bound_channel id cs with
  | Some c => c ∈ cs ∧ chID c = id ∧ chEnabled c = true
  | None => Forall (λ c, chID c ≠ id ∨ chEnabled c = false) cs
  end.
Proof.
  induction cs as [|c cs IH]; simpl; [constructor|].
  destruct (String.eqb_spec (chID c) id) as [Heq|Hne]; [destruct (chEnabled c) eqn:E|]; simpl.
  1: split_and!; [by left|done..].
  all: destruct (bound_channel id cs);
    [destruct IH as (? & ? & ?); split_and!; [apply elem_of_cons; by right|done..]|constructor; auto].
Qed.

(** A notification goes to the first enabled channel that carries the
    monitor's channel identifier, once, and [true] means that it was
    delivered; without such a channel (none bound, none found, the settings
    unreadable) nothing is sent. *)
Theorem maybeNotify_sends m message (w : world) :
  let '(b, w') := maybeNotify m message w in
  (b = false ∧ w_net w' = w_net w) ∨
  (∃ s c, mChannelID m ≠ "" ∧ (GetSettings (w_store w)).1 = Ok s ∧
     c ∈ sNotifications s ∧ chID c = mChannelID m ∧ chEnabled c = true ∧
     (b = true ↔ (Send c message (w_net w)).1 = None) ∧
     w_net w' = (Send c message (w_net w)).2).
Proof.
  unfold maybeNotify. destruct (String.eqb_spec (mChannelID m) "") as [|Hc]; [by left|].
  cbv [mbind M_bind mret M_ret on_store].
  destruct (GetSettings (w_store w)) as [[s|e] s']; [|by left].
  pose proof (bound_channel_spec (mChannelID m) (sNotifications s)) as Hb.
  destruct (bound_channel _ _) as [c|]; [|by left]. destruct Hb as (? & ? & ?).
  unfold on_net. simpl. destruct (Send c message (w_net w)) as [err n] eqn:Hs. simpl.
  right. exists s, c. rewrite Hs. simpl. split_and!; try done. by rewrite bool_decide_eq_true.
Qed.

(** C27: a propagation monitor reports success exactly when some resolver
    responded and every resolver that responded (an NXDOMAIN included) returned
    exactly the expected values; then nothing is notified and nothing changes;
    otherwise it reports that the record is not propagated. *)
Theorem evaluatePropagation_decides m check ev (w : world) :
  let '(ev', w') := evaluatePropagation m check ev w in
  let ok := 0 < countb responds (cResults check) ∧
            Forall (λ r, responds r = true → matches (mExpected m) r) (cResults check) in
  evObserved ev' = consensus check ∧ evID ev' = evID ev ∧ evMonitorID ev' = evMonitorID ev ∧
  (evStatus ev' = MonitorStatusOK ↔ ok) ∧
  (evStatus ev' = MonitorStatusNotPropagated ↔ ¬ ok) ∧
  (ok → w' = w ∧ evNotified ev' = false).
Proof.
  unfold evaluatePropagation. rewrite count_matched_spec. simpl. rewrite !Z.add_0_l.
  set (rs := cResults check). set (p := λ r, is_OK r && setEqual (answerValues r) (mExpected m)).
  assert ((0 <? countb responds rs) && (countb p rs =? countb responds rs) = true ↔
    0 < countb responds rs ∧ Forall (λ r, responds r = true → matches (mExpected m) r) rs) as Hok.
  { rewrite andb_true_iff, Z.ltb_lt, Z.eqb_eq, (countb_full p responds).
    - assert (∀ r, p r = true ↔ matches (mExpected m) r) as Hp.
      { intros r. unfold p, matches. by rewrite andb_true_iff, setEqual_perm. }
      split; intros [? HF]; (split; [done|]); (eapply Forall_impl; [apply HF|]);
        intros r Hr ?; by apply Hp, Hr.
    - intros r. unfold p, responds. by destruct (is_OK r). }
  destruct ((0 <? countb responds rs) && _); simpl.
  - destruct Hok as [Hok _]. specialize (Hok eq_refl). split_and!; try done.
  - destruct Hok as [_ Hok]. cbv [mbind M_bind mret M_ret].
    destruct (maybeNotify _ _ w) as [b w']. simpl. split_and!; try done.
    + split; [done|]. intros H. by specialize (Hok H).
    + split; [|done]. intros _ H. by specialize (Hok H).
    + intros H. by specialize (Hok H).
Qed.

(** A run in which no resolver answers successfully (all time out, say)
    makes a change monitor with a baseline report a change to the empty value,
    and erases the baseline: the next run, whatever it observes, captures that
    silently as the new baseline, without a change being reported. *)
Theorem evaluateChange_forgets m check check2 ev ev2 (w w2 : world)
    (Hbase : mExpected m ≠ []) (Hnone : countb is_OK (cResults check) = 0) :
  let '((m1, ev1), w1) := evaluateChange m check ev w in
  evStatus ev1 = MonitorStatusChanged ∧ evObserved ev1 = [] ∧ mExpected m1 = [] ∧
  let '((m2, e2), _) := evaluateChange m1 check2 ev2 w2 in
  evStatus e2 = MonitorStatusOK ∧ evNotified e2 = false ∧ mExpected m2 = consensus check2.
Proof.
  assert (consensus check = []) as Hc.
  { pose proof (count_values_fst (∅, ∅) (cResults check)) as Hf.
    destruct (foldl count_values (∅, ∅) (cResults check)) as [counts repr] eqn:E.
    pose proof (count_values_snd (cResults check) (majority (range counts)).1) as Hr.
    rewrite E in Hr. simpl in Hr. unfold consensus. rewrite E.
    change (foldl _ ("", 0) (range counts)) with (majority (range counts)).
    destruct (majority (range counts)) as [best n]. simpl in Hr.
    destruct (repr !! best) as [vs|]; [|done]. destruct Hr as (r & Hin & Hok & _).
    pose proof (countb_pos _ _ r Hin Hok). lia. }
  unfold evaluateChange at 1. rewrite Hc.
  case_decide as Hl; [by apply length_zero_iff_nil in Hl|].
  assert (setEqual [] (mExpected m) = false) as ->.
  { apply setEqual_false. intros Hp. by apply Permutation_nil_l in Hp. }
  simpl. cbv [mbind M_bind mret M_ret].
  destruct (on_net Now w) as [t w0]. destruct (on_store _ w0) as [e w0'].
  destruct (maybeNotify _ _ w0') as [b w1]. simpl. split_and!; [done..|].
  unfold evaluateChange. simpl. cbv [mbind M_bind mret M_ret].
  destruct (on_net Now w2) as [t2 w3]. by destruct (on_store _ w3) as [e' w3'].
Qed.

(** What an evaluator relies on: a check that is not to be saved leaves the
    store as it is. *)
Class RunnerKeeps `{!StorageLaws S SO} : Prop := runner_keeps : ∀ req (w : world),
  crSave req = false → healthy (w_store w) →
  healthy (w_store (run_check req w).2) ∧ view (w_store (run_check req w).2) = view (w_store w).

Lemma save_monitor `{!StorageLaws S SO} m (w : world) :
  healthy (w_store w) → okMonitor m →
  let w' := (on_store (SaveMonitor m) w).2 in
  healthy (w_store w') ∧
  view (w_store w') = set_monitors (view (w_store w)) (<[mID m := m]> (abs_monitors (view (w_store w)))).
Proof.
  intros Hh Hok. unfold on_store. destruct (SaveMonitor_law m (w_store w) Hh Hok) as (s' & -> & ? & ?).
  done.
Qed.

Lemma on_net_store {X} (f : M N X) (w : world) : w_store (on_net f w).2 = w_store w.
Proof. unfold on_net. by destruct (f (w_net w)). Qed.

Lemma evaluateChange_store `{!StorageLaws S SO} m check ev (w : world) :
  healthy (w_store w) → (∀ t, okMonitor (set_mExpected m (consensus check) t)) →
  let '((m1, _), w1) := evaluateChange m check ev w in
  healthy (w_store w1) ∧
  (view (w_store w1) = view (w_store w) ∧ m1 = m ∨
   view (w_store w1) = set_monitors (view (w_store w))
     (<[mID m := m1]> (abs_monitors (view (w_store w))))).
Proof.
  intros Hh Hok. unfold evaluateChange.
  pose proof (on_net_store Now w) as Hnow.
  case_decide; [|destruct (negb _); [|split; [done|by left]]]; cbv [mbind M_bind mret M_ret];
    destruct (on_net Now w) as [t w0]; simpl in Hnow;
    assert (healthy (w_store w0)) as Hh0 by (by rewrite Hnow);
    pose proof (save_monitor (set_mExpected m (consensus check) t) w0 Hh0 (Hok t)) as [Hh1 Hv1];
    destruct (on_store _ w0) as [e w1]; simpl in Hh1, Hv1; rewrite Hnow in Hv1.
  - split; [done|by right].
  - match goal with |- context [maybeNotify ?m ?msg w1] =>
      pose proof (maybeNotify_store m msg w1 Hh1) as Hn; destruct (maybeNotify m msg w1) as [b w2] end.
    destruct Hn as (Hh2 & Hv2 & _). rewrite Hv2, Hv1. split; [done|by right].
Qed.

Lemma evaluatePropagation_store `{!StorageLaws S SO} m check ev (w : world) :
  healthy (w_store w) →
  let '(_, w1) := evaluatePropagation m check ev w in
  healthy (w_store w1) ∧ view (w_store w1) = view (w_store w).
Proof.
  intros Hh. unfold evaluatePropagation.
  destruct (foldl _ _ _) as [responded matched]. destruct (_ && _); [done|].
  cbv [mbind M_bind mret M_ret].
  match goal with |- context [maybeNotify ?m ?msg w] =>
    pose proof (maybeNotify_store m msg w Hh) as Hn; destruct (maybeNotify m msg w) as [b w2] end.
  simpl. by destruct Hn as (? & ? & _).
Qed.

Lemma evaluateChange_ids m check ev (w : world) :
  evMonitorID (evaluateChange m check ev w).1.2 = evMonitorID ev.
Proof.
  unfold evaluateChange. case_decide; [|destruct (negb _); [|done]];
    cbv [mbind M_bind mret M_ret]; destruct (on_net Now w) as [t w0];
    destruct (on_store _ w0) as [e w1]; [done|]. by destruct (maybeNotify _ _ w1).
Qed.

Lemma evaluatePropagation_ids m check ev (w : world) :
  evMonitorID (evaluatePropagation m check ev w).1 = evMonitorID ev.
Proof.
  unfold evaluatePropagation. destruct (foldl _ _ _) as [responded matched].
  destruct (_ && _); [done|]. cbv [mbind M_bind mret M_ret].
  by destruct (maybeNotify _ _ w).
Qed.

Lemma append_event `{!StorageLaws S SO} ev (w : world) :
  healthy (w_store w) → okEvent ev → abs_events (view (w_store w)) !! evID ev = None →
  let w' := (on_store (AppendMonitorEvent ev) w).2 in
  healthy (w_store w') ∧
  view (w_store w') = set_events (view (w_store w)) (<[evID ev := ev]> (abs_events (view (w_store w)))).
Proof.
  intros Hh Hok Hf. unfold on_store.
  destruct (AppendMonitorEvent_law ev (w_store w) Hh Hok) as (err & s' & -> & ? & _ & Hv).
  simpl. rewrite Hv. unfold abs_insert. by rewrite Hf.
Qed.

(** ** A run next to other requests *)

Section Calm.
Context `{EO : !EnvOk N EN} (keep : Time → Time) (I : AbsStore → Prop) (G : op → Prop)
  (K : S → Prop)
  `{SK : !StoreKeeps SO keep I G K}.

(** The runner keeps the invariant when it is not asked to save. *)
Class RunnerCalm : Prop := runner_calm : ∀ req, crSave req = false →
  keeping (calm K) (λ _, True) (run_check req : M world (result Check)).

Lemma keeping_notify m message : keeping (calm K) (λ _, True) (maybeNotify (C := C) m message).
Proof. unfold maybeNotify. keeps. Qed.

Lemma keeping_fresh_id : keeping (calm K) (λ _, True) (fresh_id (S := S) (C := C)).
Proof. clear EO. unfold fresh_id. keeps. Qed.

(** The calls that a run makes: it saves the monitor with a new baseline, and
    only a change monitor, and appends an event of the time it began. *)
Lemma keeping_change m check ev :
  (∀ e t, G (OSaveMonitor (set_mExpected m e t))) →
  keeping (calm K) (λ mev, evTimestamp mev.2 = evTimestamp ev)
    (evaluateChange (C := C) (N := N) m check ev).
Proof.
  intros Hm. pose proof keeping_notify.
  assert (∀ e t, keeping (calm K) (λ _, True) (on_store (C := C) (N := N)
    (SaveMonitor (set_mExpected m e t)))) as Hsave.
  { intros e t. by eapply (keeping_write _ _ _ _ (OSaveMonitor _)). }
  unfold evaluateChange. keeps.
Qed.

Lemma keeping_propagation m check ev :
  keeping (calm K) (λ ev', evTimestamp ev' = evTimestamp ev)
    (evaluatePropagation (C := C) (N := N) m check ev).
Proof. pose proof keeping_notify. unfold evaluatePropagation. keeps. Qed.

Lemma keeping_Run `{RC : !RunnerCalm} m :
  (∀ e t, mType m = MonitorChange → G (OSaveMonitor (set_mExpected m e t))) →
  (∀ ev, time_ok (evTimestamp ev) → G (OAppendMonitorEvent ev)) →
  keeping (calm K) (λ _, True) (Run m).
Proof.
  intros Hm Hev.
  assert (∀ ev, time_ok (evTimestamp ev) →
    keeping (calm K) (λ _, True) (on_store (C := C) (N := N) (AppendMonitorEvent ev))) as Happ.
  { intros ev Ht. by eapply (keeping_write _ _ _ _ (OAppendMonitorEvent _)), Hev. }
  unfold Run. eapply keeping_bind; [apply keeping_fresh_id|intros id _].
  eapply keeping_bind; [by apply keeping_now|intros t Ht]. cbv zeta.
  eapply keeping_bind; [by apply runner_calm|intros [check|e] _].
  2:{ keeps. }
  eapply (keeping_bind _ (λ mev : Monitor * MonitorEvent, evTimestamp mev.2 = t)).
  - destruct (String.eqb_spec (mType m) MonitorChange) as [Hty|Hty].
    + by apply keeping_change; auto.
    + eapply keeping_bind; [apply keeping_propagation|]. intros ev He. by apply keeping_ret.
  - intros mev He. eapply keeping_bind; [apply Happ; by rewrite He|]. keeps.
Qed.

End Calm.

(** C19: every run of a monitor, whether its check succeeds or fails, appends
    exactly the event that it returns to the changelog of that monitor, under a
    fresh identifier, and changes nothing else in a store without faults except
    possibly the monitor itself, which is then stored as it was left. *)
Theorem Run_records `{!StorageLaws S SO} {KR : RunnerKeeps} (m : Monitor) (w : world)
    (Hh : healthy (w_store w)) (Hok : ∀ e t, okMonitor (set_mExpected m e t)) :
  let '((m1, ev), w') := Run m w in
  okEvent ev → abs_events (view (w_store w)) !! evID ev = None →
  evMonitorID ev = mID m ∧ healthy (w_store w') ∧
  ∃ a, (a = view (w_store w) ∧ m1 = m ∨
        a = set_monitors (view (w_store w)) (<[mID m := m1]> (abs_monitors (view (w_store w))))) ∧
    view (w_store w') = set_events a (<[evID ev := ev]> (abs_events a)).
Proof.
  unfold Run, fresh_id. cbv [mbind M_bind mret M_ret].
  pose proof (on_net_store (rand_Read 8) w) as H1. destruct (on_net (rand_Read 8) w) as [buf w1].
  pose proof (on_net_store Now w1) as H2. destruct (on_net Now w1) as [t w2]. simpl in H1, H2.
  rewrite <-H1, <-H2 in Hh |- *. clear H1 H2 w w1.
  set (req := mkCheckRequest _ _ _ _ _ _ _).
  destruct (runner_keeps req w2 eq_refl Hh) as [Hh3 Hv3].
  destruct (run_check req w2) as [[check|e] w3]; simpl in Hh3, Hv3.
  - destruct (String.eqb (mType m) MonitorChange).
    + set (ev0 := mkMonitorEvent _ _ _ _ _ _ _).
      pose proof (evaluateChange_store m check ev0 w3 Hh3 (Hok _)) as Hs.
      pose proof (evaluateChange_ids m check ev0 w3) as Hid.
      destruct (evaluateChange m check ev0 w3) as [[m1 ev] w4]. simpl in Hid |- *.
      destruct Hs as [Hh4 Hv4]. destruct (on_store _ w4) as [err w5] eqn:Ha.
      intros Hev Hf. assert (abs_events (view (w_store w4)) = abs_events (view (w_store w2))) as He.
      { rewrite <-Hv3. by destruct Hv4 as [[-> _]| ->]. }
      destruct (append_event ev w4 Hh4 Hev) as [Hh5 Hv5]; [by rewrite He|].
      rewrite Ha in Hh5, Hv5. simpl in Hh5, Hv5. split_and!; [done..|].
      exists (view (w_store w4)). split; [|done]. by rewrite <-Hv3.
    + set (ev0 := mkMonitorEvent _ _ _ _ _ _ _).
      pose proof (evaluatePropagation_store m check ev0 w3 Hh3) as Hs.
      pose proof (evaluatePropagation_ids m check ev0 w3) as Hid.
      destruct (evaluatePropagation m check ev0 w3) as [ev w4]. simpl in Hid |- *.
      destruct Hs as [Hh4 Hv4]. destruct (on_store _ w4) as [err w5] eqn:Ha.
      intros Hev Hf. destruct (append_event ev w4 Hh4 Hev) as [Hh5 Hv5]; [by rewrite Hv4, Hv3|].
      rewrite Ha in Hh5, Hv5. simpl in Hh5, Hv5. split_and!; [done..|].
      exists (view (w_store w4)). split; [|done]. left. by rewrite Hv4, Hv3.
  - set (ev := set_event _ _ _ _ _). destruct (on_store _ w3) as [err w5] eqn:Ha.
    intros Hev Hf. destruct (append_event ev w3 Hh3 Hev) as [Hh5 Hv5]; [by rewrite Hv3|].
    rewrite Ha in Hh5, Hv5. simpl in Hh5, Hv5. split_and!; [done..|].
    exists (view (w_store w3)). split; [by left|done].
Qed.

End Evaluation.

(** ** Runs of a change monitor *)

Section Alerts.
Context {S C N : Type} {SO : StorageOps S} `{SL : !StorageLaws S SO} {EN : Env N} `{EO : !EnvOk N EN}
  {NO : Notifier N}.

Abbreviation world := (World S C N).

(** What binds the monitor to a channel, and what a message to it does: the
    answer is whether it was delivered. *)
Definition alerted (m : Monitor) (message : string) (a : AbsStore) (n : N) : bool * N :=
  let channels := sNotifications (default Default (abs_settings a)) in
  match list_find (λ c, mChannelID m ≠ "" ∧ chID c = mChannelID m ∧ chEnabled c = true) channels with
  | None => (false, n)
  | Some (_, c) => (bool_decide ((Send c message n).1 = None), (Send c message n).2)
  end.

Lemma maybeNotify_alerts m message (w : world) : healthy (w_store w) →
  let '(b, w') := maybeNotify m message w in
  healthy (w_store w') ∧ view (w_store w') = view (w_store w) ∧
  (b, w_net w') = alerted m message (view (w_store w)) (w_net w).
Proof.
  intros Hh. unfold maybeNotify, alerted.
  assert (∀ cs, mChannelID m ≠ "" → bound_channel (mChannelID m) cs = snd <$>
    list_find (λ c, mChannelID m ≠ "" ∧ chID c = mChannelID m ∧ chEnabled c = true) cs) as Hb.
  { intros cs Hm. induction cs as [|c cs IH]; simpl; [done|].
    destruct (String.eqb_spec (chID c) (mChannelID m)) as [Hc|Hc]; simpl.
    - destruct (chEnabled c) eqn:E; [by rewrite decide_True by done|].
      rewrite decide_False by (by intros (_ & _ & ?)). rewrite IH. by destruct (list_find _ cs) as [[??]|].
    - rewrite decide_False by (by intros (_ & ? & _)). rewrite IH. by destruct (list_find _ cs) as [[??]|]. }
  destruct (String.eqb_spec (mChannelID m) "") as [He|He].
  - split_and!; [done..|]. destruct (list_find _ _) as [[? c]|] eqn:Ef; [|done].
    apply list_find_Some in Ef as (_ & [[] _] & _). by rewrite He.
  - cbv [mbind M_bind mret M_ret on_store].
    destruct (GetSettings_law (w_store w) Hh) as (s' & -> & Hh' & Hv'). simpl. rewrite (Hb _ He).
    destruct (list_find _ _) as [[? c]|]; [|done]. unfold on_net. simpl.
    by destruct (Send c message (w_net w)).
Qed.

(** The request for the check of a monitor, and the world in which it is made:
    the monitor has been read, the event identified and dated. *)
Definition monitor_request (m : Monitor) : CheckRequest :=
  mkCheckRequest (mFQDN m) (mRecordType m) [] [] false false true.

Definition run_started (id : string) (w : world) : world :=
  mkWorld (GetMonitor id (w_store w)).2 (w_cache w) (Now (rand_Read 8 (w_net w)).2).2.

Definition alert_text (m : Monitor) (observed : list string) : string :=
  "[dnsmon] " +:+ label m +:+ ": value changed from " +:+ join (mExpected m) +:+ " to " +:+ join observed.

(** One run of the stored change monitor [m] that observes [new], in the world
    [w0] of the check's end: the event [ev], and the world after the run. *)
Definition change_run (m : Monitor) (new : list string) (w0 : world) (ev : MonitorEvent) (w1 : world)
    : Prop :=
  healthy (w_store w1) ∧ evMonitorID ev = mID m ∧ evObserved ev = new ∧
  if decide (new ≡ₚ mExpected m) then
    evStatus ev = MonitorStatusOK ∧ evNotified ev = false ∧ w_net w1 = w_net w0 ∧
    abs_monitors (view (w_store w1)) = abs_monitors (view (w_store w0))
  else
    let t := Now (w_net w0) in
    evStatus ev = MonitorStatusChanged ∧
    (evNotified ev, w_net w1) = alerted m (alert_text m new) (view (w_store w0)) t.2 ∧
    abs_monitors (view (w_store w1)) =
      <[mID m := set_mExpected m new t.1]> (abs_monitors (view (w_store w0))).

Lemma evaluateChange_run (R : MapRange) m check ev (w : world) :
  healthy (w_store w) → (∀ x : Monitor, okMonitor x) → mExpected m ≠ [] → evMonitorID ev = mID m →
  let '((_, ev1), w1) := evaluateChange m check ev w in
  evTimestamp ev1 = evTimestamp ev ∧ change_run m (consensus check) w ev1 w1.
Proof.
  intros Hh Hok Hbase Hev. unfold evaluateChange, change_run.
  case_decide as Hl; [by apply length_zero_iff_nil in Hl|].
  destruct (setEqual (consensus check) (mExpected m)) eqn:Heq.
  { apply setEqual_perm in Heq. simpl. rewrite decide_True by done. by split_and!. }
  apply setEqual_false in Heq. cbv [mbind M_bind mret M_ret]. simpl.
  unfold on_net at 1. destruct (Now (w_net w)) as [t n] eqn:En. cbn [fst snd].
  set (w2 := mkWorld _ _ n). set (m1 := set_mExpected m _ t).
  pose proof (save_monitor m1 w2 Hh (Hok m1)) as [Hh3 Hv3].
  destruct (on_store (SaveMonitor m1) w2) as [e w3] eqn:Es. simpl in Hh3, Hv3.
  assert (w_net w3 = n) as Hn3.
  { unfold on_store in Es. destruct (SaveMonitor m1 (w_store w2)). by injection Es as _ <-. }
  pose proof (maybeNotify_alerts m1 (alert_text m (consensus check)) w3 Hh3) as Hn.
  change (maybeNotify m1 _ w3) with (maybeNotify m1 (alert_text m (consensus check)) w3).
  destruct (maybeNotify m1 (alert_text m (consensus check)) w3) as [b w4]. simpl. destruct Hn as (Hh4 & Hv4 & Ha).
  rewrite Hv3, Hn3 in Ha. rewrite decide_False by done. split_and!; try done. by rewrite Hv4, Hv3.
Qed.

Lemma RunByID_changes {CR : CheckRunner world} `{KR : !RunnerKeeps} (R : MapRange) id m check (w : world)
    (Hok : ∀ x : Monitor, okMonitor x) (Hoke : ∀ e, time_ok (evTimestamp e) → okEvent e) :
  healthy (w_store w) → abs_monitors (view (w_store w)) !! id = Some m → mType m = MonitorChange →
  mExpected m ≠ [] → (run_check (monitor_request m) (run_started id w)).1 = Ok check →
  let w0 := (run_check (monitor_request m) (run_started id w)).2 in
  view (w_store w0) = view (w_store w) ∧
  let '(r, w1) := RunByID id w in
  ∃ ev, r = Ok ev ∧ change_run m (consensus check) w0 ev w1.
Proof.
  intros Hh Hm Hty Hbase Hcheck. destruct (GetMonitor_law id (w_store w) Hh) as (s1 & Hg & Hh1 & Hv1).
  assert (healthy (w_store (run_started id w)) ∧ view (w_store (run_started id w)) = view (w_store w))
    as [Hhs Hvs] by (unfold run_started; simpl; by rewrite Hg).
  destruct (runner_keeps (monitor_request m) (run_started id w) eq_refl Hhs) as [Hh0 Hv0].
  rewrite Hvs in Hv0. split; [done|]. unfold RunByID. cbv [mbind M_bind mret M_ret].
  unfold on_store at 1. unfold run_started in *. rewrite Hg in *. cbn [fst snd] in *.
  unfold abs_get. rewrite Hm. unfold Run, fresh_id. cbv [mbind M_bind mret M_ret].
  unfold on_net at 1. cbn [w_net w_store w_cache]. destruct (rand_Read 8 (w_net w)) as [buf n1]. cbn [fst snd] in *.
  unfold on_net at 1. cbn [w_net w_store w_cache].
  pose proof (Now_range n1) as Ht. destruct (Now n1) as [t n2]. cbn [fst snd] in *.
  fold (monitor_request m).
  destruct (run_check (monitor_request m) _) as [[k|e] w0]; [|done]. simpl in Hcheck, Hh0, Hv0 |- *.
  injection Hcheck as ->. rewrite Hty, String.eqb_refl.
  set (ev0 := mkMonitorEvent _ _ _ _ _ _ _).
  pose proof (evaluateChange_run R m check ev0 w0 Hh0 Hok Hbase eq_refl) as Hrun.
  destruct (evaluateChange m check ev0 w0) as [[m1 ev] w1]. destruct Hrun as [Hts (Hh2 & Hid & Hobs & Hrun)].
  destruct (AppendMonitorEvent_law ev (w_store w1) Hh2) as (err & s3 & Ha & Hh3 & _ & Hv3);
    [apply Hoke; by rewrite Hts|]. simpl. unfold on_store. rewrite Ha. cbn [fst snd].
  exists ev. split; [done|]. unfold change_run. cbn [w_store w_net].
  assert (abs_monitors (view s3) = abs_monitors (view (w_store w1))) as -> by by rewrite Hv3.
  by split_and!.
Qed.

(** C9: a stored change monitor with a baseline alerts once for each change.
    A run whose check observes some values reports a change exactly when they
    are not those of the baseline, stores them as the baseline, and then sends
    one message to the first enabled channel that the monitor is bound to, with
    the outcome in the event; otherwise it stores and sends nothing.  A later
    run of the monitor that is stored then, in whatever order it visits its
    maps and whatever has happened to the rest of the world, reports a change
    and sends a message only when its values are not those that the first one
    observed. *)
Theorem RunByID_alerts_once {CR : CheckRunner world} `{KR : !RunnerKeeps} (R1 R2 : MapRange)
    id m check1 (w : world)
    (Hokm : ∀ x : Monitor, okMonitor x) (Hoke : ∀ e, time_ok (evTimestamp e) → okEvent e)
    (Hh : healthy (w_store w)) (Hm : abs_monitors (view (w_store w)) !! id = Some m) (Hid : mID m = id)
    (Hty : mType m = MonitorChange) (Hbase : mExpected m ≠ [])
    (Hcheck : (run_check (monitor_request m) (run_started id w)).1 = Ok check1)
    (Hobs : @consensus R1 check1 ≠ []) :
  let w0 := (run_check (monitor_request m) (run_started id w)).2 in
  let '(r1, w1) := RunByID (R := R1) id w in
  ∃ ev1 m1, r1 = Ok ev1 ∧ change_run m (@consensus R1 check1) w0 ev1 w1 ∧
    abs_monitors (view (w_store w1)) !! id = Some m1 ∧ mExpected m1 ≡ₚ @consensus R1 check1 ∧
    ∀ check2 (w' : world), healthy (w_store w') → abs_monitors (view (w_store w')) !! id = Some m1 →
      (run_check (monitor_request m1) (run_started id w')).1 = Ok check2 →
      let w0' := (run_check (monitor_request m1) (run_started id w')).2 in
      let '(r2, w2) := RunByID (R := R2) id w' in
      ∃ ev2, r2 = Ok ev2 ∧
        if decide (@consensus R2 check2 ≡ₚ @consensus R1 check1)
        then evStatus ev2 = MonitorStatusOK ∧ evNotified ev2 = false ∧ w_net w2 = w_net w0' ∧
             abs_monitors (view (w_store w2)) = abs_monitors (view (w_store w'))
        else evStatus ev2 = MonitorStatusChanged.
Proof.
  intros w0. pose proof (RunByID_changes R1 id m check1 w Hokm Hoke Hh Hm Hty Hbase Hcheck) as [Hv0 H1].
  fold w0 in Hv0, H1. destruct (RunByID id w) as [r1 w1]. destruct H1 as (ev1 & -> & Hrun).
  assert (∃ m1, abs_monitors (view (w_store w1)) !! id = Some m1 ∧ mType m1 = MonitorChange ∧
    mExpected m1 ≡ₚ @consensus R1 check1) as (m1 & Hm1 & Hty1 & Hexp).
  { destruct Hrun as (_ & _ & _ & Hrun). case_decide as Hd.
    - exists m. destruct Hrun as (_ & _ & _ & ->). by rewrite Hv0.
    - destruct Hrun as (_ & _ & ->). eexists. rewrite Hid, lookup_insert_eq. by split_and!. }
  exists ev1, m1. split_and!; [done..|]. intros check2 w' Hh' Hm' Hcheck2.
  assert (mExpected m1 ≠ []) as Hbase1.
  { intros He. rewrite He in Hexp. by apply Permutation_nil_l in Hexp. }
  pose proof (RunByID_changes R2 id m1 check2 w' Hokm Hoke Hh' Hm' Hty1 Hbase1 Hcheck2) as [Hv H2].
  cbv zeta in *. destruct (RunByID id w') as [r2 w2]. destruct H2 as (ev2 & -> & _ & _ & _ & H2).
  exists ev2. split; [done|].
  destruct (decide (@consensus R2 check2 ≡ₚ @consensus R1 check1)) as [Hs|Hs].
  - rewrite decide_True in H2 by (by rewrite Hexp). by rewrite Hv in H2.
  - rewrite decide_False in H2 by (by rewrite Hexp). apply H2.
Qed.

End Alerts.

#[export] Hint Resolve keeping_notify keeping_fresh_id : keeps.

(** * Concrete instances *)

(** The checker is a runner that an evaluator can rely on. *)
Lemma checker_runner_keeps `{D : DnsConsts} `{U : GoFmt.Unicode} `{R : MapRange} {S C N}
    `{SO : StorageOps S} `{CO : Cache.CacheOps C} `{EN : Env N} `{CL : DnsClient.ClientOps N}
    `{J : Codec string ResolverResult} `{!StorageLaws S SO} sched c :
  RunnerKeeps (CR := checker_runner (C := C) sched c).
Proof.
  intros req w Hs Hh. simpl. cbv [mbind M_bind mret M_ret].
  pose proof (Check_keeps_store sched c req w Hs Hh) as Hk.
  by destruct (Checker_Check sched c req w) as [[[k|] [e|]] w'].
Qed.

(** It keeps what the rest of the program keeps, next to other requests. *)
Lemma checker_runner_calm `{D : DnsConsts} `{U : GoFmt.Unicode} `{R : MapRange} {S C N}
    `{SO : StorageOps S} `{CO : Cache.CacheOps C} `{EN : Env N} `{EO : !EnvOk N EN}
    `{CL : DnsClient.ClientOps N} `{J : Codec string ResolverResult} keep I G (K : S → Prop)
    `{SK : !StoreKeeps SO keep I G K} sched c :
  RunnerCalm (CR := checker_runner (C := C) sched c) K.
Proof.
  intros req Hs. eapply (keeping_bind _ (λ _, True)).
  - apply (keeping_Check keep I G K). congruence.
  - keeps.
Qed.

Definition demo_notifier : Notifier Script := {| Send _ _ := mret None |}.

Definition demo_check (vs : list string) : Check :=
  mkCheck "c1" "a.example" "A" 0
    [demo_result "r1" StatusOK ((λ v, (60, v)) <$> vs)] (@buildSummary range_forward []).

Definition demo_monitor (expected : list string) : Monitor :=
  mkMonitor "m1" "" MonitorChange "a.example" "A" expected "" "" true 0 0.

Definition demo_event : MonitorEvent := mkMonitorEvent "e1" "m1" 0 "" [] "" false.

Definition demo_world : World Noop unit Script :=
  mkWorld tt tt (mkScript [] ∅ None 7 []).

(** A runner whose checks observe what they are told. *)
Definition observing {W} (check : Check) : CheckRunner W := {| run_check _ := mret (Ok check) |}.

Definition silent_notifier : Notifier Z := {| Send _ _ := mret None |}.

(** The stored monitor has another baseline than what is observed. *)
Definition watched_db : DB string doc :=
  (SaveMonitor (demo_monitor ["192.0.2.1"]) (mkDB empty_tables [])).2.

Definition watched_world : World (DB string doc) Cache.noopCache Z := mkWorld watched_db tt 0.

Definition watched_run (R : MapRange) :
    World (DB string doc) Cache.noopCache Z → result MonitorEvent * World (DB string doc) Cache.noopCache Z :=
  RunByID (R := R) (CR := observing (demo_check ["192.0.2.2"])) (NO := silent_notifier) "m1".

Lemma watched_healthy : healthy watched_db.
Proof.
  assert (healthy (mkDB empty_tables [] : DB string doc)) as H0 by exact empty_healthy.
  unfold watched_db. by destruct (SaveMonitor_law (demo_monitor ["192.0.2.1"]) _ H0 I)
    as (s & -> & Hh & _).
Qed.

Lemma RunByID_alerts_once_witness : ∃ ev1 ev2,
  (watched_run range_forward watched_world).1 = Ok ev1 ∧ evStatus ev1 = MonitorStatusChanged ∧
  (watched_run range_backward (watched_run range_forward watched_world).2).1 = Ok ev2 ∧
  evStatus ev2 = MonitorStatusOK ∧ evNotified ev2 = false.
Proof.
  assert (RunnerKeeps (StorageLaws0 := sqlite_laws) (C := Cache.noopCache) (N := Z)
    (CR := observing (demo_check ["192.0.2.2"]))) as KR by (by intros req w).
  pose proof (RunByID_alerts_once (SL := sqlite_laws) (EO := tick_env_ok) (C := Cache.noopCache)
    (CR := observing (demo_check ["192.0.2.2"])) (NO := silent_notifier) (KR := KR)
    range_forward range_backward "m1" (demo_monitor ["192.0.2.1"]) (demo_check ["192.0.2.2"])
    watched_world (λ _, I) ltac:(by intros e He) watched_healthy
    ltac:(vm_compute; reflexivity) eq_refl eq_refl ltac:(done) eq_refl ltac:(by vm_compute)) as H.
  cbv zeta in H. fold (watched_run range_forward) in H.
  destruct (watched_run range_forward watched_world) as [r1 w1].
  destruct H as (ev1 & m1 & -> & Hrun & Hm1 & _ & Hnext).
  destruct Hrun as (Hh1 & _ & _ & Hrun). rewrite decide_False in Hrun.
  2:{ intros Hp%Permutation_length_1. by vm_compute in Hp. }
  specialize (Hnext (demo_check ["192.0.2.2"]) w1 Hh1 Hm1 eq_refl). cbv zeta in Hnext.
  fold (watched_run range_backward) in Hnext. cbn [snd fst].
  destruct (watched_run range_backward w1) as [r2 w2]. destruct Hnext as (ev2 & -> & H2).
  rewrite decide_True in H2 by (apply (bool_decide_unpack _); vm_compute; done).
  exists ev1, ev2. split_and!; try done; [apply Hrun|apply H2..].
Defined.

(** With two value sets that tie, one and the same check is observed as a change
    by every run that happens to visit its map in the other order. *)
Definition tied_check : Check :=
  mkCheck "c1" "a.example" "A" 0 split_results (@buildSummary range_forward split_results).

Example tied_alerts :
  let run R := RunByID (R := R) (CR := observing tied_check) (NO := silent_notifier) "m1" in
  let w1 := (run range_forward watched_world).2 in
  let w2 := (run range_backward w1).2 in
  (λ r, match r with Ok ev => evStatus ev | Err _ => "" end) <$>
    [(run range_backward w1).1; (run range_forward w2).1] =
  [MonitorStatusChanged; MonitorStatusChanged].
Proof. vm_compute. reflexivity. Qed.

Lemma evaluateChange_forgets_witness :
  let m := demo_monitor ["192.0.2.1"] in
  let check := mkCheck "c1" "a.example" "A" 0 [demo_result "r1" StatusTimeout []]
                 (@buildSummary range_forward []) in
  let check2 := demo_check ["198.51.100.7"] in
  let '((m1, ev1), w1) :=
    evaluateChange (R := range_forward) (NO := demo_notifier) m check demo_event demo_world in
  evStatus ev1 = MonitorStatusChanged ∧ evObserved ev1 = [] ∧ mExpected m1 = [] ∧
  let '((m2, e2), _) :=
    evaluateChange (R := range_forward) (NO := demo_notifier) m1 check2 demo_event demo_world in
  evStatus e2 = MonitorStatusOK ∧ evNotified e2 = false ∧
  mExpected m2 = consensus (H := range_forward) check2.
Proof.
  apply (evaluateChange_forgets (R := range_forward) (NO := demo_notifier)
    (demo_monitor ["192.0.2.1"])
    (mkCheck "c1" "a.example" "A" 0 [demo_result "r1" StatusTimeout []]
       (@buildSummary range_forward []))
    (demo_check ["198.51.100.7"]) demo_event demo_event demo_world demo_world); done.
Defined.

Lemma Run_records_witness :
  let w : World (DB string doc) Cache.noopCache Script := mkWorld (mkDB empty_tables []) tt demo_net in
  let CR := checker_runner (D := iana) (U := GoFmt.ascii_only) (R := range_forward)
    (CO := Cache.noop_cache_ops) (CL := demo_client) (J := one_codec) (λ n, n) demo_checker in
  let m := demo_monitor ["192.0.2.1"] in
  let '((m1, ev), w') := Run (R := range_forward) (CR := CR) (NO := demo_notifier) m w in
  okEvent (StorageLaws := sqlite_laws) ev →
  abs_events (sql_view (w_store w)) !! evID ev = None →
  evMonitorID ev = mID m ∧ sql_healthy (w_store w') ∧
  ∃ a, (a = sql_view (w_store w) ∧ m1 = m ∨
        a = set_monitors (sql_view (w_store w))
              (<[mID m := m1]> (abs_monitors (sql_view (w_store w))))) ∧
    sql_view (w_store w') = set_events a (<[evID ev := ev]> (abs_events a)).
Proof.
  apply (Run_records (R := range_forward) (NO := demo_notifier) (StorageLaws0 := sqlite_laws)
    (KR := checker_runner_keeps (D := iana) (U := GoFmt.ascii_only)
       (R := range_forward) (CO := Cache.noop_cache_ops) (CL := demo_client) (J := one_codec)
       (λ n, n) demo_checker)).
  - apply empty_healthy.
  - done.
Defined.
