(* ===== verification/Trace.v ===== *)
(** * Package checker: delegation traces

    [internal/checker/trace.go]: the walk of the delegation chain from the
    root servers down, one non-recursive query at each hop.  The environment
    (network, clock, system resolver) is the class [Env]. *)

From S2P Require Import Prelude.
From S2P Require Import GoString.
From S2P Require Import GoFmt.
From S2P Require Import DnsTypes.
From S2P Require Import NetIP.
From S2P Require Import Config.
From S2P Require Import Env.
From S2P Require Import DnsClient.
From S2P Require Import Checker.

(* src: internal/checker/trace.go rootServers *)
Definition rootServers : list string :=
  ["198.41.0.4"; "199.9.14.201"; "192.33.4.12"; "199.7.91.13"].

(* src: internal/checker/trace.go maxTraceSteps *)
Definition maxTraceSteps : nat := 24.

Section Trace.
Context `{D : DnsConsts} `{U : Unicode}.

(* src: internal/checker/trace.go rcodeToStatus *)
Definition rcodeToStatus (rcode : Z) : string :=
  if (rcode =? RcodeSuccess)%Z then StatusOK
  else if (rcode =? RcodeNameError)%Z then StatusNXDomain
  else if (rcode =? RcodeServerFailure)%Z then StatusServFail
  else if (rcode =? RcodeRefused)%Z then StatusRefused
  else StatusError.

(** A host name as a key of the glue maps. *)
Definition glue_key (name : string) : string := ToLower fold_lower (TrimSuffix name ".").

(** The loop over the additional section: the usable glue addresses, IPv4
    and IPv6.  (The map that merges the two in the source is never read.) *)
(* src: internal/checker/trace.go 143-156 Checker.traceStep *)
Definition add_glue (g : gmap string string * gmap string string) (rr : RR)
    : gmap string string * gmap string string :=
  let '(glueV4, glueV6) := g in
  match rr with
  | RR_A h A =>
      if isPrivateOrLocal (ip_string A) then g
      else (<[glue_key (hName h) := ip_string A]> glueV4, glueV6)
  | RR_AAAA h AAAA =>
      if isPrivateOrLocal (ip_string AAAA) then g
      else (glueV4, <[glue_key (hName h) := ip_string AAAA]> glueV6)
  | _ => g
  end.

(** The first address of a lookup that can be used. *)
(* src: internal/checker/trace.go 187-193 Checker.traceStep *)
Fixpoint first_usable (seen : gset string) (addrs : list IP) : option string :=
  match addrs with
  | [] => None
  | a :: addrs' =>
      if bool_decide (is_Some (To4 a)) && negb (isPrivateOrLocal (ip_string a))
         && bool_decide (¬ ip_string a ∈ seen)
      then Some (ip_string a) else first_usable seen addrs'
  end.

Context {N : Type} `{EN : Env N}.

(** The address that one name server contributes, after [next] and [seen]. *)
(* src: internal/checker/trace.go 175-204 Checker.traceStep *)
Definition next_server (glueV4 glueV6 : gmap string string) (nsName : string)
    (next : list string) (seen : gset string) : M N (option string) :=
  let unseen o := o ≫= λ ip, if decide (ip ∈ seen) then None else Some ip in
  match unseen (glueV4 !! nsName) with
  | Some ip => mret (Some ip)
  | None =>
      addrs ← LookupIPAddr nsName;
      match addrs with
      | Err _ => mret (unseen (glueV6 !! nsName))
      | Ok addrs =>
          match first_usable seen addrs, next with
          | Some ip, _ => mret (Some ip)
          | None, _ :: _ => mret None
          | None, [] => mret (unseen (glueV6 !! nsName))
          end
      end
  end.

(** The loop over the authority section, which builds the next servers:
    [next] in order, [seen] as a set. *)
(* src: internal/checker/trace.go 168-205 Checker.traceStep *)
Fixpoint next_servers (glueV4 glueV6 : gmap string string) (ns : list RR)
    (next : list string) (seen : gset string) : M N (list string) :=
  match ns with
  | [] => mret next
  | RR_NS _ host :: ns' =>
      ip ← next_server glueV4 glueV6 (glue_key host) next seen;
      match ip with
      | Some ip => next_servers glueV4 glueV6 ns' (next ++ [ip]) ({[ip]} ∪ seen)
      | None => next_servers glueV4 glueV6 ns' next seen
      end
  | _ :: ns' => next_servers glueV4 glueV6 ns' next seen
  end.

(** The zone and the name server that a reply is filed under. *)
(* src: internal/checker/trace.go 105-118 Checker.traceStep *)
Definition reply_zone (serverIP : string) (resp : Msg) : string * string :=
  match mNs resp, mAnswer resp with
  | rr :: _, _ =>
      (TrimSuffix (hName (Header rr)) ".",
       match rr with RR_NS _ ns => TrimSuffix ns "." | _ => "" end)
  | [], rr :: _ => (TrimSuffix (hName (Header rr)) ".", serverIP)
  | [], [] => (".", serverIP)
  end.

Definition trace_msg (name : string) (qtypeNum : Z) : Question :=
  mkQuestion name qtypeNum false 4096 false.

(** The exchange over UDP and, after any error, over TCP; and its duration. *)
(* src: internal/checker/trace.go 83-97 Checker.traceStep *)
Definition trace_exchange (cfg : DNSConfig) (msg : Question) (serverIP : string)
    : M N (result Msg * Z) :=
  let server := JoinHostPort serverIP "53" in
  start ← Now;
  r ← ExchangeContext (mkDnsClientCfg "udp" (QueryTimeout cfg)) msg server;
  t ← Now;
  match r.1 with
  | Ok resp => mret (Ok resp, Milliseconds (t - start)%Z)
  | Err _ =>
      r ← ExchangeContext (mkDnsClientCfg "tcp" (QueryTimeout cfg)) msg server;
      t ← Now;
      mret (r.1, Milliseconds (t - start)%Z)
  end.

(** The step, the next servers, whether the walk is done, and a hard error. *)
(* src: internal/checker/trace.go Checker.traceStep *)
Definition traceStep (cfg : DNSConfig) (serverIP name : string) (qtypeNum : Z) (qtype : string)
    : M N (TraceStep * list string * bool * option error) :=
  r ← trace_exchange cfg (trace_msg name qtypeNum) serverIP;
  let '(resp, dur) := r in
  match resp with
  | Err err =>
      mret (mkTraceStep "" "" serverIP qtype [] [] [] false dur StatusError (Error err),
            [], false, Some err)
  | Ok resp =>
      let '(zone, nameserver) := reply_zone serverIP resp in
      let ts := mkTraceStep zone nameserver serverIP qtype
        (RRToAnswer <$> mAnswer resp) (RRToAnswer <$> mNs resp)
        (RRToAnswer <$> filter not_opt (mExtra resp))
        (Authoritative resp) dur (rcodeToStatus (Rcode resp)) "" in
      if Authoritative resp then mret (ts, [], true, None) else
      let '(glueV4, glueV6) := foldl add_glue (∅, ∅) (mExtra resp) in
      next ← next_servers glueV4 glueV6 (mNs resp) [] ∅;
      mret (ts, next, false, None)
  end.

(** [steps] more steps are allowed. *)
(* src: internal/checker/trace.go 49-62 Checker.Trace *)
Fixpoint trace_loop (steps : nat) (cfg : DNSConfig) (servers : list string)
    (name : string) (qtypeNum : Z) (qtype : string) : M N (list TraceStep) :=
  match steps, servers with
  | S steps', server :: _ =>
      s ← traceStep cfg server name qtypeNum qtype;
      let '(ts, next, done, err) := s in
      if bool_decide (is_Some err) || done then mret [ts] else
      match next with
      | [] => mret [ts]
      | _ => rest ← trace_loop steps' cfg next name qtypeNum qtype; mret (ts :: rest)
      end
  | _, _ => mret []
  end.

(* src: internal/checker/trace.go Checker.Trace *)
Definition Checker_Trace (cfg : DNSConfig) (name qtype : string) : M N (result TraceResult) :=
  if String.eqb name "" then mret (Err (Errorf "name is required"))
  else if negb (bool_decide (is_Some (ParseType qtype))) then
    mret (Err (Errorf ("unsupported record type: " +:+ qtype)))
  else
  let name := if HasSuffix name "." then name else name +:+ "." in
  let qtypeNum := ParseType0 qtype in
  steps ← trace_loop maxTraceSteps cfg rootServers name qtypeNum qtype;
  mret (Ok (mkTraceResult (TrimSuffix name ".") qtype steps)).

End Trace.

(** * Lemmas *)

Section Lemmas.
Context `{D : DnsConsts} `{U : Unicode}.

Definition public (ip : string) : Prop := isPrivateOrLocal ip = false.

Definition glue_public (g : gmap string string * gmap string string) : Prop :=
  map_Forall (λ _ ip, public ip) g.1 ∧ map_Forall (λ _ ip, public ip) g.2.

Lemma add_glue_public g rr : glue_public g → glue_public (add_glue g rr).
Proof.
  destruct g as [g4 g6]. intros [H4 H6]. unfold add_glue.
  destruct rr; try done; (destruct (isPrivateOrLocal _) eqn:E; [done|]); split; simpl in *;
    try done; by apply map_Forall_insert_2.
Qed.

Lemma fold_glue_public g rrs : glue_public g → glue_public (foldl add_glue g rrs).
Proof. revert g. induction rrs; simpl; auto using add_glue_public. Qed.

Lemma first_usable_spec seen addrs ip :
  first_usable seen addrs = Some ip → public ip ∧ ¬ ip ∈ seen.
Proof.
  induction addrs as [|a addrs IH]; simpl; [done|].
  destruct (_ && _) eqn:E; [|done]. intros [= <-].
  apply andb_true_iff in E as [E Hs%bool_decide_eq_true_1].
  apply andb_true_iff in E as [_ Hp%negb_true_iff]. done.
Qed.

(** What holds of the servers collected so far. *)
Definition next_ok (next : list string) (seen : gset string) : Prop :=
  Forall public next ∧ NoDup next ∧ ∀ ip, ip ∈ next → ip ∈ seen.

Lemma next_ok_snoc next seen ip :
  next_ok next seen → public ip → ¬ ip ∈ seen → next_ok (next ++ [ip]) ({[ip]} ∪ seen).
Proof.
  intros (HF & HN & Hs) Hp Hn. split_and!.
  - apply Forall_app. by repeat constructor.
  - apply NoDup_app. split_and!; [done| |by apply NoDup_singleton].
    intros x Hx Hx'. apply list_elem_of_singleton in Hx' as ->. auto.
  - intros x [Hx|Hx]%elem_of_app; [set_solver|].
    apply list_elem_of_singleton in Hx as ->. set_solver.
Qed.

Section Step.
Context {N : Type} `{EN : Env N}.

Lemma next_server_ok g4 g6 nsName next seen (n : N) ip :
  glue_public (g4, g6) → (next_server g4 g6 nsName next seen n).1 = Some ip →
  public ip ∧ ¬ ip ∈ seen.
Proof.
  intros [H4 H6]. simpl in H4, H6.
  assert (∀ g : gmap string string, map_Forall (λ _ ip, public ip) g →
    (g !! nsName ≫= λ ip, if decide (ip ∈ seen) then None else Some ip) = Some ip →
    public ip ∧ ¬ ip ∈ seen) as Hg.
  { intros g Hg. destruct (g !! nsName) as [x|] eqn:E; simpl; [|done].
    case_decide; [done|]. intros [= <-]. split; [by apply (Hg _ _ E)|done]. }
  unfold next_server. cbv [mret M_ret].
  destruct (g4 !! nsName ≫= _) as [x|] eqn:E.
  { simpl. intros [= ->]. by apply (Hg g4). }
  unfold mbind, M_bind. destruct (LookupIPAddr nsName n) as [[addrs|e] n1].
  - destruct (first_usable seen addrs) as [y|] eqn:Eu.
    + simpl. intros [= ->]. by eapply first_usable_spec.
    + destruct next; [by apply (Hg g6)|done].
  - by apply (Hg g6).
Qed.

Lemma next_servers_ok g4 g6 ns next seen (n : N) :
  glue_public (g4, g6) → next_ok next seen →
  let r := (next_servers g4 g6 ns next seen n).1 in Forall public r ∧ NoDup r.
Proof.
  intros Hg. revert next seen n. induction ns as [|rr ns IH]; intros next seen n Hok.
  { by destruct Hok as (? & ? & _). }
  destruct rr; try (by apply (IH _ seen)). simpl. cbv [mbind M_bind].
  pose proof (next_server_ok g4 g6 (glue_key Ns) next seen n) as Hn.
  destruct (next_server _ _ _ _ _ n) as [[ip|] n1]; [|by apply (IH _ seen)].
  destruct (Hn ip Hg eq_refl). apply (IH _ ({[ip]} ∪ seen)). by apply next_ok_snoc.
Qed.

(** One step: the server that was asked, and whom to ask next. *)
Lemma traceStep_spec cfg server name qtypeNum qtype (n : N) :
  let '(ts, next, done, err) := (traceStep cfg server name qtypeNum qtype n).1 in
  tsIP ts = server ∧ Forall public next ∧ NoDup next ∧ done = tsAuthoritative ts ∧
  (is_Some err → tsStatus ts = StatusError ∧ next = []).
Proof.
  unfold traceStep. cbv [mbind M_bind mret M_ret].
  destruct (trace_exchange _ _ _ n) as [[[resp|e] dur] n1].
  - destruct (reply_zone server resp) as [zone nameserver].
    destruct (Authoritative resp) eqn:Ha; simpl.
    { split_and!; try done; by (constructor || intros []). }
    destruct (foldl add_glue (∅, ∅) (mExtra resp)) as [g4 g6] eqn:Hg.
    assert (glue_public (g4, g6)) as Hglue.
    { rewrite <-Hg. apply fold_glue_public. split; apply map_Forall_empty. }
    assert (next_ok [] ∅) as Hnil.
    { split_and!; [constructor|constructor|]. intros ip Hip. by apply elem_of_nil in Hip. }
    pose proof (next_servers_ok g4 g6 (mNs resp) [] ∅ n1 Hglue Hnil) as Hn.
    destruct (next_servers g4 g6 (mNs resp) [] ∅ n1) as [next n2]. simpl.
    destruct Hn as [? ?].
    by split_and!.
  - simpl. by split_and!; try constructor.
Qed.

(** A walk from some servers: every step asks the first server of those, or
    one found on the way, and only the last step may be final. *)
Lemma trace_loop_spec cfg name qtypeNum qtype steps servers (n : N) :
  let r := (trace_loop steps cfg servers name qtypeNum qtype n).1 in
  length r ≤ steps ∧
  (0 < steps → servers ≠ [] → ∃ ts rest, r = ts :: rest ∧ head servers = Some (tsIP ts) ∧
     Forall (λ ts, public (tsIP ts)) rest) ∧
  (∀ i ts, r !! i = Some ts → S i < length r → tsAuthoritative ts = false).
Proof.
  revert servers n. induction steps as [|steps IH]; intros servers n; simpl.
  { split_and!; [lia|lia|done]. }
  destruct servers as [|server servers]; simpl; [split_and!; [lia|done|done]|].
  cbv [mbind M_bind mret M_ret].
  pose proof (traceStep_spec cfg server name qtypeNum qtype n) as Hs.
  destruct (traceStep _ _ _ _ _ n) as [[[[ts next] done] err] n1]. simpl in Hs.
  destruct Hs as (Hip & Hpub & _ & Hdone & _).
  destruct (bool_decide (is_Some err) || done) eqn:Hstop; simpl.
  { split_and!; [lia|intros _ _; exists ts, []; by subst|]. intros [|i] ? ?; simpl; [lia|done]. }
  destruct next as [|s1 next]; simpl.
  { split_and!; [lia|intros _ _; exists ts, []; by subst|]. intros [|i] ? ?; simpl; [lia|done]. }
  specialize (IH (s1 :: next) n1).
  destruct (trace_loop steps cfg (s1 :: next) _ _ _ n1) as [rest n2]. simpl in IH |- *.
  destruct IH as (Hlen & Hhead & Hauth). split_and!; [lia| |].
  - intros _ _. exists ts, rest. split_and!; [done|by rewrite Hip|].
    destruct steps as [|steps]; [destruct rest; [constructor|simpl in Hlen; lia]|].
    destruct (Hhead ltac:(lia) ltac:(done)) as (t1 & rest' & -> & Ht1 & Hrest).
    constructor; [|done]. injection Ht1 as <-. by apply Forall_cons in Hpub as [? _].
  - intros [|i] t Ht Hi; simpl in *.
    + injection Ht as <-. rewrite <-Hdone. by apply orb_false_iff in Hstop as [_ ?].
    + apply (Hauth i t Ht). lia.
Qed.

End Step.

(** *** What is sent *)

(** A message of a trace to a server. *)
Definition trace_contact (name : string) (qtypeNum : Z) (ip : string)
    (m : DnsClientCfg * Question * string) : Prop :=
  m.1.2 = trace_msg name qtypeNum ∧ m.2 = JoinHostPort ip "53" ∧
  (Net m.1.1 = "udp" ∨ Net m.1.1 = "tcp").

Lemma next_servers_script g4 g6 ns next seen (s : Script) :
  (next_servers g4 g6 ns next seen s).2 = s.
Proof.
  revert next seen. induction ns as [|rr ns IH]; intros next seen; [done|].
  destruct rr; try apply IH. simpl. cbv [mbind M_bind].
  assert ((next_server g4 g6 (glue_key Ns) next seen s).2 = s) as Hs.
  { unfold next_server. destruct (_ ≫= _); [done|]. unfold mbind, M_bind. simpl.
    destruct (sc_hosts s !! _) as [l|]; [|done]. by destruct (first_usable seen l), next. }
  destruct (next_server _ _ _ _ _ s) as [[ip|] s1]; simpl in Hs; subst; apply IH.
Qed.

Lemma trace_exchange_script cfg name qtypeNum server (s : Script) :
  ∃ new, sc_sent (trace_exchange cfg (trace_msg name qtypeNum) server s).2 = sc_sent s ++ new ∧
    length new ≤ 2 ∧ Forall (trace_contact name qtypeNum server) new.
Proof.
  unfold trace_exchange. cbv [mbind M_bind mret M_ret]. cbn -[JoinHostPort].
  set (m := λ p, (mkDnsClientCfg p (QueryTimeout cfg), trace_msg name qtypeNum,
                  JoinHostPort server "53")).
  assert (∀ p, p = "udp" ∨ p = "tcp" → trace_contact name qtypeNum server (m p)) as Hm by done.
  destruct (default no_reply (head (sc_replies s))) as [[resp|e] rtt]; cbn -[JoinHostPort].
  - exists [m "udp"]. split; [done|]. split; [simpl; lia|].
    apply Forall_cons_2; [auto|constructor].
  - exists [m "udp"; m "tcp"]. rewrite <-app_assoc. split; [done|]. split; [simpl; lia|].
    do 2 (apply Forall_cons_2; [auto|]). constructor.
Qed.

Lemma traceStep_script cfg server name qtypeNum qtype (s : Script) :
  ∃ new, sc_sent (traceStep cfg server name qtypeNum qtype s).2 = sc_sent s ++ new ∧
    length new ≤ 2 ∧ Forall (trace_contact name qtypeNum server) new.
Proof.
  destruct (trace_exchange_script cfg name qtypeNum server s) as (new & Hs & Hn).
  exists new. split; [|done]. unfold traceStep. cbv [mbind M_bind mret M_ret].
  destruct (trace_exchange _ _ _ s) as [[[resp|e] dur] s1]; simpl in Hs; [|done].
  destruct (reply_zone server resp). destruct (Authoritative resp); [done|].
  destruct (foldl _ _ _) as [g4 g6].
  pose proof (next_servers_script g4 g6 (mNs resp) [] ∅ s1) as Hnx.
  destruct (next_servers g4 g6 (mNs resp) [] ∅ s1) as [next s9]. simpl in Hnx. by subst s9.
Qed.

Lemma trace_loop_script cfg name qtypeNum qtype steps servers (s : Script) :
  ∃ new, sc_sent (trace_loop steps cfg servers name qtypeNum qtype s).2 = sc_sent s ++ new ∧
    length new ≤ 2 * steps ∧
    Forall (λ m, ∃ ip, (head servers = Some ip ∨ public ip) ∧
                       trace_contact name qtypeNum ip m) new.
Proof.
  revert servers s. induction steps as [|steps IH]; intros servers s.
  { exists []. by rewrite app_nil_r. }
  destruct servers as [|server servers]; simpl.
  { exists []. rewrite app_nil_r. split_and!; [done|simpl; lia|constructor]. }
  cbv [mbind M_bind mret M_ret].
  destruct (traceStep_script cfg server name qtypeNum qtype s) as (new & Hs & Hlen & Hall).
  pose proof (traceStep_spec cfg server name qtypeNum qtype s) as Hsp.
  destruct (traceStep _ _ _ _ _ s) as [[[[ts next] done] err] s1]. simpl in Hs, Hsp.
  destruct Hsp as (_ & Hpub & _).
  assert (Forall (λ m, ∃ ip, (Some server = Some ip ∨ public ip) ∧
    trace_contact name qtypeNum ip m) new) as Hall'.
  { eapply Forall_impl; [apply Hall|]. intros m Hm. exists server. by split; [left|]. }
  destruct (bool_decide (is_Some err) || done); [exists new; split_and!; [done|lia|done]|].
  destruct next as [|s2 next]; [exists new; split_and!; [done|lia|done]|].
  destruct (IH (s2 :: next) s1) as (new' & Hs' & Hlen' & Hall2).
  destruct (trace_loop steps cfg (s2 :: next) _ _ _ s1) as [rest s3]. simpl in Hs' |- *.
  exists (new ++ new'). rewrite Hs', Hs, <-app_assoc. split_and!; [done|rewrite length_app; lia|].
  apply Forall_app. split; [done|]. eapply Forall_impl; [apply Hall2|].
  intros m (ip & [Hip|Hip] & Hm); exists ip; (split; [right|done]); [|done].
  simpl in Hip. injection Hip as <-. by apply Forall_cons in Hpub as [? _].
Qed.

End Lemmas.


(** * Properties *)

(** C23: a trace fails only for an empty name or an unsupported type, without
    contacting anybody; otherwise it ends after at most 24 steps, the first of
    which asks a root server and each later one an address that is not private
    or local, and every step but the last is a referral. *)
Theorem Trace_walks `{D : DnsConsts} `{U : Unicode} {N} `{EN : Env N} (cfg : DNSConfig)
    (name qtype : string) (n : N) :
  let '(r, n') := Checker_Trace cfg name qtype n in
  match r with
  | Err _ => n' = n ∧ (name = "" ∨ ParseType qtype = None)
  | Ok tr =>
      trType tr = qtype ∧
      (∃ ts rest, trSteps tr = ts :: rest ∧ tsIP ts = "198.41.0.4" ∧
         Forall (λ ts, isPrivateOrLocal (tsIP ts) = false) rest) ∧
      length (trSteps tr) ≤ 24 ∧
      (∀ i ts, trSteps tr !! i = Some ts → S i < length (trSteps tr) → tsAuthoritative ts = false)
  end.
Proof.
  unfold Checker_Trace. generalize (@ParseType D). intros parse.
  destruct (String.eqb_spec name "") as [|Hn]; [by split; [|left]|].
  case_bool_decide as Ht; cbn [negb]; [|split; [done|right; by apply eq_None_not_Some]].
  cbv [mbind M_bind mret M_ret].
  set (name' := if HasSuffix name "." then name else _).
  pose proof (trace_loop_spec cfg name' (ParseType0 qtype) qtype maxTraceSteps rootServers n) as Hs.
  destruct (trace_loop _ _ _ _ _ _ n) as [steps n']. simpl in Hs |- *.
  destruct Hs as (Hlen & Hhead & Hauth). split_and!; [done| |done|done].
  destruct (Hhead ltac:(unfold maxTraceSteps; lia) ltac:(done)) as (ts & rest & -> & Hip & Hr).
  exists ts, rest. injection Hip as <-. done.
Qed.

(** C22: whatever the servers answer, a trace sends at most 48 messages, all of
    them the same non-recursive question, over UDP or TCP, to port 53 of the
    first root server or of an address that is not private or local. *)
Theorem Trace_contacts `{D : DnsConsts} `{U : Unicode} (cfg : DNSConfig) (name qtype : string)
    (s : Script) :
  ∃ new, sc_sent (Checker_Trace cfg name qtype s).2 = sc_sent s ++ new ∧ length new ≤ 48 ∧
    Forall (λ m, ∃ ip, (ip = "198.41.0.4" ∨ isPrivateOrLocal ip = false) ∧
      m.2 = JoinHostPort ip "53" ∧ (Net m.1.1 = "udp" ∨ Net m.1.1 = "tcp") ∧
      m.1.2 = mkQuestion (if HasSuffix name "." then name else name +:+ ".")
                (ParseType0 qtype) false 4096 false) new.
Proof.
  unfold Checker_Trace. generalize (@ParseType D). intros parse.
  destruct (String.eqb name ""); [exists []; by rewrite app_nil_r; repeat split; [simpl; lia|]|].
  destruct (negb _); [exists []; by rewrite app_nil_r; repeat split; [simpl; lia|]|].
  cbv [mbind M_bind mret M_ret].
  set (name' := if HasSuffix name "." then name else _).
  destruct (trace_loop_script cfg name' (ParseType0 qtype) qtype maxTraceSteps rootServers s)
    as (new & Hs & Hlen & Hall).
  destruct (trace_loop _ _ _ _ _ _ s) as [steps s']. exists new. split_and!; [done|done|].
  eapply Forall_impl; [apply Hall|]. intros m (ip & Hip & Hq & Hsrv & Hnet). exists ip.
  split_and!; try done. destruct Hip as [[= <-]|]; [by left|by right].
Qed.
