(* ===== verification/Stream.v ===== *)
(** * Package checker: streaming checks

    [internal/checker/stream.go]: the check whose results are pushed to a
    channel as they arrive.  The goroutines, the two channels, the consumer
    and the cancellation of the context are a transition system: an action
    ([action]) takes a state ([sstate]) to the next one, when it is enabled.

    A goroutine waits for the semaphore, runs its query, sends the result (or
    gives up when the context is cancelled), appends it under the mutex and
    ends.  The main goroutine waits for all of them, checks the context, saves
    and sends the summary, also when the save fails: it passes the context to
    the save and drops its error, so that a cancellation between the check of
    the context and the end of the save can lose the check.  The consumer
    receives from the channel; it reads on as long as the context is not
    cancelled. *)

From S2P Require Import Prelude.
From S2P Require Import GoString.
From S2P Require Import GoFmt.
From S2P Require Import DnsTypes.
From S2P Require Import Permalink.
From S2P Require Import Config.
From S2P Require Import Resolvers.
From S2P Require Import Env.
From S2P Require Import Cache.
From S2P Require Import DnsClient.
From S2P Require Import Summary.
From S2P Require Import Sched.
From S2P Require Import Storage.
From S2P Require Import Checker.
From S2P Require Import FanOut.
From stdpp Require Import relations.

(* src: internal/checker/stream.go StreamRequest *)
Record StreamRequest := mkStreamRequest {
  srName : string;
  srType : string;
  srResolverIDs : list string;
  srCustomResolvers : list Resolver;
  srAllowPrivate : bool
}.

(** The capacity of the results channel. *)
Definition resultCap : nat := 64.

Section Stream.
Context `{D : DnsConsts} `{U : Unicode} `{R : MapRange}.
Context {S C N : Type} `{SO : StorageOps S} `{CO : CacheOps C} `{EN : Env N} `{CL : ClientOps N}.
Context `{J : Codec string ResolverResult}.

Abbreviation world := (World S C N).

(** Where a goroutine is.  A goroutine that has ended remembers whether it
    appended its result ([None]: it was cancelled before it could send). *)
Inductive stask :=
| SWaiting (r : Resolver)
| SQuerying (p : Prog world ResolverResult)
| SSending (res : ResolverResult)
| SAppending (res : ResolverResult)
| SDone (res : option ResolverResult).

(** Where the main goroutine is: in [wg.Wait], past the check of the context,
    or at its end with what it sent on the done channel.  The flag says that
    the store was asked to save what was to be saved; it is [false] when the
    save has failed because the context was cancelled. *)
Inductive smain :=
| MWaiting
| MSummarising
| MEnded (done : option (CheckSummary * bool)).

Record sstate := mkSState {
  s_tasks : list stask;
  s_world : world;
  s_chan : list ResolverResult;      (* buffered in the results channel *)
  s_received : list ResolverResult;  (* read by the consumer *)
  s_results : list ResolverResult;   (* the slice under the mutex *)
  s_cancelled : bool;
  s_main : smain
}.

(** Does the goroutine hold a slot of the semaphore? *)
Definition holds_slot (t : stask) : bool :=
  match t with SQuerying _ | SSending _ | SAppending _ => true | _ => false end.

Fixpoint slots (ts : list stask) : nat :=
  match ts with
  | [] => 0
  | t :: ts' => (if holds_slot t then 1 else 0) + slots ts'
  end.

Definition is_done (t : stask) : bool := match t with SDone _ => true | _ => false end.

(** [GiveUp i] is the other branch of the [select] of goroutine [i], and
    [Abandon] the main goroutine whose save fails with the context. *)
Inductive action := Task (i : nat) | GiveUp (i : nat) | Receive | Cancel | Main | Abandon.

Definition set_task (i : nat) (t : stask) (s : sstate) : sstate :=
  mkSState (<[i := t]> (s_tasks s)) (s_world s) (s_chan s) (s_received s) (s_results s)
    (s_cancelled s) (s_main s).

(** The check that is saved and its summary, at time [t]. *)
Definition stream_check (id : string) (req : StreamRequest) (t : Time)
    (results : list ResolverResult) : Check :=
  mkCheck id (srName req) (srType req) t results (buildSummary results).

(** The body of a goroutine. *)
(* src: internal/checker/stream.go 66-86 Checker.Stream *)
Definition task_action (c : Checker) (req : StreamRequest) (i : nat) (s : sstate)
    : option sstate :=
  match s_tasks s !! i with
  | Some (SWaiting r) =>
      if decide (slots (s_tasks s) < concurrency c) then
        Some (set_task i (SQuerying (queryWithCache c r (srName req) (srType req) true)) s)
      else None
  | Some (SQuerying (Return res)) => Some (set_task i (SSending res) s)
  | Some (SQuerying (Act m k)) =>
      let '(x, w) := m (s_world s) in
      Some (mkSState (<[i := SQuerying (k x)]> (s_tasks s)) w (s_chan s) (s_received s)
              (s_results s) (s_cancelled s) (s_main s))
  | Some (SSending res) =>
      if decide (length (s_chan s) < resultCap) then
        Some (mkSState (<[i := SAppending res]> (s_tasks s)) (s_world s) (s_chan s ++ [res])
                (s_received s) (s_results s) (s_cancelled s) (s_main s))
      else None
  | Some (SAppending res) =>
      Some (mkSState (<[i := SDone (Some res)]> (s_tasks s)) (s_world s) (s_chan s)
              (s_received s) (s_results s ++ [res]) (s_cancelled s) (s_main s))
  | _ => None
  end.

(** The end of the main goroutine: the check of the context, and then the
    summary and the save, which may fail once the context is cancelled. *)
(* src: internal/checker/stream.go 91-115 Checker.Stream *)
Definition main_action (req : StreamRequest) (save : bool) (id : string) (abandon : bool)
    (s : sstate) : option sstate :=
  let ends w m := mkSState (s_tasks s) w (s_chan s) (s_received s) (s_results s) (s_cancelled s) m in
  match s_main s with
  | MWaiting =>
      if forallb is_done (s_tasks s) && negb abandon then
        Some (ends (s_world s) (if s_cancelled s then MEnded None else MSummarising))
      else None
  | MSummarising =>
      let summary := buildSummary (s_results s) in
      if abandon then
        if save && s_cancelled s then
          let '(_, w) := now (s_world s) in Some (ends w (MEnded (Some (summary, false))))
        else None
      else if save then
        let '(t, w) := now (s_world s) in
        let '(_, w) := on_store (SaveCheck (stream_check id req t (s_results s))) w in
        Some (ends w (MEnded (Some (summary, true))))
      else Some (ends (s_world s) (MEnded (Some (summary, true))))
  | MEnded _ => None
  end.

Definition stream_action (c : Checker) (req : StreamRequest) (save : bool) (id : string)
    (a : action) (s : sstate) : option sstate :=
  match a with
  | Task i => task_action c req i s
  | GiveUp i =>
      match s_tasks s !! i with
      | Some (SSending _) => if s_cancelled s then Some (set_task i (SDone None) s) else None
      | _ => None
      end
  | Receive =>
      match s_chan s with
      | res :: ch => Some (mkSState (s_tasks s) (s_world s) ch (s_received s ++ [res])
                             (s_results s) (s_cancelled s) (s_main s))
      | [] => None
      end
  | Cancel =>
      if s_cancelled s then None
      else Some (mkSState (s_tasks s) (s_world s) (s_chan s) (s_received s) (s_results s)
                   true (s_main s))
  | Main => main_action req save id false s
  | Abandon => main_action req save id true s
  end.

Definition stream_step (c : Checker) (req : StreamRequest) (save : bool) (id : string)
    (s s' : sstate) : Prop := ∃ a, stream_action c req save id a s = Some s'.

Definition stream_start (l : list Resolver) (w : world) : sstate :=
  mkSState (SWaiting <$> l) w [] [] [] false MWaiting.

Definition current_world : M world world := λ w, (w, w).

(** The synchronous part: the number of resolvers, the identifier and the
    state in which the goroutines start. *)
(* src: internal/checker/stream.go Checker.Stream *)
Definition Checker_Stream (c : Checker) (req : StreamRequest)
    : M world (result (nat * string * sstate)) :=
  let checkReq := mkCheckRequest (srName req) (srType req) (srResolverIDs req)
                    (srCustomResolvers req) false (srAllowPrivate req) false in
  match validateRequest checkReq with
  | Some err => mret (Err err)
  | None =>
      list ← buildResolverList c checkReq;
      match list with
      | Err err => mret (Err err)
      | Ok resolverList =>
          t ← now;
          w ← current_world;
          mret (Ok (length resolverList, Permalink.NewID (srName req) (srType req) t,
                    stream_start resolverList w))
      end
  end.

(** * Lemmas *)

Lemma slots_insert (ts : list stask) i t t' :
  ts !! i = Some t →
  slots (<[i := t']> ts) + (if holds_slot t then 1 else 0) =
  slots ts + (if holds_slot t' then 1 else 0).
Proof.
  revert i. induction ts as [|u ts IH]; intros [|i] Hi; simplify_eq/=; [lia|].
  specialize (IH i Hi). lia.
Qed.

(** The result that a goroutine has appended, and the one it has sent. *)
Definition appended (t : stask) : option ResolverResult :=
  match t with SDone res => res | _ => None end.

Definition sent (t : stask) : option ResolverResult :=
  match t with SAppending res => Some res | SDone res => res | _ => None end.

(** Replacing one element of a list changes its image by one element. *)
Lemma omap_insert_perm {A B} (f : A → option B) (l : list A) i x y :
  l !! i = Some x →
  option_list (f x) ++ omap f (<[i := y]> l) ≡ₚ option_list (f y) ++ omap f l.
Proof.
  revert i. induction l as [|a l IH]; intros [|i] Hi; simplify_eq/=.
  - destruct (f x), (f y); simpl; try done. apply Permutation_swap.
  - specialize (IH i Hi). destruct (f a) as [b|]; simpl; [|done].
    rewrite <-!Permutation_middle. by rewrite IH.
Qed.

Section Invariant.
Variables (c : Checker) (req : StreamRequest) (save : bool) (id : string).
Variables (l : list Resolver) (w0 : world).
(** What the client's answers satisfy. *)
Variable P : Resolver → string → Z → ResolverResult → Prop.
Hypothesis HP : client_ensures P.

Definition answer_of (r : Resolver) (res : ResolverResult) : Prop :=
  P r (srName req) (ParseType0 (srType req)) res.

(** The queries of a stream leave the cache and the store as they are. *)
Definition untouched (w : world) : Prop := w_store w = w_store w0 ∧ w_cache w = w_cache w0.

(** A goroutine works for its resolver; it gives up only when cancelled. *)
Definition stask_ok (cancelled : bool) (r : Resolver) (t : stask) : Prop :=
  match t with
  | SWaiting r' => r' = r
  | SQuerying p => safe untouched (answer_of r) p
  | SSending res | SAppending res | SDone (Some res) => answer_of r res
  | SDone None => cancelled = true
  end.

(** The world after the save. *)
Definition saved_world (results : list ResolverResult) (w : world) : Prop :=
  ∃ w1, untouched w1 ∧
    if save then
      w = (on_store (SaveCheck (stream_check id req (now w1).1 results)) (now w1).2).2
    else w = w1.

Definition main_ok (s : sstate) : Prop :=
  match s_main s with
  | MWaiting => untouched (s_world s)
  | MSummarising =>
      untouched (s_world s) ∧ ∃ rs, Forall2 answer_of l rs ∧ s_results s ≡ₚ rs ∧
        Forall (λ t, is_done t = true) (s_tasks s)
  | MEnded None => untouched (s_world s) ∧ s_cancelled s = true ∧
        Forall (λ t, is_done t = true) (s_tasks s)
  | MEnded (Some (summary, saved)) =>
      Forall (λ t, is_done t = true) (s_tasks s) ∧
      (∃ rs, Forall2 answer_of l rs ∧ s_results s ≡ₚ rs) ∧
      summary = buildSummary (s_results s) ∧
      if saved : bool then saved_world (s_results s) (s_world s)
      else untouched (s_world s) ∧ save = true ∧ s_cancelled s = true
  end.

Definition stream_inv (s : sstate) : Prop :=
  Forall2 (stask_ok (s_cancelled s)) l (s_tasks s) ∧
  slots (s_tasks s) ≤ concurrency c ∧
  length (s_chan s) ≤ resultCap ∧
  s_results s ≡ₚ omap appended (s_tasks s) ∧
  s_received s ++ s_chan s ≡ₚ omap sent (s_tasks s) ∧
  main_ok s.

Lemma stask_ok_mono b r t : stask_ok b r t → stask_ok true r t.
Proof. by destruct t as [| | | |[]]. Qed.

Lemma stream_start_inv : stream_inv (stream_start l w0).
Proof.
  split_and!; simpl.
  - apply Forall2_fmap_r, Forall_Forall2_diag, Forall_true. done.
  - assert (slots (SWaiting <$> l) = 0) as -> by (induction l; auto). lia.
  - unfold resultCap. lia.
  - induction l; auto.
  - induction l; auto.
  - split; done.
Qed.

(** Replacing goroutine [i] keeps the parts of the invariant that speak of
    the goroutines. *)
Lemma tasks_insert b (ts : list stask) i t t' r :
  Forall2 (stask_ok b) l ts → ts !! i = Some t → l !! i = Some r → stask_ok b r t' →
  Forall2 (stask_ok b) l (<[i := t']> ts).
Proof.
  intros HF Hi Hr Ht. rewrite <-(list_insert_id l i r Hr). by apply Forall2_insert.
Qed.

Lemma not_done_main s i t :
  main_ok s → s_tasks s !! i = Some t → is_done t = false →
  s_main s = MWaiting ∧ untouched (s_world s).
Proof.
  intros Hm Hi Ht. unfold main_ok in Hm.
  assert (¬ Forall (λ t, is_done t = true) (s_tasks s)) as Hn.
  { intros HF. rewrite Forall_lookup in HF. specialize (HF _ _ Hi). congruence. }
  destruct (s_main s) as [| |[[x saved]|]]; [done|..]; exfalso; apply Hn.
  - by destruct Hm as (_ & rs & _ & _ & ?).
  - by destruct Hm as (? & _).
  - by destruct Hm as (_ & _ & ?).
Qed.

Lemma all_done_results (s : sstate) :
  Forall2 (stask_ok false) l (s_tasks s) → Forall (λ t, is_done t = true) (s_tasks s) →
  Forall2 answer_of l (omap appended (s_tasks s)).
Proof.
  intros HF Hd. revert Hd. induction HF as [|r t l' ts Ht HF IH]; intros Hd; [constructor|].
  apply Forall_cons in Hd as [Hd1 Hd2].
  destruct t as [| | | |[res|]]; try done. simpl. constructor; auto.
Qed.

Lemma main_ok_frame s s' :
  main_ok s → s_main s = MWaiting → s_main s' = MWaiting → untouched (s_world s') → main_ok s'.
Proof. unfold main_ok. by intros _ _ ->. Qed.

(** A move of goroutine [i] that neither sends nor appends. *)
Lemma move_inv s i t t' r w :
  stream_inv s → s_tasks s !! i = Some t → l !! i = Some r → is_done t = false →
  stask_ok (s_cancelled s) r t' → untouched w →
  slots (<[i := t']> (s_tasks s)) ≤ concurrency c →
  appended t = appended t' → sent t = sent t' →
  stream_inv (mkSState (<[i := t']> (s_tasks s)) w (s_chan s) (s_received s) (s_results s)
                (s_cancelled s) (s_main s)).
Proof.
  intros (HF & Hsl & Hch & Hres & Hrec & Hm) Hi Hr Hd Ht' Hw Hsl' Ha Hs.
  destruct (not_done_main s i t Hm Hi Hd) as [Hmain _].
  pose proof (omap_insert_perm appended (s_tasks s) i t t' Hi) as Hpa.
  pose proof (omap_insert_perm sent (s_tasks s) i t t' Hi) as Hps.
  rewrite Ha in Hpa. rewrite Hs in Hps. apply Permutation_app_inv_l in Hpa, Hps.
  split_and!; simpl; [by eapply tasks_insert|done|done|by rewrite Hpa|by rewrite Hps|].
  by eapply main_ok_frame.
Qed.

Lemma task_action_inv i s s' :
  stream_inv s → task_action c req i s = Some s' → stream_inv s'.
Proof.
  intros Hinv Hs. pose proof Hinv as (HF & Hsl & Hch & Hres & Hrec & Hm).
  unfold task_action in Hs. destruct (s_tasks s !! i) as [t|] eqn:Hi; [|done].
  destruct (Forall2_lookup_r _ _ _ _ _ HF Hi) as (r & Hr & Ht).
  assert (is_done t = false → s_main s = MWaiting ∧ untouched (s_world s)) as Hmain
    by (intros Hd; by eapply not_done_main).
  destruct t as [r'|[res|X m k]|res|res|res]; try done; simpl in Ht;
    destruct (Hmain eq_refl) as [Hmw Hw].
  - case_decide as Hcap; [|done]. injection Hs as <-. subst r'.
    apply (move_inv s i (SWaiting r) _ r); try done.
    + by apply queryWithCache_live.
    + pose proof (slots_insert _ i _ (SQuerying (queryWithCache c r (srName req) (srType req) true)) Hi).
      simpl in *. lia.
  - injection Hs as <-. apply (move_inv s i (SQuerying (Return res)) _ r); try done.
    pose proof (slots_insert _ i _ (SSending res) Hi). simpl in *. lia.
  - destruct (Ht _ Hw) as [Hw' Hk]. destruct (m (s_world s)) as [x w]. injection Hs as <-.
    apply (move_inv s i (SQuerying (Act m k)) _ r); try done.
    pose proof (slots_insert _ i _ (SQuerying (k x)) Hi). simpl in *. lia.
  - case_decide as Hcap; [|done]. injection Hs as <-.
    pose proof (omap_insert_perm appended (s_tasks s) i _ (SAppending res) Hi) as Hpa.
    pose proof (omap_insert_perm sent (s_tasks s) i _ (SAppending res) Hi) as Hps.
    pose proof (slots_insert _ i _ (SAppending res) Hi). simpl in *.
    split_and!; simpl; [by eapply tasks_insert|lia|rewrite length_app; simpl; lia|
      by rewrite Hpa|by rewrite Hps, app_assoc, Hrec, Permutation_app_comm|
      by eapply main_ok_frame].
  - injection Hs as <-.
    pose proof (omap_insert_perm appended (s_tasks s) i _ (SDone (Some res)) Hi) as Hpa.
    pose proof (omap_insert_perm sent (s_tasks s) i _ (SDone (Some res)) Hi) as Hps.
    pose proof (slots_insert _ i _ (SDone (Some res)) Hi). simpl in *.
    apply Permutation_cons_inv in Hps.
    split_and!; simpl; [by eapply tasks_insert|lia|done|
      by rewrite Hpa, Hres, Permutation_app_comm|by rewrite Hps|by eapply main_ok_frame].
Qed.

Lemma main_action_inv abandon s s' :
  stream_inv s → main_action req save id abandon s = Some s' → stream_inv s'.
Proof.
  intros (HF & Hsl & Hch & Hres & Hrec & Hm) Hs. unfold main_action in Hs. unfold main_ok in Hm.
  destruct (s_main s) as [| |[[x saved]|]] eqn:Hmain; try done.
  - destruct (forallb is_done (s_tasks s)) eqn:Hd, abandon; try done. injection Hs as <-.
    assert (Forall (λ t, is_done t = true) (s_tasks s)) as Hall.
    { apply Forall_forall. intros t Ht. rewrite forallb_forall in Hd.
      by apply Hd, list_elem_of_In. }
    split_and!; try done. unfold main_ok; simpl. destruct (s_cancelled s) eqn:Hc; [done|].
    split; [done|]. exists (omap appended (s_tasks s)).
    split_and!; [by apply all_done_results|done|done].
  - destruct Hm as (Hw & rs & Hrs & Hperm & Hall). destruct abandon.
    { destruct (save && s_cancelled s) eqn:Hsc; [|done]. apply andb_true_iff in Hsc as [? ?].
      unfold now, on_net in Hs. destruct (Now (w_net (s_world s))) as [t n]. injection Hs as <-.
      split_and!; try done. unfold main_ok; simpl. split_and!; [done|by exists rs|done..]. }
    destruct save eqn:Hsave.
    + destruct (now (s_world s)) as [t w] eqn:Hnow.
      destruct (on_store _ w) as [err w'] eqn:Hst. injection Hs as <-.
      split_and!; try done. unfold main_ok; simpl. split_and!; [done|by exists rs|done|].
      exists (s_world s). rewrite Hsave, Hnow. split; [done|]. simpl. by rewrite Hst.
    + injection Hs as <-. split_and!; try done. unfold main_ok; simpl.
      split_and!; [done|by exists rs|done|]. exists (s_world s). by rewrite Hsave.
Qed.

Lemma stream_action_inv a s s' :
  stream_inv s → stream_action c req save id a s = Some s' → stream_inv s'.
Proof.
  intros Hinv Hs. destruct a as [i|i| | | |]; simpl in Hs.
  - by eapply task_action_inv.
  - pose proof Hinv as (HF & Hsl & Hch & Hres & Hrec & Hm).
    destruct (s_tasks s !! i) as [[| |res| |]|] eqn:Hi; try done.
    destruct (s_cancelled s) eqn:Hc; [|done]. injection Hs as <-.
    destruct (Forall2_lookup_r _ _ _ _ _ HF Hi) as (r & Hr & Ht).
    destruct (not_done_main s i _ Hm Hi eq_refl) as [_ Hw].
    apply (move_inv s i (SSending res) _ r); try done.
    pose proof (slots_insert _ i _ (SDone None) Hi). simpl in *. lia.
  - destruct Hinv as (HF & Hsl & Hch & Hres & Hrec & Hm).
    destruct (s_chan s) as [|res ch] eqn:Hchan; [done|]. injection Hs as <-.
    split_and!; simpl; try done; [simpl in Hch; lia|by rewrite <-app_assoc].
  - destruct Hinv as (HF & Hsl & Hch & Hres & Hrec & Hm).
    destruct (s_cancelled s) eqn:Hc; [done|]. injection Hs as <-.
    split_and!; simpl; try done.
    + eapply Forall2_impl; [apply HF|]. intros r t. apply stask_ok_mono.
    + unfold main_ok in *. simpl. destruct (s_main s) as [| |[[x []]|]]; try done.
      * by destruct Hm as (? & ? & ? & ? & ? & ?).
      * by destruct Hm as (? & ? & ?).
  - by eapply main_action_inv.
  - by eapply main_action_inv.
Qed.

Lemma stream_steps_inv s :
  rtc (stream_step c req save id) (stream_start l w0) s → stream_inv s.
Proof.
  intros Hs. assert (∀ s1 s2, rtc (stream_step c req save id) s1 s2 →
    stream_inv s1 → stream_inv s2) as Hr.
  { induction 1 as [|s1 s2 s3 [a Ha]]; eauto using stream_action_inv. }
  eapply Hr; [done|apply stream_start_inv].
Qed.

End Invariant.
(** ** Progress *)

Lemma slots_pos (ts : list stask) :
  0 < slots ts → ∃ (i : nat) t, ts !! i = Some t ∧ holds_slot t = true.
Proof.
  induction ts as [|t ts IH]; simpl; [lia|]. destruct (holds_slot t) eqn:E.
  - intros _. by exists 0, t.
  - intros Hp. destruct IH as (i & t' & ? & ?); [lia|]. by exists (Datatypes.S i), t'.
Qed.

Lemma not_all_done (ts : list stask) :
  forallb is_done ts = false → ∃ (i : nat) t, ts !! i = Some t ∧ is_done t = false.
Proof.
  induction ts as [|t ts IH]; simpl; [done|]. destruct (is_done t) eqn:E; simpl.
  - intros Hf. destruct (IH Hf) as (i & t' & ? & ?). by exists (Datatypes.S i), t'.
  - intros _. by exists 0, t.
Qed.

(** Before the end, the program or its consumer can move, and once the context
    is cancelled the program alone can. *)
Lemma stream_progress c req save id (s : sstate) :
  (∀ d, s_main s ≠ MEnded d) →
  ∃ a s', stream_action c req save id a s = Some s' ∧ a ≠ Cancel ∧
    (s_cancelled s = true → a ≠ Receive).
Proof.
  intros Hm. destruct (s_main s) as [| |d] eqn:Hmain; [| |by destruct (Hm d)].
  - destruct (forallb is_done (s_tasks s)) eqn:Hd.
    { eexists Main, _. simpl. unfold main_action. by rewrite Hmain, Hd. }
    destruct (decide (0 < slots (s_tasks s))) as [Hp|Hp].
    + apply slots_pos in Hp as (i & t & Hi & Ht).
      destruct t as [r|[res|X m k]|res|res|res]; try done.
      * eexists (Task i), _. simpl. unfold task_action. by rewrite Hi.
      * destruct (m (s_world s)) as [x w] eqn:Hx.
        eexists (Task i), _. simpl. unfold task_action. by rewrite Hi, Hx.
      * destruct (decide (length (s_chan s) < resultCap)) as [Hl|Hl].
        { eexists (Task i), _. simpl. unfold task_action. by rewrite Hi, decide_True. }
        destruct (s_cancelled s) eqn:Hc.
        { eexists (GiveUp i), _. simpl. by rewrite Hi, Hc. }
        destruct (s_chan s) as [|x ch] eqn:Hch; [unfold resultCap in Hl; simpl in Hl; lia|].
        eexists Receive, _. simpl. by rewrite Hch.
      * eexists (Task i), _. simpl. unfold task_action. by rewrite Hi.
    + apply not_all_done in Hd as (i & t & Hi & Ht).
      assert (holds_slot t = false) as Hn.
      { destruct (holds_slot t) eqn:E; [|done]. exfalso. apply Hp.
        pose proof (slots_insert _ i t (SDone None) Hi) as Hs. rewrite E in Hs. simpl in Hs. lia. }
      destruct t as [r| | | |]; try done. pose proof (concurrency_pos c).
      eexists (Task i), _. simpl. unfold task_action. by rewrite Hi, decide_True by lia.
  - destruct save eqn:Hs; [destruct (now (s_world s)) as [t w] eqn:Hnow;
      destruct (on_store (SaveCheck (stream_check id req t (s_results s))) w) as [e w'] eqn:Hst|];
      eexists Main, _; simpl; unfold main_action; rewrite Hmain; [by rewrite Hnow, Hst|done].
Qed.

(** ** Termination *)

Definition stask_weighs (t : stask) (k : nat) : Prop :=
  match t with
  | SWaiting _ => k = 8
  | SQuerying p => ∃ n, bounded n p ∧ k = n + 5
  | SSending _ => k = 4
  | SAppending _ => k = 2
  | SDone _ => k = 0
  end.

Definition main_weight (m : smain) : nat :=
  match m with MWaiting => 2 | MSummarising => 1 | MEnded _ => 0 end.

Definition stream_weighs (s : sstate) (k : nat) : Prop :=
  ∃ ks, Forall2 stask_weighs (s_tasks s) ks ∧
    k = sum_list ks + length (s_chan s) + (if s_cancelled s then 0 else 1) + main_weight (s_main s).

Lemma query_live_bounded c r name qtype :
  bounded 2 (queryWithCache (S := S) (C := C) (N := N) c r name qtype true).
Proof.
  unfold queryWithCache. simpl. intros [res|e]; done.
Qed.

Lemma stask_move ts ks i t t' k' :
  Forall2 stask_weighs ts ks → ts !! i = Some t →
  (∀ k, stask_weighs t k → ∃ k1, stask_weighs t' k1 ∧ k1 + k' < k) →
  ∃ ks', Forall2 stask_weighs (<[i := t']> ts) ks' ∧ sum_list ks' + k' < sum_list ks.
Proof.
  intros HF Hi Hw. destruct (Forall2_lookup_l _ _ _ _ _ HF Hi) as (k & Hk & Ht).
  destruct (Hw k Ht) as (k1 & Hk1 & Hlt). exists (<[i := k1]> ks).
  split; [by apply Forall2_insert|]. pose proof (sum_list_insert ks i k k1 Hk). lia.
Qed.

Lemma main_action_weighs req save id abandon (s s' : sstate) ks :
  Forall2 stask_weighs (s_tasks s) ks → main_action req save id abandon s = Some s' →
  ∃ k', k' < sum_list ks + length (s_chan s) + (if s_cancelled s then 0 else 1) +
             main_weight (s_main s) ∧ stream_weighs s' k'.
Proof.
  intros HF Hs. unfold main_action in Hs. destruct (s_main s) eqn:Hmain; try done.
  - destruct (forallb _ _ && _); [|done]. injection Hs as <-.
    eexists. split; [|by exists ks]. simpl. destruct (s_cancelled s); simpl; lia.
  - destruct abandon; [destruct (save && _); [destruct (now _) as [t w]|done]|
      destruct save; [destruct (now _) as [t w]; destruct (on_store _ w) as [e w']|]];
      injection Hs as <-; (eexists; split; [|by exists ks]); simpl; lia.
Qed.

Lemma stream_action_weighs c req save id a s s' k :
  stream_weighs s k → stream_action c req save id a s = Some s' →
  ∃ k', k' < k ∧ stream_weighs s' k'.
Proof.
  intros (ks & HF & ->) Hs. destruct a as [i|i| | | |]; simpl in Hs.
  - unfold task_action in Hs. destruct (s_tasks s !! i) as [t|] eqn:Hi; [|done].
    assert (∀ t' k', (∀ k, stask_weighs t k → ∃ k1, stask_weighs t' k1 ∧ k1 + k' < k) →
      ∃ ks', Forall2 stask_weighs (<[i := t']> (s_tasks s)) ks' ∧ sum_list ks' + k' < sum_list ks)
      as Hmove by (intros t' k'; by eapply stask_move).
    destruct t as [r|[res|X m x]|res|res|res]; try done.
    + case_decide; [|done]. injection Hs as <-.
      destruct (Hmove (SQuerying (queryWithCache c r (srName req) (srType req) true)) 0) as (ks' & ? & ?).
      { intros k ->. exists 7. split; [|lia]. exists 2. split; [apply query_live_bounded|done]. }
      eexists. split; [|by exists ks']. simpl. lia.
    + injection Hs as <-. destruct (Hmove (SSending res) 0) as (ks' & ? & ?).
      { intros k (n & _ & ->). exists 4. split; [done|lia]. }
      eexists. split; [|by exists ks']. simpl. lia.
    + destruct (m (s_world s)) as [y w]. injection Hs as <-.
      destruct (Hmove (SQuerying (x y)) 0) as (ks' & ? & ?).
      { intros k (n & Hn & ->). destruct n as [|n]; [done|]. exists (n + 5).
        split; [by exists n|lia]. }
      eexists. split; [|by exists ks']. simpl. lia.
    + case_decide; [|done]. injection Hs as <-. destruct (Hmove (SAppending res) 1) as (ks' & ? & ?).
      { intros k ->. exists 2. split; [done|lia]. }
      eexists. split; [|by exists ks']. simpl. rewrite length_app. simpl. lia.
    + injection Hs as <-. destruct (Hmove (SDone (Some res)) 0) as (ks' & ? & ?).
      { intros k ->. exists 0. split; [done|lia]. }
      eexists. split; [|by exists ks']. simpl. lia.
  - destruct (s_tasks s !! i) as [[| |res| |]|] eqn:Hi; try done.
    destruct (s_cancelled s) eqn:Hc; [|done]. injection Hs as <-.
    destruct (stask_move _ _ i (SSending res) (SDone None) 0 HF Hi) as (ks' & ? & ?).
    { intros k ->. exists 0. split; [done|lia]. }
    eexists. split; [|by exists ks']. simpl. rewrite Hc. lia.
  - destruct (s_chan s) as [|res ch]; [done|]. injection Hs as <-.
    eexists. split; [|by exists ks]. simpl. lia.
  - destruct (s_cancelled s) eqn:Hc; [done|]. injection Hs as <-.
    eexists. split; [|by exists ks]. simpl. lia.
  - by eapply main_action_weighs.
  - by eapply main_action_weighs.
Qed.

Lemma stream_start_weighs l (w : world) : stream_weighs (stream_start l w) (8 * length l + 3).
Proof.
  exists (replicate (length l) 8). split; simpl.
  - induction l; simpl; by constructor.
  - assert (sum_list (replicate (length l) 8) = 8 * length l) as ->; [|lia].
    induction l; simpl in *; lia.
Qed.

Lemma stream_nsteps c req save id j s s' k :
  nsteps (stream_step c req save id) j s s' → stream_weighs s k →
  ∃ k', j + k' ≤ k ∧ stream_weighs s' k'.
Proof.
  intros Hs. revert k. induction Hs as [s|j s s1 s' [a Ha] _ IH]; intros k Hk.
  { exists k. split; [lia|done]. }
  destruct (stream_action_weighs _ _ _ _ _ _ _ _ Hk Ha) as (k1 & Hlt & Hk1).
  destruct (IH k1 Hk1) as (k2 & ? & ?). exists k2. split; [lia|done].
Qed.

(** How an execution ends. *)
Lemma stream_outcome (P : Resolver → string → Z → ResolverResult → Prop) c req save id
    (l : list Resolver) (w : world) (s : sstate) (HP : client_ensures P)
    (Hs : rtc (stream_step c req save id) (stream_start l w) s) :
  match s_main s with
  | MEnded (Some (summary, saved)) =>
      (∃ rs, Forall2 (λ r res, P r (srName req) (ParseType0 (srType req)) res) l rs ∧
        s_results s ≡ₚ rs ∧ summary = buildSummary rs ∧
        TotalResolvers summary = Z.of_nat (length l)) ∧
      s_received s ++ s_chan s ≡ₚ s_results s ∧
      if saved : bool then ∃ w1, w_store w1 = w_store w ∧ w_cache w1 = w_cache w ∧
        if save then
          s_world s = (on_store (SaveCheck (stream_check id req (now w1).1 (s_results s)))
                         (now w1).2).2
        else s_world s = w1
      else save = true ∧ s_cancelled s = true ∧
        w_store (s_world s) = w_store w ∧ w_cache (s_world s) = w_cache w
  | MEnded None =>
      s_cancelled s = true ∧ w_store (s_world s) = w_store w ∧ w_cache (s_world s) = w_cache w
  | _ => w_store (s_world s) = w_store w ∧ w_cache (s_world s) = w_cache w
  end.
Proof.
  destruct (stream_steps_inv c req save id l w P HP s Hs) as (HF & _ & _ & Hres & Hrec & Hm).
  unfold main_ok in Hm. destruct (s_main s) as [| |[[summary saved]|]].
  - done.
  - by destruct Hm as [? _].
  - destruct Hm as (Hall & (rs & Hrs & Hperm) & -> & Hw). split_and!.
    + exists rs. split_and!; [done|done|by rewrite Hperm|].
      rewrite buildSummary_eq. simpl. by rewrite Hperm, (Forall2_length _ _ _ Hrs).
    + rewrite Hrec, Hres. clear -Hall. induction Hall as [|t ts Ht _ IH]; [done|].
      destruct t as [| | | |[res|]]; try done; simpl. by rewrite IH.
    + destruct saved; [destruct Hw as (w1 & [? ?] & Hw); by exists w1|by destruct Hw as ([? ?] & ? & ?)].
  - by destruct Hm as ([? ?] & ? & _).
Qed.

(** * Properties *)

(** C24: the goroutines of a stream respect the semaphore and the capacity of
    the channel, and never block for good: until the main goroutine has ended,
    the program or a consumer that reads can move, and once the context is
    cancelled the program can without any consumer; every execution over [n]
    resolvers ends after at most [8 n + 3] steps. *)
Theorem Stream_progress c req save id (l : list Resolver) (w : world) :
  let s0 := stream_start l w in
  (∀ s, rtc (stream_step c req save id) s0 s →
     slots (s_tasks s) ≤ concurrency c ∧ length (s_chan s) ≤ 64 ∧
     ((∀ d, s_main s ≠ MEnded d) →
      ∃ a s', stream_action c req save id a s = Some s' ∧ a ≠ Cancel ∧
        (s_cancelled s = true → a ≠ Receive))) ∧
  (∀ j s, nsteps (stream_step c req save id) j s0 s → j ≤ 8 * length l + 3).
Proof.
  intros s0. split.
  - intros s Hs.
    assert (client_ensures (λ _ _ _ _, True)) as HP.
    { intros r name q n. by destruct (Query r name q n).1. }
    destruct (stream_steps_inv c req save id l w _ HP s Hs) as (_ & ? & ? & _).
    split_and!; [done|done|]. apply stream_progress.
  - intros j s Hs.
    destruct (stream_nsteps _ _ _ _ _ _ _ _ Hs (stream_start_weighs l w)) as (k & ? & _). lia.
Qed.

(** When a stream ends with a summary, the collected results are, in some
    order, one live answer for each resolver; the summary is that of these
    results whatever the order they arrived in; the consumer has read, or
    finds in the channel, exactly these results; the queries have left store
    and cache as they were, and the save, when requested, stored the check
    under the announced identifier, unless it failed because the stream was
    cancelled meanwhile.  A stream that ends without a summary was cancelled,
    and has stored nothing. *)
Theorem Stream_outcome (P : Resolver → string → Z → ResolverResult → Prop) c req save id
    (l : list Resolver) (w : world) (s : sstate) (HP : client_ensures P)
    (Hs : rtc (stream_step c req save id) (stream_start l w) s) :
  match s_main s with
  | MEnded (Some (summary, saved)) =>
      (∃ rs, Forall2 (λ r res, P r (srName req) (ParseType0 (srType req)) res) l rs ∧
        s_results s ≡ₚ rs ∧ summary = buildSummary rs ∧
        TotalResolvers summary = Z.of_nat (length l)) ∧
      s_received s ++ s_chan s ≡ₚ s_results s ∧
      if saved : bool then ∃ w1, w_store w1 = w_store w ∧ w_cache w1 = w_cache w ∧
        if save then
          s_world s = (on_store (SaveCheck (stream_check id req (now w1).1 (s_results s)))
                         (now w1).2).2
        else s_world s = w1
      else save = true ∧ s_cancelled s = true ∧
        w_store (s_world s) = w_store w ∧ w_cache (s_world s) = w_cache w
  | MEnded None =>
      s_cancelled s = true ∧ w_store (s_world s) = w_store w ∧ w_cache (s_world s) = w_cache w
  | _ => w_store (s_world s) = w_store w ∧ w_cache (s_world s) = w_cache w
  end.
Proof. by apply (stream_outcome P c req save id l). Qed.

End Stream.

(** * A concrete execution *)

Section Run.
Context `{D : DnsConsts} `{U : Unicode} `{R : MapRange}.
Context {S C N : Type} `{SO : StorageOps S} `{CO : CacheOps C} `{EN : Env N} `{CL : ClientOps N}.
Context `{J : Codec string ResolverResult}.

(** A sequence of actions; one that is not enabled is skipped. *)
Fixpoint run_actions (c : Checker) (req : StreamRequest) (save : bool) (id : string)
    (l : list action) (s : sstate (S := S) (C := C) (N := N)) : sstate :=
  match l with
  | [] => s
  | a :: l' => run_actions c req save id l' (default s (stream_action c req save id a s))
  end.

Lemma run_actions_rtc c req save id l s :
  rtc (stream_step c req save id) s (run_actions c req save id l s).
Proof.
  revert s. induction l as [|a l IH]; intros s; simpl; [done|].
  destruct (stream_action c req save id a s) as [s'|] eqn:E; simpl; [|apply IH].
  eapply rtc_l; [by exists a|apply IH].
Qed.

End Run.

Definition demo_stream_request : StreamRequest := mkStreamRequest "a.example" "A" [] [] false.

Definition demo_stream_end : sstate :=
  run_actions (D := iana) (R := range_forward) (SO := noop_ops) (CO := noop_cache_ops)
    (CL := demo_client) (J := one_codec) demo_checker demo_stream_request true "id"
    [Task 1; Task 0; Task 1; Task 0; Task 0; Task 1; Task 1; Receive; Task 1; Task 0; Task 0;
     Main; Main]
    (stream_start (All (ckRegistry demo_checker)) (mkWorld tt tt demo_net)).

(** The execution above ends with a summary of two resolvers. *)
Example demo_stream_ends :
  match s_main demo_stream_end with
  | MEnded (Some (summary, true)) => TotalResolvers summary = 2%Z ∧ length (s_received demo_stream_end) = 1
  | _ => False
  end.
Proof. vm_compute. done. Qed.

(** A client that leaves between the check of the context and the save: the
    summary is sent, and the check is lost. *)
Example demo_stream_abandoned :
  match s_main (run_actions (D := iana) (R := range_forward) (SO := noop_ops) (CO := noop_cache_ops)
    (CL := demo_client) (J := one_codec) demo_checker demo_stream_request true "id"
    [Task 1; Task 0; Task 1; Task 0; Task 0; Task 1; Task 1; Receive; Task 1; Task 0; Task 0;
     Main; Cancel; Abandon]
    (stream_start (All (ckRegistry demo_checker)) (mkWorld tt tt demo_net))) with
  | MEnded (Some (summary, false)) => TotalResolvers summary = 2%Z
  | _ => False
  end.
Proof. vm_compute. done. Qed.

Lemma Stream_outcome_witness :
  let s := demo_stream_end in
  ∃ summary, s_main s = MEnded (Some (summary, true)) ∧
    s_received s ++ s_chan s ≡ₚ s_results s ∧
    ∃ rs, Forall2 (λ r res, rrResolver res = r ∧ status_valid (rrStatus res))
      (All (ckRegistry demo_checker)) rs ∧ s_results s ≡ₚ rs.
Proof.
  pose proof (Stream_outcome (D := iana) (R := range_forward) (CO := noop_cache_ops)
    (CL := demo_client) (J := one_codec)
    (λ r _ _ res, rrResolver res = r ∧ status_valid (rrStatus res))
    demo_checker demo_stream_request true "id" (All (ckRegistry demo_checker))
    (mkWorld tt tt demo_net) demo_stream_end) as H.
  assert (∃ summary, s_main demo_stream_end = MEnded (Some (summary, true))) as [summary E]
    by (eexists; vm_compute; reflexivity).
  specialize (H (client_ops_ensures (D := iana) (U := ascii_only) _) (run_actions_rtc _ _ _ _ _ _)).
  match type of H with match ?m with _ => _ end =>
    assert (m = MEnded (Some (summary, true))) as E' by exact E; rewrite E' in H end.
  destruct H as ((rs & Hrs & Hp & _) & Hrec & _).
  exists summary. split; [exact E|]. split; [exact Hrec|]. exists rs. exact (conj Hrs Hp).
Defined.
