(* ===== verification/Json.v ===== *)
(** * JSON values of the API

    The values that the handlers give to [encoding/json], as the trees that the
    encoder writes: the field names, their order and the [omitempty] and ["-"]
    tags of the structs of [internal/dnsclient/result.go] and
    [internal/settings/settings.go].

    A nil slice and an empty one are the same list here, so the tree does not
    distinguish [null] from [[]]; the text of numbers, strings and instants is
    the encoder's. *)

From S2P Require Import Prelude.
From S2P Require Import GoString.
From S2P Require Import DnsTypes.
From S2P Require Import Settings.

Local Open Scope Z_scope.

Inductive json :=
| JBool (b : bool)
| JInt (z : Z)
| JFloat (f : float64)
| JStr (s : string)
| JTime (t : Time)
| JArr (l : list json)
| JObj (fields : list (string * json)).

Class ToJson (A : Type) := to_json : A → json.

#[export] Instance json_of_json : ToJson json := id.
#[export] Instance json_of_string : ToJson string := JStr.
#[export] Instance json_of_list {A} `{ToJson A} : ToJson (list A) := λ l, JArr (to_json <$> l).

(** A field with the [omitempty] tag. *)
Definition omitempty (empty : bool) (name : string) (v : json) : list (string * json) :=
  if empty then [] else [(name, v)].

(** An object from a map: the encoder sorts the keys. *)
Definition json_map {A} (f : A → json) (m : gmap string A) : json :=
  JObj (omap (λ k, v ← m !! k; Some (k, f v)) (sort_strings (map_to_list m).*1)).

#[export] Instance json_of_Resolver : ToJson Resolver := λ r, JObj (
  [("id", JStr (rID r)); ("name", JStr (rName r)); ("ip", JStr (rIP r)); ("port", JInt (rPort r));
   ("protocol", JStr (rProtocol r)); ("country", JStr (rCountry r)); ("city", JStr (rCity r));
   ("lat", JFloat (rLat r)); ("lng", JFloat (rLng r))]
  ++ omitempty (rASN r =? 0) "asn" (JInt (rASN r))
  ++ omitempty (String.eqb (rISP r) "") "isp" (JStr (rISP r))).

#[export] Instance json_of_Answer : ToJson Answer := λ a, JObj
  [("name", JStr (aName a)); ("type", JStr (aType a)); ("ttl", JInt (aTTL a));
   ("value", JStr (aValue a))].

Definition omit_answers (name : string) (l : list Answer) : list (string * json) :=
  omitempty (bool_decide (l = [])) name (to_json l).

#[export] Instance json_of_ResolverResult : ToJson ResolverResult := λ r, JObj (
  [("resolver", to_json (rrResolver r)); ("status", JStr (rrStatus r));
   ("answers", to_json (rrAnswers r))]
  ++ omit_answers "authority" (rrAuthority r)
  ++ omit_answers "additional" (rrAdditional r)
  ++ match rrDNSSEC r with Some b => [("dnssec", JBool b)] | None => [] end
  ++ [("duration_ms", JInt (rrDurationMS r))]
  ++ omitempty (String.eqb (rrError r) "") "error" (JStr (rrError r))
  ++ [("queried_at", JTime (rrQueriedAt r))]).

#[export] Instance json_of_CheckSummary : ToJson CheckSummary := λ s, JObj (
  [("total_resolvers", JInt (TotalResolvers s)); ("responded", JInt (Responded s));
   ("nxdomain", JInt (NXDomain s)); ("timeouts", JInt (Timeouts s)); ("errors", JInt (Errors s));
   ("unique_answer_sets", JInt (UniqueAnswerSets s)); ("consensus", json_map JInt (Consensus s));
   ("converged_pct", JInt (ConvergedPct s))]
  ++ match PropagationETA s with Some eta => [("propagation_eta", JInt eta)] | None => [] end).

#[export] Instance json_of_Check : ToJson Check := λ c, JObj
  [("id", JStr (cID c)); ("name", JStr (cName c)); ("type", JStr (cType c));
   ("created_at", JTime (cCreatedAt c)); ("results", to_json (cResults c));
   ("summary", to_json (cSummary c))].

#[export] Instance json_of_TraceStep : ToJson TraceStep := λ t, JObj (
  [("zone", JStr (tsZone t)); ("nameserver", JStr (tsNameserver t)); ("ip", JStr (tsIP t));
   ("query_type", JStr (tsQueryType t))]
  ++ omit_answers "answers" (tsAnswers t)
  ++ omit_answers "authority" (tsAuthority t)
  ++ omit_answers "additional" (tsAdditional t)
  ++ [("authoritative", JBool (tsAuthoritative t)); ("duration_ms", JInt (tsDurationMS t));
      ("status", JStr (tsStatus t))]
  ++ omitempty (String.eqb (tsError t) "") "error" (JStr (tsError t))).

#[export] Instance json_of_TraceResult : ToJson TraceResult := λ t, JObj
  [("name", JStr (trName t)); ("type", JStr (trType t)); ("steps", to_json (trSteps t))].

#[export] Instance json_of_channel : ToJson NotificationChannel := λ c, JObj
  [("id", JStr (chID c)); ("type", JStr (chType c)); ("name", JStr (chName c));
   ("enabled", JBool (chEnabled c)); ("config", json_map JStr (chConfig c))].

(** The hash has the tag ["-"]. *)
Definition token_fields (t : APIToken) : list (string * json) :=
  [("id", JStr (tokID t)); ("name", JStr (tokName t)); ("prefix", JStr (tokPrefix t));
   ("created_at", JTime (tokCreatedAt t))]
  ++ match tokLastUsedAt t with Some u => [("last_used_at", JTime u)] | None => [] end.

#[export] Instance json_of_APIToken : ToJson APIToken := λ t, JObj (token_fields t).

#[export] Instance json_of_Schedule : ToJson Schedule := λ s, JObj
  [("id", JStr (schID s)); ("name", JStr (schName s)); ("cron", JStr (schCron s));
   ("enabled", JBool (schEnabled s)); ("created_at", JTime (schCreatedAt s));
   ("updated_at", JTime (schUpdatedAt s))].

#[export] Instance json_of_Monitor : ToJson Monitor := λ m, JObj
  [("id", JStr (mID m)); ("name", JStr (mName m)); ("type", JStr (mType m));
   ("fqdn", JStr (mFQDN m)); ("record_type", JStr (mRecordType m));
   ("expected", to_json (mExpected m)); ("scheduler_id", JStr (mSchedulerID m));
   ("channel_id", JStr (mChannelID m)); ("enabled", JBool (mEnabled m));
   ("created_at", JTime (mCreatedAt m)); ("updated_at", JTime (mUpdatedAt m))].

#[export] Instance json_of_MonitorEvent : ToJson MonitorEvent := λ e, JObj
  [("id", JStr (evID e)); ("monitor_id", JStr (evMonitorID e));
   ("timestamp", JTime (evTimestamp e)); ("status", JStr (evStatus e));
   ("observed", to_json (evObserved e)); ("message", JStr (evMessage e));
   ("notified", JBool (evNotified e))].
