(* ===== verification/Notify.v ===== *)
(** * Notification delivery

    [internal/notify/notify.go]: the requests that the sender makes for a
    channel.  The HTTP client and Shoutrrr are the class [Delivery]; a request
    is what the sender hands to the client. *)

From S2P Require Import Prelude.
From S2P Require Import GoString.
From S2P Require Import GoFmt.
From S2P Require Import DnsTypes.
From S2P Require Import Settings.
From S2P Require Import Env.
From S2P Require Import Json.
From S2P Require Import Monitor.

Local Open Scope Z_scope.

(** A POST request: URL, headers, JSON body and the pair of [SetBasicAuth]. *)
Record PostRequest := mkPost {
  poURL : string;
  poContentType : string;
  poBody : json;
  poBasicAuth : option (string * string)
}.

(** [http.NewRequestWithContext] (does the URL parse?), [client.Do] (status and
    body), [shoutrrr.Send]. *)
Class Delivery (N : Type) := {
  url_error : string → option error;
  http_Do : PostRequest → M N (result (Z * string));
  shoutrrr_Send : string → string → M N (option error)
}.

(* src: internal/notify/notify.go greenAPIDefaultBase *)
Definition greenAPIDefaultBase := "https://api.green-api.com".

Section Notify.
Context `{U : Unicode} {N : Type} {DL : Delivery N}.

(** [strings.TrimSpace(ch.Config\[key\])]. *)
Definition config_of (ch : NotificationChannel) (key : string) : string :=
  TrimSpace (default "" (chConfig ch !! key)).

(* src: internal/notify/notify.go Sender.sendShoutrrr *)
Definition sendShoutrrr (ch : NotificationChannel) (message : string) : M N (option error) :=
  let url := config_of ch "url" in
  if String.eqb url "" then mret (Some (Errorf "shoutrrr url is required")) else
  err ← shoutrrr_Send url message;
  mret (Wrapf "shoutrrr" <$> err).

(* src: internal/notify/notify.go Sender.postJSON *)
Definition postJSON (url : string) (body : json) (auth : option (string * string)) (label : string)
    : M N (option error) :=
  match url_error url with
  | Some err => mret (Some (Wrapf (label +:+ ": building request") err))
  | None =>
      resp ← http_Do (mkPost url "application/json" body auth);
      mret match resp with
           | Err err => Some (Wrapf label err)
           | Ok (status, text) =>
               if 300 <=? status then
                 Some (Errorf (label +:+ ": status " +:+ Itoa status +:+ ": " +:+
                   TrimSpace (stake 512 text)))
               else None
           end
  end.

(* src: internal/notify/notify.go Sender.sendGreenAPI *)
Definition sendGreenAPI (ch : NotificationChannel) (message : string) : M N (option error) :=
  let instanceID := config_of ch "instance_id" in
  let token := config_of ch "token" in
  let recipient := config_of ch "recipient" in
  if String.eqb instanceID "" || String.eqb token "" || String.eqb recipient "" then
    mret (Some (Errorf "greenapi requires instance_id, token, and recipient"))
  else
  let base := config_of ch "api_url" in
  let base := if String.eqb base "" then greenAPIDefaultBase else base in
  let chatID := if Contains recipient "@" then recipient else recipient +:+ "@c.us" in
  let url := TrimRight base "/" +:+ "/waInstance" +:+ instanceID +:+ "/sendMessage/" +:+ token in
  let body := JObj [("chatId", JStr chatID); ("message", JStr message)] in
  postJSON url body None "greenapi".

(* src: internal/notify/notify.go Sender.sendGoWA *)
Definition sendGoWA (ch : NotificationChannel) (message : string) : M N (option error) :=
  let base := config_of ch "base_url" in
  let recipient := config_of ch "recipient" in
  if String.eqb base "" || String.eqb recipient "" then
    mret (Some (Errorf "go-whatsapp-web requires base_url and recipient"))
  else
  let url := TrimRight base "/" +:+ "/send/message" in
  let body := JObj [("message", JStr message); ("phone", JStr recipient)] in
  let user := config_of ch "username" in
  let auth := if String.eqb user "" then None
              else Some (user, default "" (chConfig ch !! "password")) in
  postJSON url body auth "go-whatsapp-web".

(* src: internal/notify/notify.go Sender.Send *)
Definition Sender_Send (ch : NotificationChannel) (message : string) : M N (option error) :=
  if String.eqb (chType ch) ChannelShoutrrr then sendShoutrrr ch message
  else if String.eqb (chType ch) ChannelGreenAPI then sendGreenAPI ch message
  else if String.eqb (chType ch) ChannelGoWA then sendGoWA ch message
  else mret (Some (Errorf ("unsupported channel type: " +:+ Quote (chType ch)))).

(** The sender discharges what the monitor evaluator and the test handler ask
    of a notifier. *)
(* src: internal/notify/notify.go New *)
#[export] Instance notify_New : Notifier N := {| Send := Sender_Send |}.

End Notify.

(** * Lemmas *)

(** A delivery service that records what it is asked to do and answers as told:
    [bad] says which URLs do not parse. *)
Inductive delivery := DPost (r : PostRequest) | DShoutrrr (url message : string).

Definition recorder (bad : string → option error) (answer : result (Z * string))
    (failure : option error) : Delivery (list delivery) := {|
  url_error := bad;
  http_Do r l := (answer, l ++ [DPost r]);
  shoutrrr_Send url message l := (failure, l ++ [DShoutrrr url message])
|}.

(** [base] without the slashes at its end. *)
Fixpoint slashes (n : nat) : string :=
  match n with O => "" | Datatypes.S n => String "/" (slashes n) end.

Definition root_of (base root : string) : Prop :=
  (∃ n, base = root +:+ slashes n) ∧ HasSuffix root "/" = false.

Lemma TrimRight_root base : root_of base (TrimRight base "/").
Proof.
  unfold root_of. induction base as [|c base [[n Hn] Hs]]; [by split; [exists 0%nat|]|]. cbn [TrimRight].
  destruct (TrimRight base "/") as [|d t] eqn:E.
  - change ("" +:+ slashes n) with (slashes n) in Hn. subst base.
    case_bool_decide as Hc; [subst c; by split; [exists (Datatypes.S n)|]|]. split; [by exists n|].
    destruct (HasSuffix (String c "") "/") eqn:Hx; [|done]. apply HasSuffix_spec in Hx as [q Hq].
    destruct q as [|x [|y q]]; simplify_eq/=.
  - split; [exists n; by rewrite Hn|]. destruct (HasSuffix (String c (String d t)) "/") eqn:Hx; [|done].
    apply HasSuffix_spec in Hx as [q Hq]. destruct q as [|x q]; [done|].
    rewrite <-Hs. symmetry. apply HasSuffix_spec. exists q. by injection Hq.
Qed.

Lemma TrimRight_slashes n : TrimRight (slashes n) "/" = "".
Proof. induction n as [|n IH]; [done|]. cbn [slashes TrimRight]. by rewrite IH. Qed.

Lemma root_of_trim base root : root_of base root → root = TrimRight base "/".
Proof.
  intros [[n ->] Hs]. induction root as [|c root IH];
    [change ("" +:+ slashes n) with (slashes n); by rewrite TrimRight_slashes|].
  change (String c root +:+ slashes n) with (String c (root +:+ slashes n)). cbn [TrimRight].
  destruct root as [|d root].
  - change ("" +:+ slashes n) with (slashes n). rewrite TrimRight_slashes.
    case_bool_decide as Hc; [by subst c|done].
  - rewrite <-IH; [done|]. destruct (HasSuffix (String d root) "/") eqn:Hx; [|done].
    apply HasSuffix_spec in Hx as [q Hq]. rewrite <-Hs. symmetry. apply HasSuffix_spec.
    exists (String c q). by rewrite Hq.
Qed.

Lemma Contains_at s : Contains s "@" = has_char "@" s.
Proof.
  induction s as [|c s IH]; [done|]. cbn [Contains has_char]. rewrite IH. f_equal.
  change (HasPrefix (String c s) "@" = bool_decide ("@"%char = c)).
  apply eq_true_iff_eq. rewrite HasPrefix_spec, bool_decide_eq_true. split.
  - intros [r Hr]. by injection Hr.
  - intros <-. by exists s.
Qed.

(** What a channel asks to be delivered, after the documentation of the three
    services: none when a setting that the service needs is blank. *)
Inductive requested (ch : NotificationChannel) (message : string) : delivery → Prop :=
  | requested_shoutrrr :
      chType ch = "shoutrrr" → config_of ch "url" ≠ "" →
      requested ch message (DShoutrrr (config_of ch "url") message)
  | requested_greenapi root chat :
      chType ch = "greenapi" →
      config_of ch "instance_id" ≠ "" → config_of ch "token" ≠ "" → config_of ch "recipient" ≠ "" →
      root_of (if String.eqb (config_of ch "api_url") "" then "https://api.green-api.com"
               else config_of ch "api_url") root →
      chat = config_of ch "recipient" +:+
        (if has_char "@" (config_of ch "recipient") then "" else "@c.us") →
      requested ch message (DPost (mkPost
        (root +:+ "/waInstance" +:+ config_of ch "instance_id" +:+ "/sendMessage/" +:+
           config_of ch "token") "application/json"
        (JObj [("chatId", JStr chat); ("message", JStr message)]) None))
  | requested_gowa root auth :
      chType ch = "gowa" → config_of ch "base_url" ≠ "" → config_of ch "recipient" ≠ "" →
      root_of (config_of ch "base_url") root →
      auth = (if String.eqb (config_of ch "username") "" then None
              else Some (config_of ch "username", default "" (chConfig ch !! "password"))) →
      requested ch message (DPost (mkPost (root +:+ "/send/message") "application/json"
        (JObj [("message", JStr message); ("phone", JStr (config_of ch "recipient"))]) auth)).

Lemma requested_unique ch message d d' :
  requested ch message d → requested ch message d' → d = d'.
Proof.
  destruct 1 as [Ht ?|root chat Ht ? ? ? ->%root_of_trim ->|root auth Ht ? ? ->%root_of_trim ->];
    by inversion 1 as [Ht'|r2 c2 Ht' ? ? ? ->%root_of_trim ->|r2 a2 Ht' ? ? ->%root_of_trim ->];
    rewrite Ht in Ht'.
Qed.

(** The services succeed, HTTP with a status below 300. *)
Definition accepted (answer : result (Z * string)) (failure : option error) (d : delivery) : Prop :=
  match d with
  | DPost _ => ∃ status body, answer = Ok (status, body) ∧ status < 300
  | DShoutrrr _ _ => failure = None
  end.

(** The URL of a request does not parse. *)
Definition unsendable (bad : string → option error) (d : delivery) : Prop :=
  match d with DPost p => is_Some (bad (poURL p)) | DShoutrrr _ _ => False end.

Section Delivers.
Context `{U : Unicode} (bad : string → option error) (answer : result (Z * string))
  (failure : option error).
Variables (ch : NotificationChannel) (message : string) (l : list delivery).

#[local] Instance recording : Delivery (list delivery) := recorder bad answer failure.

(** The outcome of a send that is to make the delivery [d], if any. *)
Definition sends (d : option delivery) (res : option error * list delivery) : Prop :=
  let '(err, l') := res in
  match d with
  | None => l' = l ∧ err ≠ None
  | Some d => (unsendable bad d ∧ l' = l ∧ err ≠ None) ∨
      (¬ unsendable bad d ∧ l' = l ++ [d] ∧ (err = None ↔ accepted answer failure d))
  end.

Lemma postJSON_sends url body auth label :
  sends (Some (DPost (mkPost url "application/json" body auth))) (postJSON url body auth label l).
Proof.
  unfold postJSON. cbn [url_error recording recorder]. unfold sends, unsendable. cbn [poURL].
  destruct (bad url) as [e|]; [left; by split_and!|]. right. cbv [mbind M_bind mret M_ret]. simpl.
  split; [by intros []|]. split; [done|]. destruct answer as [[status text]|e].
  - destruct (Z.leb_spec 300 status); split; try done.
    + intros (? & ? & [= -> ->] & ?). lia.
    + intros _. by exists status, text.
  - by split; [|intros (? & ? & ? & _)].
Qed.

(** The one delivery of a channel, if any. *)
Definition outcome (res : option error * list delivery) : Prop :=
  (∃ d, requested ch message d ∧ sends (Some d) res) ∨
  ((∀ d, ¬ requested ch message d) ∧ sends None res).

Lemma refused e : (∀ d, ¬ requested ch message d) → outcome (Some e, l).
Proof. intros Hd. right. by split. Qed.

Lemma sendShoutrrr_outcome : chType ch = "shoutrrr" → outcome (sendShoutrrr ch message l).
Proof.
  intros Ht. unfold sendShoutrrr. cbv [mbind M_bind mret M_ret].
  destruct (String.eqb_spec (config_of ch "url") "") as [He|He].
  { apply refused. intros d. by inversion 1; congruence. }
  left. eexists. split; [by apply requested_shoutrrr|]. right. simpl. split; [by intros []|].
  split; [done|]. by destruct failure.
Qed.

Lemma sendGreenAPI_outcome : chType ch = "greenapi" → outcome (sendGreenAPI ch message l).
Proof.
  intros Ht. unfold sendGreenAPI.
  destruct (String.eqb_spec (config_of ch "instance_id") ""),
    (String.eqb_spec (config_of ch "token") ""), (String.eqb_spec (config_of ch "recipient") "");
    cbn [orb]; try (apply refused; intros d; by inversion 1; congruence).
  left. eexists. split; [|apply postJSON_sends]. eapply requested_greenapi; try done.
  - apply TrimRight_root.
  - rewrite Contains_at. by destruct (has_char _ _); [rewrite sapp_nil_r|].
Qed.

Lemma sendGoWA_outcome : chType ch = "gowa" → outcome (sendGoWA ch message l).
Proof.
  intros Ht. unfold sendGoWA.
  destruct (String.eqb_spec (config_of ch "base_url") ""), (String.eqb_spec (config_of ch "recipient") "");
    cbn [orb]; try (apply refused; intros d; by inversion 1; congruence).
  left. eexists. split; [|apply postJSON_sends]. eapply requested_gowa; try done. apply TrimRight_root.
Qed.

End Delivers.

(** * Properties *)

(** C38: a send makes the delivery that its channel asks for and no other: to
    Shoutrrr the URL of the channel and the message; to GREEN-API and to
    go-whatsapp-web one POST request with the documented URL (of the base
    without its trailing slashes), JSON body, content type and credentials.
    There is one such delivery at most, and none for an unknown type or a blank
    setting that the type needs; then, and when the URL does not parse, nothing
    is delivered and an error is reported.  A delivery that is made is reported
    as failed unless the service reports success, over HTTP by a status below
    300. *)
Theorem Send_delivers `{U : Unicode} (bad : string → option error) (answer : result (Z * string))
    (failure : option error) (ch : NotificationChannel) (message : string) (l : list delivery) :
  let '(err, l') := Sender_Send (DL := recorder bad answer failure) ch message l in
  (∃ d, requested ch message d ∧ (∀ d', requested ch message d' → d' = d) ∧
     ((unsendable bad d ∧ l' = l ∧ err ≠ None) ∨
      (¬ unsendable bad d ∧ l' = l ++ [d] ∧ (err = None ↔ accepted answer failure d)))) ∨
  ((∀ d, ¬ requested ch message d) ∧ l' = l ∧ err ≠ None).
Proof.
  assert (outcome bad answer failure ch message l
    (Sender_Send (DL := recorder bad answer failure) ch message l)) as Hout.
  2:{ destruct (Sender_Send _ _ _) as [err l']. destruct Hout as [(d & Hd & Hs)|Hout]; [left|by right].
    exists d. eauto using requested_unique. }
  unfold Sender_Send.
  destruct (String.eqb_spec (chType ch) ChannelShoutrrr) as [H1|H1]; [by apply sendShoutrrr_outcome|].
  destruct (String.eqb_spec (chType ch) ChannelGreenAPI) as [H2|H2]; [by apply sendGreenAPI_outcome|].
  destruct (String.eqb_spec (chType ch) ChannelGoWA) as [H3|H3]; [by apply sendGoWA_outcome|].
  apply refused. intros d. by inversion 1.
Qed.
