(* ===== verification/GeoIP.v ===== *)
(** * Geolocation

    [internal/geoip/geoip.go], a wrapper of the MaxMind reader that no other
    package uses yet.  The reader is the library's: the class [GeoIP2] has its
    operations and the fields of its records that the wrapper reads. *)

From S2P Require Import Prelude.
From S2P Require Import DnsTypes.
From S2P Require Import NetIP.

Class GeoIP2 := {
  Reader : Type;
  CountryRecord : Type;
  CityRecord : Type;
  geoip2_Open : string → result Reader;
  reader_Close : Reader → option error * Reader;
  reader_Country : Reader → IP → result CountryRecord;
  reader_City : Reader → IP → result CityRecord;
  Country_IsoCode : CountryRecord → string;
  City_Names : CityRecord → gmap string string;
  Location_Latitude : CityRecord → float64;
  Location_Longitude : CityRecord → float64
}.

Section GeoIP.
Context {GI : GeoIP2}.

(* src: internal/geoip/geoip.go DB *)
Record DB := mkDB { db_reader : Reader }.

(* src: internal/geoip/geoip.go Open *)
Definition Open (path : string) : result DB :=
  match geoip2_Open path with
  | Err e => Err (Wrapf ("opening geoip db " +:+ path) e)
  | Ok r => Ok (mkDB r)
  end.

(** Closing a reader changes the state behind the pointer. *)
(* src: internal/geoip/geoip.go DB.Close *)
Definition DB_Close (db : DB) : option error * DB :=
  let '(e, r) := reader_Close (db_reader db) in (e, mkDB r).

(* src: internal/geoip/geoip.go DB.Country *)
Definition Country (db : DB) (ip : IP) : result string :=
  match reader_Country (db_reader db) ip with
  | Err e => Err (Wrapf "geoip country lookup" e)
  | Ok record => Ok (Country_IsoCode record)
  end.

(** A name that the map lacks reads as the empty text. *)
(* src: internal/geoip/geoip.go DB.City *)
Definition City (db : DB) (ip : IP) : result (string * float64 * float64) :=
  match reader_City (db_reader db) ip with
  | Err e => Err (Wrapf "geoip city lookup" e)
  | Ok record =>
      let city := default "" (City_Names record !! "en") in
      let lat := Location_Latitude record in
      let lng := Location_Longitude record in
      Ok (city, lat, lng)
  end.

(** The errors of the reader can still be recognised behind the wrapper's. *)
Lemma City_error db ip e (target : error) : City db ip = Err e → (∀ p e', target ≠ Wrapf p e') →
  ∃ e', reader_City (db_reader db) ip = Err e' ∧ Is e target = Is e' target.
Proof.
  unfold City. destruct (reader_City _ _) as [|e'] eqn:?; [done|]. intros [= <-] Ht.
  exists e'. split; [done|]. simpl. rewrite bool_decide_eq_false_2; [done|]. intros <-. by eapply Ht.
Qed.

End GeoIP.
