(* ===== verification/Http.v ===== *)
(** * HTTP requests, responses and middleware

    [internal/api/apierr/apierr.go] and [internal/api/middleware.go]: the JSON
    error envelope and the middleware around the handlers.

    A request is what the handlers read of it; a handler runs on the world and
    a response writer.  The header of the writer can be changed at any time,
    but what is sent is its state at the first [WriteHeader] or [Write], as in
    [net/http].  The decoding of a JSON body into a request struct is the
    parameter [BodyDecode]; validation by struct tags is a library's, the class
    [Validator] with its documented meaning as [ValidatorOk]. *)

From S2P Require Import Prelude.
From S2P Require Import GoString.
From S2P Require Import DnsTypes.
From S2P Require Import NetIP.
From S2P Require Import Env.
From S2P Require Import Storage.
From S2P Require Import Interleave.
From S2P Require Import Json.

Local Open Scope Z_scope.

(** ** Requests *)

(** Header names are as the program writes them; [rqQuery] and [rqParams] map a name to
    its first value; an absent query or URL parameter reads as the empty text. *)
Record Request := mkRequest {
  rqMethod : string;
  rqPath : string;
  rqHeader : gmap string string;
  rqCookies : list (string * string);
  rqQuery : gmap string string;
  rqParams : gmap string string;
  rqBody : string
}.

(** [r.Header.Get(name)], [r.URL.Query().Get(name)], [chi.URLParam(r, name)]. *)
Definition header_get (r : Request) (name : string) : string := default "" (rqHeader r !! name).
Definition query_get (r : Request) (name : string) : string := default "" (rqQuery r !! name).
Definition URLParam (r : Request) (name : string) : string := default "" (rqParams r !! name).

(** [r.Cookie(name)]: the first cookie of the name; [None] is [http.ErrNoCookie]. *)
Definition cookie_of (r : Request) (name : string) : option string :=
  snd <$> list_find (λ p, p.1 = name) (rqCookies r) ≫= λ p, Some p.2.

(** [json.NewDecoder(r.Body).Decode(&v)]; [None] is an error. *)
Class BodyDecode (A : Type) := decode_body : string → option A.

(** [validate.Struct(v)]: the tagged string fields of [v], as name, tag and
    value; [None] is success. *)
Class Validator := validate_struct : list (string * string * string) → option error.

(** Documented: [required] asks for a non-empty value, [ip] for an address. *)
Definition tag_ok (f : string * string * string) : Prop :=
  let '(_, tag, value) := f in
  (tag = "required" ∧ value ≠ "") ∨
  (tag = "required,ip" ∧ value ≠ "" ∧ is_Some (ParseIP value)).

Class ValidatorOk (V : Validator) : Prop :=
  validate_struct_ok : ∀ fields, validate_struct fields = None ↔ Forall tag_ok fields.

(** ** The response writer *)

Record Cookie := mkCookie {
  ckName : string;
  ckValue : string;
  ckPath : string;
  ckHttpOnly : bool;
  ckMaxAge : Z;
  ckExpires : Time
}.

Inductive chunk := CJson (v : json) | CText (s : string).

(** An entry of the structured log: level, message and attributes. *)
Record LogRecord := mkLogRecord {
  lgLevel : string;
  lgMessage : string;
  lgAttrs : list (string * json)
}.

(** The response and what else changes while a request is served.  [rwSent]: the
    status and the header fields that were sent.  [rwRecorder]: the status of
    the [responseRecorder] around the writer, where there is one.  [rwURLPath]:
    the path that a handler has put into [r.URL], which all copies of the
    request share.  [rwLog]: what was logged. *)
Record RW := mkRW {
  rwHeader : gmap string string;
  rwCookies : list Cookie;
  rwSent : option (Z * gmap string string * list Cookie);
  rwBody : list chunk;
  rwRecorder : option Z;
  rwURLPath : option string;
  rwLog : list LogRecord
}.

Definition fresh_rw : RW := mkRW ∅ [] None [] None None [].

(** The status line that the client sees; 200 when nothing was set. *)
Definition rwStatus (rw : RW) : Z :=
  match rwSent rw with Some (code, _, _) => code | None => 200 end.

(** The cookies that the client receives. *)
Definition sent_cookies (rw : RW) : list Cookie :=
  match rwSent rw with Some (_, _, cs) => cs | None => rwCookies rw end.

Definition rw_set_header (k v : string) (rw : RW) : RW :=
  mkRW (<[k := v]> (rwHeader rw)) (rwCookies rw) (rwSent rw) (rwBody rw)
    (rwRecorder rw) (rwURLPath rw) (rwLog rw).

(** [WriteHeader] of the server: the first one counts. *)
Definition rw_send (code : Z) (rw : RW) : RW :=
  match rwSent rw with
  | Some _ => rw
  | None => mkRW (rwHeader rw) (rwCookies rw) (Some (code, rwHeader rw, rwCookies rw)) (rwBody rw)
              (rwRecorder rw) (rwURLPath rw) (rwLog rw)
  end.

(** The [status] field of the recorder. *)
(* src: internal/api/middleware.go responseRecorder *)
Definition set_recorder (status : option Z) (rw : RW) : RW :=
  mkRW (rwHeader rw) (rwCookies rw) (rwSent rw) (rwBody rw) status (rwURLPath rw) (rwLog rw).

(** [WriteHeader], through the recorder where there is one. *)
(* src: internal/api/middleware.go responseRecorder.WriteHeader *)
Definition rw_write_header (code : Z) (rw : RW) : RW :=
  rw_send code (set_recorder ((λ _, code) <$> rwRecorder rw) rw).

(** The recorder does not see the header that a [Write] sends. *)
Definition rw_write (c : chunk) (rw : RW) : RW :=
  let rw := rw_send 200 rw in
  mkRW (rwHeader rw) (rwCookies rw) (rwSent rw) (rwBody rw ++ [c])
    (rwRecorder rw) (rwURLPath rw) (rwLog rw).

(** [r.URL.Path = path]. *)
Definition rw_url_path (path : string) (rw : RW) : RW :=
  mkRW (rwHeader rw) (rwCookies rw) (rwSent rw) (rwBody rw) (rwRecorder rw) (Some path) (rwLog rw).

Definition rw_log (e : LogRecord) (rw : RW) : RW :=
  mkRW (rwHeader rw) (rwCookies rw) (rwSent rw) (rwBody rw) (rwRecorder rw) (rwURLPath rw)
    (rwLog rw ++ [e]).

(** [http.SetCookie]. *)
Definition rw_set_cookie (c : Cookie) (rw : RW) : RW :=
  mkRW (rwHeader rw) (rwCookies rw ++ [c]) (rwSent rw) (rwBody rw)
    (rwRecorder rw) (rwURLPath rw) (rwLog rw).

Definition StatusOK_http := 200.
Definition StatusCreated := 201.
Definition StatusNoContent := 204.
Definition StatusFound := 302.
Definition StatusBadRequest := 400.
Definition StatusUnauthorized := 401.
Definition StatusNotFound := 404.
Definition StatusTooManyRequests := 429.
Definition StatusInternalServerError := 500.
Definition StatusBadGateway := 502.
Definition StatusServiceUnavailable := 503.

(** ** Error envelope *)

(* src: internal/api/apierr/apierr.go ErrCodeInvalidInput *)
Definition ErrCodeInvalidInput := "INVALID_INPUT".
(* src: internal/api/apierr/apierr.go ErrCodeNotFound *)
Definition ErrCodeNotFound := "NOT_FOUND".
(* src: internal/api/apierr/apierr.go ErrCodeRateLimit *)
Definition ErrCodeRateLimit := "RATE_LIMIT".
(* src: internal/api/apierr/apierr.go ErrCodeInternal *)
Definition ErrCodeInternal := "INTERNAL_ERROR".
(* src: internal/api/apierr/apierr.go ErrCodeInvalidRecordType *)
Definition ErrCodeInvalidRecordType := "INVALID_RECORD_TYPE".
(* src: internal/api/apierr/apierr.go ErrCodeInvalidDomain *)
Definition ErrCodeInvalidDomain := "INVALID_DOMAIN".

(** The details are [nil] at every call of the program. *)
(* src: internal/api/apierr/apierr.go ErrorDetail *)
Record ErrorDetail := mkErrorDetail { edCode : string; edMessage : string }.

(* src: internal/api/apierr/apierr.go ErrorResponse *)
Record ErrorResponse := mkErrorResponse { erError : ErrorDetail; erRequestID : string }.

#[export] Instance json_of_ErrorResponse : ToJson ErrorResponse := λ e, JObj
  [("error", JObj [("code", JStr (edCode (erError e))); ("message", JStr (edMessage (erError e)))]);
   ("request_id", JStr (erRequestID e))].

(* src: internal/api/apierr/apierr.go requestID *)
Definition requestID (r : Request) : string := header_get r "X-Request-ID".

Section Handlers.
Context {W : Type}.

(** A computation of a handler: on the world and the response writer. *)
Abbreviation H := (M (W * RW)).

Definition on_world {A} (m : M W A) : H A := λ s,
  let '(a, w) := m s.1 in (a, (w, s.2)).

Definition on_rw (f : RW → RW) : H () := λ s, (tt, (s.1, f s.2)).

(* src: internal/api/apierr/apierr.go WriteJSON *)
Definition WriteJSON {A} `{ToJson A} (status : Z) (v : A) : H () :=
  _ ← on_rw (rw_set_header "Content-Type" "application/json; charset=utf-8");
  _ ← on_rw (rw_write_header status);
  on_rw (rw_write (CJson (to_json v))).

(* src: internal/api/apierr/apierr.go WriteError *)
Definition WriteError (r : Request) (status : Z) (code message : string) : H () :=
  let resp := mkErrorResponse (mkErrorDetail code message) (requestID r) in
  WriteJSON status resp.

(** [w.WriteHeader(status)]. *)
Definition WriteHeader (status : Z) : H () := on_rw (rw_write_header status).

(** [http.Redirect] to an absolute path, for a page request. *)
Definition Redirect (r : Request) (url : string) (code : Z) : H () :=
  _ ← on_rw (rw_set_header "Location" url);
  let page := String.eqb (rqMethod r) "GET" || String.eqb (rqMethod r) "HEAD" in
  _ ← (if page then on_rw (rw_set_header "Content-Type" "text/html; charset=utf-8") else mret tt);
  _ ← WriteHeader code;
  if String.eqb (rqMethod r) "GET"
  then on_rw (rw_write (CText ("<a href=" +:+ String (chr 34) (url +:+ String (chr 34) ">Found</a>.") +:+ String (chr 10) (String (chr 10) ""))))
  else mret tt.

Definition Handler := Request → H ().

(** The answer of a handler to a request. *)
Definition respond (h : Handler) (r : Request) (w : W) : RW * W :=
  let '(_, (w', rw)) := h r (w, fresh_rw) in (rw, w').

(** A handler that may panic, with a value that prints as the text. *)
Definition PHandler := Request → H (option string).

Definition no_panic (h : Handler) : PHandler := λ r, _ ← h r; mret None.

(** A value of the response so far. *)
Definition of_rw {A} (f : RW → A) : H A := λ s, (f s.2, s).

(** [r.URL.Path], after what handlers have put there. *)
Definition url_path (r : Request) : H string := of_rw (λ rw, default (rqPath r) (rwURLPath rw)).

(** ** Middleware *)

(** The header is fixed by the request or the clock; the context value has no
    reader in the program. *)
(* src: internal/api/middleware.go RequestID *)
Definition RequestID (now : M W Time) (next : Handler) : Handler := λ r,
  id ← (if String.eqb (header_get r "X-Request-ID") "" then t ← on_world now; mret (Itoa t)
        else mret (header_get r "X-Request-ID"));
  _ ← on_rw (rw_set_header "X-Request-ID" id);
  next r.

(** The entry that the logger writes for a request. *)
(* src: internal/api/middleware.go 66-72 Logger *)
Definition request_log (r : Request) (path : string) (status duration : Z) : LogRecord :=
  mkLogRecord "INFO" "http request"
    [("method", JStr (rqMethod r)); ("path", JStr path); ("status", JInt status);
     ("duration", JInt duration); ("request_id", JStr (header_get r "X-Request-ID"))].

(** Hijacking and unwrapping reach the writer below the recorder, and are those
    of the library. *)
(* src: internal/api/middleware.go Logger *)
Definition Logger (now : M W Time) (next : Handler) : Handler := λ r,
  start ← on_world now;
  outer ← of_rw rwRecorder;
  _ ← on_rw (set_recorder (Some 200));
  _ ← next r;
  path ← url_path r;
  status ← of_rw (λ rw, default 200 (rwRecorder rw));
  stop ← on_world now;
  _ ← on_rw (rw_log (request_log r path status (stop - start)));
  on_rw (set_recorder outer).

(** A panic of the handlers below is answered with a fixed error. *)
(* src: internal/api/middleware.go Recovery *)
Definition Recovery (next : PHandler) : Handler := λ r,
  rec ← next r;
  match rec with
  | None => mret tt
  | Some value =>
      path ← url_path r;
      _ ← on_rw (rw_log (mkLogRecord "ERROR" "panic recovered"
            [("panic", JStr value); ("path", JStr path)]));
      _ ← on_rw (rw_set_header "Content-Type" "application/json; charset=utf-8");
      _ ← on_rw (rw_write_header StatusInternalServerError);
      on_rw (rw_write (CJson (JObj [("error",
        JObj [("code", JStr "INTERNAL_ERROR"); ("message", JStr "Internal server error.")])])))
  end.

(* src: internal/api/middleware.go CORS *)
Definition CORS (allowedOrigin : string) (next : Handler) : Handler := λ r,
  let origin := if String.eqb allowedOrigin "" then "*" else allowedOrigin in
  _ ← on_rw (rw_set_header "Access-Control-Allow-Origin" origin);
  _ ← on_rw (rw_set_header "Vary" "Origin");
  _ ← on_rw (rw_set_header "Access-Control-Allow-Methods" "GET, POST, DELETE, OPTIONS");
  _ ← on_rw (rw_set_header "Access-Control-Allow-Headers" "Content-Type, Authorization, X-Request-ID");
  if String.eqb (rqMethod r) "OPTIONS" then WriteHeader StatusNoContent else next r.

(* src: internal/api/middleware.go SecureHeaders *)
Definition SecureHeaders (next : Handler) : Handler := λ r,
  _ ← on_rw (rw_set_header "Content-Security-Policy"
    "default-src 'self'; script-src 'self' 'unsafe-inline'; style-src 'self' 'unsafe-inline'; img-src 'self' data:; font-src 'self'");
  _ ← on_rw (rw_set_header "X-Content-Type-Options" "nosniff");
  _ ← on_rw (rw_set_header "X-Frame-Options" "DENY");
  _ ← on_rw (rw_set_header "Referrer-Policy" "strict-origin-when-cross-origin");
  _ ← on_rw (rw_set_header "Permissions-Policy" "geolocation=(), camera=(), microphone=()");
  next r.

End Handlers.

(** * Lemmas *)

(** A property of the answer, from the steps of the handler. *)
Lemma respond_wp {W} (h : Handler) r (w : W) (Q : RW → W → Prop) :
  wp (h r) (λ _ st, Q st.2 st.1) (w, fresh_rw) → let '(rw, w') := respond h r w in Q rw w'.
Proof. unfold wp, respond. by destruct (h r (w, fresh_rw)) as [[] [w' rw]]. Qed.

(** What is sent, and what a write adds. *)
Definition sent_with (code : Z) (rw : RW) : Z * gmap string string * list Cookie :=
  default (code, rwHeader rw, rwCookies rw) (rwSent rw).

Lemma sent_send code rw : rwSent (rw_send code rw) = Some (sent_with code rw).
Proof. unfold rw_send, sent_with. by destruct (rwSent rw) eqn:E; rewrite ?E. Qed.

Lemma sent_write_header code rw : rwSent (rw_write_header code rw) = Some (sent_with code rw).
Proof. unfold rw_write_header. by rewrite sent_send. Qed.

Lemma sent_write c rw : rwSent (rw_write c rw) = Some (sent_with 200 rw).
Proof. unfold rw_write. simpl. by rewrite sent_send. Qed.

Lemma body_send code rw : rwBody (rw_send code rw) = rwBody rw.
Proof. unfold rw_send. by destruct (rwSent rw). Qed.

Lemma body_write_header code rw : rwBody (rw_write_header code rw) = rwBody rw.
Proof. unfold rw_write_header. by rewrite body_send. Qed.

Lemma body_write c rw : rwBody (rw_write c rw) = rwBody rw ++ [c].
Proof. unfold rw_write. simpl. by rewrite body_send. Qed.

(** The writer after a complete JSON answer. *)
Definition json_rw (status : Z) (v : json) (rw : RW) : RW :=
  rw_write (CJson v) (rw_write_header status
    (rw_set_header "Content-Type" "application/json; charset=utf-8" rw)).

Definition error_json (r : Request) (code message : string) : json :=
  to_json (mkErrorResponse (mkErrorDetail code message) (requestID r)).

Lemma wp_WriteJSON {W A} `{ToJson A} status (v : A) (w : W) rw Q :
  Q tt (w, json_rw status (to_json v) rw) → wp (WriteJSON status v) Q (w, rw).
Proof. done. Qed.

Lemma wp_WriteError {W} r status code message (w : W) rw Q :
  Q tt (w, json_rw status (error_json r code message) rw) →
  wp (WriteError r status code message) Q (w, rw).
Proof. done. Qed.

Lemma wp_on_rw {W} f (w : W) rw Q : Q tt (w, f rw) → wp (on_rw f) Q (w, rw).
Proof. done. Qed.

Lemma wp_of_rw {W A} (f : RW → A) (w : W) rw Q : Q (f rw) (w, rw) → wp (of_rw f) Q (w, rw).
Proof. done. Qed.


(** ** Invariants of the world *)

(** What holds of the world, whatever has been written. *)
Definition beside {W} (P : W → Prop) (st : W * RW) : Prop := P st.1.

Section Beside.
Context {W : Type} (P : W → Prop).

Lemma keeping_world {A} (Q : A → Prop) (m : M W A) :
  keeping P Q m → keeping (beside P) Q (on_world m).
Proof. intros Hm [w rw] Hw. destruct (Hm w Hw). unfold on_world. simpl. by destruct (m w). Qed.

Lemma keeping_on_rw (f : RW → RW) : keeping (beside P) (λ _, True) (on_rw f).
Proof. done. Qed.

Lemma keeping_of_rw {A} (f : RW → A) : keeping (beside P) (λ _, True) (of_rw f).
Proof. done. Qed.

Lemma keeping_json {A} `{ToJson A} status (v : A) :
  keeping (beside P) (λ _, True) (WriteJSON status v).
Proof. done. Qed.

Lemma keeping_error r status code message :
  keeping (beside P) (λ _, True) (WriteError r status code message).
Proof. done. Qed.

Lemma keeping_redirect r url code : keeping (beside P) (λ _, True) (Redirect r url code).
Proof.
  intros [w rw] Hw. unfold Redirect. cbv [mbind M_bind mret M_ret]. simpl.
  destruct (String.eqb (rqMethod r) "GET"); [done|]. by destruct (String.eqb (rqMethod r) "HEAD").
Qed.

(** What a handler keeps holds after its answer. *)
Lemma keeping_respond (Q : () → Prop) (h : Handler) r (w : W) :
  keeping (beside P) Q (h r) → P w → P (respond h r w).2.
Proof.
  intros Hh Hw. destruct (Hh (w, fresh_rw) Hw) as [H _]. unfold respond.
  by destruct (h r (w, fresh_rw)) as [[] [w' rw]].
Qed.

End Beside.

#[export] Hint Resolve keeping_world keeping_on_rw keeping_of_rw keeping_json keeping_error keeping_redirect : keeps.
