(* ===== verification/Auth.v ===== *)
(** * Authentication

    [internal/api/v1/auth.go] and the gate [RequireAuth] of
    [internal/api/middleware.go]: login, logout, the session report, and the
    middleware that lets a request through only with a valid session cookie
    when authentication is enabled. *)

From S2P Require Import Prelude.
From S2P Require Import GoString.
From S2P Require Import Crypto.
From S2P Require Import DnsTypes.
From S2P Require Import Settings.
From S2P Require Import Session.
From S2P Require Import Env.
From S2P Require Import GoTime.
From S2P Require Import Storage.
From S2P Require Import Interleave.
From S2P Require Import Sql.
From S2P Require Import Sqlite.
From S2P Require Import SqlRefine.
From S2P Require Import Json.
From S2P Require Import Http.

Local Open Scope Z_scope.

(** A week, in nanoseconds. *)
(* src: internal/api/v1/auth.go sessionTTL *)
Definition sessionTTL : Z := 7 * 24 * 3600 * 10 ^ 9.

(* src: internal/api/v1/auth.go loginRequest *)
Record loginRequest := mkLoginRequest { lgUsername : string; lgPassword : string }.

(* src: internal/api/v1/auth.go sessionResponse *)
Record sessionResponse := mkSessionResponse {
  ssEnabled : bool;
  ssAuthenticated : bool;
  ssUsername : string
}.

#[export] Instance json_of_sessionResponse : ToJson sessionResponse := λ s, JObj (
  [("enabled", JBool (ssEnabled s)); ("authenticated", JBool (ssAuthenticated s))]
  ++ omitempty (String.eqb (ssUsername s) "") "username" (JStr (ssUsername s))).

Section Auth.
Context {S C N : Type} {SO : StorageOps S} {EN : Env N} {A2 : Argon2}
  {BL : BodyDecode loginRequest}.

Abbreviation world := (World S C N).
Abbreviation H := (M (world * RW)).

Definition store_op {A} (m : M S A) : H A := on_world (on_store m).
Definition env_op {A} (m : M N A) : H A := on_world (on_net m).

(** The answer to a request without a valid session. *)
(* src: internal/api/middleware.go 106-112 RequireAuth *)
Definition deny (apiMode : bool) (r : Request) : H () :=
  if apiMode then WriteError r StatusUnauthorized "UNAUTHORIZED" "Authentication required."
  else Redirect r "/login" StatusFound.

(* src: internal/api/middleware.go RequireAuth *)
Definition RequireAuth (apiMode : bool) (next : Handler) : Handler := λ r,
  s ← store_op GetSettings;
  match s with
  | Err _ => deny apiMode r
  | Ok s =>
      if negb (authEnabled (sAuth s)) then next r else
      match cookie_of r SessionCookie with
      | None => deny apiMode r
      | Some c =>
          t ← env_op Now;
          match ParseSession (sSessionSecret s) c t with
          | None => deny apiMode r
          | Some name =>
              if negb (String.eqb name (authUsername (sAuth s))) then deny apiMode r
              else next r
          end
      end
  end.

(** The signing secret: the stored one, or a new one that is stored. *)
(* src: internal/api/v1/auth.go 56-68 Login *)
Definition ensure_secret (r : Request) (s : Settings) : H (option Settings) :=
  if negb (String.eqb (sSessionSecret s) "") then mret (Some s) else
  buf ← env_op (rand_Read 32);
  match GenerateToken buf with
  | Err _ =>
      _ ← WriteError r StatusInternalServerError ErrCodeInternal "Failed to start session.";
      mret None
  | Ok secret =>
      let s := set_sSessionSecret s secret in
      err ← store_op (SaveSettings s);
      match err with
      | Some _ =>
          _ ← WriteError r StatusInternalServerError ErrCodeInternal
                "Failed to persist session secret.";
          mret None
      | None => mret (Some s)
      end
  end.

(* src: internal/api/v1/auth.go Login *)
Definition Login : Handler := λ r,
  match decode_body (A := loginRequest) (rqBody r) with
  | None => WriteError r StatusBadRequest ErrCodeInvalidInput "Invalid request body."
  | Some req =>
      s ← store_op GetSettings;
      match s with
      | Err _ => WriteError r StatusInternalServerError ErrCodeInternal "Failed to load settings."
      | Ok s =>
          if negb (authEnabled (sAuth s)) then
            WriteError r StatusBadRequest ErrCodeInvalidInput "Authentication is not enabled."
          else if negb (String.eqb (lgUsername req) (authUsername (sAuth s)))
                  || negb (VerifySecret (lgPassword req) (authPasswordHash (sAuth s))) then
            WriteError r StatusUnauthorized "UNAUTHORIZED" "Invalid username or password."
          else
            s ← ensure_secret r s;
            match s with
            | None => mret tt
            | Some s =>
                t1 ← env_op Now;
                let token := SignSession (sSessionSecret s) (authUsername (sAuth s)) sessionTTL t1 in
                t2 ← env_op Now;
                _ ← on_rw (rw_set_cookie
                      (mkCookie SessionCookie token "/" true 0 (t2 + sessionTTL)));
                WriteJSON StatusOK_http (mkSessionResponse true true (authUsername (sAuth s)))
            end
      end
  end.

(* src: internal/api/v1/auth.go Logout *)
Definition Logout : Handler (W := world) := λ r,
  _ ← on_rw (rw_set_cookie (mkCookie SessionCookie "" "/" true (-1) 0));
  WriteJSON StatusOK_http (mkSessionResponse false false "").

(* src: internal/api/v1/auth.go Session *)
Definition Session_handler : Handler := λ r,
  s ← store_op GetSettings;
  match s with
  | Err _ => WriteError r StatusInternalServerError ErrCodeInternal "Failed to load settings."
  | Ok s =>
      let enabled := authEnabled (sAuth s) in
      name ←
        (if negb enabled then mret None else
         match cookie_of r SessionCookie with
         | None => mret None
         | Some c =>
             t ← env_op Now;
             mret (name ← ParseSession (sSessionSecret s) c t;
                   if String.eqb name (authUsername (sAuth s)) then Some name else None)
         end);
      WriteJSON StatusOK_http (match name with
        | Some name => mkSessionResponse enabled true name
        | None => mkSessionResponse enabled false ""
        end)
  end.

End Auth.

(** * Lemmas *)

(** ** Rules for the steps of a handler *)

Section Rules.
Context {S C N : Type} {SO : StorageOps S} `{SL : !StorageLaws S SO} {EN : Env N}.

Abbreviation world := (World S C N).

(** The settings in force. *)
Definition settings_of (w : world) : Settings := default Default (abs_settings (view (w_store w))).

(** A world whose store works, with the same contents. *)
Definition same_store (w w' : world) : Prop :=
  healthy (w_store w') ∧ view (w_store w') = view (w_store w).

Lemma same_store_refl w : healthy (w_store w) → same_store w w.
Proof. done. Qed.

Lemma same_store_trans w1 w2 w3 : same_store w1 w2 → same_store w2 w3 → same_store w1 w3.
Proof. intros [_ H1] [? H2]. split; [done|congruence]. Qed.

Lemma same_store_settings w w' : same_store w w' → settings_of w' = settings_of w.
Proof. unfold settings_of. by intros [_ ->]. Qed.

Lemma wp_settings (w : world) rw Q : healthy (w_store w) →
  (∀ w', same_store w w' → w_net w' = w_net w → Q (Ok (settings_of w)) (w', rw)) →
  wp (store_op GetSettings) Q (w, rw).
Proof.
  intros Hh HQ. destruct (GetSettings_law _ Hh) as (s' & Hs & Hh' & Hv).
  unfold wp, store_op, on_world, on_store. simpl. rewrite Hs. by apply HQ.
Qed.

Lemma wp_save_settings (w : world) rw x Q : healthy (w_store w) → okSettings x →
  (∀ w', healthy (w_store w') → view (w_store w') = set_settings (view (w_store w)) (Some x) →
    w_net w' = w_net w → Q None (w', rw)) →
  wp (store_op (SaveSettings x)) Q (w, rw).
Proof.
  intros Hh Hx HQ. destruct (SaveSettings_law x _ Hh Hx) as (s' & Hs & Hh' & Hv).
  unfold wp, store_op, on_world, on_store. simpl. rewrite Hs. by apply HQ.
Qed.

Lemma wp_env {A} (w : world) rw (m : M N A) Q :
  Q (m (w_net w)).1 (mkWorld (w_store w) (w_cache w) (m (w_net w)).2, rw) →
  wp (env_op m) Q (w, rw).
Proof. unfold wp, env_op, on_world, on_net. simpl. by destruct (m (w_net w)). Qed.

Lemma wp_store {A} (w : world) rw (m : M S A) Q :
  Q (m (w_store w)).1 (mkWorld (m (w_store w)).2 (w_cache w) (w_net w), rw) →
  wp (store_op m) Q (w, rw).
Proof. unfold wp, store_op, on_world, on_store. simpl. by destruct (m (w_store w)). Qed.

End Rules.

(** ** The gate *)

(** A session token of the user, signed with the secret and not expired. *)
Definition valid_session (secret user token : string) (now : Time) : Prop :=
  ∃ enc raw expStr exp,
    token = enc +:+ "." +:+ sign secret enc ∧ has_char "." enc = false ∧
    RawURL_Decode enc = Some raw ∧ of_bytes raw = user +:+ "|" +:+ expStr ∧
    has_char "|" user = false ∧ ParseInt expStr = Some exp ∧ Unix now < exp.

Section Gate.
Context {S C N : Type} {SO : StorageOps S} `{SL : !StorageLaws S SO} {EN : Env N}.

Abbreviation world := (World S C N).

(** The instant the gate compares with. *)
Definition clock (w : world) : Time := (Now (w_net w)).1.

(** The session that a request presents. *)
Definition admitted (w : world) (r : Request) : bool :=
  negb (authEnabled (sAuth (settings_of w))) ||
  match cookie_of r SessionCookie with
  | None => false
  | Some c =>
      bool_decide (ParseSession (sSessionSecret (settings_of w)) c (clock w)
                   = Some (authUsername (sAuth (settings_of w))))
  end.

Lemma RequireAuth_run apiMode (next : Handler) r (w : world) rw :
  healthy (w_store w) → ∃ w', same_store w w' ∧
  RequireAuth apiMode next r (w, rw) =
    (if admitted w r then next r (w', rw) else deny apiMode r (w', rw)).
Proof.
  intros Hh.
  set (res w' := if admitted w r then next r (w', rw) else deny apiMode r (w', rw)).
  enough (wp (RequireAuth apiMode next r) (λ a st, ∃ w', same_store w w' ∧ (a, st) = res w') (w, rw))
    as H.
  { unfold wp in H. destruct (RequireAuth apiMode next r (w, rw)) as [a st]. done. }
  assert (∀ w' (h : M (world * RW) ()), same_store w w' → h (w', rw) = res w' →
    wp h (λ a st, ∃ w', same_store w w' ∧ (a, st) = res w') (w', rw)) as Hdone.
  { intros w' h Hw' Hh'. unfold wp. destruct (h (w', rw)) as [a st]. by exists w'. }
  unfold RequireAuth. apply wp_bind, wp_settings; [done|]. intros w' Hw' Hnet.
  subst res. unfold admitted, clock in *. cbv beta in *.
  destruct (authEnabled (sAuth (settings_of w))); simpl; [|by apply Hdone].
  destruct (cookie_of r SessionCookie) as [c|]; [|by apply Hdone].
  apply wp_bind, wp_env. rewrite Hnet. set (t := (Now (w_net w)).1) in *.
  set (w2 := mkWorld _ _ _).
  assert (same_store w w2) as Hw2 by done.
  destruct (ParseSession _ c t) as [name|];
    [|apply Hdone; [done|by rewrite bool_decide_eq_false_2 by done]].
  destruct (String.eqb_spec name (authUsername (sAuth (settings_of w)))) as [->|Hne]; simpl.
  - apply Hdone; [done|]. by rewrite bool_decide_eq_true_2.
  - apply Hdone; [done|]. by rewrite bool_decide_eq_false_2 by congruence.
Qed.

End Gate.

(** ** Sessions *)

Lemma valid_session_iff secret user token now :
  ParseSession secret token now = Some user ↔ valid_session secret user token now.
Proof. apply parse_accepts. Qed.

(** A generated secret is not empty. *)
Lemma GenerateToken_nonempty l secret :
  GenerateToken (Ok l) = Ok secret → l ≠ [] → Forall is_byte l → secret ≠ "".
Proof.
  intros [= <-] Hl Hb He. pose proof (RawURL_round_trip l Hb) as H. rewrite He in H.
  injection H as <-. done.
Qed.

(** A session signed within the clock's range, presented while its secret and
    user are in force. *)
Lemma admitted_signed {S C N} {SO : StorageOps S} `{SL : !StorageLaws S SO} {EN : Env N}
    (w : World S C N) r t :
  authEnabled (sAuth (settings_of w)) = true → 0 ≤ t < 2 ^ 63 →
  cookie_of r SessionCookie =
    Some (SignSession (sSessionSecret (settings_of w)) (authUsername (sAuth (settings_of w)))
            sessionTTL t) →
  admitted w r = negb (has_char "|" (authUsername (sAuth (settings_of w)))) &&
                 (Unix (clock w) <? Unix (t + sessionTTL)).
Proof.
  intros Hen Ht Hc. unfold admitted. rewrite Hen, Hc. cbn [negb orb]. rewrite parse_signed.
  2:{ unfold Unix, sessionTTL, min_int64, max_int64. Z.to_euclidean_division_equations. lia. }
  destruct (has_char "|" _); [done|]. cbn [negb andb].
  case_decide; [rewrite bool_decide_eq_true_2 by done|rewrite bool_decide_eq_false_2 by done];
    symmetry; [by apply Z.ltb_lt|by apply Z.ltb_ge; lia].
Qed.

Lemma week_later t : Unix (t + sessionTTL) = Unix t + 604800.
Proof.
  unfold Unix, sessionTTL. change (7 * 24 * 3600 * 10 ^ 9) with (604800 * 10 ^ 9).
  by rewrite Z.div_add.
Qed.

Section Login.
Context {S C N : Type} {SO : StorageOps S} `{SL : !StorageLaws S SO} {EN : Env N}
  `{EO : !EnvOk N EN} {A2 : Argon2} {BL : BodyDecode loginRequest}.

Abbreviation world := (World S C N).

(** The environment after a secret has been drawn, when there was none. *)
Definition secret_drawn (w : world) (n : N) : N :=
  if String.eqb (sSessionSecret (settings_of w)) "" then (rand_Read 32 n).2 else n.

Lemma wp_ensure_secret r (w w0 : world) rw Q :
  same_store w0 w → (∀ x, okSettings (set_sSessionSecret (settings_of w0) x)) →
  (∀ n : N, is_ok (rand_Read 32 n).1 = true) →
  (∀ s w', healthy (w_store w') → settings_of w' = s → sAuth s = sAuth (settings_of w0) →
    sSessionSecret s ≠ "" → (sSessionSecret (settings_of w0) ≠ "" → s = settings_of w0) →
    w_net w' = secret_drawn w0 (w_net w) → Q (Some s) (w', rw)) →
  wp (ensure_secret r (settings_of w0)) Q (w, rw).
Proof.
  intros Hw Hok Hrand HQ. unfold ensure_secret, secret_drawn in *.
  destruct (String.eqb_spec (sSessionSecret (settings_of w0)) "") as [He|He]; simpl.
  2:{ apply wp_ret, HQ; try done; [by destruct Hw|by apply same_store_settings]. }
  apply wp_bind, wp_env. specialize (Hrand (w_net w)).
  pose proof (rand_bytes 32 (w_net w)) as Hb.
  destruct (rand_Read 32 (w_net w)) as [[l|e] n]; [|done]. simpl.
  destruct (Hb n l eq_refl) as [Hlen Hl].
  pose proof (GenerateToken_nonempty l _ eq_refl ltac:(by intros ->) Hl) as Hne.
  set (secret := RawURL_Encode l) in *.
  apply wp_bind, wp_save_settings; [by destruct Hw|apply Hok|]. intros w' Hh' Hv Hn'.
  apply wp_ret, HQ; try done. unfold settings_of at 1. by rewrite Hv.
Qed.

(** C8: a login that names the configured user and a password that verifies
    answers 200 with one HttpOnly session cookie that expires a week after it
    was set, and as long as the settings stay, the gate lets a request with it
    through while the clock shows less than 604800 seconds after the instant of
    the login, and not from then on (never when the name contains [|]); a
    signing secret is created and stored when there was none, and kept
    otherwise.  Any other login is refused without a cookie and without a trace
    in the store. *)
Theorem Login_session (w : world) r user pw
    (Hh : healthy (w_store w))
    (Hok : ∀ x, okSettings (set_sSessionSecret (settings_of w) x))
    (Hrand : ∀ n : N, is_ok (rand_Read 32 n).1 = true)
    (Hbody : decode_body (rqBody r) = Some (mkLoginRequest user pw)) :
  let s := settings_of w in
  let login := Now (secret_drawn w (w_net w)) in
  let '(rw, w1) := respond Login r w in
  healthy (w_store w1) ∧
  if authEnabled (sAuth s) && String.eqb user (authUsername (sAuth s))
     && VerifySecret pw (authPasswordHash (sAuth s))
  then
    rwStatus rw = 200 ∧ sAuth (settings_of w1) = sAuth s ∧ sSessionSecret (settings_of w1) ≠ "" ∧
    (sSessionSecret s ≠ "" → settings_of w1 = s) ∧
    ∃ c, sent_cookies rw = [c] ∧ ckName c = SessionCookie ∧ ckHttpOnly c = true ∧
      ckPath c = "/" ∧ ckExpires c = (Now login.2).1 + 604800 * 10 ^ 9 ∧
      ∀ apiMode next r' (w' : world) rw', same_store w1 w' →
        cookie_of r' SessionCookie = Some (ckValue c) → ∃ w'', same_store w' w'' ∧
        RequireAuth apiMode next r' (w', rw') =
          if negb (has_char "|" user) && (Unix (clock w') <? Unix login.1 + 604800)
          then next r' (w'', rw') else deny apiMode r' (w'', rw')
  else (rwStatus rw = 400 ∨ rwStatus rw = 401) ∧ sent_cookies rw = [] ∧
    view (w_store w1) = view (w_store w).
Proof.
  intros s login. apply respond_wp. cbn [fst snd].
  set (accepted := _ && _ && _). unfold Login. rewrite Hbody.
  apply wp_bind, wp_settings; [done|]. intros w1 Hw1 Hn1. fold s.
  destruct (authEnabled (sAuth s)) eqn:Hen; cbn [negb].
  2:{ apply wp_WriteError. subst accepted. cbn [andb]. destruct Hw1. split; [done|]. auto. }
  subst accepted. cbn [andb lgUsername lgPassword].
  destruct (String.eqb_spec user (authUsername (sAuth s))) as [->|]; cbn [negb orb andb].
  2:{ apply wp_WriteError. destruct Hw1. split; [done|]. auto. }
  destruct (VerifySecret pw (authPasswordHash (sAuth s))); cbn [negb].
  2:{ apply wp_WriteError. destruct Hw1. split; [done|]. auto. }
  apply wp_bind. apply (wp_ensure_secret r w1 w); [done..|].
  intros s2 w2 Hh2 Hs2 Hauth Hne Hsame Hnet. rewrite Hn1 in Hnet. apply wp_bind, wp_env.
  rewrite Hnet. fold login. set (t := login.1).
  assert (0 ≤ t < 2 ^ 63) as Ht by apply Now_range.
  apply wp_bind, wp_env. apply wp_bind, wp_on_rw. apply wp_WriteJSON. cbn [fst snd].
  set (w3 := mkWorld _ _ _).
  assert (settings_of w3 = s2) as Hs3 by done.
  rewrite Hs3, Hauth. split_and!; try done.
  eexists. split_and!; [reflexivity|done..|].
  intros apiMode next r' w' rw' Hw' Hc. cbn [ckValue] in Hc.
  destruct (RequireAuth_run apiMode next r' w' rw') as (w'' & Hw'' & ->); [apply Hw'|].
  exists w''. split; [done|].
  pose proof (same_store_settings _ _ Hw') as Hs'. rewrite Hs3 in Hs'.
  rewrite (admitted_signed w' r' t); rewrite ?Hs', ?Hauth; fold s; [|done..].
  by rewrite week_later.
Qed.
End Login.

(** ** Next to other requests *)

(** Enabled authentication has a user and a password, and every channel an
    identifier. *)
Definition settings_valid (s : Settings) : Prop :=
  (authEnabled (sAuth s) = true → authUsername (sAuth s) ≠ "" ∧ authPasswordHash (sAuth s) ≠ "") ∧
  Forall (λ c, chID c ≠ "") (sNotifications s).

(** An invariant of the store that says that of the settings. *)
Class SettingsInv (I : AbsStore → Prop) (G : op → Prop) : Prop := {
  inv_settings : ∀ a, I a → settings_valid (default Default (abs_settings a));
  inv_save_settings : ∀ s, settings_valid s → G (OSaveSettings s)
}.

(** A handler that keeps what [K] says of the store. *)
Definition handler_keeps {S C N} (K : S → Prop) (h : Handler (W := World S C N)) : Prop :=
  ∀ r, keeping (beside (calm K)) (λ _, True) (h r).

Section Calm.
Context {S C N : Type} {SO : StorageOps S} {EN : Env N} {A2 : Argon2}
  {BL : BodyDecode loginRequest} (keep : Time → Time) (I : AbsStore → Prop) (G : op → Prop)
  (K : S → Prop)
  `{SK : !StoreKeeps SO keep I G K} `{SI : !SettingsInv I G}.

Lemma keeping_settings : keeping (calm K) (λ r, ∃ s, r = Ok s ∧ settings_valid s)
  (on_store (C := C) (N := N) GetSettings).
Proof.
  apply (keeping_call keep I G _ OGetSettings RSettings); [done|by apply reading_allowed|].
  intros a x Ha [= ->]. eexists. split; [done|by apply inv_settings].
Qed.

Lemma keeping_save_settings s : settings_valid s →
  keeping (calm K) (λ _, True) (on_store (C := C) (N := N) (SaveSettings s)).
Proof. intros. by eapply (keeping_write _ _ _ _ (OSaveSettings s)), inv_save_settings. Qed.

Hint Resolve keeping_settings keeping_save_settings : keeps.

Lemma RequireAuth_calm apiMode (next : Handler) :
  handler_keeps (C := C) K next → handler_keeps K (RequireAuth apiMode next).
Proof.
  intros Hn r. unfold handler_keeps in Hn.
  assert (keeping (beside (calm (C := C) (N := N) K)) (λ _, True) (deny apiMode r)) as Hd.
  { unfold deny. keeps. }
  unfold RequireAuth, store_op, env_op. keeps.
Qed.

Lemma keeping_ensure_secret r s : settings_valid s →
  keeping (beside (calm K)) (λ _, True) (ensure_secret (C := C) r s).
Proof.
  intros [Hs Hc].
  assert (∀ x, settings_valid (set_sSessionSecret s x)) as Hx by (by split).
  unfold ensure_secret, store_op, env_op. keeps.
Qed.

Lemma Login_calm : handler_keeps (C := C) K Login.
Proof.
  intros r. unfold Login, store_op, env_op. destruct (decode_body _) as [req|]; [|keeps].
  eapply keeping_bind; [eauto with keeps|]. intros x (s & -> & Hs).
  pose proof (keeping_ensure_secret r s Hs). keeps.
Qed.

Lemma Logout_calm : handler_keeps (S := S) (C := C) (N := N) K Logout.
Proof. intros r. unfold Logout. keeps. Qed.

Lemma Session_calm : handler_keeps (S := S) (C := C) (N := N) K Session_handler.
Proof.
  intros r. unfold Session_handler, store_op, env_op. 
  eapply keeping_bind; [eauto with keeps|]. intros x (s & -> & Hs). cbv zeta.
  eapply (keeping_bind _ (λ _, True)); keeps.
Qed.

End Calm.

(** C12: with authentication enabled, the gate passes a request on exactly when
    it presents a cookie with an unexpired session of the configured user under
    the stored secret; everything else gets 401 from the API and a redirect to
    the login page elsewhere, whatever lies behind the gate, and changes
    nothing.  With authentication disabled every request passes. *)
Theorem RequireAuth_gate {S C N} {SO : StorageOps S} `{SL : !StorageLaws S SO} {EN : Env N}
    apiMode next r (w : World S C N) (Hh : healthy (w_store w)) :
  let s := settings_of w in
  let through := authEnabled (sAuth s) = false ∨ ∃ c, cookie_of r SessionCookie = Some c ∧
    valid_session (sSessionSecret s) (authUsername (sAuth s)) c (clock w) in
  (through → ∃ w', same_store w w' ∧
     respond (RequireAuth apiMode next) r w = respond next r w') ∧
  (¬ through →
     let '(rw, w') := respond (RequireAuth apiMode next) r w in
     rwStatus rw = (if apiMode then 401 else 302) ∧ sent_cookies rw = [] ∧ same_store w w').
Proof.
  intros s through. destruct (RequireAuth_run apiMode next r w fresh_rw Hh) as (w' & Hw' & Hrun).
  assert (admitted w r = true ↔ through) as Had.
  { unfold admitted, through. fold s. destruct (authEnabled (sAuth s)); [|by split; [left|]].
    cbn [negb orb]. destruct (cookie_of r SessionCookie) as [c|].
    - rewrite bool_decide_eq_true, valid_session_iff. split; [|by intros [|(? & [= ->] & ?)]].
      intros H. right. by exists c.
    - split; [done|]. by intros [|(c & ? & _)]. }
  unfold respond. rewrite Hrun. destruct (admitted w r).
  - split; [|intros Hn; exfalso; by apply Hn, Had]. intros _. by exists w'.
  - split; [intros Ht; by apply Had in Ht|]. intros _. unfold deny. destruct apiMode; [done|].
    unfold Redirect. cbv [mbind M_bind mret M_ret]. simpl.
    destruct (String.eqb (rqMethod r) "GET"); simpl; [done|].
    by destruct (String.eqb (rqMethod r) "HEAD").
Qed.

(** The session report tells the truth: it names the user exactly when
    authentication is enabled and the gate would pass a request with the same
    cookie, and it changes nothing. *)
Theorem Session_reports {S C N} {SO : StorageOps S} `{SL : !StorageLaws S SO} {EN : Env N}
    r (w : World S C N) (Hh : healthy (w_store w)) :
  let s := settings_of w in
  let '(rw, w') := respond Session_handler r w in
  same_store w w' ∧ rwStatus rw = 200 ∧
  rwBody rw = [CJson (to_json
    (if authEnabled (sAuth s) && admitted w r
     then mkSessionResponse true true (authUsername (sAuth s))
     else mkSessionResponse (authEnabled (sAuth s)) false ""))].
Proof.
  intros s. apply respond_wp. cbn [fst snd]. unfold Session_handler.
  apply wp_bind, wp_settings; [done|]. intros w1 Hw1 Hn1. apply wp_bind. fold s.
  unfold admitted. fold s. destruct (authEnabled (sAuth s)) eqn:Hen; cbn [negb andb orb].
  2:{ by apply wp_ret, wp_WriteJSON. }
  destruct (cookie_of r SessionCookie) as [c|]; [|by apply wp_ret, wp_WriteJSON].
  apply wp_bind, wp_env. rewrite Hn1. apply wp_ret, wp_WriteJSON. cbn [fst snd].
  split_and!; [done|done|]. unfold clock.
  destruct (ParseSession _ c _) as [name|]; cbn [mbind option_bind];
    [|by rewrite bool_decide_eq_false_2 by done].
  destruct (String.eqb_spec name (authUsername (sAuth s))) as [->|Hne].
  - by rewrite bool_decide_eq_true_2.
  - by rewrite bool_decide_eq_false_2 by congruence.
Qed.

(** * Witnesses *)

Definition demo_settings : Settings :=
  mkSettings (mkAuth true "admin"
    match @HashSecret argon2_toy "pw" (Ok (seqZ 0 16)) with Ok h => h | Err _ => "" end) [] [] "".

Definition demo_db : DB string doc := (SaveSettings demo_settings (mkDB empty_tables [])).2.

Definition demo_world : World (DB string doc) unit Z := mkWorld demo_db tt 0.

Lemma demo_db_healthy : healthy (StorageLaws := sqlite_laws) demo_db.
Proof.
  pose proof (empty_healthy (blob := doc)) as H0.
  destruct (SaveSettings_law (StorageLaws := sqlite_laws) demo_settings _ H0 I)
    as (s & Hs & Hh & _).
  unfold demo_db. by rewrite Hs.
Qed.

(** Every body is the same login. *)
Definition demo_decode : BodyDecode loginRequest := λ _, Some (mkLoginRequest "admin" "pw").

Definition demo_request (cookies : list (string * string)) : Request :=
  mkRequest "POST" "/api/v1/auth/login" ∅ cookies ∅ ∅ "".

Definition demo_login : RW * World (DB string doc) unit Z :=
  respond (Login (A2 := argon2_toy) (BL := demo_decode)) (demo_request []) demo_world.

Lemma Login_session_witness :
  rwStatus demo_login.1 = 200 ∧ ∃ c, sent_cookies demo_login.1 = [c] ∧ ckName c = SessionCookie.
Proof.
  pose proof (Login_session (A2 := argon2_toy) (BL := demo_decode) demo_world (demo_request [])
    "admin" "pw" demo_db_healthy (λ _, I) (λ _, eq_refl) eq_refl) as H.
  cbv zeta in H. unfold demo_login.
  destruct (respond (Login (A2 := argon2_toy) (BL := demo_decode)) (demo_request []) demo_world)
    as [rw w1].
  destruct H as [_ H].
  match type of H with if ?b then _ else _ =>
    assert (b = true) as E by (vm_compute; reflexivity); rewrite E in H; clear E end.
  destruct H as (Hs & _ & _ & _ & c & Hc & Hn & _).
  split; [exact Hs|]. by exists c.
Defined.

Lemma RequireAuth_gate_witness :
  rwStatus (respond (RequireAuth true Logout) (demo_request []) demo_world).1 = 401.
Proof.
  pose proof (RequireAuth_gate true Logout (demo_request []) demo_world demo_db_healthy) as [_ H].
  destruct (respond _ _ _) as [rw w']. apply H. intros [Hd|(c & Hc & _)]; [|done].
  vm_compute in Hd. done.
Defined.

Lemma Session_reports_witness :
  rwStatus (respond Session_handler (demo_request []) demo_world).1 = 200.
Proof.
  pose proof (Session_reports (demo_request []) demo_world demo_db_healthy) as H.
  destruct (respond _ _ _) as [rw w']. apply H.
Defined.
