(* ===== verification/SettingsApi.v ===== *)
(** * Settings, token, schedule and notification handlers

    [internal/api/v1/settings.go]: the redacted view of the settings and its
    update, API tokens, schedules with their syntactic check, and the test of a
    notification channel. *)

From S2P Require Import Prelude.
From S2P Require Import GoString.
From S2P Require Import Crypto.
From S2P Require Import DnsTypes.
From S2P Require Import Settings.
From S2P Require Import Session.
From S2P Require Import Env.
From S2P Require Import GoTime.
From S2P Require Import Storage.
From S2P Require Import Interleave.
From S2P Require Import Sql.
From S2P Require Import Sqlite.
From S2P Require Import SqlRefine.
From S2P Require Import Monitor.
From S2P Require Import Json.
From S2P Require Import Http.
From S2P Require Import Auth.

Local Open Scope Z_scope.

(** ** Requests and views *)

(* src: internal/api/v1/settings.go settingsView *)
Record settingsView := mkSettingsView {
  svEnabled : bool;
  svUsername : string;
  svPasswordSet : bool;
  svNotifications : list NotificationChannel;
  svDisabledResolvers : list string
}.

#[export] Instance json_of_settingsView : ToJson settingsView := λ v, JObj
  [("auth", JObj [("enabled", JBool (svEnabled v)); ("username", JStr (svUsername v));
                  ("password_set", JBool (svPasswordSet v))]);
   ("notifications", to_json (svNotifications v));
   ("disabled_resolvers", to_json (svDisabledResolvers v))].

(* src: internal/api/v1/settings.go toView *)
Definition toView (s : Settings) : settingsView :=
  mkSettingsView (authEnabled (sAuth s)) (authUsername (sAuth s))
    (negb (String.eqb (authPasswordHash (sAuth s)) ""))
    (sNotifications s) (sDisabledResolvers s).

(** A nil list is the empty one. *)
(* src: internal/api/v1/settings.go updateSettingsRequest *)
Record updateSettingsRequest := mkUpdateSettings {
  usEnabled : bool;
  usUsername : string;
  usPassword : string;
  usNotifications : list NotificationChannel;
  usDisabledResolvers : list string
}.

(* src: internal/api/v1/settings.go createTokenRequest *)
Record createTokenRequest := mkCreateToken { ctName : string }.

(** The token's fields are embedded. *)
(* src: internal/api/v1/settings.go createTokenResponse *)
Record createTokenResponse := mkCreateTokenResponse { ctrToken : APIToken; ctrRaw : string }.

#[export] Instance json_of_createTokenResponse : ToJson createTokenResponse := λ r,
  JObj (token_fields (ctrToken r) ++ [("token", JStr (ctrRaw r))]).

(* src: internal/api/v1/settings.go scheduleRequest *)
Record scheduleRequest := mkScheduleRequest {
  scName : string;
  scCron : string;
  scEnabled : bool
}.

(* src: internal/api/v1/settings.go validCron *)
Definition validCron (expr : string) : bool :=
  let expr := TrimSpace expr in
  if String.eqb expr "" then false
  else if bool_decide (expr ∈ ["@hourly"; "@daily"; "@weekly"; "@monthly"; "@yearly";
                               "@annually"; "@midnight"]) then true
  else if HasPrefix expr "@every " then
    negb (String.eqb (TrimSpace (TrimPrefix expr "@every ")) "")
  else
    let n := length (Fields expr) in
    bool_decide (n = 5%nat) || bool_decide (n = 6%nat).

(** ** Handlers *)

Section SettingsApi.
Context {S C N : Type} {SO : StorageOps S} {EN : Env N} {A2 : Argon2} {V : Validator}
  {NO : Notifier N}
  {BU : BodyDecode updateSettingsRequest} {BT : BodyDecode createTokenRequest}
  {BS : BodyDecode scheduleRequest} {BC : BodyDecode NotificationChannel}.

Abbreviation world := (World S C N).
Abbreviation H := (M (world * RW)).

Definition invalid_body (r : Request) : H () :=
  WriteError r StatusBadRequest ErrCodeInvalidInput "Invalid request body.".

Definition internal_error (r : Request) (message : string) : H () :=
  WriteError r StatusInternalServerError ErrCodeInternal message.

(** The reply to a failed store call that may not find its object. *)
Definition store_failed (r : Request) (err : error) (missing failed : string) : H () :=
  if Is err ErrNotFound then WriteError r StatusNotFound ErrCodeNotFound missing
  else internal_error r failed.

(** The reply of the deleting handlers. *)
Definition deleted (r : Request) (err : option error) (missing failed : string) : H () :=
  match err with
  | Some err => store_failed r err missing failed
  | None => WriteHeader StatusNoContent
  end.

(** The reply of the listing handlers. *)
Definition listed {A} `{ToJson A} (r : Request) (l : result (list A)) (failed : string) : H () :=
  match l with
  | Err _ => internal_error r failed
  | Ok l => WriteJSON StatusOK_http l
  end.

(* src: internal/api/v1/settings.go GetSettings *)
Definition GetSettings_handler : Handler := λ r,
  s ← store_op GetSettings;
  match s with
  | Err _ => internal_error r "Failed to load settings."
  | Ok s => WriteJSON StatusOK_http (toView s)
  end.

(** The loop that gives every channel an identifier. *)
(* src: internal/api/v1/settings.go 106-110 UpdateSettings *)
Fixpoint stable_ids (channels : list NotificationChannel) : H (list NotificationChannel) :=
  match channels with
  | [] => mret []
  | c :: cs =>
      id ← (if String.eqb (chID c) "" then on_world fresh_id else mret (chID c));
      cs ← stable_ids cs;
      mret (mkChannel id (chType c) (chName c) (chEnabled c) (chConfig c) :: cs)
  end.

(** The stored hash, or that of the new password. *)
(* src: internal/api/v1/settings.go 84-92 UpdateSettings *)
Definition password_hash (current password : string) : H (result string) :=
  if String.eqb password "" then mret (Ok current) else
  salt ← env_op (rand_Read argonSaltLen);
  mret (HashSecret password salt).

(* src: internal/api/v1/settings.go UpdateSettings *)
Definition UpdateSettings : Handler := λ r,
  match decode_body (A := updateSettingsRequest) (rqBody r) with
  | None => invalid_body r
  | Some req =>
      current ← store_op GetSettings;
      match current with
      | Err _ => internal_error r "Failed to load settings."
      | Ok current =>
          hash ← password_hash (authPasswordHash (sAuth current)) (usPassword req);
          match hash with
          | Err _ => internal_error r "Failed to hash password."
          | Ok hash =>
              if usEnabled req && (String.eqb (usUsername req) "" || String.eqb hash "") then
                WriteError r StatusBadRequest ErrCodeInvalidInput
                  "A username and password are required to enable authentication."
              else
                channels ← stable_ids (usNotifications req);
                let current := mkSettings (mkAuth (usEnabled req) (usUsername req) hash)
                  channels (usDisabledResolvers req) (sSessionSecret current) in
                err ← store_op (SaveSettings current);
                match err with
                | Some _ => internal_error r "Failed to save settings."
                | None => WriteJSON StatusOK_http (toView current)
                end
          end
      end
  end.

(* src: internal/api/v1/settings.go ListTokens *)
Definition ListTokens : Handler := λ r,
  tokens ← store_op ListAPITokens;
  listed r tokens "Failed to list API tokens.".

(** [raw[:8]] is in range: a generated token has 43 characters. *)
(* src: internal/api/v1/settings.go CreateToken *)
Definition CreateToken : Handler := λ r,
  match decode_body (A := createTokenRequest) (rqBody r) with
  | None => invalid_body r
  | Some req =>
      match validate_struct [("Name", "required", ctName req)] with
      | Some err => WriteError r StatusBadRequest ErrCodeInvalidInput (Error err)
      | None =>
          buf ← env_op (rand_Read 32);
          match GenerateToken buf with
          | Err _ => internal_error r "Failed to generate token."
          | Ok raw =>
              salt ← env_op (rand_Read argonSaltLen);
              match HashSecret raw salt with
              | Err _ => internal_error r "Failed to hash token."
              | Ok hash =>
                  id ← on_world fresh_id;
                  t ← env_op Now;
                  let tok := mkAPIToken id (ctName req) hash (stake 8 raw) t None in
                  err ← store_op (CreateAPIToken tok);
                  match err with
                  | Some _ => internal_error r "Failed to create token."
                  | None => WriteJSON StatusCreated (mkCreateTokenResponse tok raw)
                  end
              end
          end
      end
  end.

(* src: internal/api/v1/settings.go DeleteToken *)
Definition DeleteToken : Handler := λ r,
  err ← store_op (DeleteAPIToken (URLParam r "id"));
  deleted r err "Token not found." "Failed to delete token.".

(* src: internal/api/v1/settings.go ListSchedules *)
Definition ListSchedules_handler : Handler := λ r,
  list ← store_op ListSchedules;
  listed r list "Failed to list schedules.".

(** The answer is written when the request is not valid. *)
(* src: internal/api/v1/settings.go scheduleRequest.validate *)
Definition scheduleRequest_validate (req : scheduleRequest) (r : Request) : H bool :=
  match validate_struct [("Name", "required", scName req); ("Cron", "required", scCron req)] with
  | Some err => _ ← WriteError r StatusBadRequest ErrCodeInvalidInput (Error err); mret false
  | None =>
      if negb (validCron (scCron req)) then
        _ ← WriteError r StatusBadRequest ErrCodeInvalidInput
          "Invalid schedule: use @hourly, @daily, @weekly, @monthly, @yearly, or a 5/6-field cron expression.";
        mret false
      else mret true
  end.

(* src: internal/api/v1/settings.go CreateSchedule *)
Definition CreateSchedule : Handler := λ r,
  match decode_body (A := scheduleRequest) (rqBody r) with
  | None => invalid_body r
  | Some req =>
      valid ← scheduleRequest_validate req r;
      if negb valid then mret tt else
      now ← env_op Now;
      id ← on_world fresh_id;
      let sc := mkSchedule id (scName req) (TrimSpace (scCron req)) (scEnabled req) now now in
      err ← store_op (SaveSchedule sc);
      match err with
      | Some _ => internal_error r "Failed to create schedule."
      | None => WriteJSON StatusCreated sc
      end
  end.

(* src: internal/api/v1/settings.go findSchedule *)
Definition findSchedule (id : string) : H (result Schedule) :=
  list ← store_op ListSchedules;
  mret match list with
       | Err err => Err err
       | Ok list =>
           match list_find (λ sc, schID sc = id) list with
           | Some (_, sc) => Ok sc
           | None => Err ErrNotFound
           end
       end.

(* src: internal/api/v1/settings.go UpdateSchedule *)
Definition UpdateSchedule : Handler := λ r,
  let id := URLParam r "id" in
  match decode_body (A := scheduleRequest) (rqBody r) with
  | None => invalid_body r
  | Some req =>
      valid ← scheduleRequest_validate req r;
      if negb valid then mret tt else
      existing ← findSchedule id;
      match existing with
      | Err err => store_failed r err "Schedule not found." "Failed to load schedule."
      | Ok existing =>
          t ← env_op Now;
          let existing := mkSchedule (schID existing) (scName req) (TrimSpace (scCron req))
            (scEnabled req) (schCreatedAt existing) t in
          err ← store_op (SaveSchedule existing);
          match err with
          | Some _ => internal_error r "Failed to update schedule."
          | None => WriteJSON StatusOK_http existing
          end
      end
  end.

(* src: internal/api/v1/settings.go DeleteSchedule *)
Definition DeleteSchedule_handler : Handler := λ r,
  err ← store_op (DeleteSchedule (URLParam r "id"));
  deleted r err "Schedule not found." "Failed to delete schedule.".

(* src: internal/api/v1/settings.go TestNotification *)
Definition TestNotification : Handler (W := world) := λ r,
  match decode_body (A := NotificationChannel) (rqBody r) with
  | None => invalid_body r
  | Some ch =>
      if String.eqb (chType ch) "" then
        WriteError r StatusBadRequest ErrCodeInvalidInput "Channel type is required."
      else
        err ← env_op (Send ch "dnsmon test notification — your channel is configured correctly.");
        match err with
        | Some err => WriteError r StatusBadGateway "NOTIFY_FAILED" (Error err)
        | None => WriteJSON StatusOK_http (JObj [("status", JStr "sent")])
        end
  end.

End SettingsApi.

(** * Lemmas *)

Lemma hex_nonempty l : l ≠ [] → hex l ≠ "".
Proof. by destruct l. Qed.

Lemma fresh_id_run {S C N} {EN : Env N} (w : World S C N) :
  fresh_id w = (Session.NewID match (rand_Read 8 (w_net w)).1 with
                              | Ok b => b
                              | Err _ => replicate 8 0
                              end,
                mkWorld (w_store w) (w_cache w) (rand_Read 8 (w_net w)).2).
Proof.
  unfold fresh_id, on_net. cbv [mbind M_bind mret M_ret].
  by destruct (rand_Read 8 (w_net w)) as [[l|e] n].
Qed.

(** The last 8 random bytes, or zeroes. *)
Lemma fresh_id_nonempty {S C N} {EN : Env N} `{!EnvOk N EN} (w : World S C N) :
  (fresh_id w).1 ≠ "".
Proof.
  rewrite fresh_id_run. simpl. apply hex_nonempty.
  pose proof (rand_bytes 8 (w_net w)) as H.
  destruct (rand_Read 8 (w_net w)) as [[l|e] n]; simpl; [|done].
  by destruct (H n l eq_refl) as [? _]; destruct l.
Qed.

Lemma wp_fresh_id {S C N} {EN : Env N} (w : World S C N) rw Q :
  (let '(id, w') := fresh_id w in Q id (w', rw)) → wp (on_world fresh_id) Q (w, rw).
Proof. unfold wp, on_world. simpl. by destruct (fresh_id w). Qed.

Lemma HashSecret_nonempty {A : Argon2} secret salt hash : HashSecret secret salt = Ok hash → hash ≠ "".
Proof. destruct salt; [|done]. by intros [= <-]. Qed.

(** A new hash verifies its secret, and is not empty. *)
Lemma HashSecret_verifies {A : Argon2} `{!Argon2Ok A} secret salt hash :
  Forall is_byte salt → HashSecret secret (Ok salt) = Ok hash →
  VerifySecret secret hash = true ∧ hash ≠ "".
Proof.
  intros Hs Hh. split.
  - rewrite (verify_hash secret secret hash salt) by done. by apply bool_decide_eq_true.
  - by eapply HashSecret_nonempty.
Qed.

(** A channel with a stable identifier. *)
Definition identified (c c' : NotificationChannel) : Prop :=
  chID c' ≠ "" ∧ (chID c ≠ "" → chID c' = chID c) ∧
  chType c' = chType c ∧ chName c' = chName c ∧ chEnabled c' = chEnabled c ∧
  chConfig c' = chConfig c.

Section Stable.
Context {S C N : Type} {SO : StorageOps S} {EN : Env N} `{EO : !EnvOk N EN}.

Lemma wp_stable_ids cs (w : World S C N) rw Q :
  (∀ cs' w', w_store w' = w_store w → Forall2 identified cs cs' → Q cs' (w', rw)) →
  wp (stable_ids cs) Q (w, rw).
Proof.
  revert w Q. induction cs as [|c cs IH]; intros w Q HQ; simpl.
  { apply wp_ret, HQ; [done|constructor]. }
  assert (∀ id w1, w_store w1 = w_store w → id ≠ "" → (chID c ≠ "" → id = chID c) →
    wp (cs0 ← stable_ids cs; mret (mkChannel id (chType c) (chName c) (chEnabled c) (chConfig c) :: cs0))
      Q (w1, rw)) as Hrest.
  { intros id w1 Hw1 Hid Hkeep. apply wp_bind, IH. intros cs' w' Hw' Hcs.
    apply wp_ret, HQ; [congruence|]. constructor; [|done]. by repeat split. }
  apply wp_bind. destruct (String.eqb_spec (chID c) "") as [He|He].
  - apply wp_fresh_id. pose proof (fresh_id_nonempty w) as Hne.
    pose proof (fresh_id_run w) as Hr. destruct (fresh_id w) as [id w1].
    injection Hr as _ ->. apply Hrest; done.
  - apply wp_ret, Hrest; done.
Qed.

End Stable.

(** ** The settings *)

Section Settings.
Context {S C N : Type} {SO : StorageOps S} `{SL : !StorageLaws S SO} {EN : Env N}
  `{EO : !EnvOk N EN} {A2 : Argon2} `{AO : !Argon2Ok A2}
  {BU : BodyDecode updateSettingsRequest}.

Abbreviation world := (World S C N).

Lemma wp_password_hash current password (w : world) rw Q :
  (∀ k (n : N), is_ok (rand_Read k n).1 = true) →
  (∀ hash w', w_store w' = w_store w →
    (password = "" → hash = current) →
    (password ≠ "" → VerifySecret password hash = true ∧ hash ≠ "") → Q (Ok hash) (w', rw)) →
  wp (password_hash current password) Q (w, rw).
Proof.
  intros Hrand HQ. unfold password_hash.
  destruct (String.eqb_spec password "") as [He|He]; [by apply wp_ret, HQ|].
  apply wp_bind, wp_env. specialize (Hrand argonSaltLen (w_net w)).
  pose proof (rand_bytes argonSaltLen (w_net w)) as Hb.
  destruct (rand_Read argonSaltLen (w_net w)) as [[salt|e] n]; [|done]. simpl.
  destruct (Hb n salt eq_refl) as [_ Hs].
  pose proof (HashSecret_verifies password salt _ Hs eq_refl) as Hv.
  apply wp_ret. unfold HashSecret. simpl. by apply HQ.
Qed.

(** What an update leaves in the settings. *)
Definition updated (s : Settings) (req : updateSettingsRequest) (s' : Settings) : Prop :=
  authEnabled (sAuth s') = usEnabled req ∧ authUsername (sAuth s') = usUsername req ∧
  (usPassword req = "" → authPasswordHash (sAuth s') = authPasswordHash (sAuth s)) ∧
  (usPassword req ≠ "" → VerifySecret (usPassword req) (authPasswordHash (sAuth s')) = true) ∧
  Forall2 identified (usNotifications req) (sNotifications s') ∧
  sDisabledResolvers s' = usDisabledResolvers req ∧ sSessionSecret s' = sSessionSecret s.

Lemma UpdateSettings_run (w : world) r req :
  healthy (w_store w) →
  (∀ hash cs, okSettings (mkSettings (mkAuth (usEnabled req) (usUsername req) hash) cs
     (usDisabledResolvers req) (sSessionSecret (settings_of w)))) →
  (∀ k (n : N), is_ok (rand_Read k n).1 = true) →
  decode_body (rqBody r) = Some req →
  let s := settings_of w in
  let '(rw, w') := respond UpdateSettings r w in
  healthy (w_store w') ∧
  if usEnabled req && (String.eqb (usUsername req) "" ||
       String.eqb (usPassword req) "" && String.eqb (authPasswordHash (sAuth s)) "")
  then rwStatus rw = 400 ∧ view (w_store w') = view (w_store w)
  else rwStatus rw = 200 ∧ ∃ s', updated s req s' ∧
    view (w_store w') = set_settings (view (w_store w)) (Some s') ∧
    rwBody rw = [CJson (to_json (toView s'))].
Proof.
  intros Hh Hok Hrand Hbody s. apply respond_wp. cbn [fst snd]. unfold UpdateSettings. rewrite Hbody.
  apply wp_bind, wp_settings; [done|]. intros w1 Hw1 Hn1. fold s.
  apply wp_bind, wp_password_hash; [done|]. intros hash w2 Hw2 Hkeep Hnew.
  assert (String.eqb hash "" =
    String.eqb (usPassword req) "" && String.eqb (authPasswordHash (sAuth s)) "") as ->.
  { destruct (String.eqb_spec (usPassword req) "") as [He|He].
    - by rewrite (Hkeep He).
    - apply String.eqb_neq. by apply Hnew. }
  destruct (usEnabled req && _).
  { apply wp_WriteError. cbn [fst snd]. rewrite Hw2. destruct Hw1. by split_and!. }
  apply wp_bind, wp_stable_ids. intros cs w3 Hw3 Hcs.
  assert (same_store w w3) as [Hh3 Hv3] by (unfold same_store; by rewrite Hw3, Hw2).
  apply wp_bind, wp_save_settings; [done|apply Hok|]. intros w4 Hh4 Hv4 Hn4.
  apply wp_WriteJSON. cbn [fst snd]. rewrite Hv4, Hv3.
  split; [done|]. split; [done|]. eexists. split; [|by split].
  repeat split; try done. intros Hp. by apply Hnew.
Qed.

End Settings.

(** ** Next to other requests *)

(** A schedule that the syntactic check accepts, without surrounding space. *)
Definition schedule_ok (sc : Schedule) : Prop :=
  schName sc ≠ "" ∧ validCron (schCron sc) = true ∧ TrimSpace (schCron sc) = schCron sc.

Lemma validCron_trim c : validCron (TrimSpace c) = validCron c.
Proof. unfold validCron. by rewrite TrimSpace_idemp. Qed.

Lemma schedule_of_request id name cron en c u :
  name ≠ "" → validCron cron = true → schedule_ok (mkSchedule id name (TrimSpace cron) en c u).
Proof.
  intros Hn Hc. split_and!; simpl; [done|by rewrite validCron_trim|apply TrimSpace_idemp].
Qed.

(** A token has a name, a hash, and the first characters of its text. *)
Definition token_valid (tk : APIToken) : Prop :=
  tokName tk ≠ "" ∧ tokHash tk ≠ "" ∧ String.length (tokPrefix tk) = 8%nat ∧
  tokLastUsedAt tk = None.

(** A generated token has 43 characters. *)
Lemma RawURL_length_32 l : length l = 32%nat → String.length (RawURL_Encode l) = 43%nat.
Proof.
  intros Hl. do 32 (destruct l as [|? l]; [done|]). by destruct l.
Qed.

Lemma RawURL_prefix l : length l = 32%nat → String.length (stake 8 (RawURL_Encode l)) = 8%nat.
Proof.
  intros Hl%RawURL_length_32. generalize (RawURL_Encode l), Hl. clear. intros s Hs.
  do 8 (destruct s as [|? s]; [done|]). done.
Qed.

(** Invariants of the store that say that of the schedules and of the tokens. *)
Class ScheduleInv (G : op → Prop) : Prop := {
  inv_save_schedule : ∀ sc, schedule_ok sc → G (OSaveSchedule sc);
  inv_delete_schedule : ∀ id, G (ODeleteSchedule id)
}.

Class TokenInv (G : op → Prop) : Prop := {
  inv_create_token : ∀ tk, time_ok (tokCreatedAt tk) → token_valid tk → G (OCreateAPIToken tk);
  inv_delete_token : ∀ id, G (ODeleteAPIToken id)
}.

Section Calm.
Context {S C N : Type} {SO : StorageOps S} {EN : Env N} `{EO : !EnvOk N EN} {A2 : Argon2}
  {V : Validator} `{VO : !ValidatorOk V} {NO : Notifier N}
  {BU : BodyDecode updateSettingsRequest} {BT : BodyDecode createTokenRequest}
  {BS : BodyDecode scheduleRequest} {BC : BodyDecode NotificationChannel}
  (keep : Time → Time) (I : AbsStore → Prop) (G : op → Prop) (K : S → Prop)
  `{SK : !StoreKeeps SO keep I G K}.

Abbreviation world := (World S C N).
Abbreviation P := (beside (calm (C := C) (N := N) K)).

Lemma keeping_internal_error r message : keeping P (λ _, True) (internal_error r message).
Proof. unfold internal_error. keeps. Qed.

Lemma keeping_invalid_body r : keeping P (λ _, True) (invalid_body r).
Proof. unfold invalid_body. keeps. Qed.

Lemma keeping_store_failed r err missing failed :
  keeping P (λ _, True) (store_failed r err missing failed).
Proof. pose proof keeping_internal_error. unfold store_failed. keeps. Qed.

Lemma keeping_deleted r err missing failed : keeping P (λ _, True) (deleted r err missing failed).
Proof. pose proof keeping_store_failed. unfold deleted, WriteHeader. keeps. Qed.

Lemma keeping_listed {A} `{ToJson A} r (l : result (list A)) failed :
  keeping P (λ _, True) (listed r l failed).
Proof. pose proof keeping_internal_error. unfold listed. keeps. Qed.

Hint Resolve keeping_internal_error keeping_invalid_body keeping_store_failed keeping_deleted
  keeping_listed : keeps.

Section Schedules.
Context `{HI : !ScheduleInv G}.

Lemma keeping_save_schedule sc : schedule_ok sc →
  keeping (calm K) (λ _, True) (on_store (C := C) (N := N) (SaveSchedule sc)).
Proof. intros. by eapply (keeping_write _ _ _ _ (OSaveSchedule _)), inv_save_schedule. Qed.

Lemma keeping_schedule_validate req r :
  keeping P (λ b : bool, b = true → scName req ≠ "" ∧ validCron (scCron req) = true)
    (scheduleRequest_validate req r).
Proof.
  unfold scheduleRequest_validate.
  pose proof (validate_struct_ok [("Name", "required", scName req); ("Cron", "required", scCron req)])
    as Hv.
  destruct (validate_struct _); [keeps|]. destruct Hv as [Hv _]. specialize (Hv eq_refl).
  rewrite !Forall_cons in Hv. destruct Hv as ([[_ Hn]|[? _]] & _); [|done].
  destruct (validCron (scCron req)); keeps.
Qed.

Lemma ListSchedules_calm : handler_keeps (C := C) (N := N) K ListSchedules_handler.
Proof.
  intros r. unfold ListSchedules_handler, store_op. eapply keeping_bind;
  [by apply keeping_world, (keeping_read _ _ _ _ OListSchedules RSchedules)|keeps].
Qed.

Lemma CreateSchedule_calm : handler_keeps (C := C) K CreateSchedule.
Proof.
  clear EO. intros r. unfold CreateSchedule, store_op, env_op. destruct (decode_body _) as [req|]; [|keeps].
  eapply keeping_bind; [apply keeping_schedule_validate|]. intros [] Hreq; [|keeps].
  destruct (Hreq eq_refl) as [Hn Hc].
  pose proof (λ id t, keeping_save_schedule _ (schedule_of_request id _ _ (scEnabled req) t t Hn Hc)).
  keeps.
Qed.

Lemma UpdateSchedule_calm : handler_keeps (C := C) K UpdateSchedule.
Proof.
  clear EO. intros r. unfold UpdateSchedule, store_op, env_op. destruct (decode_body _) as [req|]; [|keeps].
  eapply keeping_bind; [apply keeping_schedule_validate|]. intros [] Hreq; [|keeps].
  destruct (Hreq eq_refl) as [Hn Hc].
  pose proof (λ id c t, keeping_save_schedule _ (schedule_of_request id _ _ (scEnabled req) c t Hn Hc)).
  assert (keeping P (λ _, True) (findSchedule (URLParam r "id"))) as Hf.
  { unfold findSchedule, store_op. eapply keeping_bind;
    [by apply keeping_world, (keeping_read _ _ _ _ OListSchedules RSchedules)|keeps]. }
  keeps.
Qed.

Lemma DeleteSchedule_calm : handler_keeps (C := C) (N := N) K DeleteSchedule_handler.
Proof.
  intros r. unfold DeleteSchedule_handler, store_op. eapply keeping_bind;
  [by eapply keeping_world, (keeping_write _ _ _ _ (ODeleteSchedule _)), inv_delete_schedule|keeps].
Qed.

End Schedules.

Section Tokens.
Context `{HI : !TokenInv G}.

Lemma ListTokens_calm : handler_keeps (C := C) (N := N) K ListTokens.
Proof. intros r. unfold ListTokens, store_op. keeps. Qed.

Lemma DeleteToken_calm : handler_keeps (C := C) (N := N) K DeleteToken.
Proof.
  intros r. unfold DeleteToken, store_op. eapply keeping_bind;
    [by eapply keeping_world, (keeping_write _ _ _ _ (ODeleteAPIToken _)), inv_delete_token|keeps].
Qed.

Lemma CreateToken_calm : handler_keeps (C := C) K CreateToken.
Proof.
  intros r. unfold CreateToken, store_op, env_op. destruct (decode_body _) as [req|]; [|keeps].
  pose proof (validate_struct_ok [("Name", "required", ctName req)]) as Hv.
  destruct (validate_struct _); [keeps|]. destruct Hv as [Hv _]. specialize (Hv eq_refl).
  rewrite Forall_cons in Hv. destruct Hv as ([[_ Hn]|[? _]] & _); [|done].
  eapply keeping_bind; [by apply keeping_world, keeping_rand|]. intros [buf|] Hbuf; [|keeps].
  cbn [GenerateToken]. destruct (Hbuf buf eq_refl) as [Hlen _].
  eapply keeping_bind; [by apply keeping_world, keeping_rand|]. intros [salt|] Hsalt; [|keeps].
  destruct (HashSecret _ _) as [hash|] eqn:Eh; [|keeps].
  destruct (Hsalt salt eq_refl) as [_ Hb]. apply HashSecret_nonempty in Eh.
  eapply keeping_bind; [by apply keeping_world, keeping_fresh_id|]. intros id _.
  eapply keeping_bind; [by apply keeping_world, keeping_now|]. intros t Ht. cbv zeta.
  eapply keeping_bind; [|keeps]. eapply keeping_world, (keeping_write _ _ _ _ (OCreateAPIToken _));
    [done|]. apply inv_create_token; [done|]. split_and!; try done. by apply RawURL_prefix.
Qed.

End Tokens.

Section Settings.
Context `{HI : !SettingsInv I G}.

Lemma GetSettings_calm : handler_keeps (C := C) (N := N) K GetSettings_handler.
Proof. intros r. unfold GetSettings_handler, store_op. keeps. Qed.

Lemma keeping_stable_ids cs :
  keeping P (λ cs', Forall (λ c, chID c ≠ "") cs') (stable_ids cs).
Proof.
  induction cs as [|c cs IH]; [by apply keeping_ret; constructor|]. simpl.
  eapply (keeping_bind _ (λ id, id ≠ "")).
  - destruct (String.eqb_spec (chID c) "") as [_|Hc]; [|by apply keeping_ret].
    intros [w rw] Hw. unfold on_world. pose proof (fresh_id_nonempty w).
    pose proof (keeping_fresh_id K w Hw) as [Hw' _]. simpl. by destruct (fresh_id w).
  - intros id Hid. eapply keeping_bind; [exact IH|]. intros cs' Hcs. apply keeping_ret. by constructor.
Qed.

Lemma UpdateSettings_calm : handler_keeps (C := C) K UpdateSettings.
Proof.
  intros r. unfold UpdateSettings, store_op. destruct (decode_body _) as [req|]; [|keeps].
  eapply keeping_bind; [eauto with keeps|]. intros [s|e] _; [|keeps].
  apply (keeping_bind _ (λ _, True)); [unfold password_hash, env_op; keeps|].
  intros [hash|e] _; [|keeps]. destruct (usEnabled req && _) eqn:Eg; [keeps|].
  eapply keeping_bind; [apply keeping_stable_ids|]. intros cs Hcs. cbv zeta.
  eapply keeping_bind; [|keeps]. apply keeping_world, (keeping_save_settings keep I G K).
  split; [|done]. simpl. intros Hen. rewrite Hen in Eg. simpl in Eg.
  by apply orb_false_iff in Eg as [?%String.eqb_neq ?%String.eqb_neq].
Qed.

Lemma TestNotification_calm : handler_keeps (S := S) (C := C) (N := N) K TestNotification.
Proof. intros r. unfold TestNotification, env_op. keeps. Qed.

End Settings.

End Calm.

(** ** Schedules *)

(** The cadences, as the words of the expression: a macro, [@every] with an
    argument, or a cron expression of five or six fields. *)
Inductive cadence : list string → Prop :=
  | cadence_macro m :
      m ∈ ["@hourly"; "@daily"; "@weekly"; "@monthly"; "@yearly"; "@annually"; "@midnight"] →
      cadence [m]
  | cadence_every period periods : cadence ("@every" :: period :: periods)
  | cadence_five a b c d e : cadence [a; b; c; d; e]
  | cadence_six a b c d e f : cadence [a; b; c; d; e; f].

Lemma word_no_space w : word w → has_char " " w = false.
Proof. intros [_ Hw]. by eapply sforall_has_char. Qed.

Lemma Join_words_eq ws m : Forall word ws → word m → Join ws " " = m → ws = [m].
Proof.
  intros Hws Hm He. rewrite <-(Fields_Join ws Hws), He, <-(Fields_Join [m]); [done|by constructor].
Qed.

Lemma Join_words_empty ws : Forall word ws → Join ws " " = "" → ws = [].
Proof. intros Hws He. by rewrite <-(Fields_Join ws Hws), He. Qed.

(** An expression with the prefix has [@every] as its first word of several. *)
Lemma Join_words_every ws : Forall word ws →
  HasPrefix (Join ws " ") "@every " = true ↔ ∃ p ps, ws = "@every" :: p :: ps.
Proof.
  intros Hws. split; [|intros (p & ps & ->); apply (HasPrefix_app "@every " (Join (p :: ps) " "))].
  rewrite HasPrefix_spec. intros [rest He]. destruct ws as [|w [|p ps]]; [done| |].
  - apply Forall_cons in Hws as [Hw _]. apply word_no_space in Hw. change (Join [w] " ") with w in He.
    by subst w.
  - apply Forall_cons in Hws as [Hw _]. apply word_no_space in Hw. exists p, ps. f_equal.
    change (Join (w :: p :: ps) " ") with (w +:+ String " " (Join (p :: ps) " ")) in He.
    pose proof (Cut_app " " w (Join (p :: ps) " ") Hw) as Hc. rewrite He in Hc.
    change ("@every " +:+ rest) with ("@every" +:+ String " " rest) in Hc.
    rewrite Cut_app in Hc by done. by simplify_eq.
Qed.

Lemma macro_word m :
  m ∈ ["@hourly"; "@daily"; "@weekly"; "@monthly"; "@yearly"; "@annually"; "@midnight"] → word m.
Proof. rewrite !elem_of_cons, elem_of_nil. intros Hm. by destruct_or?; subst. Qed.

Lemma validCron_cadence ws : Forall word ws → validCron (Join ws " ") = true ↔ cadence ws.
Proof.
  intros Hws. unfold validCron. cbv zeta. rewrite (TrimSpace_words ws Hws), (Fields_Join ws Hws).
  destruct (String.eqb_spec (Join ws " ") "") as [He|Hne].
  { rewrite (Join_words_empty ws Hws He). split; [done|inversion 1]. }
  case_bool_decide as Hm.
  { split; [intros _|done]. pose proof (macro_word _ Hm) as Hw.
    pose proof (Join_words_eq ws _ Hws Hw eq_refl) as ->. by constructor. }
  destruct (HasPrefix (Join ws " ") "@every ") eqn:Hp.
  { apply (Join_words_every ws Hws) in Hp as (p & ps & ->). split; [constructor|intros _].
    change (Join ("@every" :: p :: ps) " ") with ("@every " +:+ Join (p :: ps) " ").
    unfold TrimPrefix. rewrite HasPrefix_app, (sdrop_app "@every ").
    apply Forall_cons in Hws as [_ Hws]. rewrite (TrimSpace_words _ Hws), negb_true_iff.
    apply String.eqb_neq. by intros He%(Join_words_empty _ Hws). }
  rewrite orb_true_iff, !bool_decide_eq_true. split.
  - intros [Hl|Hl]; do 5 (destruct ws as [|? ws]; [done|]); [destruct ws; [constructor|done]|].
    destruct ws as [|? [|? ws]]; done || constructor.
  - inversion 1 as [m Hin|p ps| |]; subst; [done| |by left|by right].
    assert (HasPrefix (Join ("@every" :: p :: ps) " ") "@every " = true) as Ht; [|congruence].
    apply Join_words_every; eauto.
Qed.

(** The schedules are filed under their identifiers. *)
Definition schedules_filed (a : AbsStore) : Prop :=
  map_Forall (λ id sc, schID sc = id) (abs_schedules a).

Section Schedules.
Context {S C N : Type} {SO : StorageOps S} `{SL : !StorageLaws S SO} {EN : Env N}
  {V : Validator} `{VO : !ValidatorOk V} {BS : BodyDecode scheduleRequest}
  (Hok : ∀ x : Schedule, okSchedule x) (req : scheduleRequest) (ws : list string)
  (Hcron : TrimSpace (scCron req) = Join ws " ") (Hws : Forall word ws).

Abbreviation world := (World S C N).

(** What the validation lets through. *)
Definition schedule_accepted : Prop := scName req ≠ "" ∧ cadence ws.

(** The answer to a request that is turned away. *)
Definition turned_away (code : Z) (w : world) (rw : RW) (w' : world) : Prop :=
  rwStatus rw = code ∧ view (w_store w') = view (w_store w).

(** The answer to a request that stored a schedule. *)
Definition stored_schedule (code : Z) (sc : Schedule) (w : world) (rw : RW) (w' : world) : Prop :=
  rwStatus rw = code ∧ rwBody rw = [CJson (to_json sc)] ∧
  view (w_store w') = set_schedules (view (w_store w))
    (<[schID sc := sc]> (abs_schedules (view (w_store w)))).

Lemma wp_validate r (w : world) Q :
  (schedule_accepted → Q true (w, fresh_rw)) →
  (¬ schedule_accepted → ∀ rw, rwStatus rw = 400 → Q false (w, rw)) →
  wp (scheduleRequest_validate req r) Q (w, fresh_rw).
Proof.
  intros Hyes Hno. unfold scheduleRequest_validate, schedule_accepted in *.
  pose proof (validate_struct_ok [("Name", "required", scName req); ("Cron", "required", scCron req)])
    as Hv.
  rewrite <-(validCron_cadence ws Hws), <-Hcron, validCron_trim in Hyes, Hno.
  assert (validCron (scCron req) = true → scCron req ≠ "") as Hne by (intros Hc He; by rewrite He in Hc).
  destruct (validate_struct _) as [err|].
  - apply wp_bind, wp_WriteError, wp_ret. apply Hno; [|done]. intros [Hn Hc].
    destruct Hv as [_ Hv]. discriminate Hv. apply Forall_cons_2; [by left|].
    apply Forall_cons_2; [left; auto|constructor].
  - destruct Hv as [Hv _]. specialize (Hv eq_refl).
    rewrite !Forall_cons in Hv. destruct Hv as ([[_ Hn]|[? _]] & _); [|done].
    destruct (validCron (scCron req)); [by apply wp_ret, Hyes|].
    apply wp_bind, wp_WriteError, wp_ret. by apply Hno; [intros [? ?]|].
Qed.

Lemma wp_save_schedule sc (w : world) Q : healthy (w_store w) →
  (∀ w', healthy (w_store w') →
     view (w_store w') = set_schedules (view (w_store w))
       (<[schID sc := sc]> (abs_schedules (view (w_store w)))) → Q None (w', fresh_rw)) →
  wp (store_op (SaveSchedule sc)) Q (w, fresh_rw).
Proof.
  intros Hh HQ. apply wp_store.
  destruct (SaveSchedule_law sc _ Hh (Hok sc)) as (s' & -> & Hh' & Hv). by apply HQ.
Qed.

Lemma CreateSchedule_run (w : world) r :
  healthy (w_store w) → decode_body (rqBody r) = Some req →
  let '(rw, w') := respond CreateSchedule r w in
  healthy (w_store w') ∧
  (schedule_accepted → ∃ id, stored_schedule 201
     (mkSchedule id (scName req) (Join ws " ") (scEnabled req) (clock w) (clock w)) w rw w') ∧
  (¬ schedule_accepted → turned_away 400 w rw w').
Proof.
  intros Hh Hbody. apply respond_wp. cbn [fst snd]. unfold CreateSchedule. rewrite Hbody.
  apply wp_bind, wp_validate; cbn [negb].
  2:{ intros Hno rw Hst. apply wp_ret. by split_and!. }
  intros Hyes. apply wp_bind, wp_env, wp_bind, wp_fresh_id. rewrite fresh_id_run. cbv zeta.
  apply wp_bind, wp_save_schedule; [done|]. intros w' Hh' Hv. rewrite <-Hcron. apply wp_WriteJSON.
  split; [done|]. split; [intros _|by intros ?]. by eexists.
Qed.

Lemma wp_findSchedule id (w : world) rw Q : healthy (w_store w) →
  schedules_filed (view (w_store w)) →
  (∀ w', same_store w w' → w_net w' = w_net w →
     Q (match abs_schedules (view (w_store w)) !! id with
        | Some sc => Ok sc
        | None => Err ErrNotFound
        end) (w', rw)) →
  wp (findSchedule id) Q (w, rw).
Proof.
  intros Hh Hf HQ. unfold findSchedule. apply wp_bind, wp_store.
  destruct (ListSchedules_law _ Hh) as (s' & l & -> & Hh' & Hv & Hl). apply wp_ret. cbn [fst snd].
  assert (∀ sc, sc ∈ l ↔ abs_schedules (view (w_store w)) !! schID sc = Some sc) as Hin.
  { intros sc. rewrite Hl, list_elem_of_fmap. split.
    - intros ([k sc'] & -> & Hk%elem_of_map_to_list). cbn [snd]; by rewrite (Hf k sc' Hk).
    - intros Hsc. exists (schID sc, sc). by rewrite elem_of_map_to_list. }
  match goal with |- Q ?x _ => assert (x = match abs_schedules (view (w_store w)) !! id with
    | Some sc => Ok sc | None => Err ErrNotFound end) as -> end; [|by apply HQ].
  destruct (list_find _ l) as [[i sc]|] eqn:E.
  - apply list_find_Some in E as (Hi & <- & _). apply list_elem_of_lookup_2, Hin in Hi. by rewrite Hi.
  - apply list_find_None in E. destruct (_ !! id) as [sc|] eqn:Hsc; [|done].
    pose proof (Hf id sc Hsc) as He. rewrite Forall_forall in E. destruct (E sc); [|done].
    apply Hin. by rewrite He.
Qed.

Lemma UpdateSchedule_run (w : world) r :
  healthy (w_store w) → schedules_filed (view (w_store w)) → decode_body (rqBody r) = Some req →
  let '(rw, w') := respond UpdateSchedule r w in
  healthy (w_store w') ∧
  (schedule_accepted → match abs_schedules (view (w_store w)) !! URLParam r "id" with
     | Some old => stored_schedule 200 (mkSchedule (URLParam r "id") (scName req) (Join ws " ")
         (scEnabled req) (schCreatedAt old) (clock w)) w rw w'
     | None => turned_away 404 w rw w'
     end) ∧
  (¬ schedule_accepted → turned_away 400 w rw w').
Proof.
  intros Hh Hf Hbody. apply respond_wp. cbn [fst snd]. unfold UpdateSchedule. rewrite Hbody. cbv zeta.
  apply wp_bind, wp_validate; cbn [negb].
  2:{ intros Hno rw Hst. apply wp_ret. by split_and!. }
  intros Hyes. apply wp_bind, wp_findSchedule; [done..|]. intros w1 [Hh1 Hv1] Hn1.
  destruct (_ !! URLParam r "id") as [old|] eqn:Hold.
  2:{ apply wp_WriteError. split; [done|]. split; [intros _|by intros ?]. by split. }
  apply wp_bind, wp_env. rewrite Hn1, (Hf _ _ Hold).
  apply wp_bind, wp_save_schedule; [done|]. intros w' Hh' Hv. rewrite <-Hcron. apply wp_WriteJSON.
  split; [done|]. split; [intros _|by intros ?]. cbn [w_store] in Hv. rewrite Hv1 in Hv. by split_and!.
Qed.

End Schedules.

(** ** Tokens *)

Definition same_but_hash (t t' : APIToken) : Prop :=
  tokID t' = tokID t ∧ tokName t' = tokName t ∧ tokPrefix t' = tokPrefix t ∧
  tokCreatedAt t' = tokCreatedAt t ∧ tokLastUsedAt t' = tokLastUsedAt t.

Lemma same_but_hash_json l l' : Forall2 same_but_hash l l' → to_json l = to_json l'.
Proof.
  intros Hl. unfold to_json, json_of_list. f_equal. induction Hl as [|t t' l l' Ht Hl IH]; [done|].
  rewrite !fmap_cons, IH. f_equal. destruct t, t', Ht as (? & ? & ? & ? & ?). by simplify_eq/=.
Qed.

(** Settings that differ at most in their secrets. *)
Definition same_but_secrets (s s' : Settings) : Prop :=
  authEnabled (sAuth s') = authEnabled (sAuth s) ∧
  authUsername (sAuth s') = authUsername (sAuth s) ∧
  (authPasswordHash (sAuth s') = "" ↔ authPasswordHash (sAuth s) = "") ∧
  sNotifications s' = sNotifications s ∧ sDisabledResolvers s' = sDisabledResolvers s.

Lemma toView_redacts s s' : same_but_secrets s s' → toView s' = toView s.
Proof.
  intros (H1 & H2 & H3 & H4 & H5). unfold toView. rewrite H1, H2, H4, H5.
  destruct (String.eqb_spec (authPasswordHash (sAuth s)) ""),
    (String.eqb_spec (authPasswordHash (sAuth s')) ""); tauto || done.
Qed.

(** ** Two runs that differ in the secrets

    [alike] relates worlds whose stores differ at most in the secrets, and [both]
    is a logic of two computations: on related worlds and the same writer they
    end in related worlds and the same writer. *)

Section Alike.
Context {S C N : Type} {SO : StorageOps S} `{SL : !StorageLaws S SO} {EN : Env N}
  `{EO : !EnvOk N EN} (Hoks : ∀ x : Settings, okSettings x)
  (Hokt : ∀ tk, time_ok (tokCreatedAt tk) → okToken tk).

Abbreviation world := (World S C N).
Abbreviation H := (M (world * RW)).

Definition alike (w w' : world) : Prop :=
  healthy (w_store w) ∧ healthy (w_store w') ∧ w_net w' = w_net w ∧
  same_but_secrets (settings_of w) (settings_of w') ∧
  ∀ id, option_Forall2 same_but_hash (abs_tokens (view (w_store w)) !! id)
          (abs_tokens (view (w_store w')) !! id).

Definition both {A B} (Q : A → B → Prop) (m : H A) (m' : H B) : Prop :=
  ∀ w w' rw, alike w w' →
  let '(a, (w1, rw1)) := m (w, rw) in
  let '(b, (w1', rw1')) := m' (w', rw) in
  Q a b ∧ alike w1 w1' ∧ rw1' = rw1.

Lemma both_respond (h h' : Handler (W := world)) r w w' :
  both (λ _ _, True) (h r) (h' r) → alike w w' → (respond h' r w').1 = (respond h r w).1.
Proof.
  intros Hb Hw. specialize (Hb w w' fresh_rw Hw). unfold respond.
  destruct (h r _) as [[] [w1 rw1]], (h' r _) as [[] [w1' rw1']]. simpl. by destruct Hb as (_ & _ & ->).
Qed.

Lemma both_ret {A B} (Q : A → B → Prop) a b : Q a b → both Q (mret a) (mret b).
Proof. by intros HQ w w' rw Hw. Qed.

Lemma both_bind {A B A' B'} (Q : A → B → Prop) (Q' : A' → B' → Prop) (m : H A) (m' : H B) f f' :
  both Q m m' → (∀ a b, Q a b → both Q' (f a) (f' b)) → both Q' (m ≫= f) (m' ≫= f').
Proof.
  intros Hm Hf w w' rw Hw. specialize (Hm w w' rw Hw). cbv [mbind M_bind].
  destruct (m (w, rw)) as [a [w1 rw1]], (m' (w', rw)) as [b [w1' rw1']].
  destruct Hm as (HQ & Hw1 & ->). by apply Hf.
Qed.

Lemma both_rw (f : RW → RW) : both eq (on_rw f) (on_rw f).
Proof. by intros w w' rw Hw. Qed.

Lemma both_env {A} (m : M N A) : both eq (env_op m) (env_op m).
Proof.
  intros w w' rw (Hh & Hh' & Hn & Hs). unfold env_op, on_world, on_net. cbn [fst snd]. rewrite Hn.
  by destruct (m (w_net w)) as [a n].
Qed.

Lemma both_json {A B} `{ToJson A} `{ToJson B} status (v : A) (v' : B) :
  to_json v = to_json v' → both (λ _ _, True) (WriteJSON status v) (WriteJSON status v').
Proof. intros Hv w w' rw Hw. unfold WriteJSON. cbv [mbind M_bind on_rw]. simpl. by rewrite Hv. Qed.

Lemma both_error r status code message :
  both (λ _ _, True) (WriteError r status code message) (WriteError r status code message).
Proof. by apply both_json. Qed.

Lemma both_settings : both (λ x x', ∃ s s', x = Ok s ∧ x' = Ok s' ∧ same_but_secrets s s')
  (store_op GetSettings) (store_op GetSettings).
Proof.
  intros w w' rw (Hh & Hh' & Hn & Hs & Ht). unfold store_op, on_world, on_store. cbn [fst snd].
  destruct (GetSettings_law _ Hh) as (s1 & -> & Hh1 & Hv1).
  destruct (GetSettings_law _ Hh') as (s2 & -> & Hh2 & Hv2).
  split; [by eexists _, _|]. unfold alike, settings_of. simpl. by rewrite Hv1, Hv2.
Qed.

Lemma both_save s s' : same_but_secrets s s' →
  both eq (store_op (SaveSettings s)) (store_op (SaveSettings s')).
Proof.
  intros Hss w w' rw (Hh & Hh' & Hn & Hs & Ht). unfold store_op, on_world, on_store. cbn [fst snd].
  destruct (SaveSettings_law s _ Hh (Hoks s)) as (s1 & -> & Hh1 & Hv1).
  destruct (SaveSettings_law s' _ Hh' (Hoks s')) as (s2 & -> & Hh2 & Hv2).
  split; [done|]. unfold alike, settings_of. simpl. by rewrite Hv1, Hv2.
Qed.

Lemma both_now : both (λ t t', t' = t ∧ time_ok t) (env_op Now) (env_op Now).
Proof.
  intros w w' rw Hw. pose proof (Now_range (w_net w)) as Ht. pose proof (both_env Now w w' rw Hw) as Hb.
  unfold env_op, on_world, on_net in *. cbn [fst snd] in *.
  destruct (Now (w_net w)), (Now (w_net w')). by destruct Hb as (<- & ? & ?).
Qed.

Lemma both_fresh_id : both eq (on_world fresh_id) (on_world fresh_id).
Proof.
  intros w w' rw (Hh & Hh' & Hn & Hs). unfold on_world. cbn [fst snd]. rewrite !fresh_id_run. by rewrite Hn.
Qed.

Lemma alike_insert tk tk' (t t' : gmap string APIToken) keep : same_but_hash tk tk' →
  (∀ id, option_Forall2 same_but_hash (t !! id) (t' !! id)) →
  ∀ id, option_Forall2 same_but_hash (abs_insert (tokID tk) (kept_token keep tk) t !! id)
          (abs_insert (tokID tk) (kept_token keep tk') t' !! id).
Proof.
  intros (Hid & Hname & Hpre & Hc & Hl) Ht id. unfold abs_insert. pose proof (Ht (tokID tk)) as Hi.
  destruct Hi as [x x' Hx|]; [apply Ht|]. rewrite !lookup_insert. case_decide; [|apply Ht].
  constructor. unfold same_but_hash. simpl. by rewrite Hid, Hname, Hpre, Hc.
Qed.

Lemma both_create tk tk' : same_but_hash tk tk' → time_ok (tokCreatedAt tk) →
  both (λ e e', e = None ↔ e' = None) (store_op (CreateAPIToken tk)) (store_op (CreateAPIToken tk')).
Proof.
  intros Htk Htime w w' rw (Hh & Hh' & Hn & Hs & Ht). unfold store_op, on_world, on_store. cbn [fst snd].
  pose proof Htk as (Hid & _ & _ & Hc & _).
  destruct (CreateAPIToken_law tk _ Hh (Hokt tk Htime)) as (e1 & s1 & -> & Hh1 & He1 & Hv1).
  destruct (CreateAPIToken_law tk' _ Hh' ltac:(apply Hokt; congruence)) as (e2 & s2 & -> & Hh2 & He2 & Hv2).
  rewrite Hid in He2, Hv2. split; [rewrite He1, He2; by destruct (Ht (tokID tk))|].
  unfold alike, settings_of. simpl. rewrite Hv1, Hv2. split_and!; try done. by apply alike_insert.
Qed.

Lemma both_stable_ids cs : both eq (stable_ids cs) (stable_ids cs).
Proof.
  induction cs as [|c cs IH]; simpl; [by apply both_ret|]. eapply (both_bind eq).
  - destruct (String.eqb (chID c) ""); [apply both_fresh_id|by apply both_ret].
  - intros id ? <-. eapply both_bind; [exact IH|]. intros cs' ? <-. by apply both_ret.
Qed.

(** Neither the stored hash nor the key derivation shows, but for whether
    there is a hash. *)
Lemma both_password_hash (A2 A2' : Argon2) current current' password :
  (current' = "" ↔ current = "") →
  both (λ h h', match h, h' with
                | Ok h, Ok h' => h' = "" ↔ h = ""
                | Err _, Err _ => True
                | _, _ => False
                end) (password_hash (A2 := A2) current password) (password_hash (A2 := A2') current' password).
Proof.
  intros Hc. unfold password_hash. destruct (String.eqb password ""); [by apply both_ret|].
  eapply both_bind; [apply both_env|]. intros salt ? <-. apply both_ret.
  pose proof (HashSecret_nonempty (A := A2) password salt) as H1.
  pose proof (HashSecret_nonempty (A := A2') password salt) as H2.
  destruct salt as [salt|e]; [|done]. simpl in *. specialize (H1 _ eq_refl). specialize (H2 _ eq_refl).
  by split; intros ?.
Qed.

Lemma both_UpdateSettings {BU : BodyDecode updateSettingsRequest} (A2 A2' : Argon2) r :
  both (λ _ _, True) (UpdateSettings (A2 := A2) r) (UpdateSettings (A2 := A2') r).
Proof.
  unfold UpdateSettings, invalid_body, internal_error.
  destruct (decode_body (rqBody r)) as [req|]; [|apply both_error].
  eapply both_bind; [apply both_settings|]. intros x x' (s & s' & -> & -> & Hs).
  pose proof Hs as (_ & _ & Hhash & _).
  eapply both_bind; [by apply (both_password_hash A2 A2')|]. intros [h|e] [h'|e'] Hh; try done.
  assert (String.eqb h' "" = String.eqb h "") as ->.
  { destruct (String.eqb_spec h ""), (String.eqb_spec h' ""); tauto || done. }
  destruct (_ && _); [apply both_error|]. eapply both_bind; [apply both_stable_ids|]. intros cs ? <-. cbv zeta.
  set (s1 := mkSettings (mkAuth _ _ h) _ _ _). set (s1' := mkSettings (mkAuth _ _ h') _ _ _).
  assert (same_but_secrets s1 s1') as Hs1 by by split_and!.
  eapply both_bind; [by apply both_save|]. intros err ? <-. destruct err; [apply both_error|].
  apply both_json. by rewrite (toView_redacts _ _ Hs1).
Qed.

Lemma both_CreateToken {V : Validator} {BT : BodyDecode createTokenRequest} (A2 A2' : Argon2) r :
  both (λ _ _, True) (CreateToken (A2 := A2) r) (CreateToken (A2 := A2') r).
Proof.
  unfold CreateToken, invalid_body, internal_error.
  destruct (decode_body (rqBody r)) as [req|]; [|apply both_error].
  destruct (validate_struct _); [apply both_error|].
  eapply both_bind; [apply both_env|]. intros buf ? <-. destruct (GenerateToken buf) as [raw|]; [|apply both_error].
  eapply both_bind; [apply both_env|]. intros salt ? <-.
  destruct salt as [salt|e]; [|apply both_error]. cbn [HashSecret mbind result_bind map_err].
  eapply both_bind; [apply both_fresh_id|]. intros id ? <-.
  eapply both_bind; [apply both_now|]. intros t ? [-> Ht]. cbv zeta.
  eapply both_bind; [by apply both_create|]. intros [e|] [e'|] He; [apply both_error| | |by apply both_json].
  - by destruct He as [_ He]; specialize (He eq_refl).
  - by destruct He as [He _]; specialize (He eq_refl).
Qed.

End Alike.

(** * Properties *)

(** C18: an update of the settings is refused, without a trace, exactly when it
    would enable authentication without a user name or a password; otherwise
    it answers with the redacted view of the settings it stores: the requested
    flags and lists, the channels with a stable identifier each, the password
    hash of the new password (which verifies) or the old hash when none is
    given, and the session secret as it was, so that sessions survive a change
    of password. *)
Theorem UpdateSettings_stores {S C N} {SO : StorageOps S} `{SL : !StorageLaws S SO} {EN : Env N}
    `{EO : !EnvOk N EN} {A2 : Argon2} `{AO : !Argon2Ok A2}
    {BU : BodyDecode updateSettingsRequest} (w : World S C N) r req
    (Hh : healthy (w_store w))
    (Hok : ∀ hash cs, okSettings (mkSettings (mkAuth (usEnabled req) (usUsername req) hash) cs
       (usDisabledResolvers req) (sSessionSecret (settings_of w))))
    (Hrand : ∀ k (n : N), is_ok (rand_Read k n).1 = true)
    (Hbody : decode_body (rqBody r) = Some req) :
  let s := settings_of w in
  let '(rw, w') := respond UpdateSettings r w in
  healthy (w_store w') ∧
  if usEnabled req && (String.eqb (usUsername req) "" ||
       String.eqb (usPassword req) "" && String.eqb (authPasswordHash (sAuth s)) "")
  then rwStatus rw = 400 ∧ view (w_store w') = view (w_store w)
  else rwStatus rw = 200 ∧ ∃ s', updated s req s' ∧
    view (w_store w') = set_settings (view (w_store w)) (Some s') ∧
    rwBody rw = [CJson (to_json (toView s'))].
Proof. by apply UpdateSettings_run. Qed.

(** C28: until somebody has logged in, enabled authentication is open to
    anybody who knows the user name: right after an update that enables it on
    settings without a session secret, the gate accepts a cookie that is signed
    with the empty key. *)
Theorem enabling_is_forgeable {S C N} {SO : StorageOps S} `{SL : !StorageLaws S SO} {EN : Env N}
    `{EO : !EnvOk N EN} {A2 : Argon2} `{AO : !Argon2Ok A2}
    {BU : BodyDecode updateSettingsRequest} (w : World S C N) r req
    (Hh : healthy (w_store w))
    (Hok : ∀ hash cs, okSettings (mkSettings (mkAuth (usEnabled req) (usUsername req) hash) cs
       (usDisabledResolvers req) (sSessionSecret (settings_of w))))
    (Hrand : ∀ k (n : N), is_ok (rand_Read k n).1 = true)
    (Hbody : decode_body (rqBody r) = Some req)
    (Hreq : usEnabled req = true ∧ usUsername req ≠ "" ∧ has_char "|" (usUsername req) = false ∧
            usPassword req ≠ "")
    (Hsecret : sSessionSecret (settings_of w) = "") :
  let '(rw, w1) := respond UpdateSettings r w in
  rwStatus rw = 200 ∧ ∀ t next r' (w2 : World S C N),
    time_ok t → same_store w1 w2 → Unix (clock w2) < Unix (t + sessionTTL) →
    cookie_of r' SessionCookie = Some (SignSession "" (usUsername req) sessionTTL t) →
    ∃ w3, same_store w2 w3 ∧ respond (RequireAuth true next) r' w2 = respond next r' w3.
Proof.
  pose proof (UpdateSettings_run w r req Hh Hok Hrand Hbody) as H. cbv zeta in H.
  destruct (respond UpdateSettings r w) as [rw w1]. destruct H as [Hh1 H].
  destruct Hreq as (Hen & Hu & Hbar & Hp). apply String.eqb_neq in Hu, Hp.
  rewrite Hen, Hu, Hp in H. cbn [andb orb] in H.
  destruct H as (Hst & s' & (He & Hn & _ & _ & _ & _ & Hs) & Hv & _). split; [done|].
  intros t next r' w2 Ht Hw2 Hlt Hc.
  assert (settings_of w2 = s') as Hs2.
  { rewrite (same_store_settings w1 w2 Hw2). unfold settings_of. by rewrite Hv. }
  destruct (RequireAuth_run true next r' w2 fresh_rw) as (w3 & Hw3 & Hrun); [apply Hw2|].
  exists w3. split; [done|]. unfold respond. rewrite Hrun.
  rewrite (admitted_signed w2 r' t); rewrite ?Hs2, ?He, ?Hn, ?Hs, ?Hsecret; try done.
  rewrite Hbar. by apply Z.ltb_lt in Hlt as ->.
Qed.

(** C29: no answer of the handlers of settings and tokens depends on a secret.
    Two stores that differ at most in the password hash (but for whether there
    is one), the session secret and the hashes of the tokens give the same
    responses to the request for the settings, to every update of them, to the
    creation of a token, and to the listing of the tokens; nor do the answers to
    an update and to a creation depend on the hash that they compute, since they
    are the same under any two key derivations. *)
Theorem secrets_stay {S C N} {SO : StorageOps S} `{SL : !StorageLaws S SO} {EN : Env N}
    `{EO : !EnvOk N EN} {V : Validator} {BU : BodyDecode updateSettingsRequest}
    {BT : BodyDecode createTokenRequest} (A2 A2' : Argon2)
    (Hoks : ∀ x : Settings, okSettings x) (Hokt : ∀ tk, time_ok (tokCreatedAt tk) → okToken tk)
    (r : Request) (w w' : World S C N) (Hw : alike w w') :
  (respond GetSettings_handler r w').1 = (respond GetSettings_handler r w).1 ∧
  (respond (UpdateSettings (A2 := A2')) r w').1 = (respond (UpdateSettings (A2 := A2)) r w).1 ∧
  (respond (CreateToken (A2 := A2')) r w').1 = (respond (CreateToken (A2 := A2)) r w).1 ∧
  (∀ l l', (ListAPITokens (w_store w)).1 = Ok l → (ListAPITokens (w_store w')).1 = Ok l' →
     Forall2 same_but_hash l l' →
     (respond ListTokens r w').1 = (respond ListTokens r w).1).
Proof.
  split_and!.
  - apply both_respond; [|done]. eapply both_bind; [apply both_settings|].
    intros x x' (s & s' & -> & -> & Hs). apply both_json. by rewrite (toView_redacts _ _ Hs).
  - apply both_respond; [|done]. by apply both_UpdateSettings.
  - apply both_respond; [|done]. by apply both_CreateToken.
  - intros l l' Hl Hl' He. unfold respond, ListTokens, listed, store_op, on_world, on_store.
    cbv [mbind M_bind]. simpl.
    destruct (ListAPITokens (w_store w)) as [x st], (ListAPITokens (w_store w')) as [x' st'].
    simpl in Hl, Hl'. subst. simpl. by rewrite (same_but_hash_json l l').
Qed.

(** A new token is shown once and stored as a hash: the answer carries the
    43 characters of the raw token, the store gets a token with the requested
    name, their first 8 as its prefix and a hash that they verify, filed under
    a fresh identifier. *)
Theorem CreateToken_stores {S C N} {SO : StorageOps S} `{SL : !StorageLaws S SO} {EN : Env N}
    `{EO : !EnvOk N EN} {A2 : Argon2} `{AO : !Argon2Ok A2} {V : Validator} `{VO : !ValidatorOk V}
    {BT : BodyDecode createTokenRequest} (w : World S C N) r name
    (Hh : healthy (w_store w)) (Hok : ∀ tk, time_ok (tokCreatedAt tk) → okToken tk)
    (Hrand : ∀ k (n : N), is_ok (rand_Read k n).1 = true)
    (Hfresh : ∀ n n' l, rand_Read 8 n = (Ok l, n') → abs_tokens (view (w_store w)) !! hex l = None)
    (Hbody : decode_body (rqBody r) = Some (mkCreateToken name)) (Hname : name ≠ "") :
  let '(rw, w') := respond CreateToken r w in
  rwStatus rw = 201 ∧ ∃ tok raw,
    rwBody rw = [CJson (to_json (mkCreateTokenResponse tok raw))] ∧
    view (w_store w') = set_tokens (view (w_store w))
      (<[tokID tok := kept_token kept tok]> (abs_tokens (view (w_store w)))) ∧
    abs_tokens (view (w_store w)) !! tokID tok = None ∧
    tokName tok = name ∧ String.length raw = 43%nat ∧ tokPrefix tok = stake 8 raw ∧
    VerifySecret raw (tokHash tok) = true.
Proof.
  apply respond_wp. cbn [fst snd]. unfold CreateToken. rewrite Hbody. cbn [ctName].
  assert (validate_struct [("Name", "required", name)] = None) as ->.
  { apply validate_struct_ok. apply Forall_cons_2; [by left|constructor]. }
  apply wp_bind, wp_env. pose proof (Hrand 32%nat (w_net w)) as Hr1.
  pose proof (rand_bytes 32 (w_net w)) as Hb1.
  destruct (rand_Read 32 (w_net w)) as [[l1|] n1]; [|done].
  destruct (Hb1 n1 l1 eq_refl) as [Hl1 _]. cbn [fst snd GenerateToken].
  set (raw := RawURL_Encode l1). change (GenerateToken (Ok l1)) with (@Ok string raw). cbv beta iota.
  apply wp_bind, wp_env. cbn [w_net]. pose proof (Hrand argonSaltLen n1) as Hr2.
  pose proof (rand_bytes argonSaltLen n1) as Hb2.
  destruct (rand_Read argonSaltLen n1) as [[salt|] n2]; [|done].
  destruct (Hb2 n2 salt eq_refl) as [_ Hsalt]. cbn [fst snd].
  destruct (HashSecret raw (Ok salt)) as [hash|] eqn:Ehash; [|done].
  destruct (HashSecret_verifies raw salt hash Hsalt Ehash) as [Hver _].
  apply wp_bind, wp_fresh_id. rewrite fresh_id_run. cbn [w_net w_store w_cache].
  pose proof (Hrand 8%nat n2) as Hr3. specialize (Hfresh n2).
  destruct (rand_Read 8 n2) as [[l3|] n3]; [|done]. specialize (Hfresh n3 l3 eq_refl). cbn [fst snd].
  apply wp_bind, wp_env. cbn [w_net w_store w_cache].
  pose proof (Now_range n3) as Ht. set (t := (Now n3).1) in *.
  set (tok := mkAPIToken _ _ _ _ _ _). apply wp_bind, wp_store.
  destruct (CreateAPIToken_law tok _ Hh (Hok tok Ht)) as (err & s' & Hs' & _ & Herr & Hv).
  cbn [w_store]. rewrite Hs'. destruct Herr as [_ ->]; [|done].
  unfold abs_insert in Hv. cbn [w_store] in Hv.
  change (tokID tok) with (hex l3) in Hv. rewrite Hfresh in Hv. apply wp_WriteJSON. cbn [fst snd w_store].
  split; [done|]. exists tok, raw. split_and!; try done. by apply RawURL_length_32.
Qed.

(** The stored schedules are valid and filed under their identifiers. *)
Definition schedules_valid (a : AbsStore) : Prop :=
  map_Forall (λ id sc, schID sc = id ∧ schedule_ok sc) (abs_schedules a).

Definition schedules_ok {S C N} {SO : StorageOps S} `{SL : !StorageLaws S SO} (w : World S C N) : Prop :=
  store_ok schedules_valid (w_store w).

(** The handlers of schedules keep the stored schedules valid: each is
    filed under its identifier, has a name, and a cadence without surrounding
    space that the syntactic check accepts. *)
Theorem schedules_stay_valid {S C N} {SO : StorageOps S} `{SL : !StorageLaws S SO} {EN : Env N}
    {V : Validator} `{VO : !ValidatorOk V} {BS : BodyDecode scheduleRequest}
    (Hok : ∀ x : Schedule, okSchedule x) (h : Handler) (r : Request) (w : World S C N)
    (Hh : h ∈ [ListSchedules_handler; CreateSchedule; UpdateSchedule; DeleteSchedule_handler])
    (Hw : schedules_ok w) :
  schedules_ok (respond h r w).2.
Proof.
  assert (ScheduleInv (allowed schedules_valid)) as HI.
  { split; [intros sc Hsc|intros id]; (split; [by intros ?; try apply Hok|]); intros a Ha;
      [by apply map_Forall_insert_2|by apply map_Forall_delete]. }
  pose proof (store_keeps schedules_valid) as SK.
  assert (handler_keeps (store_ok schedules_valid) h) as Hk.
  { rewrite !elem_of_cons, elem_of_nil in Hh.
    destruct_or?; subst; try done; eauto using ListSchedules_calm, CreateSchedule_calm,
      UpdateSchedule_calm, DeleteSchedule_calm. }
  by eapply keeping_respond.
Qed.


(** * Witnesses *)

Definition demo_update : updateSettingsRequest :=
  mkUpdateSettings true "admin" "pw" [mkChannel "" "gowa" "ops" true ∅] ["google"].

Definition demo_decode_update : BodyDecode updateSettingsRequest := λ _, Some demo_update.
Definition demo_decode_token : BodyDecode createTokenRequest := λ _, Some (mkCreateToken "ci").
Definition demo_decode_schedule : BodyDecode scheduleRequest := λ _,
  Some (mkScheduleRequest "nightly" " 0 3 * * * " true).

(** A validator of the tags of the program. *)
Definition demo_validator : Validator := λ fields,
  if decide (Forall (λ '(_, tag, value), (tag = "required" ∧ value ≠ "") ∨
      (tag = "required,ip" ∧ value ≠ "" ∧ NetIP.ParseIP value ≠ None)) fields)
  then None else Some (External "validation failed" false).

#[export] Instance demo_validator_ok : ValidatorOk demo_validator.
Proof.
  intros fields. unfold validate_struct, demo_validator, tag_ok.
  case_decide as H; split; try done; intros H'.
  - eapply Forall_impl; [done|]. intros [[f tag] v] [|(? & ? & ?)]; [by left|right].
    by rewrite not_eq_None_Some in *.
  - exfalso. apply H. eapply Forall_impl; [done|]. intros [[f tag] v] [|(? & ? & ?)]; [by left|right].
    by rewrite not_eq_None_Some in *.
Qed.

Definition fresh_db : DB string doc := mkDB empty_tables [].

Definition fresh_world : World (DB string doc) unit Z := mkWorld fresh_db tt 0.

Lemma fresh_db_healthy : healthy (StorageLaws := sqlite_laws) fresh_db.
Proof. exact (empty_healthy (blob := doc)). Qed.

Lemma UpdateSettings_stores_witness :
  rwStatus (respond (UpdateSettings (A2 := argon2_toy) (BU := demo_decode_update))
    (demo_request []) fresh_world).1 = 200.
Proof.
  pose proof (UpdateSettings_stores (A2 := argon2_toy) (AO := argon2_toy_ok)
    (BU := demo_decode_update) fresh_world (demo_request []) demo_update
    fresh_db_healthy (λ _ _, I) (λ _ _, eq_refl) eq_refl) as H.
  cbv zeta in H. destruct (respond _ _ _) as [rw w1]. apply H.
Defined.

Lemma enabling_is_forgeable_witness :
  rwStatus (respond (UpdateSettings (A2 := argon2_toy) (BU := demo_decode_update))
    (demo_request []) fresh_world).1 = 200.
Proof.
  pose proof (enabling_is_forgeable (A2 := argon2_toy) (AO := argon2_toy_ok)
    (BU := demo_decode_update) fresh_world (demo_request []) demo_update
    fresh_db_healthy (λ _ _, I) (λ _ _, eq_refl) eq_refl) as H.
  destruct (respond _ _ _) as [rw w1]. apply H; [by split_and!|by vm_compute].
Defined.

Lemma CreateToken_stores_witness :
  rwStatus (respond (CreateToken (A2 := argon2_toy) (V := demo_validator)
    (BT := demo_decode_token)) (demo_request []) fresh_world).1 = 201.
Proof.
  pose proof (CreateToken_stores (A2 := argon2_toy) (AO := argon2_toy_ok)
    (V := demo_validator) (BT := demo_decode_token) fresh_world (demo_request []) "ci"
    fresh_db_healthy (λ _ H, H) (λ _ _, eq_refl) (λ _ _ _ _, eq_refl) eq_refl ltac:(done)) as H.
  destruct (respond _ _ _) as [rw w1]. apply H.
Defined.

Lemma schedules_stay_valid_witness :
  schedules_ok (SL := sqlite_laws)
    (respond (CreateSchedule (V := demo_validator) (BS := demo_decode_schedule))
      (demo_request []) fresh_world).2.
Proof.
  apply (schedules_stay_valid (SL := sqlite_laws) (V := demo_validator)
    (BS := demo_decode_schedule)).
  - done.
  - rewrite !elem_of_cons. by right; left.
  - split; [exact fresh_db_healthy|].
    unfold schedules_valid. change (abs_schedules (view (w_store fresh_world))) with (∅ : gmap string Schedule).
    apply map_Forall_empty.
Defined.


(** The same settings and token with other secrets. *)
Definition secret_db (hash secret : string) : DB string doc :=
  (do_ops [OSaveSettings (mkSettings (mkAuth true "admin" hash) [] [] secret);
           OCreateAPIToken (mkAPIToken "1" "ci" hash "abcdefgh" 0 None)] fresh_db).2.

Definition secret_world (hash secret : string) : World (DB string doc) unit Z :=
  mkWorld (secret_db hash secret) tt 0.

Lemma secret_db_healthy hash secret : healthy (StorageLaws := sqlite_laws) (secret_db hash secret).
Proof.
  unfold secret_db. edestruct do_ops_correct as (rs & s' & -> & Hh & _);
    [exact fresh_db_healthy| |exact Hh].
  by repeat split.
Qed.

(** Under another key derivation, whose keys are all zero. *)
Definition argon2_zero : Argon2 := {|
  IDKey _ _ _ _ _ n := replicate (Z.to_nat n) 0; argon2_Version := 19
|}.

Lemma secret_db_view hash secret :
  abs_settings (view (StorageLaws := sqlite_laws) (secret_db hash secret)) =
    Some (mkSettings (mkAuth true "admin" hash) [] [] secret) ∧
  abs_tokens (view (StorageLaws := sqlite_laws) (secret_db hash secret)) =
    {["1" := mkAPIToken "1" "ci" hash "abcdefgh" 0 None]}.
Proof. split; by vm_compute. Qed.

#[local] Opaque secret_db.

Lemma secret_worlds_alike : alike (SL := sqlite_laws) (secret_world "h1" "s1") (secret_world "h2" "s2").
Proof.
  destruct (secret_db_view "h1" "s1") as [S1 E1], (secret_db_view "h2" "s2") as [S2 E2].
  split; [exact (secret_db_healthy "h1" "s1")|]. split; [exact (secret_db_healthy "h2" "s2")|].
  split; [reflexivity|]. unfold settings_of. cbn [w_store secret_world].
  split; [rewrite S1, S2; clear; by split_and!|].
  intros id. cbn [w_store secret_world]. rewrite E1, E2.
  destruct (decide (id = "1")) as [->|Hne].
  - rewrite !lookup_singleton_eq. clear; by constructor.
  - rewrite !lookup_singleton_ne by (clear - Hne; congruence). constructor.
Qed.

#[local] Transparent secret_db.

Lemma secrets_stay_witness :
  (respond GetSettings_handler (demo_request []) (secret_world "h2" "s2")).1 =
  (respond GetSettings_handler (demo_request []) (secret_world "h1" "s1")).1 ∧
  (respond (UpdateSettings (A2 := argon2_zero) (BU := demo_decode_update)) (demo_request [])
     (secret_world "h2" "s2")).1 =
  (respond (UpdateSettings (A2 := argon2_toy) (BU := demo_decode_update)) (demo_request [])
     (secret_world "h1" "s1")).1 ∧
  rwStatus (respond (UpdateSettings (A2 := argon2_toy) (BU := demo_decode_update)) (demo_request [])
     (secret_world "h1" "s1")).1 = 200.
Proof.
  pose proof (secrets_stay (SL := sqlite_laws) (EO := tick_env_ok) (V := demo_validator)
    (BU := demo_decode_update) (BT := demo_decode_token) argon2_toy argon2_zero
    (λ _, I) (λ _ H, H) (demo_request []) _ _ secret_worlds_alike) as (Hg & Hu & _).
  split; [exact Hg|]. split; [exact Hu|]. by vm_compute.
Defined.
