(* ===== verification/MonitorsApi.v ===== *)
(** * Monitor handlers

    [internal/api/v1/monitors.go]: creating, changing, deleting and running
    monitors, and their changelog; with the invariant of the stored monitors
    that the evaluator relies on. *)

From S2P Require Import Prelude.
From S2P Require Import GoString.
From S2P Require Import Crypto.
From S2P Require Import DnsTypes.
From S2P Require Import Settings.
From S2P Require Import Session.
From S2P Require Import Env.
From S2P Require Import GoTime.
From S2P Require Import Storage.
From S2P Require Import Interleave.
From S2P Require Import Sql.
From S2P Require Import Sqlite.
From S2P Require Import SqlRefine.
From S2P Require Import DnsClient.
From S2P Require Import Summary.
From S2P Require Import Checker.
From S2P Require Import FanOut.
From S2P Require Import Monitor.
From S2P Require Import Json.
From S2P Require Import Http.
From S2P Require Import Auth.
From S2P Require Import SettingsApi.

Local Open Scope Z_scope.

(* src: internal/api/v1/monitors.go monitorRequest *)
Record monitorRequest := mkMonitorRequest {
  mrName : string;
  mrType : string;
  mrFQDN : string;
  mrRecordType : string;
  mrExpected : list string;
  mrSchedulerID : string;
  mrChannelID : string;
  mrEnabled : bool
}.

(* src: internal/api/v1/monitors.go cleanValues *)
Definition cleanValues (l : list string) : list string :=
  omap (λ v, let v := TrimSpace v in if String.eqb v "" then None else Some v) l.

(** The pattern of the handlers, which is that of the checker. *)
(* src: internal/api/v1/check.go 16-19 domainRE *)
Definition v1_domainRE (s : string) : bool := domainRE s.

Section MonitorsApi.
Context `{D : DnsConsts} {R : MapRange}.
Context {S C N : Type} {SO : StorageOps S} {EN : Env N} {V : Validator}
  {CR : CheckRunner (World S C N)} {NO : Notifier N} {BM : BodyDecode monitorRequest}.

Abbreviation world := (World S C N).
Abbreviation H := (M (world * RW)).

(** The answer is written when the request is not valid. *)
(* src: internal/api/v1/monitors.go monitorRequest.validate *)
Definition monitorRequest_validate (req : monitorRequest) (r : Request) : H bool :=
  let refuse code message := _ ← WriteError r StatusBadRequest code message; mret false in
  match validate_struct [("Type", "required", mrType req); ("FQDN", "required", mrFQDN req);
                         ("RecordType", "required", mrRecordType req)] with
  | Some err => refuse ErrCodeInvalidInput (Error err)
  | None =>
      if negb (String.eqb (mrType req) MonitorPropagation) &&
         negb (String.eqb (mrType req) MonitorChange) then
        refuse ErrCodeInvalidInput "type must be 'propagation' or 'change'."
      else if negb (v1_domainRE (mrFQDN req)) then refuse ErrCodeInvalidDomain "Invalid FQDN."
      else if negb (bool_decide (is_Some (ParseType (mrRecordType req)))) then
        refuse ErrCodeInvalidRecordType "Unsupported record type."
      else if String.eqb (mrType req) MonitorPropagation &&
              bool_decide (length (cleanValues (mrExpected req)) = 0%nat) then
        refuse ErrCodeInvalidInput "Propagation monitors require at least one expected value."
      else mret true
  end.

(* src: internal/api/v1/monitors.go ListMonitors *)
Definition ListMonitors_handler : Handler (W := world) := λ r,
  list ← store_op ListMonitors;
  listed r list "Failed to list monitors.".

(** The name of a monitor: by default its domain. *)
Definition monitor_name (req : monitorRequest) : string :=
  let name := TrimSpace (mrName req) in
  if String.eqb name "" then TrimSpace (mrFQDN req) else name.

(* src: internal/api/v1/monitors.go CreateMonitor *)
Definition CreateMonitor : Handler (W := world) := λ r,
  match decode_body (A := monitorRequest) (rqBody r) with
  | None => invalid_body r
  | Some req =>
      valid ← monitorRequest_validate req r;
      if negb valid then mret tt else
      now ← env_op Now;
      id ← on_world fresh_id;
      let m := mkMonitor id (monitor_name req) (mrType req) (TrimSpace (mrFQDN req))
        (mrRecordType req) (cleanValues (mrExpected req)) (mrSchedulerID req)
        (mrChannelID req) (mrEnabled req) now now in
      err ← store_op (SaveMonitor m);
      match err with
      | Some _ => internal_error r "Failed to create monitor."
      | None =>
          evid ← on_world fresh_id;
          _ ← store_op (AppendMonitorEvent
                (mkMonitorEvent evid id now MonitorStatusCreated (mExpected m) "Monitor created." false));
          WriteJSON StatusCreated m
      end
  end.

(* src: internal/api/v1/monitors.go UpdateMonitor *)
Definition UpdateMonitor : Handler (W := world) := λ r,
  let id := URLParam r "id" in
  match decode_body (A := monitorRequest) (rqBody r) with
  | None => invalid_body r
  | Some req =>
      valid ← monitorRequest_validate req r;
      if negb valid then mret tt else
      existing ← store_op (GetMonitor id);
      match existing with
      | Err err => store_failed r err "Monitor not found." "Failed to load monitor."
      | Ok existing =>
          t ← env_op Now;
          let existing := mkMonitor (mID existing) (monitor_name req) (mrType req)
            (TrimSpace (mrFQDN req)) (mrRecordType req) (cleanValues (mrExpected req))
            (mrSchedulerID req) (mrChannelID req) (mrEnabled req) (mCreatedAt existing) t in
          err ← store_op (SaveMonitor existing);
          match err with
          | Some _ => internal_error r "Failed to update monitor."
          | None => WriteJSON StatusOK_http existing
          end
      end
  end.

(* src: internal/api/v1/monitors.go DeleteMonitor *)
Definition DeleteMonitor_handler : Handler (W := world) := λ r,
  err ← store_op (DeleteMonitor (URLParam r "id"));
  deleted r err "Monitor not found." "Failed to delete monitor.".

(* src: internal/api/v1/monitors.go RunMonitor *)
Definition RunMonitor : Handler (W := world) := λ r,
  event ← on_world (RunByID (URLParam r "id"));
  match event with
  | Err err => store_failed r err "Monitor not found." "Failed to run monitor."
  | Ok event => WriteJSON StatusOK_http event
  end.

(** The number of entries that a request asks for. *)
(* src: internal/api/v1/monitors.go 214-219 MonitorHistory *)
Definition history_limit (r : Request) : Z :=
  let l := query_get r "limit" in
  if String.eqb l "" then 100 else
  match Atoi l with
  | Some n => if 0 <? n then n else 100
  | None => 100
  end.

(* src: internal/api/v1/monitors.go MonitorHistory *)
Definition MonitorHistory : Handler (W := world) := λ r,
  events ← store_op (ListMonitorEvents (URLParam r "id") (history_limit r));
  listed r events "Failed to load monitor history.".

End MonitorsApi.

(** * Lemmas *)

Lemma cleanValues_spec l v :
  v ∈ cleanValues l ↔ ∃ x, x ∈ l ∧ v = TrimSpace x ∧ v ≠ "".
Proof.
  unfold cleanValues. rewrite list_elem_of_omap. split.
  - intros (x & Hx & H). exists x. destruct (String.eqb_spec (TrimSpace x) ""); by simplify_eq.
  - intros (x & Hx & -> & Hne). exists x. split; [done|]. by apply String.eqb_neq in Hne as ->.
Qed.

Lemma sforall_impl (p q : ascii → bool) s :
  (∀ c, p c = true → q c = true) → sforall p s = true → sforall q s = true.
Proof.
  intros Hpq. induction s as [|c s IH]; [done|]. simpl.
  intros [Hc Hs]%andb_true_iff. by rewrite Hpq, IH.
Qed.

(** A domain name has no white space. *)
Lemma domain_trim s : domainRE s = true → TrimSpace s = s.
Proof.
  unfold domainRE. intros [_ Hs]%andb_true_iff.
  apply TrimSpace_fix; (eapply sforall_impl; [|exact Hs]); intros c;
    unfold domain_char, space1; lia.
Qed.

Section MonitorsOk.
Context `{D : DnsConsts}.

(** What the evaluator relies on. *)
Definition monitor_ok (m : Monitor) : Prop :=
  (mType m = MonitorPropagation ∨ mType m = MonitorChange) ∧
  domainRE (mFQDN m) = true ∧ is_Some (ParseType (mRecordType m)) ∧ mName m ≠ "" ∧
  (mType m = MonitorPropagation → mExpected m ≠ [] ∧
     Forall (λ v, v ≠ "" ∧ TrimSpace v = v) (mExpected m)).

Lemma monitor_ok_baseline m e t :
  monitor_ok m → mType m = MonitorChange → monitor_ok (set_mExpected m e t).
Proof.
  intros (H1 & H2 & H3 & H4 & _) Hty. split_and!; try done. simpl. by rewrite Hty.
Qed.

(** The requests that pass the validation. *)
Definition monitor_accepted (req : monitorRequest) : Prop :=
  (mrType req = MonitorPropagation ∨ mrType req = MonitorChange) ∧
  domainRE (mrFQDN req) = true ∧ is_Some (ParseType (mrRecordType req)) ∧
  (mrType req = MonitorPropagation → cleanValues (mrExpected req) ≠ []).

Lemma monitor_of_request req id sched ch en c u :
  monitor_accepted req →
  monitor_ok (mkMonitor id (monitor_name req) (mrType req) (TrimSpace (mrFQDN req))
    (mrRecordType req) (cleanValues (mrExpected req)) sched ch en c u).
Proof.
  intros (Hty & Hdom & Hrt & Hexp). pose proof (domain_trim _ Hdom) as Htrim.
  split_and!; simpl; rewrite ?Htrim; try done.
  - unfold monitor_name. rewrite Htrim.
    destruct (String.eqb_spec (TrimSpace (mrName req)) "") as [_|]; [|done].
    intros He. by rewrite He in Hdom.
  - intros Hp. split; [by apply Hexp|]. apply Forall_forall.
    intros v (x & _ & -> & Hne)%cleanValues_spec. split; [done|]. apply TrimSpace_idemp.
Qed.

(** An invariant of the store that says that of the stored monitors. *)
Class MonitorInv (I : AbsStore → Prop) (G : op → Prop) : Prop := {
  inv_monitors : ∀ a, I a → map_Forall (λ id m, mID m = id ∧ monitor_ok m) (abs_monitors a);
  inv_save_monitor : ∀ m, monitor_ok m → G (OSaveMonitor m);
  inv_delete_monitor : ∀ id, G (ODeleteMonitor id);
  inv_event : ∀ e, time_ok (evTimestamp e) → G (OAppendMonitorEvent e)
}.

Context {R : MapRange}.
Context {S C N : Type} {SO : StorageOps S} {EN : Env N} `{EO : !EnvOk N EN}
  {V : Validator} {CR : CheckRunner (World S C N)} {NO : Notifier N}
  {BM : BodyDecode monitorRequest} (keep : Time → Time) (I : AbsStore → Prop) (G : op → Prop)
  (K : S → Prop) `{SK : !StoreKeeps SO keep I G K} `{HI : !MonitorInv I G}
  `{RC : !RunnerCalm (CR := CR) K}.

Abbreviation world := (World S C N).
Abbreviation P := (beside (calm (C := C) (N := N) K)).

Lemma keeping_save_monitor m : monitor_ok m →
  keeping (calm K) (λ _, True) (on_store (C := C) (N := N) (SaveMonitor m)).
Proof. intros. by eapply (keeping_write _ _ _ _ (OSaveMonitor _)), inv_save_monitor. Qed.

Lemma keeping_event id mid t status observed message notified : time_ok t →
  keeping (calm K) (λ _, True) (on_store (C := C) (N := N)
    (AppendMonitorEvent (mkMonitorEvent id mid t status observed message notified))).
Proof. intros. by eapply (keeping_write _ _ _ _ (OAppendMonitorEvent _)), inv_event. Qed.

(** A monitor that is found is valid. *)
Lemma keeping_get_monitor id : keeping (calm K) (λ r, ∀ m, r = Ok m → mID m = id ∧ monitor_ok m)
  (on_store (C := C) (N := N) (GetMonitor id)).
Proof.
  apply (keeping_call keep I G _ (OGetMonitor id) RMonitor); [done|by apply (reading_allowed (J := K))|].
  intros a x Ha [= ->] m Hm. unfold abs_get in Hm.
  destruct (abs_monitors a !! id) eqn:E; [|done]. simplify_eq. by apply (inv_monitors a Ha).
Qed.

Hint Resolve keeping_save_monitor keeping_event keeping_get_monitor keeping_internal_error
  keeping_invalid_body keeping_store_failed keeping_deleted keeping_listed : keeps.

Lemma keeping_monitor_validate req r :
  keeping P (λ b : bool, b = true → monitor_accepted req) (monitorRequest_validate req r).
Proof.
  unfold monitorRequest_validate. cbv zeta. destruct (validate_struct _); [keeps|].
  destruct (negb (mrType req =? MonitorPropagation)%string && _) eqn:Ety; [keeps|].
  destruct (v1_domainRE (mrFQDN req)) eqn:Edom; cbn [negb]; [|keeps].
  destruct (bool_decide_reflect (is_Some (ParseType (mrRecordType req)))) as [Hrt|Hrt];
    cbn [negb]; [|keeps].
  destruct (String.eqb (mrType req) MonitorPropagation && bool_decide _) eqn:Ex; [keeps|].
  apply keeping_ret. intros _. split_and!; [|done..|].
  - apply andb_false_iff in Ety as [Ety|Ety]; apply negb_false_iff, String.eqb_eq in Ety; auto.
  - intros Hp Hn. rewrite Hp, String.eqb_refl, Hn in Ex. by vm_compute in Ex.
Qed.

Lemma CreateMonitor_calm : handler_keeps (C := C) K CreateMonitor.
Proof.
  intros r. unfold CreateMonitor, store_op, env_op. destruct (decode_body _) as [req|]; [|keeps].
  eapply keeping_bind; [apply keeping_monitor_validate|]. intros [] Hreq; [|keeps].
  pose proof (λ id c u, keeping_save_monitor _ (monitor_of_request req id (mrSchedulerID req)
    (mrChannelID req) (mrEnabled req) c u (Hreq eq_refl))).
  keeps.
Qed.

Lemma UpdateMonitor_calm : handler_keeps (C := C) K UpdateMonitor.
Proof.
  intros r. unfold UpdateMonitor, store_op, env_op. destruct (decode_body _) as [req|]; [|keeps].
  eapply keeping_bind; [apply keeping_monitor_validate|]. intros [] Hreq; [|keeps].
  pose proof (λ id c u, keeping_save_monitor _ (monitor_of_request req id (mrSchedulerID req)
    (mrChannelID req) (mrEnabled req) c u (Hreq eq_refl))).
  keeps.
Qed.

Lemma DeleteMonitor_calm : handler_keeps (C := C) (N := N) K DeleteMonitor_handler.
Proof.
  intros r. unfold DeleteMonitor_handler, store_op. eapply keeping_bind;
    [by eapply keeping_world, (keeping_write _ _ _ _ (ODeleteMonitor _)), inv_delete_monitor|keeps].
Qed.

Lemma ListMonitors_calm : handler_keeps (C := C) (N := N) K ListMonitors_handler.
Proof. intros r. unfold ListMonitors_handler, store_op. keeps. Qed.

Lemma MonitorHistory_calm : handler_keeps (C := C) (N := N) K MonitorHistory.
Proof. intros r. unfold MonitorHistory, store_op. keeps. Qed.

Lemma RunMonitor_calm : handler_keeps K RunMonitor.
Proof.
  intros r. unfold RunMonitor, RunByID.
  eapply (keeping_bind _ (λ _, True)); [|keeps].
  apply keeping_world. eapply keeping_bind; [apply keeping_get_monitor|].
  intros [m|e] Hm; [|keeps]. destruct (Hm m eq_refl) as [_ Hok].
  eapply keeping_bind; [|keeps]. eapply keeping_Run; [done..| |by apply inv_event].
  intros e t Hty. by apply inv_save_monitor, monitor_ok_baseline.
Qed.

End MonitorsOk.

(** The stored monitors are valid and filed under their identifiers. *)
Definition monitors_valid `{D : DnsConsts} (a : AbsStore) : Prop :=
  map_Forall (λ id m, mID m = id ∧ monitor_ok m) (abs_monitors a).

Definition monitors_ok `{D : DnsConsts} {S C N} {SO : StorageOps S} `{SL : !StorageLaws S SO}
    (w : World S C N) : Prop := store_ok monitors_valid (w_store w).

(** * Properties *)

(** Every handler of monitors, running one included, keeps the stored
    monitors as the evaluator needs them: filed under their identifiers, of one
    of the two types, with a name, a well-formed domain without surrounding
    space and a supported record type, and for propagation monitors at least
    one expected value, none of them blank.  So the check that a run makes for
    a stored monitor is refused only when its domain is private or local. *)
Theorem monitors_stay_valid `{D : DnsConsts} `{U : GoFmt.Unicode} {R : MapRange} {S C N}
    {SO : StorageOps S} `{SL : !StorageLaws S SO} {EN : Env N} `{EO : !EnvOk N EN} {V : Validator}
    {CR : CheckRunner (World S C N)} {NO : Notifier N} {BM : BodyDecode monitorRequest}
    `{KR : !RunnerKeeps} (Hokm : ∀ x : Monitor, okMonitor x) 
    (Hoke : ∀ e : MonitorEvent, time_ok (evTimestamp e) → okEvent e)
    (h : Handler) (r : Request) (w : World S C N)
    (Hh : h ∈ [ListMonitors_handler; CreateMonitor; UpdateMonitor; DeleteMonitor_handler; RunMonitor])
    (Hw : monitors_ok w) :
  let w' := (respond h r w).2 in
  monitors_ok w' ∧
  ∀ id m, abs_monitors (view (w_store w')) !! id = Some m →
    validateRequest (mkCheckRequest (mFQDN m) (mRecordType m) [] [] false false true) =
    if isPrivateOrLocal (mFQDN m)
    then Some (Errorf "private or local domain names are not allowed") else None.
Proof.
  assert (MonitorInv monitors_valid (allowed monitors_valid)) as HI.
  { split; [done|intros m Hm|intros id|intros e Ht]; (split; [by intros ?; simpl; auto|]); intros a Ha.
    - by apply map_Forall_insert_2.
    - simpl. case_decide; [done|]. by apply map_Forall_delete.
    - done. }
  pose proof (store_keeps monitors_valid) as SK.
  assert (RunnerCalm (CR := CR) (store_ok monitors_valid)) as RC.
  { intros req Hreq w0 [Hh0 HI0]. destruct (KR req w0 Hreq Hh0) as [Hh1 Hv1].
    split; [|done]. split; [done|]. by rewrite Hv1. }
  assert (handler_keeps (store_ok monitors_valid) h) as Hk.
  { rewrite !elem_of_cons, elem_of_nil in Hh.
    destruct_or?; subst; try done; eauto using ListMonitors_calm, CreateMonitor_calm,
      UpdateMonitor_calm, DeleteMonitor_calm, RunMonitor_calm. }
  assert (monitors_ok (respond h r w).2) as H by (by eapply keeping_respond).
  destruct (respond h r w) as [rw w']. cbn [snd] in *.
  split; [done|]. intros id m Hm. destruct H as [_ Hs].
  destruct (Hs _ _ Hm) as (_ & _ & Hdom & Hrt & _). unfold validateRequest. cbn [crName crType].
  destruct (String.eqb_spec (mFQDN m) "") as [He|_]; [by rewrite He in Hdom|].
  rewrite Hdom. cbn [negb]. rewrite bool_decide_eq_true_2 by done. cbn [negb].
  rewrite decide_False by (simpl; unfold maxResolvers; lia). done.
Qed.

Definition demo_decode_monitor : BodyDecode monitorRequest := λ _,
  Some (mkMonitorRequest " web " MonitorPropagation "a.example" "A" ["192.0.2.1"; " "] "" "" true).

(** A client without network, and the runner built from it. *)
Definition tick_client : ClientOps Z := client_ops (H := iana) (H0 := GoFmt.ascii_only) demo_dns.

Definition tick_runner : CheckRunner (World (DB string doc) Cache.noopCache Z) :=
  checker_runner (D := iana) (U := GoFmt.ascii_only) (R := range_forward)
    (CO := Cache.noop_cache_ops) (CL := tick_client) (J := one_codec) (λ n, n) demo_checker.

Definition tick_notifier : Notifier Z := {| Send _ _ := mret None |}.

Definition tick_world : World (DB string doc) Cache.noopCache Z := mkWorld fresh_db tt 0.

Lemma monitors_stay_valid_witness :
  monitors_ok (D := iana) (SL := sqlite_laws)
    (respond (CreateMonitor (D := iana) (V := demo_validator) (BM := demo_decode_monitor))
      (demo_request []) tick_world).2.
Proof.
  apply (monitors_stay_valid (D := iana) (U := GoFmt.ascii_only) (R := range_forward)
    (SL := sqlite_laws) (EO := tick_env_ok) (V := demo_validator) (CR := tick_runner)
    (NO := tick_notifier) (BM := demo_decode_monitor)
    (KR := checker_runner_keeps (D := iana) (U := GoFmt.ascii_only) (R := range_forward)
       (CO := Cache.noop_cache_ops) (CL := tick_client) (J := one_codec) (λ n, n) demo_checker)).
  - done.
  - by intros e He.
  - rewrite !elem_of_cons. by right; left.
  - split; [apply (empty_healthy (blob := doc))|].
    unfold monitors_valid. change (abs_monitors (view (w_store tick_world))) with (∅ : gmap string Monitor).
    apply map_Forall_empty.
Defined.
