(* ===== verification/CheckApi.v ===== *)
(** * Check, lookup, trace, history and resolver handlers

    [internal/api/v1/]: check.go, lookup.go, trace.go, reverse.go, history.go,
    resolvers.go, recordtypes.go and health.go. *)

From S2P Require Import Prelude.
From S2P Require Import GoString.
From S2P Require Import Crypto.
From S2P Require Import GoFmt.
From S2P Require Import DnsTypes.
From S2P Require Import Session.
From S2P Require Import NetIP.
From S2P Require Import Config.
From S2P Require Import Resolvers.
From S2P Require Import Env.
From S2P Require Import Cache.
From S2P Require Import DnsClient.
From S2P Require Import Settings.
From S2P Require Import Storage.
From S2P Require Import Sql.
From S2P Require Import Sqlite.
From S2P Require Import SqlRefine.
From S2P Require Import Summary.
From S2P Require Import Checker.
From S2P Require Import Trace.
From S2P Require Import Json.
From S2P Require Import Http.
From S2P Require Import Auth.
From S2P Require Import SettingsApi.
From S2P Require Import MonitorsApi.

Local Open Scope Z_scope.

(** ** Requests *)

(* src: internal/api/v1/check.go CheckRequest *)
Record apiCheckRequest := mkApiCheck {
  acName : string;
  acType : string;
  acResolvers : list string;
  acCustomResolvers : list Resolver;
  acSave : bool
}.

(* src: internal/api/v1/lookup.go LookupRequest *)
Record apiLookupRequest := mkApiLookup {
  alName : string;
  alType : string;
  alResolver : string;
  alProtocol : string
}.

(* src: internal/api/v1/trace.go TraceRequest *)
Record apiTraceRequest := mkApiTrace { atName : string; atType : string }.

(* src: internal/api/v1/reverse.go ReverseRequest *)
Record ReverseRequest := mkReverse { rvIP : string; rvResolvers : list string }.

(** ** Reverse names *)

(** [fmt.Sprintf("%x", b)] as the list of its characters. *)
Definition nibbles (b : list Z) : list string :=
  (λ c, String c "") <$> String.list_ascii_of_string (hex b).

(** The in-place exchange of the two halves is [reverse].  An address that
    parses has 16 bytes, so that [To16] succeeds. *)
(* src: internal/api/v1/reverse.go toPTRName *)
Definition toPTRName (ipStr : string) : result string :=
  match ParseIP ipStr with
  | None => Err (Errorf ("invalid IP address: " +:+ ipStr))
  | Some ip =>
      match To4 ip with
      | Some v4 => Ok (Join (reverse (Split "." (dotted v4))) "." +:+ ".in-addr.arpa.")
      | None => Ok (Join (reverse (nibbles ip)) "." +:+ ".ip6.arpa.")
      end
  end.

(** ** Record types *)

(* src: internal/api/v1/recordtypes.go recordTypeInfo *)
Record recordTypeInfo := mkRecordTypeInfo { rtName : string; rtDescription : string }.

#[export] Instance json_of_recordTypeInfo : ToJson recordTypeInfo := λ i,
  JObj [("name", JStr (rtName i)); ("description", JStr (rtDescription i))].

(* src: internal/api/v1/recordtypes.go buildRecordTypes *)
Definition buildRecordTypes `{D : DnsConsts} `{R : MapRange} : list recordTypeInfo :=
  (λ name, mkRecordTypeInfo name (default "" (TypeDescriptions !! name)))
    <$> sort_strings SupportedTypeNames.

Section CheckApi.
Context `{D : DnsConsts} `{U : Unicode} `{R : MapRange}.
Context {S C N : Type} {SO : StorageOps S} {CO : CacheOps C} {EN : Env N} {CL : ClientOps N}
  {J : Codec string ResolverResult} {V : Validator}
  {BCk : BodyDecode apiCheckRequest} {BLk : BodyDecode apiLookupRequest}
  {BTr : BodyDecode apiTraceRequest} {BRv : BodyDecode ReverseRequest}.
(** The order in which the scheduler picks goroutines. *)
Context (sched : nat → nat).

Abbreviation world := (World S C N).
Abbreviation H := (M (world * RW)).

Definition bad_request (r : Request) (message : string) : H () :=
  WriteError r StatusBadRequest ErrCodeInvalidInput message.

(** The answer to a check: the error, or the check. *)
Definition checked (r : Request) (out : option Check * option error) : H () :=
  match out with
  | (_, Some err) => bad_request r (Error err)
  | (Some check, None) => WriteJSON StatusOK_http check
  | (None, None) => mret tt
  end.

(* src: internal/api/v1/check.go PostCheck *)
Definition PostCheck (c : Checker) : Handler (W := world) := λ r,
  match decode_body (A := apiCheckRequest) (rqBody r) with
  | None => invalid_body r
  | Some req =>
      match validate_struct [("Name", "required", acName req); ("Type", "required", acType req)] with
      | Some err => bad_request r (Error err)
      | None =>
          if negb (v1_domainRE (acName req)) then
            WriteError r StatusBadRequest ErrCodeInvalidDomain "Invalid domain name."
          else
            out ← on_world (Checker_Check sched c
              (mkCheckRequest (acName req) (acType req) (acResolvers req)
                 (acCustomResolvers req) (acSave req) false false));
            checked r out
      end
  end.

(* src: internal/api/v1/check.go GetCheck *)
Definition GetCheck_handler : Handler (W := world) := λ r,
  check ← store_op (GetCheck (URLParam r "id"));
  match check with
  | Err err => store_failed r err "Check not found." "Failed to retrieve check."
  | Ok check => WriteJSON StatusOK_http check
  end.

(* src: internal/api/v1/lookup.go PostLookup *)
Definition PostLookup (c : Checker) : Handler (W := world) := λ r,
  match decode_body (A := apiLookupRequest) (rqBody r) with
  | None => invalid_body r
  | Some req =>
      match validate_struct [("Name", "required", alName req); ("Type", "required", alType req)] with
      | Some err => bad_request r (Error err)
      | None =>
          res ← on_world (Lookup c
            (mkLookupRequest (alName req) (alType req) (alResolver req) (alProtocol req)));
          match res with
          | Err err => bad_request r (Error err)
          | Ok result => WriteJSON StatusOK_http result
          end
      end
  end.

(* src: internal/api/v1/trace.go PostTrace *)
Definition PostTrace (c : Checker) : Handler (W := world) := λ r,
  match decode_body (A := apiTraceRequest) (rqBody r) with
  | None => invalid_body r
  | Some req =>
      match validate_struct [("Name", "required", atName req); ("Type", "required", atType req)] with
      | Some err => bad_request r (Error err)
      | None =>
          if negb (v1_domainRE (atName req)) then
            WriteError r StatusBadRequest ErrCodeInvalidDomain "Invalid domain name."
          else
            res ← env_op (Checker_Trace (cfgDNS (ckCfg c)) (atName req) (atType req));
            match res with
            | Err err => bad_request r (Error err)
            | Ok result => WriteJSON StatusOK_http result
            end
      end
  end.

(* src: internal/api/v1/reverse.go PostReverse *)
Definition PostReverse (c : Checker) : Handler (W := world) := λ r,
  match decode_body (A := ReverseRequest) (rqBody r) with
  | None => invalid_body r
  | Some req =>
      match validate_struct [("IP", "required,ip", rvIP req)] with
      | Some err => bad_request r (Error err)
      | None =>
          match toPTRName (rvIP req) with
          | Err err => bad_request r ("Cannot convert IP to PTR name: " +:+ Error err)
          | Ok ptrName =>
              out ← on_world (Checker_Check sched c
                (mkCheckRequest ptrName "PTR" (rvResolvers req) [] false true false));
              checked r out
          end
      end
  end.

(** The page that a request asks for: limit and offset. *)
(* src: internal/api/v1/history.go 17-29 ListHistory *)
Definition history_page (r : Request) : Z * Z :=
  let l := query_get r "limit" in
  let o := query_get r "offset" in
  ((if String.eqb l "" then 20 else
    match Atoi l with
    | Some n => if (0 <? n) && (n <=? 100) then n else 20
    | None => 20
    end),
   (if String.eqb o "" then 0 else
    match Atoi o with
    | Some n => if 0 <=? n then n else 0
    | None => 0
    end)).

(* src: internal/api/v1/history.go ListHistory *)
Definition ListHistory : Handler (W := world) := λ r,
  let '(limit, offset) := history_page r in
  checks ← store_op (ListChecks limit offset);
  listed r checks "Failed to retrieve history.".

(* src: internal/api/v1/history.go DeleteHistory *)
Definition DeleteHistory : Handler (W := world) := λ r,
  err ← store_op (DeleteCheck (URLParam r "id"));
  deleted r err "Check not found." "Failed to delete check.".

(** The values of the [country] parameter, by the same loop as [cleanValues]. *)
(* src: internal/api/v1/resolvers.go 20-27 ListResolvers *)
Definition query_countries (country : string) : list string :=
  if String.eqb country "" then [] else cleanValues (Split "," country).

(* src: internal/api/v1/resolvers.go ListResolvers *)
Definition ListResolvers (registry : Registry) : Handler (W := world) := λ r,
  WriteJSON StatusOK_http (Filter fold_lower fold_upper (query_countries (query_get r "country")) (query_get r "q") registry).

(* src: internal/api/v1/resolvers.go GetResolver *)
Definition GetResolver (registry : Registry) : Handler (W := world) := λ r,
  match Get (URLParam r "id") registry with
  | None => WriteError r StatusNotFound ErrCodeNotFound "Resolver not found."
  | Some res => WriteJSON StatusOK_http res
  end.

(* src: internal/api/v1/recordtypes.go RecordTypes *)
Definition RecordTypes : Handler (W := world) := λ r, WriteJSON StatusOK_http buildRecordTypes.

(* src: internal/api/v1/health.go Health *)
Definition Health : Handler (W := world) := λ r,
  WriteJSON StatusOK_http (JObj [("status", JStr "ok")]).

(* src: internal/api/v1/health.go Readyz *)
Definition Readyz : Handler (W := world) := λ r,
  l ← store_op (ListChecks 1 0);
  match l with
  | Err err =>
      _ ← on_rw (rw_log (mkLogRecord "ERROR" "readyz: storage check failed"
            [("error", JStr (Error err))]));
      WriteJSON StatusServiceUnavailable
      (JObj [("error", JStr "storage backend unavailable"); ("status", JStr "unavailable")])
  | Ok _ => WriteJSON StatusOK_http (JObj [("status", JStr "ok")])
  end.

End CheckApi.

(** * Lemmas *)

(** ** Reverse names *)

(** The bytes that a list of hexadecimal digits spells. *)
Fixpoint unhex (l : list string) : option (list Z) :=
  match l with
  | [] => Some []
  | String c "" :: String d "" :: l' =>
      h ← hex_val c; k ← hex_val d; r ← unhex l'; Some (h * 16 + k :: r)
  | _ => None
  end.

(** The address that a PTR name stands for (RFC 1035, RFC 3596). *)
Definition ptr_address (name : string) : option IP :=
  if HasSuffix name ".in-addr.arpa." then
    app v4_prefix <$>
      parse_quad (Join (reverse (Split "." (TrimSuffix name ".in-addr.arpa."))) ".")
  else if HasSuffix name ".ip6.arpa." then
    unhex (reverse (Split "." (TrimSuffix name ".ip6.arpa.")))
  else None.

Lemma nibbles_cons b ip :
  nibbles (b :: ip) =
  String (hex_digit (b / 16)) "" :: String (hex_digit (b mod 16)) "" :: nibbles ip.
Proof. unfold nibbles, hex. simpl. reflexivity. Qed.

Lemma unhex_byte b : is_byte b →
  hex_val (hex_digit (b / 16)) = Some (b / 16) ∧ hex_val (hex_digit (b mod 16)) = Some (b mod 16) ∧
  domain_char (hex_digit (b / 16)) = true ∧ domain_char (hex_digit (b mod 16)) = true ∧
  hex_digit (b / 16) ≠ "."%char ∧ hex_digit (b mod 16) ≠ "."%char.
Proof.
  revert b. refine (byte_forall _ _). vm_compute. reflexivity.
Qed.

Lemma unhex_nibbles ip : Forall is_byte ip → unhex (nibbles ip) = Some ip.
Proof.
  induction 1 as [|b ip Hb _ IH]; [done|]. rewrite nibbles_cons.
  destruct (unhex_byte b Hb) as (H1 & H2 & _). simpl. rewrite H1, H2, IH. simpl.
  f_equal. f_equal. rewrite Z.mul_comm. symmetry. apply Z.div_mod. done.
Qed.

(** Words without a separator, of the characters of a name. *)
Definition label_ok (w : string) : Prop := has_char "." w = false ∧ sforall domain_char w = true.

Lemma nibbles_labels ip : Forall is_byte ip → Forall label_ok (nibbles ip).
Proof.
  induction 1 as [|b ip Hb _ IH]; [constructor|]. rewrite nibbles_cons.
  destruct (unhex_byte b Hb) as (_ & _ & H1 & H2 & H3 & H4).
  repeat (apply Forall_cons; split; [split; simpl; rewrite ?H1, ?H2; try done|]); [..|done].
  all: by rewrite bool_decide_eq_false_2.
Qed.

Lemma Join_name l suffix : Forall label_ok l → sforall domain_char suffix = true →
  sforall domain_char (Join l "." +:+ suffix) = true.
Proof.
  intros Hl Hs. rewrite sforall_app, Hs, andb_true_r.
  induction Hl as [|w [|w' ws] [_ Hw] Hl IH]; [done|done|].
  change (Join (w :: w' :: ws) ".") with (w +:+ "." +:+ Join (w' :: ws) ".").
  by rewrite sforall_app, Hw, sforall_app, IH.
Qed.

Lemma Itoa_label z : is_byte z → label_ok (Itoa z).
Proof.
  revert z. refine (byte_forall _ _). vm_compute. reflexivity.
Qed.

(** The labels of a name survive joining and splitting, reversed. *)
Lemma ptr_labels l suffix : l ≠ [] → Forall label_ok l →
  reverse (Split "." (TrimSuffix (Join (reverse l) "." +:+ suffix) suffix)) = l.
Proof.
  intros Hne Hl. rewrite TrimSuffix_app, (Split_Join ".").
  - apply reverse_involutive.
  - intros H. apply Hne. rewrite <-(reverse_involutive l), H. done.
  - rewrite Forall_reverse. eapply Forall_impl; [exact Hl|]. by intros w [].
Qed.

Lemma To4_prefix ip q : length ip = 16%nat → To4 ip = Some q → ip = v4_prefix ++ q.
Proof.
  intros Hl. unfold To4. rewrite Hl. simpl. case_bool_decide as Ht; [|done].
  intros [= <-]. etrans; [symmetry; apply (take_drop 12)|]. by rewrite Ht.
Qed.

Lemma dotted_labels q : length q = 4%nat → Forall is_byte q →
  Split "." (dotted q) = Itoa <$> q ∧ Forall label_ok (Itoa <$> q) ∧
  parse_quad (Join (Itoa <$> q) ".") = Some q.
Proof.
  destruct q as [|a [|b [|c [|d [|? ?]]]]]; try done. intros _ Hq.
  assert (Forall label_ok (Itoa <$> [a; b; c; d])) as Hl.
  { rewrite Forall_fmap. eapply Forall_impl; [exact Hq|]. apply Itoa_label. }
  split_and!; [|exact Hl|].
  - apply (Split_Join "."); [done|]. eapply Forall_impl; [exact Hl|]. by intros w [].
  - rewrite !Forall_cons in Hq. destruct Hq as (? & ? & ? & ? & _). by apply parse_quad_dotted.
Qed.

Lemma HasSuffix_ip6 l : HasSuffix (l +:+ ".ip6.arpa.") ".in-addr.arpa." = false.
Proof.
  apply not_true_is_false. intros [p Hp]%HasSuffix_spec.
  assert (srev (l +:+ ".ip6.arpa.") = srev (p +:+ ".in-addr.arpa.")) as Hr by by rewrite Hp.
  rewrite !srev_append in Hr. done.
Qed.

Lemma ParseType_PTR `{D : DnsConsts} : is_Some (ParseType "PTR").
Proof. exists TypePTR. vm_compute. reflexivity. Qed.

(** ** Pages *)

(** What a numeric parameter of a query stands for: the number that it writes in
    decimal when that is one of [lo] to [hi], and [def] when it is absent,
    writes another number, or none. *)
Definition stands_for (lo hi def : Z) (text : string) (n : Z) : Prop :=
  (text = "" → n = def) ∧
  (∀ k, lo ≤ k ≤ hi → text = Itoa k → n = k) ∧
  (∀ k, ¬ (lo ≤ k ≤ hi) → min_int64 ≤ k ≤ max_int64 → text = Itoa k → n = def) ∧
  (Atoi text = None → n = def).

Lemma number_param (ok : Z → bool) lo hi def text :
  min_int64 ≤ lo → hi ≤ max_int64 → (∀ n, Atoi text = Some n → ok n = true ↔ lo ≤ n ≤ hi) →
  let n := if String.eqb text "" then def else
           match Atoi text with Some n => if ok n then n else def | None => def end in
  stands_for lo hi def text n ∧ (n = def ∨ lo ≤ n ≤ hi).
Proof.
  intros Hlo Hhi Hok. cbv zeta. unfold stands_for. destruct (String.eqb_spec text "") as [->|Hne].
  - assert (∀ k, min_int64 ≤ k ≤ max_int64 → "" ≠ Itoa k) as He.
    { intros k Hk E. pose proof (ParseInt_Itoa k Hk) as Hp. by rewrite <-E in Hp. }
    split; [|by left]. split_and!; try by intros. intros k Hk E. exfalso. apply (He k); [lia|done].
  - assert (∀ k, min_int64 ≤ k ≤ max_int64 → text = Itoa k → Atoi text = Some k) as He.
    { intros k Hk ->. by apply ParseInt_Itoa. }
    destruct (Atoi text) as [n|]; [|split; [|by left]; split_and!; try done].
    + specialize (Hok n eq_refl). destruct (ok n).
      * destruct Hok as [Hok _]. specialize (Hok eq_refl). split; [|by right].
        split_and!; [done| |intros k Hk Hr E|by intros].
        -- intros k Hk E. specialize (He k ltac:(lia) E). congruence.
        -- specialize (He k Hr E). simplify_eq.
      * destruct Hok as [_ Hok]. split; [|by left]. split_and!; try done.
        intros k Hk E. specialize (He k ltac:(lia) E). simplify_eq. by apply Hok in Hk.
    + intros k Hk E. by specialize (He k ltac:(lia) E).
Qed.

Lemma history_page_asks r :
  let '(limit, offset) := history_page r in
  stands_for 1 100 20 (query_get r "limit") limit ∧ 1 ≤ limit ≤ 100 ∧
  stands_for 0 max_int64 0 (query_get r "offset") offset ∧ 0 ≤ offset.
Proof.
  unfold history_page. cbv zeta.
  destruct (number_param (λ n, (0 <? n) && (n <=? 100)) 1 100 20 (query_get r "limit")) as [H1 H2];
    [by vm_compute..| |].
  { intros n _. rewrite andb_true_iff, Z.ltb_lt, Z.leb_le. lia. }
  destruct (number_param (λ n, 0 <=? n) 0 max_int64 0 (query_get r "offset")) as [H3 H4];
    [by vm_compute..| |].
  { intros n Hn. apply ParseInt_bounds in Hn. rewrite Z.leb_le. lia. }
  cbv zeta in *. split_and!; [exact H1|lia..|exact H3|lia].
Qed.

(** * Properties *)

(** C21: a reverse lookup asks about the right address: a text that is no
    address is refused, and of every address the name is built that the reverse
    zones assign to it (the octets, or the nibbles of IPv6, in reverse order),
    from which the address can be read back; the check for that name is never
    refused for its name, whatever the address. *)
Theorem toPTRName_address `{D : DnsConsts} `{U : Unicode} s ids :
  match ParseIP s with
  | None => toPTRName s = Err (Errorf ("invalid IP address: " +:+ s))
  | Some ip => ∃ name, toPTRName s = Ok name ∧ ptr_address name = Some ip ∧
      validateRequest (mkCheckRequest name "PTR" ids [] false true false) =
        if decide (200 < length ids)%nat then Some (Errorf "too many resolvers: max 200") else None
  end.
Proof.
  unfold toPTRName. destruct (ParseIP s) as [ip|] eqn:Hip; [|done].
  apply ParseIP_range in Hip as [Hlen Hb].
  assert (∀ l suffix, Forall label_ok l → sforall domain_char suffix = true → suffix ≠ "" →
    validateRequest (mkCheckRequest (Join l "." +:+ suffix) "PTR" ids [] false true false) =
    if decide (200 < length ids)%nat then Some (Errorf "too many resolvers: max 200") else None)
    as Hvalid.
  { intros l suffix Hl Hs Hne. unfold validateRequest. cbn [crName crType crResolverIDs
      crCustomResolvers crAllowPrivate]. unfold domainRE. rewrite Join_name by done.
    destruct (String.eqb_spec (Join l "." +:+ suffix) "") as [He|_].
    { destruct suffix; [done|]. by destruct (Join l "."). }
    cbn [negb andb]. rewrite bool_decide_eq_true_2 by apply ParseType_PTR. cbn [negb andb length].
    rewrite Nat.add_0_r. reflexivity. }
  destruct (To4 ip) as [q|] eqn:H4.
  - apply To4_prefix in H4 as ->; [|done].
    assert (length q = 4%nat ∧ Forall is_byte q) as [Hq Hqb].
    { rewrite length_app in Hlen. apply Forall_app in Hb as [_ Hb]. split; [|done].
      change (length v4_prefix) with 12%nat in Hlen. lia. }
    destruct (dotted_labels q Hq Hqb) as (Hs & Hl & Hp). rewrite Hs.
    eexists; split_and!; [reflexivity| |apply Hvalid; [by apply Forall_reverse|done|done]].
    unfold ptr_address. rewrite HasSuffix_app, ptr_labels; [by rewrite Hp| |done].
    by destruct q.
  - eexists; split_and!; [reflexivity| |apply Hvalid; [|done|done]].
    + unfold ptr_address. rewrite HasSuffix_ip6, HasSuffix_app, ptr_labels.
      * by apply unhex_nibbles.
      * destruct ip; [done|]. by rewrite nibbles_cons.
      * by apply nibbles_labels.
    + apply Forall_reverse. by apply nibbles_labels.
Qed.

(** C31: the history is the stored checks: reading a check by its identifier
    answers 200 with exactly that check, or 404 when it is not stored, and
    changes nothing; deleting answers 204 and removes that check alone, so that
    it reads as 404 from then on, or answers 404 and changes nothing; listing
    answers 200 with the stored checks, each once and the most recent first,
    from the [offset] of the request on and as many as its [limit] says: the
    limit counts when it is a number from 1 to 100 and is 20 otherwise, the
    offset when it is a number from 0 on and is 0 otherwise. *)
Theorem history_serves_store {S C N} {SO : StorageOps S} `{SL : !StorageLaws S SO}
    (r : Request) (w : World S C N) (Hh : healthy (w_store w)) :
  let id := URLParam r "id" in
  let checks := abs_checks (view (w_store w)) in
  (let '(rw, w') := respond GetCheck_handler r w in same_store w w' ∧
    match checks !! id with
    | Some c => rwStatus rw = 200 ∧ rwBody rw = [CJson (to_json c)]
    | None => rwStatus rw = 404 ∧ rwBody rw = [CJson (error_json r ErrCodeNotFound "Check not found.")]
    end) ∧
  (let '(rw, w') := respond DeleteHistory r w in
    healthy (w_store w') ∧ view (w_store w') = set_checks (view (w_store w)) (delete id checks) ∧
    rwStatus rw = (if decide (checks !! id = None) then 404 else 204) ∧
    rwStatus (respond GetCheck_handler r w').1 = 404) ∧
  (let '(rw, w') := respond ListHistory r w in same_store w w' ∧ rwStatus rw = 200 ∧
    ∃ limit offset l,
      stands_for 1 100 20 (query_get r "limit") limit ∧
      stands_for 0 max_int64 0 (query_get r "offset") offset ∧
      l ≡ₚ (map_to_list checks).*2 ∧ newest_first kept cCreatedAt l ∧
      rwBody rw = [CJson (to_json (take (Z.to_nat limit) (drop (Z.to_nat offset) l)))]).
Proof.
  intros id checks.
  assert (∀ w0 : World S C N, healthy (w_store w0) →
    let '(rw, w') := respond GetCheck_handler r w0 in same_store w0 w' ∧
    match abs_checks (view (w_store w0)) !! id with
    | Some c => rwStatus rw = 200 ∧ rwBody rw = [CJson (to_json c)]
    | None => rwStatus rw = 404 ∧ rwBody rw = [CJson (error_json r ErrCodeNotFound "Check not found.")]
    end) as Hget.
  { intros w0 Hh0. apply respond_wp. cbn [fst snd]. apply wp_bind, wp_store.
    destruct (GetCheck_law id _ Hh0) as (s' & Hs & Hh' & Hv). fold id. rewrite Hs. cbn [fst snd].
    unfold abs_get. by destruct (abs_checks _ !! id). }
  split_and!; [by apply Hget| |].
  - assert (let '(rw, w') := respond DeleteHistory r w in healthy (w_store w') ∧
      view (w_store w') = set_checks (view (w_store w)) (delete id checks) ∧
      rwStatus rw = (if decide (checks !! id = None) then 404 else 204)) as Hdel.
    { apply respond_wp. cbn [fst snd]. apply wp_bind, wp_store.
      destruct (DeleteCheck_law id _ Hh) as (s' & Hs & Hh' & Hv). fold id. rewrite Hs. cbn [fst snd].
      unfold deleted, store_failed, abs_delete in *. fold checks in Hv |- *.
      destruct (checks !! id) eqn:Ei; [done|].
      rewrite (delete_id checks id Ei). done. }
    destruct (respond DeleteHistory r w) as [rw w']. destruct Hdel as (Hh' & Hv & Hst).
    split_and!; try done. specialize (Hget w' Hh'). rewrite Hv in Hget. simpl in Hget.
    rewrite lookup_delete_eq in Hget. destruct (respond GetCheck_handler r w') as [rw2 w2].
    apply Hget.
  - apply respond_wp. cbn [fst snd]. unfold ListHistory.
    pose proof (history_page_asks r) as Hpage. destruct (history_page r) as [limit offset].
    destruct Hpage as (Hl & Hlimit & Ho & Hoffset).
    apply wp_bind, wp_store.
    destruct (ListChecks_law limit offset _ Hh (okPage_nonneg limit offset ltac:(lia) ltac:(lia))) as (s' & l & Hs & Hh' & Hv & Hp & Hn).
    rewrite Hs. cbn [fst snd]. split; [done|]. split; [done|]. exists limit, offset, l.
    split_and!; try done. unfold limit_offset. by rewrite (proj2 (Z.ltb_ge limit 0)) by lia.
Qed.

(** * Witnesses *)

(** Three checks are stored; the second youngest is asked for. *)
Definition stored_check (id : string) (t : Time) : Check := mkCheck id "a.example" "A" t [] (@buildSummary range_forward []).

Definition history_db : DB string doc :=
  (do_ops [OSaveCheck (stored_check "c1" (10 ^ 9)); OSaveCheck (stored_check "c2" (2 * 10 ^ 9));
    OSaveCheck (stored_check "c3" (3 * 10 ^ 9))] (mkDB empty_tables [])).2.

Definition history_request : Request :=
  mkRequest "GET" "/" ∅ [] {[ "limit" := "1"; "offset" := "1" ]} {[ "id" := "c1" ]} "".

Lemma history_db_healthy : healthy history_db.
Proof.
  assert (healthy (mkDB empty_tables [] : DB string doc)) as H0 by exact empty_healthy.
  unfold history_db. edestruct do_ops_correct as (rs & s' & -> & Hh & _); [exact H0| |exact Hh].
  by repeat split.
Qed.

Lemma history_serves_store_witness :
  let w : World (DB string doc) Cache.noopCache Z := mkWorld history_db tt 0 in
  let read := respond GetCheck_handler history_request w in
  rwStatus read.1 = 200 ∧ rwBody read.1 = [CJson (to_json (stored_check "c1" (10 ^ 9)))] ∧
  rwStatus (respond DeleteHistory history_request w).1 = 204 ∧
  ∃ l, l ≡ₚ (map_to_list (abs_checks (view history_db))).*2 ∧
    rwBody (respond ListHistory history_request w).1 = [CJson (to_json (take 1 (drop 1 l)))].
Proof.
  intros w read.
  destruct (history_serves_store (SL := sqlite_laws) history_request w history_db_healthy)
    as (H1 & H2 & H3).
  fold read in H1. destruct read as [rw1 w1]. destruct H1 as [_ H1].
  assert (abs_checks (view (w_store w)) !! URLParam history_request "id" =
    Some (stored_check "c1" (10 ^ 9))) as E by (vm_compute; reflexivity).
  rewrite E in H1, H2. destruct H1 as [H1 Hb1]. split_and!; [exact H1|exact Hb1| |].
  - destruct (respond DeleteHistory history_request w) as [rw2 w2]. by destruct H2 as (_ & _ & H2 & _).
  - destruct (respond ListHistory history_request w) as [rw3 w3].
    destruct H3 as (_ & _ & limit & offset & l & (_ & Hl & _) & (_ & Ho & _) & Hp & _ & Hb).
    exists l. split; [exact Hp|]. rewrite (Hl 1), (Ho 1) in Hb; [exact Hb|done..].
Defined.
