(* ===== verification/Float64.v ===== *)
(** * Arithmetic on float64

    The operations of Go's [float64] on the binary64 values of the Standard
    Library's [SpecFloat], rounding to nearest even after every operation (no
    fused multiply-add), and the verb [%.1f]. *)

From Stdlib Require Import Floats.SpecFloat.
From S2P Require Import Prelude.
From S2P Require Import GoString.
From S2P Require Import DnsTypes.

Local Open Scope Z_scope.

Definition fadd (x y : float64) : float64 := SFadd 53 1024 x y.
Definition fsub (x y : float64) : float64 := SFsub 53 1024 x y.
Definition fmul (x y : float64) : float64 := SFmul 53 1024 x y.
Definition fdiv (x y : float64) : float64 := SFdiv 53 1024 x y.
Definition fopp (x : float64) : float64 := SFopp x.
Definition fltb (x y : float64) : bool := SFltb x y.
Definition fleb (x y : float64) : bool := SFleb x y.
Definition feqb (x y : float64) : bool := SFeqb x y.

(** [float64(n)]. *)
Definition of_int (n : Z) : float64 := binary_normalize 53 1024 n 0 false.

Declare Scope float64_scope.
Delimit Scope float64_scope with f64.
Bind Scope float64_scope with float64.
Notation "x + y" := (fadd x y) : float64_scope.
Notation "x - y" := (fsub x y) : float64_scope.
Notation "x * y" := (fmul x y) : float64_scope.
Notation "x / y" := (fdiv x y) : float64_scope.
Notation "- x" := (fopp x) : float64_scope.
Notation "x <? y" := (fltb x y) : float64_scope.

(** [n / d] rounded half to even. *)
Definition div_even (n d : Z) : Z :=
  let q := n / d in
  let r := n mod d in
  if 2 * r <? d then q else if d <? 2 * r then q + 1 else if Z.even q then q else q + 1.

(** [fmt.Sprintf("%.1f", x)]: the exact value, rounded to one decimal. *)
Definition format_f1 (x : float64) : string :=
  let tenths (neg : bool) (t : Z) :=
    (if neg then "-" else "") +:+ Itoa (t / 10) +:+ "." +:+ Itoa (t mod 10) in
  match x with
  | S754_zero neg => tenths neg 0
  | S754_infinity neg => if neg then "-Inf" else "+Inf"
  | S754_nan => "NaN"
  | S754_finite neg m e =>
      tenths neg (if 0 <=? e then Zpos m * 10 * 2 ^ e else div_even (Zpos m * 10) (2 ^ (- e)))
  end.

Example format_f1_half : format_f1 (S754_finite true 5 (-2)) = "-1.2".
Proof. reflexivity. Qed.

Example format_f1_zero : format_f1 (of_int 500) = "500.0".
Proof. reflexivity. Qed.

Example float_sum : fadd (of_int 1) (fdiv (of_int 1) (of_int 2)) = fdiv (of_int 3) (of_int 2).
Proof. reflexivity. Qed.
