(* ===== verification/Export.v ===== *)
(** * CSV and SVG exports

    [internal/export/csv.go] and [svg.go], with the writer of [encoding/csv].
    The loops that bring an angle into range run on fuel: [None] is a loop that
    has not ended. *)

From Stdlib Require Import Floats.SpecFloat.
From S2P Require Import Prelude.
From S2P Require Import GoString.
From S2P Require Import DnsTypes.
From S2P Require Import GoTime.
From S2P Require Import Float64.

Local Open Scope Z_scope.

(** ** Package encoding/csv *)

Definition quote_char : ascii := chr 34.
Definition newline : ascii := chr 10.

(** [csv.Writer.fieldNeedsQuotes], for the comma. *)
Definition fieldNeedsQuotes (field : string) : bool :=
  if String.eqb field "" then false else
  if String.eqb field "\." then true else
  negb (sforall (λ c, negb (bool_decide (c = newline ∨ c = chr 13 ∨ c = quote_char ∨ c = ","%char))) field)
  || head_space field.

(** One field: quoted, with its quotes doubled, when it needs to be. *)
Definition csv_field (field : string) : string :=
  if fieldNeedsQuotes field then
    String quote_char (ReplaceAll field quote_char (String quote_char (String quote_char ""))
                       +:+ String quote_char "")
  else field.

(** [csv.Writer.Write]. *)
Definition csv_record (record : list string) : string :=
  Join (csv_field <$> record) "," +:+ String newline "".

(** ** csv.go *)

(* src: internal/export/csv.go 16-19 CSV *)
Definition csv_header : list string :=
  ["Resolver"; "IP"; "Country"; "City"; "Status"; "Answer"; "TTL"; "Duration_ms"; "Queried_At"].

(* src: internal/export/csv.go 24-45 CSV *)
Definition csv_row (r : ResolverResult) : list string :=
  let '(answer, ttl) :=
    match rrAnswers r with
    | [] => ("", "")
    | a :: _ => (Join (values r) "; ", Itoa (aTTL a))
    end in
  [rName (rrResolver r); rIP (rrResolver r); rCountry (rrResolver r); rCity (rrResolver r);
   rrStatus r; answer; ttl; Itoa (rrDurationMS r); FormatRFC3339 (rrQueriedAt r)].

(** What is written; the errors are those of the underlying writer. *)
(* src: internal/export/csv.go CSV *)
Definition CSV (check : Check) : string :=
  String.concat "" (csv_record <$> (csv_header :: (csv_row <$> cResults check))).

(** ** svg.go *)

(* src: internal/export/svg.go svgWidth *)
Definition svgWidth : Z := 1000.
(* src: internal/export/svg.go svgHeight *)
Definition svgHeight : Z := 500.

(** The literal [3.14159265358979], and its quarter, half and double. *)
Definition lit_pi : float64 := S754_finite false 7074237752028433 (-51).
Definition lit_pi_4 : float64 := S754_finite false 7074237752028433 (-53).
Definition lit_pi_2 : float64 := S754_finite false 7074237752028433 (-52).
Definition lit_2pi : float64 := S754_finite false 7074237752028433 (-50).

(** The two normalising loops of [sinApprox]. *)
Fixpoint reduce_down (fuel : nat) (x : float64) : option float64 :=
  if fltb lit_pi x then
    match fuel with O => None | S fuel => reduce_down fuel (x - lit_2pi)%f64 end
  else Some x.

Fixpoint reduce_up (fuel : nat) (x : float64) : option float64 :=
  if fltb x (fopp lit_pi) then
    match fuel with O => None | S fuel => reduce_up fuel (x + lit_2pi)%f64 end
  else Some x.

(* src: internal/export/svg.go sinApprox *)
Definition sinApprox (fuel : nat) (x : float64) : option float64 :=
  x ← reduce_down fuel x;
  x ← reduce_up fuel x;
  let x2 := (x * x)%f64 in
  let one := of_int 1 in
  Some (x * (one - x2 / of_int 6 * (one - x2 / of_int 20 * (one - x2 / of_int 42))))%f64.

(* src: internal/export/svg.go cosApprox *)
Definition cosApprox (fuel : nat) (x : float64) : option float64 :=
  sinApprox fuel (x + lit_pi_2)%f64.

(* src: internal/export/svg.go tanApprox *)
Definition tanApprox (fuel : nat) (x : float64) : option float64 :=
  s ← sinApprox fuel x;
  c ← cosApprox fuel x;
  Some (if feqb c (of_int 0) then of_int 0 else (s / c)%f64).

(* src: internal/export/svg.go logApprox *)
Definition logApprox (x : float64) : float64 :=
  if fleb x (of_int 0) then of_int 0 else
  let y := ((x - of_int 1) / (x + of_int 1))%f64 in
  let y2 := (y * y)%f64 in
  (of_int 2 * y * (of_int 1 + y2 / of_int 3 + y2 * y2 / of_int 5 + y2 * y2 * y2 / of_int 7))%f64.

(** The constant expressions [svgHeight / 2] and [svgHeight * 0.3] are folded. *)
(* src: internal/export/svg.go mercatorProject *)
Definition mercatorProject (fuel : nat) (lat lng : float64) : option (float64 * float64) :=
  let x := ((lng + of_int 180) / of_int 360 * of_int svgWidth)%f64 in
  let latRad := (lat * lit_pi / of_int 180)%f64 in
  let mercN := (lit_pi_4 + latRad / of_int 2)%f64 in
  t ← tanApprox fuel mercN;
  let l := if fltb (of_int 0) t then logApprox t else fopp (logApprox (fopp t)) in
  Some (x, (of_int 250 - (of_int 150 * l / lit_pi))%f64).

(** The consensus answer: the first key with the largest count. *)
(* src: internal/export/svg.go 49-57 SVG *)
Definition consensus_answer `{R : MapRange} (check : Check) : string :=
  (foldl (λ '(best, max) '(ans, count),
     if max <? count then (ans, count) else (best, max)) ("", 0)
     (range (Consensus (cSummary check)))).1.

Definition first_answer (r : ResolverResult) : string := default "" (head (values r)).

(* src: internal/export/svg.go markerColor *)
Definition markerColor (r : ResolverResult) (consensusAnswer : string) : string :=
  if String.eqb (rrStatus r) StatusOK then
    if negb (String.eqb consensusAnswer "") && String.eqb (first_answer r) consensusAnswer
    then "#48bb78" else "#ed8936"
  else "#fc8181".

(* src: internal/export/svg.go escapeXML *)
Definition escapeXML (s : string) : string :=
  let s := ReplaceAll s "&" "&amp;" in
  let s := ReplaceAll s "<" "&lt;" in
  let s := ReplaceAll s ">" "&gt;" in
  ReplaceAll s quote_char "&quot;".

(** Markup, with its double quotes written as single ones. *)
Definition xml (s : string) : string :=
  smap (λ c, if bool_decide (c = "'"%char) then quote_char else c) s.

(* src: internal/export/svg.go 21-47 SVG *)
Definition svg_head : string :=
  let w := Itoa svgWidth in
  let h := Itoa (svgHeight + 80) in
  xml ("<?xml version='1.0' encoding='UTF-8'?>" +:+
  "<svg xmlns='http://www.w3.org/2000/svg' width='" +:+ w +:+ "' height='" +:+ h +:+
  "' viewBox='0 0 " +:+ w +:+ " " +:+ h +:+ "'>" +:+
  "<rect width='" +:+ w +:+ "' height='" +:+ h +:+ "' fill='#1a1a2e'/>" +:+
  "<g opacity='0.3' fill='#4a5568' stroke='#718096' stroke-width='0.5'>" +:+
  "<rect x='60' y='60' width='180' height='160' rx='4'/>" +:+
  "<rect x='130' y='240' width='100' height='150' rx='4'/>" +:+
  "<rect x='420' y='55' width='100' height='110' rx='4'/>" +:+
  "<rect x='430' y='185' width='110' height='170' rx='4'/>" +:+
  "<rect x='530' y='50' width='280' height='200' rx='4'/>" +:+
  "<rect x='720' y='310' width='120' height='90' rx='4'/>" +:+
  "</g>").

(* src: internal/export/svg.go 60-74 SVG *)
Definition svg_marker (fuel : nat) (consensusAnswer : string) (r : ResolverResult)
    : option string :=
  '(x, y) ← mercatorProject fuel (rLat (rrResolver r)) (rLng (rrResolver r));
  let title := rName (rrResolver r) +:+ " (" +:+ rCountry (rrResolver r) +:+ ") - " +:+
    rrStatus r +:+ ": " +:+ first_answer r in
  Some (xml "<circle cx='" +:+ format_f1 x +:+ xml "' cy='" +:+ format_f1 y +:+
    xml "' r='5' fill='" +:+ markerColor r consensusAnswer +:+
    xml "' stroke='#fff' stroke-width='0.5' opacity='0.9'><title>" +:+ escapeXML title +:+
    "</title></circle>").

(* src: internal/export/svg.go 76-97 SVG *)
Definition svg_foot (name typ : string) : string :=
  let legendY := svgHeight + 20 in
  let item x label_x color label :=
    xml "<circle cx='" +:+ x +:+ xml "' cy='" +:+ Itoa legendY +:+ xml "' r='5' fill='" +:+ color +:+
    xml "'/><text x='" +:+ label_x +:+ xml "' y='" +:+ Itoa (legendY + 4) +:+
    xml "' fill='#a0aec0' font-family='sans-serif' font-size='11'>" +:+ label +:+ "</text>" in
  xml "<text x='10' y='20' fill='#e2e8f0' font-family='sans-serif' font-size='14' font-weight='bold'>dnsmon: "
  +:+ escapeXML name +:+ " " +:+ escapeXML typ +:+ "</text>" +:+
  item "20" "30" "#48bb78" "OK (consensus)" +:+
  item "170" "180" "#ed8936" "Different answer" +:+
  item "330" "340" "#fc8181" "Error / Timeout / NXDOMAIN" +:+
  "</svg>".

(* src: internal/export/svg.go SVG *)
Definition SVG `{R : MapRange} (fuel : nat) (check : Check) : option string :=
  markers ← mapM (svg_marker fuel (consensus_answer check)) (cResults check);
  Some (svg_head +:+ String.concat "" markers +:+ svg_foot (cName check) (cType check)).

(** * Lemmas *)

(** ** Reading CSV (RFC 4180)

    A reader of records whose lines end with a newline: unquoted fields have
    no quote, quoted ones double theirs. *)
Inductive csv_mode := FieldStart | Plain | Quoted | QuoteSeen.

Fixpoint csv_read (m : csv_mode) (f : string) (row : list string) (s : string)
    : option (list (list string)) :=
  match s with
  | "" =>
      match m, f, row with FieldStart, "", [] => Some [] | _, _, _ => None end
  | String c s' =>
      let more m c := csv_read m (f +:+ String c "") row s' in
      let next_field := csv_read FieldStart "" (row ++ [f]) s' in
      let next_row := cons (row ++ [f]) <$> csv_read FieldStart "" [] s' in
      match m with
      | FieldStart | Plain =>
          if bool_decide (c = ","%char) then next_field
          else if bool_decide (c = newline) then next_row
          else if bool_decide (c = quote_char) then
            match m with FieldStart => csv_read Quoted "" row s' | _ => None end
          else more Plain c
      | Quoted => if bool_decide (c = quote_char) then csv_read QuoteSeen f row s' else more Quoted c
      | QuoteSeen =>
          if bool_decide (c = quote_char) then more Quoted quote_char
          else if bool_decide (c = ","%char) then next_field
          else if bool_decide (c = newline) then next_row
          else None
      end
  end.

Definition read_csv (s : string) : option (list (list string)) := csv_read FieldStart "" [] s.

(** The end of a field: what follows it. *)
Definition field_end (f : string) (row : list string) (c : ascii) (s : string)
    : option (list (list string)) :=
  if bool_decide (c = ","%char) then csv_read FieldStart "" (row ++ [f]) s
  else cons (row ++ [f]) <$> csv_read FieldStart "" [] s.

Definition sep_char (c : ascii) : Prop := c = ","%char ∨ c = newline.

Definition plain_char (c : ascii) : bool :=
  negb (bool_decide (c = newline ∨ c = chr 13 ∨ c = quote_char ∨ c = ","%char)).

Lemma read_plain g f row c s : sforall plain_char g = true → sep_char c →
  csv_read Plain f row (g +:+ String c s) = field_end (f +:+ g) row c s.
Proof.
  revert f. induction g as [|d g IH]; intros f; simpl.
  - intros _ Hc. rewrite sapp_nil_r. unfold field_end.
    destruct Hc as [->| ->]; reflexivity.
  - intros [Hd Hg]%andb_true_iff Hc. unfold plain_char in Hd.
    rewrite negb_true_iff, bool_decide_eq_false in Hd.
    rewrite !bool_decide_eq_false_2 by (intros ->; apply Hd; auto).
    rewrite IH by done. by rewrite sapp_assoc.
Qed.

Lemma read_quoted g f row c s : sep_char c →
  csv_read Quoted f row (ReplaceAll g quote_char (String quote_char (String quote_char ""))
    +:+ String quote_char (String c s)) = field_end (f +:+ g) row c s.
Proof.
  intros Hc. revert f. induction g as [|d g IH]; intros f.
  - simpl. rewrite sapp_nil_r. unfold field_end. destruct Hc as [->| ->]; reflexivity.
  - cbn [ReplaceAll]. case_bool_decide as Hd; [subst d|].
    + simpl. rewrite IH. by rewrite sapp_assoc.
    + simpl. rewrite bool_decide_eq_false_2 by done. rewrite IH. by rewrite sapp_assoc.
Qed.

Lemma read_field f row c s : sep_char c →
  csv_read FieldStart "" row (csv_field f +:+ String c s) = field_end f row c s.
Proof.
  intros Hc. unfold csv_field. destruct (fieldNeedsQuotes f) eqn:E.
  - simpl. rewrite sapp_assoc. simpl. by rewrite read_quoted.
  - assert (sforall plain_char f = true) as Hf.
    { unfold fieldNeedsQuotes in E. destruct (String.eqb_spec f "") as [->|]; [done|].
      destruct (String.eqb f "\."); [done|]. apply orb_false_iff in E as [E _].
      by apply negb_false_iff in E. }
    pose proof (read_plain f "" row c s Hf Hc) as Hp. change ("" +:+ f) with f in Hp.
    rewrite <-Hp. clear Hp. destruct f as [|d f]; [|].
    + simpl. destruct Hc as [->| ->]; reflexivity.
    + simpl in Hf |- *. apply andb_true_iff in Hf as [Hd _]. unfold plain_char in Hd.
      rewrite negb_true_iff, bool_decide_eq_false in Hd.
      by rewrite !bool_decide_eq_false_2 by (intros ->; apply Hd; auto).
Qed.

Lemma read_record r row s : r ≠ [] →
  csv_read FieldStart "" row (csv_record r +:+ s) = cons (row ++ r) <$> read_csv s.
Proof.
  intros Hr. unfold csv_record. rewrite sapp_assoc. simpl.
  destruct r as [|f r]; [done|]. clear Hr. revert f row.
  induction r as [|f' r IH]; intros f row.
  - simpl. by rewrite read_field by (by right).
  - assert (Join (csv_field <$> f :: f' :: r) "," +:+ String newline s =
      csv_field f +:+ String "," (Join (csv_field <$> f' :: r) "," +:+ String newline s)) as ->.
    { change (Join (csv_field <$> f :: f' :: r) ",") with
        (csv_field f +:+ "," +:+ Join (csv_field <$> f' :: r) ",").
      by rewrite !sapp_assoc. }
    rewrite read_field by (by left). unfold field_end. rewrite bool_decide_eq_true_2 by done.
    rewrite IH.
    by rewrite <-app_assoc.
Qed.

Lemma read_records l : Forall (λ r, r ≠ []) l →
  read_csv (String.concat "" (csv_record <$> l)) = Some l.
Proof.
  induction 1 as [|r l Hr _ IH]; [done|].
  assert (String.concat "" (csv_record <$> r :: l) =
    csv_record r +:+ String.concat "" (csv_record <$> l)) as ->.
  { destruct l; simpl; [by rewrite sapp_nil_r|done]. }
  unfold read_csv. rewrite read_record by done. by rewrite IH.
Qed.

(** ** Escaping *)

(** The text that escaped markup stands for. *)
Definition entities : list (string * ascii) :=
  [("&amp;", "&"%char); ("&lt;", "<"%char); ("&gt;", ">"%char); ("&quot;", quote_char)].

Definition escape_char (c : ascii) : string :=
  if bool_decide (c = "&"%char) then "&amp;"
  else if bool_decide (c = "<"%char) then "&lt;"
  else if bool_decide (c = ">"%char) then "&gt;"
  else if bool_decide (c = quote_char) then "&quot;" else String c "".

Fixpoint escape_each (s : string) : string :=
  match s with "" => "" | String c s' => escape_char c +:+ escape_each s' end.

Lemma ReplaceAll_app a b old new :
  ReplaceAll (a +:+ b) old new = ReplaceAll a old new +:+ ReplaceAll b old new.
Proof.
  induction a as [|c a IH]; [done|]. simpl. case_bool_decide; rewrite IH; [by rewrite sapp_assoc|done].
Qed.

(** Which character is it? *)
Ltac escape_cases c :=
  destruct (decide (c = "&"%char)) as [->|?]; [|
  rewrite ?(bool_decide_eq_false_2 (c = "&"%char)) by done;
  destruct (decide (c = "<"%char)) as [->|?]; [|
  rewrite ?(bool_decide_eq_false_2 (c = "<"%char)) by done;
  destruct (decide (c = ">"%char)) as [->|?]; [|
  rewrite ?(bool_decide_eq_false_2 (c = ">"%char)) by done;
  destruct (decide (c = quote_char)) as [->|?]; [|
  rewrite ?(bool_decide_eq_false_2 (c = quote_char)) by done]]]].

(** The four passes amount to one. *)
Lemma escapeXML_each s : escapeXML s = escape_each s.
Proof.
  unfold escapeXML. induction s as [|c s IH]; [done|].
  change (String c s) with (String c "" +:+ s). rewrite !ReplaceAll_app, IH.
  change (escape_each (String c "" +:+ s)) with (escape_char c +:+ escape_each s).
  f_equal. unfold escape_char. cbn [ReplaceAll].
  escape_cases c; [by vm_compute..|].
  cbn [ReplaceAll]. rewrite (bool_decide_eq_false_2 (c = "<"%char)) by done.
  cbn [ReplaceAll]. rewrite (bool_decide_eq_false_2 (c = ">"%char)) by done.
  cbn [ReplaceAll]. by rewrite (bool_decide_eq_false_2 (c = quote_char)) by done.
Qed.

(** No markup in the escaped text, in content or in quoted attributes. *)
Definition safe_char (c : ascii) : bool :=
  negb (bool_decide (c = "<"%char ∨ c = ">"%char ∨ c = quote_char)).

Lemma escape_each_safe s : sforall safe_char (escape_each s) = true.
Proof.
  induction s as [|c s IH]; [done|]. simpl. rewrite sforall_app, IH, andb_true_r.
  unfold escape_char. repeat (case_bool_decide; [done|]). simpl. rewrite andb_true_r.
  unfold safe_char. rewrite bool_decide_eq_false_2; [done|]. by intros [?|[?|?]].
Qed.

(** The decoder: an entity at the front, or a byte. *)
Fixpoint unescape (fuel : nat) (s : string) : string :=
  match fuel, s with
  | S fuel, String c s' =>
      match list_find (λ p, HasPrefix s p.1 = true) entities with
      | Some (_, (e, d)) => String d (unescape fuel (sdrop (String.length e) s))
      | None => String c (unescape fuel s')
      end
  | _, _ => ""
  end.

Lemma HasPrefix_nil s : HasPrefix s "" = true.
Proof. by destruct s. Qed.

Lemma unescape_escape s fuel : (String.length s ≤ fuel)%nat →
  unescape fuel (escape_each s) = s.
Proof.
  revert fuel. induction s as [|c s IH]; intros fuel Hf; [by destruct fuel|].
  destruct fuel as [|fuel]; simpl in Hf; [lia|]. specialize (IH fuel ltac:(lia)).
  cbn [escape_each]. unfold escape_char.
  escape_cases c; [simpl; rewrite HasPrefix_nil; simpl; by rewrite IH..|].
  change (String c "" +:+ escape_each s) with (String c (escape_each s)). cbn [unescape].
  assert (list_find (λ p, HasPrefix (String c (escape_each s)) p.1 = true) entities = None) as ->;
    [|by rewrite IH].
  apply list_find_None, Forall_forall. intros [e d] He.
  unfold entities in He. rewrite !elem_of_cons, elem_of_nil in He.
  unfold HasPrefix. destruct_or?; simplify_eq; simpl; case_match; congruence.
Qed.

(** ** Loops that do not end *)

(** An angle that a turn of the loop does not change keeps the loop going. *)
Lemma reduce_down_stuck fuel x :
  fltb lit_pi x = true → (x - lit_2pi)%f64 = x → reduce_down fuel x = None.
Proof.
  intros Hx Hs. induction fuel as [|fuel IH]; simpl; rewrite Hx; [done|]. by rewrite Hs.
Qed.

(** [1e300], the latitude that a client can give a resolver of its own. *)
Definition far_north : float64 := S754_finite false 6724873095247260 944.

(** The angle that the latitude is turned into. *)
Definition mercN (lat : float64) : float64 :=
  (lit_pi_4 + lat * lit_pi / of_int 180 / of_int 2)%f64.

Lemma far_north_angle :
  fltb lit_pi (mercN far_north) = true ∧ (mercN far_north - lit_2pi)%f64 = mercN far_north.
Proof. split; vm_compute; reflexivity. Qed.

Lemma project_far_north fuel lng : mercatorProject fuel far_north lng = None.
Proof.
  unfold mercatorProject. cbv zeta.
  change (lit_pi_4 + far_north * lit_pi / of_int 180 / of_int 2)%f64 with (mercN far_north).
  destruct far_north_angle as [Hx Hs]. unfold tanApprox, sinApprox at 1.
  by rewrite reduce_down_stuck.
Qed.

Definition tan_ends (n : Z) : bool :=
  match tanApprox 1 (mercN (of_int n)) with Some _ => true | None => false end.

Lemma tan_ends_degrees : all_below (λ i, tan_ends (i - 90)) 181 = true.
Proof. vm_compute. reflexivity. Qed.

Lemma tan_degrees n : -90 ≤ n ≤ 90 → ∃ t, tanApprox 1 (mercN (of_int n)) = Some t.
Proof.
  intros Hn. pose proof (all_below_ok _ _ (n + 90) tan_ends_degrees ltac:(lia)) as H.
  cbv beta in H. replace (n + 90 - 90) with n in H by lia. unfold tan_ends in H.
  destruct (tanApprox 1 _) as [t|]; [by exists t|done].
Qed.

Lemma SVG_hangs `{R : MapRange} fuel (check : Check) r :
  r ∈ cResults check → rLat (rrResolver r) = far_north → SVG fuel check = None.
Proof.
  intros Hr Hlat. unfold SVG.
  destruct (mapM (svg_marker fuel _) (cResults check)) as [ms|] eqn:E; [|done].
  assert (is_Some (mapM (svg_marker fuel (consensus_answer check)) (cResults check))) as HF
    by by eexists.
  rewrite mapM_is_Some, Forall_forall in HF. destruct (HF r Hr) as [x Hx].
  unfold svg_marker in Hx. by rewrite Hlat, project_far_north in Hx.
Qed.

Lemma csv_row_length r : length (csv_row r) = 9%nat.
Proof. unfold csv_row. by destruct (rrAnswers r). Qed.

Lemma read_CSV check : read_csv (CSV check) = Some (csv_header :: (csv_row <$> cResults check)).
Proof.
  apply read_records. apply Forall_cons; split; [done|]. apply Forall_fmap, Forall_true.
  intros r. unfold compose. intros Hr. pose proof (csv_row_length r) as Hl. by rewrite Hr in Hl.
Qed.

(** *** Reading an export by the names of its columns *)

Definition column (header row : list string) (name : string) : option string :=
  p ← list_find (λ h, h = name) header; row !! p.1.

(** Values that are separated by a semicolon and a blank. *)
Definition read_values (s : string) : list string :=
  match Split ";" s with
  | v :: vs => v :: ((λ v, TrimPrefix v " ") <$> vs)
  | [] => []
  end.

(** What a record of an export tells of a result: its text columns whatever they
    hold; the values of its answers, unless one of them has a semicolon, with
    the time to live of the first, which is blank when there is no answer; the
    duration, and the time to the second. *)
Definition tells (header row : list string) (r : ResolverResult) : Prop :=
  let col := column header row in
  length row = length header ∧
  col "Resolver" = Some (rName (rrResolver r)) ∧ col "IP" = Some (rIP (rrResolver r)) ∧
  col "Country" = Some (rCountry (rrResolver r)) ∧ col "City" = Some (rCity (rrResolver r)) ∧
  col "Status" = Some (rrStatus r) ∧
  (rrAnswers r = [] → col "Answer" = Some "" ∧ col "TTL" = Some "") ∧
  (rrAnswers r ≠ [] → Forall (λ a, has_char ";" (aValue a) = false) (rrAnswers r) →
     read_values <$> col "Answer" = Some (aValue <$> rrAnswers r)) ∧
  (∀ a, head (rrAnswers r) = Some a → 0 ≤ aTTL a < 2 ^ 32 → (s ← col "TTL"; ParseInt s) = Some (aTTL a)) ∧
  (0 ≤ rrDurationMS r ≤ max_int64 → (s ← col "Duration_ms"; ParseInt s) = Some (rrDurationMS r)) ∧
  (time_ok (rrQueriedAt r) → (s ← col "Queried_At"; ParseRFC3339 s) = Some (whole_second (rrQueriedAt r))).

(** A text that, by the rules of RFC 4180, has a line of headers and a record
    for each result, in order. *)
Definition csv_tells (text : string) (results : list ResolverResult) : Prop :=
  ∃ header rows, read_csv text = Some (header :: rows) ∧ NoDup header ∧ length header = 9%nat ∧
    Forall2 (tells header) rows results.

Lemma read_values_Join v vs : Forall (λ v, has_char ";" v = false) (v :: vs) →
  read_values (Join (v :: vs) "; ") = v :: vs.
Proof.
  intros Hf. unfold read_values.
  assert (∀ v vs, Forall (λ v, has_char ";" v = false) (v :: vs) →
    Split ";" (Join (v :: vs) "; ") = v :: ((λ v, " " +:+ v) <$> vs)) as HS.
  { clear v vs Hf. intros v vs. revert v. induction vs as [|v' vs IH]; intros v [Hv Hvs]%Forall_cons.
    - by apply Split_word.
    - change (Join (v :: v' :: vs) "; ") with (v +:+ "; " +:+ Join (v' :: vs) "; ").
      change (v +:+ "; " +:+ Join (v' :: vs) "; ")
        with (v +:+ String ";" (String " " (Join (v' :: vs) "; "))).
      rewrite Split_app by done. f_equal.
      change (Split ";" (String " " ?x)) with
        (match Split ";" x with w :: ws => String " " w :: ws | [] => [" "] end).
      by rewrite IH. }
  rewrite HS by done. f_equal. rewrite <-list_fmap_compose.
  transitivity (id <$> vs); [|by apply list_fmap_id]. apply list_fmap_ext. intros _ x _.
  unfold compose, TrimPrefix. by rewrite HasPrefix_app, (sdrop_app " ").
Qed.

Lemma csv_row_tells r : tells csv_header (csv_row r) r.
Proof.
  unfold tells. cbv zeta. unfold csv_row. destruct (rrAnswers r) as [|a l] eqn:Ea; simpl.
  - split_and!; try done; intros; [by apply ParseInt_Itoa; unfold min_int64; lia|by apply ParseRFC3339_Format].
  - split_and!; try done.
    + intros _ Hs. f_equal. unfold values. rewrite Ea.
      change (aValue <$> a :: l) with (aValue a :: (aValue <$> l)).
      apply read_values_Join. exact (proj2 (Forall_fmap aValue _ (a :: l)) Hs).
    + intros ? [= <-] ?. apply ParseInt_Itoa. unfold min_int64, max_int64. lia.
    + intros ?. apply ParseInt_Itoa. unfold min_int64. lia.
    + intros ?. by apply ParseRFC3339_Format.
Qed.

Lemma CSV_tells check : csv_tells (CSV check) (cResults check).
Proof.
  exists csv_header, (csv_row <$> cResults check). split_and!; [apply read_CSV| |done|].
  - by apply (bool_decide_unpack _).
  - apply Forall2_fmap_l, Forall_Forall2_diag, Forall_true, csv_row_tells.
Qed.

(** * Properties *)


(** Escaped text has no markup: no angle bracket and no double quote is
    left of it, so that the names and answers of a check cannot end the element
    or attribute of the SVG they are put into, and reading the entities gives
    the text back. *)
Theorem escapeXML_safe s :
  sforall safe_char (escapeXML s) = true ∧ unescape (String.length s) (escapeXML s) = s.
Proof. rewrite escapeXML_each. split; [apply escape_each_safe|by apply unescape_escape]. Qed.

(** C34: drawing ends for resolvers at whole degrees of latitude, after at
    most one turn of each loop over the angle, but does not end for every
    check: with a resolver at latitude 1e300, which a client may post and
    save, no number of turns is enough. *)
Theorem SVG_termination `{R : MapRange} (check : Check) :
  ((∀ r, r ∈ cResults check → ∃ n, -90 ≤ n ≤ 90 ∧ rLat (rrResolver r) = of_int n) →
    ∃ svg, SVG 1 check = Some svg) ∧
  ((∃ r, r ∈ cResults check ∧ rLat (rrResolver r) = far_north) → ∀ fuel, SVG fuel check = None).
Proof.
  split.
  - intros Hl. unfold SVG. set (ans := consensus_answer check).
    assert (is_Some (mapM (svg_marker 1 ans) (cResults check))) as [ms ->]; [|by eexists].
    apply mapM_is_Some, Forall_forall. intros r Hr.
    destruct (Hl r Hr) as (n & Hn & Hlat). destruct (tan_degrees n Hn) as [t Ht].
    change (is_Some (svg_marker 1 ans r)).
    unfold svg_marker, mercatorProject. rewrite Hlat. cbv zeta. unfold mercN in Ht.
    rewrite Ht. by eexists.
  - intros (r & Hr & Hlat) fuel. by apply (SVG_hangs fuel check r).
Qed.
