(* ===== verification/Draw.v ===== *)
(** * PNG and PDF exports

    [internal/export/png.go] and [pdf.go]: the calls that they make of the
    drawing libraries, in order.  What the libraries make of the calls is the
    parameter [render] of each ([gg]'s [EncodePNG], [gofpdf]'s [Output]). *)

From Stdlib Require Import Floats.SpecFloat.
From S2P Require Import Prelude.
From S2P Require Import GoString.
From S2P Require Import DnsTypes.
From S2P Require Import GoTime.
From S2P Require Import Crypto.
From S2P Require Import Float64.
From S2P Require Import Export.

Local Open Scope Z_scope.

(** ** The drawing context of gg *)

Record RGBA := mkRGBA { cR : Z; cG : Z; cB : Z; cA : Z }.

Inductive gg :=
| SetColor (c : RGBA)
| Clear
| DrawRectangle (x y w h : float64)
| DrawRoundedRectangle (x y w h r : float64)
| DrawCircle (x y r : float64)
| DrawStringAnchored (s : string) (x y ax ay : float64)
| SetLineWidth (w : float64)
| Fill
| Stroke.

(** [dc.EncodePNG] after the calls on a context of the given size. *)
Class GG := encode_png : Z → Z → list gg → result string.

(* src: internal/export/png.go pngWidth *)
Definition pngWidth : Z := 1200.
(* src: internal/export/png.go pngHeight *)
Definition pngHeight : Z := 800.
(* src: internal/export/png.go mapHeight *)
Definition mapHeight : Z := 500.
(* src: internal/export/png.go tableStartY *)
Definition tableStartY : Z := mapHeight + 20.
(* src: internal/export/png.go tableRowH *)
Definition tableRowH : Z := 18.

(** The literals [0.5] and [20.0]. *)
Definition half : float64 := (of_int 1 / of_int 2)%f64.
Definition margin : float64 := of_int 20.

(** [img.DrawStringAnchored(s, x, y, 0, 0.5)]. *)
Definition text (s : string) (x y : float64) : gg := DrawStringAnchored s x y (of_int 0) half.

(* src: internal/export/png.go drawLegendItem *)
Definition drawLegendItem (x y : float64) (c : RGBA) (label : string) : list gg :=
  [SetColor c; DrawCircle x y (of_int 5); Fill; SetColor (mkRGBA 180 190 200 255);
   text label (x + of_int 12)%f64 y].

(** The constant expressions [pngWidth-2*margin] and [mapHeight*0.3] are folded. *)
(* src: internal/export/png.go pngMercatorProject *)
Definition pngMercatorProject (fuel : nat) (lat lng : float64) : option (float64 * float64) :=
  let x := (margin + (lng + of_int 180) / of_int 360 * of_int (pngWidth - 40))%f64 in
  let latRad := (lat * lit_pi / of_int 180)%f64 in
  let mercN := (lit_pi_4 + latRad / of_int 2)%f64 in
  sinVal ← sinApprox fuel mercN;
  cosVal ← cosApprox fuel mercN;
  let tanVal := if feqb cosVal (of_int 0) then of_int 0 else (sinVal / cosVal)%f64 in
  let logVal :=
    if fltb (of_int 0) tanVal then logApprox tanVal
    else if fltb tanVal (of_int 0) then fopp (logApprox (fopp tanVal)) else of_int 0 in
  let y := (of_int 250 - (of_int 150 * logVal / lit_pi))%f64 in
  let y := if fltb y margin then margin else y in
  let y := if fltb (of_int (mapHeight - 20)) y then of_int (mapHeight - 20) else y in
  Some (x, y).

(* src: internal/export/png.go pngMarkerColor *)
Definition pngMarkerColor (r : ResolverResult) (consensusAnswer : string) : RGBA :=
  if String.eqb (rrStatus r) StatusOK then
    if negb (String.eqb consensusAnswer "") && String.eqb (first_answer r) consensusAnswer
    then mkRGBA 72 187 120 255 else mkRGBA 237 137 54 255
  else mkRGBA 252 129 129 255.

(* src: internal/export/png.go pngStatusColor *)
Definition pngStatusColor (status : string) : RGBA :=
  if String.eqb status StatusOK then mkRGBA 72 187 120 255
  else if String.eqb status StatusNXDomain then mkRGBA 252 129 129 255
  else if String.eqb status StatusTimeout then mkRGBA 237 137 54 255
  else mkRGBA 252 129 129 255.

(** Markers: the disc and its border. *)
(* src: internal/export/png.go 77-90 drawMap *)
Definition draw_marker (fuel : nat) (consensusAnswer : string) (r : ResolverResult)
    : option (list gg) :=
  '(x, y) ← pngMercatorProject fuel (rLat (rrResolver r)) (rLng (rrResolver r));
  Some [SetColor (pngMarkerColor r consensusAnswer); DrawCircle x y (of_int 5); Fill;
        SetColor (mkRGBA 255 255 255 100); DrawCircle x y (of_int 5); SetLineWidth half; Stroke].

(* src: internal/export/png.go drawMap *)
Definition drawMap `{R : MapRange} (fuel : nat) (check : Check) : option (list gg) :=
  let rect x y w h := [DrawRoundedRectangle (of_int x) (of_int y) (of_int w) (of_int h) (of_int 5); Fill] in
  let legendY := of_int (mapHeight - 25) in
  markers ← mapM (draw_marker fuel (consensus_answer check)) (cResults check);
  Some (
    [SetColor (mkRGBA 20 30 60 255);
     DrawRectangle (of_int 0) (of_int 0) (of_int pngWidth) (of_int mapHeight); Fill;
     SetColor (mkRGBA 60 80 100 200)] ++
    rect 70 70 200 170 ++ rect 150 260 110 160 ++ rect 490 60 120 120 ++
    rect 500 200 130 180 ++ rect 630 55 330 220 ++ rect 840 330 140 100 ++
    [SetColor (mkRGBA 220 230 240 255);
     text ("DNS Propagation: " +:+ cName check +:+ " " +:+ cType check) (of_int 20) (of_int 22)] ++
    mjoin markers ++
    drawLegendItem (of_int 20) legendY (mkRGBA 72 187 120 255) "OK (consensus)" ++
    drawLegendItem (of_int 200) legendY (mkRGBA 237 137 54 255) "Different answer" ++
    drawLegendItem (of_int 380) legendY (mkRGBA 252 129 129 255) "Error / Timeout / NXDOMAIN").

(** [if len(s) > max { s = s\[:keep\] + "..." }]. *)
Definition shorten (max keep : nat) (s : string) : string :=
  if (max <? String.length s)%nat then stake keep s +:+ "..." else s.

Definition colX : list Z := [10; 230; 340; 400; 480; 820; 900].

(** The number of rows that fit: [int(availH / tableRowH)], of constants. *)
Definition maxRows (n : nat) : nat :=
  Nat.min (Z.to_nat ((pngHeight - tableStartY - tableRowH) / tableRowH)) n.

(** The cells of a row: text and colour. *)
(* src: internal/export/png.go 139-171 drawTable *)
Definition row_cells (r : ResolverResult) : list (string * RGBA) :=
  let '(ans, ttl) :=
    match rrAnswers r with
    | [] => ("", "")
    | a :: _ => (shorten 35 32 (aValue a), Itoa (aTTL a))
    end in
  let textColor := mkRGBA 200 210 220 255 in
  [(shorten 22 19 (rName (rrResolver r)), textColor); (rIP (rrResolver r), textColor);
   (rCountry (rrResolver r), textColor); (rrStatus r, pngStatusColor (rrStatus r));
   (ans, textColor); (ttl, textColor); (Itoa (rrDurationMS r), textColor)].

(* src: internal/export/png.go 129-177 drawTable *)
Definition draw_row (i : nat) (r : ResolverResult) : list gg :=
  let rowY := (of_int tableStartY + of_int tableRowH * of_int (Z.of_nat (i + 1)))%f64 in
  [SetColor (if Nat.even i then mkRGBA 20 25 50 255 else mkRGBA 25 35 65 255);
   DrawRectangle (of_int 0) rowY (of_int pngWidth) (of_int tableRowH); Fill] ++
  mjoin (zip_with (λ '(s, c) x,
    [SetColor c; text s (of_int x) (rowY + of_int (tableRowH / 2))%f64]) (row_cells r) colX).

(* src: internal/export/png.go drawTable *)
Definition drawTable (check : Check) : list gg :=
  let headers := ["Resolver"; "IP"; "Country"; "Status"; "Answer"; "TTL"; "ms"] in
  let n := length (cResults check) in
  [SetColor (mkRGBA 30 40 80 255);
   DrawRectangle (of_int 0) (of_int tableStartY) (of_int pngWidth) (of_int tableRowH); Fill;
   SetColor (mkRGBA 220 230 240 255)] ++
  zip_with (λ h x, text h (of_int x) (of_int (tableStartY + tableRowH / 2))) headers colX ++
  mjoin (imap draw_row (take (maxRows n) (cResults check))) ++
  if (maxRows n <? n)%nat then
    [SetColor (mkRGBA 150 160 180 255);
     text ("... and " +:+ Itoa (Z.of_nat n - Z.of_nat (maxRows n)) +:+ " more results") (of_int 10)
       (of_int tableStartY + of_int tableRowH * of_int (Z.of_nat (maxRows n + 1)))%f64]
  else [].

(* src: internal/export/png.go PNG *)
Definition PNG `{R : MapRange} `{G : GG} (fuel : nat) (check : Check) : option (result string) :=
  m ← drawMap fuel check;
  Some (encode_png pngWidth pngHeight
          ([SetColor (mkRGBA 15 15 35 255); Clear] ++ m ++ drawTable check)).

(** No caller in the program. *)
(* src: internal/export/png.go truncate *)
Definition truncate (s : string) (n : nat) : string :=
  if (String.length s <=? n)%nat then s else stake (n - 3) s +:+ "...".

(** ** The document of gofpdf *)

(** The line number argument of [CellFormat], its border and alignment are
    those of the library. *)
Inductive fpdf :=
| AddPage
| SetFont (family style : string) (size : Z)
| CellFormat (w h : Z) (txt border : string) (ln : Z) (align : string) (fill : bool)
| Ln (h : Z)
| SetFillColor (r g b : Z)
| SetTextColor (r g b : Z).

(** [pdf.Output] after the calls on a new landscape A4 document. *)
Class GoFPDF := output_pdf : list fpdf → result string.

(** The layout ["2006-01-02 15:04:05 UTC"] of a UTC time: that of RFC 3339
    with a blank for the T and the zone written out. *)
Definition FormatUTC (t : Time) : string :=
  let s := FormatRFC3339 t in
  let n := String.length s in
  stake (n - 10) s +:+ " " +:+ stake 8 (sdrop (n - 9) s) +:+ " UTC".

Example format_utc : FormatUTC (1709210096 * 10 ^ 9) = "2024-02-29 12:34:56 UTC".
Proof. vm_compute. reflexivity. Qed.

Definition colWidths : list Z := [50; 30; 20; 20; 90; 25].

(* src: internal/export/pdf.go 20-38 PDF *)
Definition pdf_field (label value : string) : list fpdf :=
  [CellFormat 40 7 label "" 0 "L" false; CellFormat 0 7 value "" 1 "L" false].

(* src: internal/export/pdf.go 65-85 PDF *)
Definition pdf_cells (r : ResolverResult) : list string :=
  [shorten 22 19 (rName (rrResolver r)); rIP (rrResolver r); rCountry (rrResolver r);
   rrStatus r; shorten 40 37 (first_answer r); Itoa (rrDurationMS r)].

(** One row: the fill flag is negated between the choice of the colour and the
    cells, so that the rows that are filled are the white ones. *)
(* src: internal/export/pdf.go 57-90 PDF *)
Definition pdf_row (i : nat) (r : ResolverResult) : list fpdf :=
  let fill := Nat.odd i in
  [SetFillColor 240 240 255] ++ (if fill then [] else [SetFillColor 255 255 255]) ++
  zip_with (λ w cell, CellFormat w 6 cell "1" 0 "L" (negb fill)) colWidths (pdf_cells r) ++ [Ln (-1)].

(* src: internal/export/pdf.go PDF *)
Definition pdf_calls (check : Check) : list fpdf :=
  let s := cSummary check in
  [AddPage; SetFont "Helvetica" "B" 16;
   CellFormat 0 10 "dnsmon DNS Propagation Report" "" 1 "C" false; Ln 4;
   SetFont "Helvetica" "" 11] ++
  pdf_field "Domain:" (cName check) ++ pdf_field "Record Type:" (cType check) ++
  pdf_field "Check ID:" (cID check) ++ pdf_field "Date:" (FormatUTC (cCreatedAt check)) ++
  pdf_field "Resolvers:" (Itoa (TotalResolvers s) +:+ " total, " +:+ Itoa (Responded s) +:+
    " responded, " +:+ Itoa (Timeouts s) +:+ " timeouts, " +:+ Itoa (Errors s) +:+ " errors") ++
  [Ln 6; SetFont "Helvetica" "B" 9; SetFillColor 50 50 80; SetTextColor 255 255 255] ++
  zip_with (λ w h, CellFormat w 7 h "1" 0 "C" true) colWidths
    ["Resolver"; "IP"; "Country"; "Status"; "Answer"; "Duration (ms)"] ++
  [Ln (-1); SetFont "Helvetica" "" 8; SetTextColor 0 0 0] ++
  mjoin (imap pdf_row (cResults check)).

(* src: internal/export/pdf.go PDF *)
Definition PDF `{P : GoFPDF} (check : Check) : result string := output_pdf (pdf_calls check).

(** * Lemmas *)

(** The texts that are drawn, in order. *)
Definition texts (l : list gg) : list string :=
  omap (λ c, match c with DrawStringAnchored s _ _ _ _ => Some s | _ => None end) l.

Lemma texts_app l1 l2 : texts (l1 ++ l2) = texts l1 ++ texts l2.
Proof. apply omap_app. Qed.

Lemma texts_rows k (rs : list ResolverResult) :
  texts (mjoin (imap (λ i, draw_row (k + i)) rs)) = mjoin ((λ r, (row_cells r).*1) <$> rs).
Proof.
  revert k. induction rs as [|r rs IH]; intros k; [done|].
  rewrite imap_cons. cbn [fmap list_fmap]. rewrite !mjoin_cons, texts_app. f_equal.
  - unfold draw_row, row_cells. by destruct (rrAnswers r).
  - rewrite <-(IH (S k)). f_equal. f_equal. apply imap_ext. intros i x _. simpl.
    by rewrite Nat.add_succ_r.
Qed.

(** A clamped value is outside the bounds on neither side. *)
Lemma clamp_bounds lo hi y : fltb lo lo = false → fltb hi hi = false → fltb hi lo = false →
  let y := if fltb y lo then lo else y in
  let y := if fltb hi y then hi else y in
  fltb y lo = false ∧ fltb hi y = false.
Proof.
  intros Hl Hh Hhl. destruct (fltb y lo) eqn:E1; simpl.
  - destruct (fltb hi lo) eqn:E2; done.
  - destruct (fltb hi y) eqn:E2; done.
Qed.

(** * Properties *)

(** The two images agree and lose nothing unannounced: both give a
    resolver the same colour; the table of the PNG shows the seven cells of
    each of the first fourteen results, in order, and below them how many more
    there are, exactly when there are more; and no marker is drawn above or
    below the frame of the map, whatever the latitude. *)
Theorem images_faithful (check : Check) :
  (∀ r ans, let c := pngMarkerColor r ans in
     markerColor r ans = "#" +:+ hex [cR c; cG c; cB c] ∧ cA c = 255) ∧
  (let n := length (cResults check) in
   texts (drawTable check) =
     ["Resolver"; "IP"; "Country"; "Status"; "Answer"; "TTL"; "ms"] ++
     mjoin ((λ r, (row_cells r).*1) <$> take 14 (cResults check)) ++
     (if (14 <? n)%nat then ["... and " +:+ Itoa (Z.of_nat n - 14) +:+ " more results"] else [])) ∧
  (∀ fuel lat lng x y, pngMercatorProject fuel lat lng = Some (x, y) →
     fltb y (of_int 20) = false ∧ fltb (of_int 480) y = false).
Proof.
  split_and!.
  - intros r ans. unfold markerColor, pngMarkerColor.
    destruct (String.eqb (rrStatus r) StatusOK); [|done]. by destruct (negb _ && _).
  - cbv zeta. unfold drawTable. rewrite !texts_app, <-(texts_rows 0).
    set (n := length (cResults check)).
    assert (maxRows n = Nat.min 14 n) as -> by done.
    assert (take (Nat.min 14 n) (cResults check) = take 14 (cResults check)) as ->
      by (rewrite <-take_take; f_equal; by apply take_ge).
    rewrite app_assoc. f_equal. f_equal. destruct (Nat.ltb_spec 14 n) as [Hn|Hn].
    + rewrite Nat.min_l by lia. by rewrite (proj2 (Nat.ltb_lt 14 n)) by done.
    + rewrite Nat.min_r by lia. by rewrite Nat.ltb_irrefl.
  - intros fuel lat lng x y H. unfold pngMercatorProject in H. cbv zeta in H.
    destruct (sinApprox fuel _) as [sinVal|]; [|done]. cbn [mbind option_bind] in H.
    destruct (cosApprox fuel _) as [cosVal|]; [|done]. cbn [mbind option_bind] in H.
    injection H as _ <-. apply (clamp_bounds margin (of_int (mapHeight - 20))); by vm_compute.
Qed.
