(* ===== verification/ExportApi.v ===== *)
(** * The export handler

    [internal/api/v1/export.go]. *)

From S2P Require Import Prelude.
From S2P Require Import GoString.
From S2P Require Import DnsTypes.
From S2P Require Import Env.
From S2P Require Import Storage.
From S2P Require Import Sql.
From S2P Require Import Sqlite.
From S2P Require Import SqlRefine.
From S2P Require Import Summary.
From S2P Require Import Json.
From S2P Require Import Http.
From S2P Require Import Auth.
From S2P Require Import SettingsApi.
From S2P Require Import Float64.
From S2P Require Import Export.
From S2P Require Import Draw.

Local Open Scope Z_scope.

Section ExportApi.
Context {S C N : Type} {SO : StorageOps S} {R : MapRange} {G : GG} {P : GoFPDF}.

Abbreviation world := (World S C N).
Abbreviation H := (M (world * RW)).

(** The header of a download. *)
Definition attachment (check : Check) (format contentType : string) : H () :=
  let filename := "dnsmon-" +:+ cName check +:+ "-" +:+ cType check +:+ "." +:+ format in
  _ ← on_rw (rw_set_header "Content-Type" contentType);
  on_rw (rw_set_header "Content-Disposition"
    ("attachment; filename=" +:+ String quote_char filename +:+ String quote_char "")).

(** The bytes of a rendering, or the error that its writer reports. *)
Definition rendered (r : Request) (out : result string) (failed : string) : H () :=
  match out with
  | Ok data => on_rw (rw_write (CText data))
  | Err _ => internal_error r failed
  end.

(** [None]: the drawing has not ended.  The indentation of the JSON encoder is
    not part of the tree. *)
(* src: internal/api/v1/export.go ExportCheck *)
Definition ExportCheck (fuel : nat) (r : Request) : H (option ()) :=
  let id := URLParam r "id" in
  let format := query_get r "format" in
  let format := if String.eqb format "" then "json" else format in
  let done_ (h : H ()) : H (option ()) := _ ← h; mret (Some tt) in
  check ← store_op (GetCheck id);
  match check with
  | Err err => done_ (store_failed r err "Check not found." "Failed to retrieve check.")
  | Ok check =>
      if String.eqb format "json" then
        done_ (_ ← attachment check format "application/json";
               on_rw (rw_write (CJson (to_json check))))
      else if String.eqb format "csv" then
        done_ (_ ← attachment check format "text/csv"; on_rw (rw_write (CText (CSV check))))
      else if String.eqb format "png" then
        _ ← attachment check format "image/png";
        match PNG fuel check with
        | None => mret None
        | Some out => done_ (rendered r out "Failed to generate PNG.")
        end
      else if String.eqb format "svg" then
        _ ← attachment check format "image/svg+xml";
        match SVG fuel check with
        | None => mret None
        | Some out => done_ (on_rw (rw_write (CText out)))
        end
      else if String.eqb format "pdf" then
        _ ← attachment check format "application/pdf";
        done_ (rendered r (PDF check) "Failed to generate PDF.")
      else
        done_ (WriteError r StatusBadRequest ErrCodeInvalidInput
          ("Unsupported format: " +:+ format +:+ ". Use json, csv, png, svg, or pdf."))
  end.

End ExportApi.

(** * Lemmas *)

(** A handler that reads one check leaves the store as it is. *)
Lemma ExportCheck_store {S C N} {SO : StorageOps S} `{SL : !StorageLaws S SO} {R : MapRange}
    {G : GG} {P : GoFPDF} fuel r (w : World S C N) rw :
  healthy (w_store w) → wp (ExportCheck fuel r) (λ _ st, same_store w st.1) (w, rw).
Proof.
  intros Hh. unfold ExportCheck. apply wp_bind, wp_store.
  destruct (GetCheck_law (URLParam r "id") _ Hh) as (s' & -> & Hh' & Hv). cbn [fst snd].
  set (w1 := mkWorld s' (w_cache w) (w_net w)).
  assert (same_store w w1) as Hw1 by done. clearbody w1.
  destruct (abs_get _ _) as [check|err].
  2:{ unfold store_failed. destruct (Is _ _); exact Hw1. }
  destruct (String.eqb _ "json"); [exact Hw1|]. destruct (String.eqb _ "csv"); [exact Hw1|].
  destruct (String.eqb _ "png").
  { apply wp_bind. destruct (PNG fuel check) as [[data|e]|]; exact Hw1. }
  destruct (String.eqb _ "svg").
  { apply wp_bind. destruct (SVG fuel check) as [data|]; exact Hw1. }
  destruct (String.eqb _ "pdf"); [|exact Hw1].
  apply wp_bind. destruct (PDF check) as [data|e]; exact Hw1.
Qed.

(** * Properties *)

(** What a download is sent as. *)
Definition downloaded (check : Check) (format contentType : string) (rw : RW) : Prop :=
  ∃ header cookies, rwSent rw = Some (200, header, cookies) ∧
    header !! "Content-Type" = Some contentType ∧
    header !! "Content-Disposition" = Some ("attachment; filename=" +:+ String quote_char
      (("dnsmon-" +:+ cName check +:+ "-" +:+ cType check +:+ "." +:+ format) +:+
       String quote_char "")).

Definition download_rw (check : Check) (format contentType : string) : RW :=
  rw_set_header "Content-Disposition" ("attachment; filename=" +:+ String quote_char
    (("dnsmon-" +:+ cName check +:+ "-" +:+ cType check +:+ "." +:+ format) +:+ String quote_char ""))
    (rw_set_header "Content-Type" contentType fresh_rw).

Lemma downloaded_write check format contentType c :
  downloaded check format contentType (rw_write c (download_rw check format contentType)).
Proof.
  eexists _, _. split; [reflexivity|]. simpl. split; [|by rewrite lookup_insert_eq].
  by rewrite lookup_insert_ne, lookup_insert_eq.
Qed.

(** C32: an export serves the stored check in the format asked for, JSON when
    none is given: with status 200, the media type of the format, and the name,
    type and format in the name of the file.  JSON is the check itself; the CSV
    tells its results ([Export.csv_tells]); PNG, SVG and PDF are the rendering
    of the check in that format, or an error 500 when the library that writes it
    reports one.  An unknown check is 404, an unknown format 400, and nothing is
    stored.  A drawing that does not end, as with a resolver at latitude 1e300,
    is not answered. *)
Theorem ExportCheck_serves {S C N} {SO : StorageOps S} `{SL : !StorageLaws S SO} {R : MapRange}
    {G : GG} {P : GoFPDF} fuel (r : Request) (w : World S C N) (Hh : healthy (w_store w)) :
  let format := query_get r "format" in
  let '(ended, (w', rw)) := ExportCheck fuel r (w, fresh_rw) in
  let served check format contentType (out : result string) :=
    ended = Some tt ∧
    match out with
    | Ok data => downloaded check format contentType rw ∧ rwBody rw = [CText data]
    | Err _ => rwStatus rw = 500
    end in
  same_store w w' ∧
  match abs_checks (view (w_store w)) !! URLParam r "id" with
  | None => ended = Some tt ∧ rwStatus rw = 404
  | Some check =>
      (format = "" ∨ format = "json" → ended = Some tt ∧
         downloaded check "json" "application/json" rw ∧ rwBody rw = [CJson (to_json check)]) ∧
      (format = "csv" → ended = Some tt ∧ downloaded check "csv" "text/csv" rw ∧
         ∃ text, rwBody rw = [CText text] ∧ csv_tells text (cResults check)) ∧
      (format = "png" →
         match PNG fuel check with
         | Some out => served check "png" "image/png" out
         | None => ended = None
         end) ∧
      (format = "svg" →
         match SVG fuel check with
         | Some out => served check "svg" "image/svg+xml" (Ok out)
         | None => ended = None
         end) ∧
      (format = "pdf" → served check "pdf" "application/pdf" (PDF check)) ∧
      (format = "svg" → (∃ res, res ∈ cResults check ∧ rLat (rrResolver res) = far_north) →
         ended = None) ∧
      (¬ format ∈ [""; "json"; "csv"; "png"; "svg"; "pdf"] →
         ended = Some tt ∧ rwStatus rw = 400)
  end.
Proof.
  intros format. pose proof (ExportCheck_store fuel r w fresh_rw Hh) as Hstore.
  unfold wp in Hstore. destruct (ExportCheck fuel r (w, fresh_rw)) as [ended [w' rw]] eqn:E.
  intros served. split; [exact Hstore|]. clear Hstore. unfold ExportCheck in E. fold format in E.
  cbv [mbind M_bind mret M_ret attachment on_rw store_op on_world on_store] in E. cbn [fst snd] in E.
  destruct (GetCheck_law (URLParam r "id") _ Hh) as (s' & Hs & Hh' & Hv). rewrite Hs in E.
  unfold abs_get in E. destruct (abs_checks _ !! _) as [check|].
  2:{ unfold store_failed in E. change (Is ErrNotFound ErrNotFound) with true in E.
      simpl in E. by injection E as <- _ <-. }
  split_and!.
  - intros Hf.
    assert (ended = Some tt ∧ rw = rw_write (CJson (to_json check)) (download_rw check "json" "application/json"))
      as [-> ->] by (destruct Hf as [Hf|Hf]; rewrite Hf in E; by simplify_eq/=).
    split_and!; [done|apply downloaded_write|done].
  - intros Hf.
    assert (ended = Some tt ∧ rw = rw_write (CText (CSV check)) (download_rw check "csv" "text/csv"))
      as [-> ->] by (rewrite Hf in E; by simplify_eq/=).
    split_and!; [done|apply downloaded_write|]. eexists. split; [done|apply CSV_tells].
  - intros Hf. rewrite Hf in E. cbn in E. destruct (PNG fuel check) as [[data|e]|]; [|by simplify_eq/=..].
    assert (ended = Some tt ∧ rw = rw_write (CText data) (download_rw check "png" "image/png"))
      as [-> ->] by by simplify_eq/=.
    split_and!; [done|apply downloaded_write|done].
  - intros Hf. rewrite Hf in E. cbn in E. destruct (SVG fuel check) as [data|]; [|by simplify_eq/=].
    assert (ended = Some tt ∧ rw = rw_write (CText data) (download_rw check "svg" "image/svg+xml"))
      as [-> ->] by by simplify_eq/=.
    split_and!; [done|apply downloaded_write|done].
  - intros Hf. rewrite Hf in E. cbn in E. destruct (PDF check) as [data|e]; [|by simplify_eq/=].
    assert (ended = Some tt ∧ rw = rw_write (CText data) (download_rw check "pdf" "application/pdf"))
      as [-> ->] by by simplify_eq/=.
    split_and!; [done|apply downloaded_write|done].
  - intros Hf (res & Hres & Hlat). rewrite Hf in E. cbn in E.
    assert (SVG fuel check = None) as Hsvg; [|by rewrite Hsvg in E; simplify_eq/=].
    by apply (SVG_hangs fuel check res).
  - intros Hf. rewrite !not_elem_of_cons in Hf. destruct Hf as (H1 & H2 & H3 & H4 & H5 & H6 & _).
    apply String.eqb_neq in H1, H2, H3, H4, H5, H6. rewrite H1, H2, H3, H4, H5, H6 in E.
    by simplify_eq/=.
Qed.

(** * Witnesses *)
Definition export_db : DB string doc :=
  (do_ops [OSaveCheck (mkCheck "c1" "a.example" "A" 0 split_results
    (@buildSummary range_forward split_results))] (mkDB empty_tables [])).2.

Definition export_request (format : string) : Request :=
  mkRequest "GET" "/" ∅ [] {[ "format" := format ]} {[ "id" := "c1" ]} "".

Lemma ExportCheck_serves_witness :
  let w : World (DB string doc) Cache.noopCache Z := mkWorld export_db tt 0 in
  let export := ExportCheck (R := range_forward) (G := λ _ _ _, Ok "image") (P := λ _, Ok "document") 1 in
  (∃ w' rw text, export (export_request "csv") (w, fresh_rw) = (Some tt, (w', rw)) ∧
     rwBody rw = [CText text] ∧ csv_tells text split_results) ∧
  (∃ w' rw, export (export_request "pdf") (w, fresh_rw) = (Some tt, (w', rw)) ∧
     rwBody rw = [CText "document"]).
Proof.
  intros w export.
  assert (healthy (mkDB empty_tables [] : DB string doc)) as H0 by exact empty_healthy.
  assert (healthy export_db) as Hh.
  { unfold export_db. edestruct do_ops_correct as (rs & s' & -> & Hh & _); [exact H0| |exact Hh].
    by repeat split. }
  assert (∀ format, abs_checks (view export_db) !! URLParam (export_request format) "id" =
    Some (mkCheck "c1" "a.example" "A" 0 split_results (@buildSummary range_forward split_results)))
    as E by (intros; vm_compute; reflexivity).
  pose proof (ExportCheck_serves (SL := sqlite_laws) (R := range_forward) (G := λ _ _ _, Ok "image")
    (P := λ _, Ok "document") 1 (export_request "csv") w Hh) as H1.
  pose proof (ExportCheck_serves (SL := sqlite_laws) (R := range_forward) (G := λ _ _ _, Ok "image")
    (P := λ _, Ok "document") 1 (export_request "pdf") w Hh) as H2.
  cbv zeta in H1, H2. cbn [w_store w] in H1, H2. fold export in H1, H2. rewrite E in H1, H2.
  destruct (export (export_request "csv") (w, fresh_rw)) as [ended1 [w1 rw1]].
  destruct (export (export_request "pdf") (w, fresh_rw)) as [ended2 [w2 rw2]].
  destruct H1 as (_ & _ & H1 & _), H2 as (_ & _ & _ & _ & _ & H2 & _).
  destruct (H1 eq_refl) as (-> & _ & text & Hb & Ht), (H2 eq_refl) as (-> & _ & Hb2).
  split; [by exists w1, rw1, text|by exists w2, rw2].
Defined.
