(* ===== verification/StreamApi.v ===== *)
(** * The streaming handler

    [internal/api/v1/stream.go]: a check over a WebSocket.  The library that
    upgrades the connection and frames the messages is the class [WebSocket];
    frames are the chunks of the response after the switch of protocols.

    The goroutines of the check run as [Stream] describes: the handler takes
    the actions of the execution, of which its own reads of the results channel
    are the [Receive]s, and the number of frames that the connection accepts
    before a write fails. *)

From S2P Require Import Prelude.
From S2P Require Import GoString.
From S2P Require Import GoFmt.
From S2P Require Import DnsTypes.
From S2P Require Import Env.
From S2P Require Import GoTime.
From S2P Require Import Config.
From S2P Require Import Resolvers.
From S2P Require Import Cache.
From S2P Require Import DnsClient.
From S2P Require Import Storage.
From S2P Require Import Sql.
From S2P Require Import Sqlite.
From S2P Require Import SqlRefine.
From S2P Require Import Summary.
From S2P Require Import Checker.
From S2P Require Import FanOut.
From S2P Require Import Stream.
From S2P Require Import Json.
From S2P Require Import Http.
From S2P Require Import Auth.
From S2P Require Import SettingsApi.
From S2P Require Import MonitorsApi.

Local Open Scope Z_scope.

(* src: internal/api/v1/stream.go wsStreamRequest *)
Record wsStreamRequest := mkWsStreamRequest {
  wsName : string;
  wsType : string;
  wsResolvers : list string
}.

(** [websocket.Accept] with the given origin patterns ([None]: the connection is
    upgraded; [Some write]: an error, after the library has written a response
    to the client, as its documentation says), and the first frame ([None]: it
    cannot be read or decoded). *)
Class WebSocket := {
  ws_Accept : list string → Request → option (RW → RW);
  ws_Read : Request → option wsStreamRequest
}.

(* src: internal/api/v1/stream.go wsMessage *)
Definition wsMessage (typ : string) (data : json) : json :=
  JObj [("type", JStr typ); ("data", data)].

(* src: internal/api/v1/stream.go wsDoneData *)
Definition wsDoneData (summary : CheckSummary) (id : string) : json :=
  JObj [("summary", to_json summary); ("id", JStr id)].

(* src: internal/api/v1/stream.go wsErrorData *)
Definition wsErrorData (code message : string) : json :=
  JObj [("code", JStr code); ("message", JStr message)].

Definition StatusSwitchingProtocols : Z := 101.

Section StreamApi.
Context `{D : DnsConsts} `{U : Unicode} `{R : MapRange}.
Context {S C N : Type} {SO : StorageOps S} {CO : CacheOps C} {EN : Env N} {CL : ClientOps N}
  {J : Codec string ResolverResult} {WS : WebSocket}.

Abbreviation world := (World S C N).
Abbreviation H := (M (world * RW)).

(** The frames that are written before a write fails. *)
Definition ws_write (written : nat) (frames : list json) : H () :=
  on_rw (λ rw, foldl (λ rw f, rw_write (CJson f) rw) rw (take written frames)).

(* src: internal/api/v1/stream.go sendWSError *)
Definition sendWSError (written : nat) (code message : string) : H () :=
  ws_write written [wsMessage "error" (wsErrorData code message)].

Definition result_frame (res : ResolverResult) : json := wsMessage "result" (to_json res).

Definition done_frame (summary : CheckSummary) (id : string) : json :=
  wsMessage "done" (wsDoneData summary id).

(** The frames of an execution that is in state [s]: the loop over the results
    ends when the channel is closed and empty.  The summary of a save that failed
    with the context is not written: a write under a cancelled context fails. *)
(* src: internal/api/v1/stream.go 79-98 StreamCheck *)
Definition stream_frames (total : nat) (id : string) (s : sstate (S := S) (C := C) (N := N))
    : list json :=
  wsMessage "total" (JObj [("total", JInt (Z.of_nat total))]) ::
  (result_frame <$> s_received s) ++
  match s_main s, s_chan s with
  | MEnded (Some (summary, true)), [] => [done_frame summary id]
  | _, _ => []
  end.

(* src: internal/api/v1/stream.go StreamCheck *)
Definition StreamCheck (acts : list action) (written : nat) (c : Checker) (baseURL : string)
    : Handler (W := world) := λ r,
  let patterns := if String.eqb baseURL "" then [] else [baseURL] in
  match ws_Accept patterns r with
  | Some write =>
    _ ← on_rw write;
    WriteError r StatusBadRequest ErrCodeInvalidInput "Failed to upgrade WebSocket connection."
  | None =>
    _ ← WriteHeader StatusSwitchingProtocols;
    match ws_Read r with
    | None => sendWSError written ErrCodeInvalidInput "Failed to read request."
    | Some req =>
        if String.eqb (wsName req) "" || String.eqb (wsType req) "" then
          sendWSError written ErrCodeInvalidInput "name and type are required."
        else
          let sreq := mkStreamRequest (wsName req) (wsType req) (wsResolvers req) [] false in
          out ← on_world (Checker_Stream c sreq);
          match out with
          | Err err => sendWSError written ErrCodeInvalidInput (Error err)
          | Ok (total, id, s0) =>
              let s := run_actions c sreq true id acts s0 in
              _ ← on_world (λ _, (tt, s_world s));
              ws_write written (stream_frames total id s)
          end
    end
  end.

End StreamApi.

(** * Lemmas *)

Section Delivery.
Context `{D : DnsConsts} `{U : Unicode} `{R : MapRange}.
Context {S C N : Type} {SO : StorageOps S} `{SL : !StorageLaws S SO} {CO : CacheOps C}
  {EN : Env N} `{EO : !EnvOk N EN} {CL : ClientOps N} {J : Codec string ResolverResult}
  {WS : WebSocket}.

Abbreviation world := (World S C N).

(** The synchronous part of a stream only reads the store. *)
Lemma Checker_Stream_run c req (w : world) : healthy (w_store w) →
  same_store w (Checker_Stream c req w).2 ∧
  match (Checker_Stream c req w).1 with
  | Ok (n, id, s0) => ∃ l w2, length l = n ∧ same_store w w2 ∧ s0 = stream_start l w2
  | Err _ => True
  end.
Proof.
  intros Hh. unfold Checker_Stream. destruct (validateRequest _) as [e|]; [done|].
  unfold buildResolverList. cbv [mbind M_bind mret M_ret].
  pose proof (disabledResolverSet_store c w Hh) as Hs.
  destruct (disabledResolverSet c w) as [disabled w1]. cbn [snd] in Hs.
  destruct (resolver_list _ _ _) as [l|e]; [|done].
  unfold now, on_net, current_world. destruct (Now (w_net w1)) as [t n]. simpl.
  split; [done|]. by exists l, (mkWorld (w_store w1) (w_cache w1) n).
Qed.

Lemma frames_body (frames : list json) rw :
  rwBody (foldl (λ rw f, rw_write (CJson f) rw) rw frames) = rwBody rw ++ (CJson <$> frames) ∧
  (is_Some (rwSent rw) →
   rwSent (foldl (λ rw f, rw_write (CJson f) rw) rw frames) = rwSent rw).
Proof.
  revert rw. induction frames as [|f frames IH]; intros rw; simpl; [by rewrite app_nil_r|].
  destruct (IH (rw_write (CJson f) rw)) as [-> Hs].
  rewrite body_write, <-app_assoc. split; [done|]. intros [x Hx].
  rewrite Hs; rewrite sent_write; [|by eexists]. unfold sent_with. by rewrite Hx.
Qed.

Definition total_frame (n : nat) : json :=
  wsMessage "total" (JObj [("total", JInt (Z.of_nat n))]).

(** No frame announces an end. *)
Definition unfinished (l : list chunk) : Prop :=
  ∀ summary id, CJson (done_frame summary id) ∉ l.

Lemma unfinished_frames written (frames : list json) :
  (∀ f, f ∈ frames → ∃ t d, f = wsMessage t d ∧ t ≠ "done") →
  unfinished (CJson <$> take written frames).
Proof.
  intros Hf summary id Hin. apply list_elem_of_fmap in Hin as (f & Hf1 & Hin).
  apply (subseteq_take written) in Hin. destruct (Hf f Hin) as (t & d & -> & Hne).
  injection Hf1 as <- _. done.
Qed.

(** What a run of the handler leaves behind. *)
Definition delivered (w : world) (rw : RW) (w' : world) (written : nat) : Prop :=
  healthy (w_store w') ∧
  ((view (w_store w') = view (w_store w) ∧ unfinished (rwBody rw)) ∨
   ∃ k received rest tail,
     view (w_store w') = set_checks (view (w_store w)) (<[cID k := k]> (abs_checks (view (w_store w)))) ∧
     cSummary k = buildSummary (cResults k) ∧ received ++ rest ≡ₚ cResults k ∧
     (tail = [] ∨ tail = [done_frame (cSummary k) (cID k)] ∧ rest = []) ∧
     rwBody rw = CJson <$> take written
       (total_frame (length (cResults k)) :: (result_frame <$> received) ++ tail)).

Lemma delivered_frames (w w' : world) rw written frames :
  same_store w w' → rwBody rw = [] →
  (∀ f, f ∈ frames → ∃ t d, f = wsMessage t d ∧ t ≠ "done") →
  delivered w (foldl (λ rw f, rw_write (CJson f) rw) rw (take written frames)) w' written.
Proof.
  intros [Hh Hv] Hrw Hf. split; [done|]. left. split; [done|].
  rewrite (proj1 (frames_body _ _)), Hrw. by apply unfinished_frames.
Qed.

Lemma delivered_error (w w' : world) rw written code message :
  same_store w w' → rwBody rw = [] →
  wp (sendWSError written code message) (λ _ st, delivered w st.2 st.1 written) (w', rw).
Proof.
  intros Hw Hrw. apply wp_on_rw. apply delivered_frames; [done|done|].
  intros f Hf. apply list_elem_of_singleton in Hf as ->. by eexists _, _.
Qed.

Lemma results_not_done (l : list ResolverResult) f :
  f ∈ result_frame <$> l → ∃ t d, f = wsMessage t d ∧ t ≠ "done".
Proof. intros (res & -> & _)%list_elem_of_fmap. by eexists _, _. Qed.

Context (Hok : ∀ k : Check, time_ok (cCreatedAt k) → okCheck k).

Lemma delivered_run c req id acts written (l : list Resolver) (w w2 : world) rw :
  same_store w w2 → rwBody rw = [] →
  let s := run_actions c req true id acts (stream_start l w2) in
  delivered w (foldl (λ rw f, rw_write (CJson f) rw) rw
                 (take written (stream_frames (length l) id s))) (s_world s) written.
Proof.
  intros Hw Hrw s. pose proof Hw as [Hh2 Hv2].
  assert (client_ensures (λ _ _ _ _, True)) as HP.
  { intros r name q n. by destruct (Query r name q n).1. }
  pose proof (stream_outcome _ c req true id l w2 s HP (run_actions_rtc _ _ _ _ _ _)) as Ho.
  assert (w_store (s_world s) = w_store w2 → (∀ summary, s_main s ≠ MEnded (Some (summary, true))) →
    delivered w (foldl (λ rw f, rw_write (CJson f) rw) rw
                 (take written (stream_frames (length l) id s))) (s_world s) written) as Hsame.
  { intros Hst Hm. apply delivered_frames; [by split; rewrite Hst|done|].
    intros f Hf. unfold stream_frames in Hf. rewrite elem_of_cons, elem_of_app in Hf.
    destruct Hf as [->|[Hf|Hf]]; [by eexists _, _|by eapply results_not_done|].
    destruct (s_main s) as [| |[[summary []]|]]; [..|by destruct (Hm summary)| |];
      by apply elem_of_nil in Hf. }
  unfold stream_frames in *.
  destruct (s_main s) as [| |[[summary []]|]] eqn:Hm;
    [by apply Hsame; destruct Ho..| |by apply Hsame; destruct Ho as (_ & _ & _ & _ & ? & _)
    |by apply Hsame; destruct Ho as (_ & ? & _)].
  clear Hsame. destruct Ho as ((rs & Hrs & Hperm & -> & _) & Hrec & w1 & Hw1 & _ & Hsw).
  unfold now, on_net, on_store in Hsw. simpl in Hsw.
  destruct (Now (w_net w1)) as [t n] eqn:Hnow. simpl in Hsw.
  set (k := stream_check id req t (s_results s)) in *.
  assert (okCheck k) as Hk.
  { apply Hok. simpl. pose proof (Now_range (w_net w1)) as Ht. by rewrite Hnow in Ht. }
  rewrite Hw1 in Hsw. destruct (SaveCheck_law k _ Hh2 Hk) as (s' & Hsave & Hh' & Hv').
  rewrite Hsave in Hsw. split; [by rewrite Hsw|]. right.
  assert (length l = length (cResults k)) as ->.
  { simpl. rewrite Hperm. by apply Forall2_length in Hrs. }
  eexists k, (s_received s), (s_chan s), _. split_and!;
    [by rewrite Hsw; simpl; rewrite Hv', Hv2|done|done| |
     by rewrite (proj1 (frames_body _ _)), Hrw].
  destruct (s_chan s) as [|x ch]; [right|by left]. split; [|done].
  simpl. by rewrite Hperm.
Qed.

Lemma StreamCheck_run acts written c baseURL r (w : world) rw0 :
  healthy (w_store w) → rwBody rw0 = [] →
  ws_Accept (if String.eqb baseURL "" then [] else [baseURL]) r = None →
  wp (StreamCheck acts written c baseURL r)
    (λ _ st, (rwSent rw0 = None → rwStatus st.2 = 101) ∧ delivered w st.2 st.1 written) (w, rw0).
Proof.
  intros Hh Hb Hws. unfold StreamCheck. rewrite Hws.
  apply wp_bind, wp_on_rw. set (rw := rw_write_header _ rw0).
  assert (rwBody rw = []) as Hrw by (by unfold rw; rewrite body_write_header).
  assert (∀ frames, rwSent rw0 = None →
    rwStatus (foldl (λ rw f, rw_write (CJson f) rw) rw frames) = 101) as Hst.
  { intros frames Hs. unfold rwStatus. rewrite (proj2 (frames_body _ _)); unfold rw;
      rewrite sent_write_header; unfold sent_with; [by rewrite Hs|by eexists]. }
  assert (∀ code message (w1 : world), same_store w w1 →
    wp (sendWSError written code message)
      (λ _ st, (rwSent rw0 = None → rwStatus st.2 = 101) ∧ delivered w st.2 st.1 written) (w1, rw))
    as Herr.
  { intros code message w1 Hw1. pose proof (delivered_error w w1 rw written code message Hw1 Hrw).
    split; [apply Hst|done]. }
  destruct (ws_Read r) as [req|]; [|by apply Herr].
  destruct (_ || _); [by apply Herr|].
  apply wp_bind. unfold wp at 1, on_world.
  set (sreq := mkStreamRequest _ _ _ _ _).
  pose proof (Checker_Stream_run c sreq w Hh) as [Hw2 Hrun]. cbn [fst snd].
  destruct (Checker_Stream c sreq w) as [[[[total id] s0]|err] w2]; [|by apply Herr].
  cbn [fst snd] in Hrun. destruct Hrun as (l & w3 & <- & Hw3 & ->).
  apply wp_bind. unfold wp at 1. cbn [fst snd]. apply wp_on_rw. cbn [fst snd].
  split; [apply Hst|by apply delivered_run].
Qed.

End Delivery.

(** * Properties *)

(** C7: what a client of the stream sees is what is stored: whatever the
    interleaving of the goroutines, the reads of the handler and a
    disconnection, either nothing is stored and no end is announced, or exactly
    one check is stored, of which the client has been sent a prefix of this:
    the number of its results, results of it, each at most once, and, after all
    of them, the end with its summary and the identifier under which it is
    stored. *)
Theorem StreamCheck_delivers `{D : DnsConsts} `{U : Unicode} `{R : MapRange} {S C N}
    {SO : StorageOps S} `{SL : !StorageLaws S SO} {CO : CacheOps C} {EN : Env N} `{EO : !EnvOk N EN}
    {CL : ClientOps N} {J : Codec string ResolverResult} {WS : WebSocket}
    (Hok : ∀ k : Check, time_ok (cCreatedAt k) → okCheck k)
    acts written c baseURL r (w : World S C N) (Hh : healthy (w_store w))
    (Hws : ws_Accept (if String.eqb baseURL "" then [] else [baseURL]) r = None) :
  let '(rw, w') := respond (StreamCheck acts written c baseURL) r w in
  rwStatus rw = 101 ∧ delivered w rw w' written.
Proof.
  apply respond_wp. eapply wp_mono; [|by apply StreamCheck_run]. intros [] st [Hs Hd].
  split; [by apply Hs|done].
Qed.

(** * Witnesses *)

Definition demo_socket : WebSocket := {|
  ws_Accept _ _ := None;
  ws_Read _ := Some (mkWsStreamRequest "a.example" "A" [])
|}.

Lemma StreamCheck_delivers_witness :
  rwStatus (respond (StreamCheck (D := iana) (U := ascii_only) (R := range_forward)
    (CO := Cache.noop_cache_ops) (CL := tick_client) (J := one_codec) (WS := demo_socket)
    [Task 0; Task 0; Task 1; Stream.Cancel; Main] 5 demo_checker "") (demo_request []) tick_world).1 = 101.
Proof.
  pose proof (StreamCheck_delivers (D := iana) (U := ascii_only) (R := range_forward)
    (SL := sqlite_laws) (EO := tick_env_ok) (CO := Cache.noop_cache_ops) (CL := tick_client)
    (J := one_codec) (WS := demo_socket) (λ k Hk, conj I Hk)
    [Task 0; Task 0; Task 1; Stream.Cancel; Main] 5 demo_checker "" (demo_request []) tick_world
    (empty_healthy (blob := doc)) eq_refl) as H.
  destruct (respond _ _ _) as [rw w']. apply H.
Defined.
