(* ===== verification/Valid.v ===== *)
(** * What is always true of the stored data

    The invariant [store_valid] of everything that the server stores, and that
    every handler keeps it ([handler_keeps]), under any interference of other
    requests that do ([Interleave.StoreKeeps]): each request's calls are allowed
    whatever valid state they find.  [keeping] of [Prelude] is the logic, and
    the hint database [keeps] holds its rules for the steps of a handler. *)

From S2P Require Import Prelude.
From S2P Require Import GoString.
From S2P Require Import GoFmt.
From S2P Require Import Crypto.
From S2P Require Import DnsTypes.
From S2P Require Import Settings.
From S2P Require Import Session.
From S2P Require Import Env.
From S2P Require Import GoTime.
From S2P Require Import Config.
From S2P Require Import Resolvers.
From S2P Require Import Cache.
From S2P Require Import DnsClient.
From S2P Require Import Storage.
From S2P Require Import Interleave.
From S2P Require Import Summary.
From S2P Require Import Checker.
From S2P Require Import FanOut.
From S2P Require Import Monitor.
From S2P Require Import Stream.
From S2P Require Import Json.
From S2P Require Import Http.
From S2P Require Import Auth.
From S2P Require Import SettingsApi.
From S2P Require Import MonitorsApi.
From S2P Require Import CheckApi.
From S2P Require Import Draw.
From S2P Require Import ExportApi.
From S2P Require Import StreamApi.

Local Open Scope Z_scope.

(** ** The invariant *)

Section Invariant.
Context `{D : DnsConsts} {R : MapRange}.

(** A check of a well-formed name and a known type, with the summary of its
    results. *)
Definition check_valid (k : Check) : Prop :=
  domainRE (cName k) = true ∧ is_Some (ParseType (cType k)) ∧
  cSummary k = buildSummary (cResults k).

(** Everything is valid and filed under its identifier. *)
Record store_valid (a : AbsStore) : Prop := {
  valid_settings : settings_valid (default Default (abs_settings a));
  valid_checks : map_Forall (λ id k, cID k = id ∧ check_valid k) (abs_checks a);
  valid_tokens : map_Forall (λ id tk, tokID tk = id ∧ token_valid tk) (abs_tokens a);
  valid_schedules : map_Forall (λ id sc, schID sc = id ∧ schedule_ok sc) (abs_schedules a);
  valid_monitors : map_Forall (λ id m, mID m = id ∧ monitor_ok m) (abs_monitors a);
  valid_events : map_Forall (λ id e, evID e = id) (abs_events a)
}.

Lemma empty_valid : store_valid abs_empty.
Proof. split; try apply map_Forall_empty. split; [done|constructor]. Qed.

(** The stored checks, and the calls that change them. *)
Class CheckInv (G : op → Prop) : Prop := {
  inv_save_check : ∀ k, time_ok (cCreatedAt k) → check_valid k → G (OSaveCheck k);
  inv_delete_check : ∀ id, G (ODeleteCheck id)
}.

Lemma abs_insert_Forall {A} (P : string → A → Prop) id x m :
  map_Forall P m → P id x → map_Forall P (abs_insert id x m).
Proof. intros Hm Hx. unfold abs_insert. destruct (m !! id); [done|]. by apply map_Forall_insert_2. Qed.

(** The instants that a call stores fit the clock; nobody purges while
    requests are served. *)
Definition timely (o : op) : Prop :=
  match o with
  | OSaveCheck k => time_ok (cCreatedAt k)
  | OAppendMonitorEvent e => time_ok (evTimestamp e)
  | OCreateAPIToken tk => time_ok (tokCreatedAt tk)
  | OListChecks limit offset => 0 ≤ limit ∧ 0 ≤ offset
  | OPurgeOldChecks _ _ => False
  | _ => True
  end.

(** What each component asks of an invariant holds of [store_valid], when the
    store represents everything that the program stores. *)
Context {S : Type} {SO : StorageOps S} `{SL : !StorageLaws S SO}
  (Hrep : ∀ o a, timely o → op_pre o a).

Lemma allow (o : op) : timely o →
  (∀ a, store_valid a → store_valid (abs_next kept o a)) → allowed store_valid o.
Proof. intros Ht Ho. split; [|done]. intros a. by apply Hrep. Qed.

Lemma valid_SettingsInv : SettingsInv store_valid (allowed store_valid).
Proof. split; [by intros a []|]. intros s Hs. apply allow; [done|]. by intros a []. Qed.

Lemma valid_ScheduleInv : ScheduleInv (allowed store_valid).
Proof.
  split; intros x; [intros Hx|]; (apply allow; [done|]); intros a []; split; try done.
  - by apply map_Forall_insert_2.
  - by apply map_Forall_delete.
Qed.

Lemma valid_TokenInv : TokenInv (allowed store_valid).
Proof.
  split; intros x; [intros Ht Hx|]; (apply allow; [done|]); intros a []; split; try done.
  - apply abs_insert_Forall; [done|]. split; [done|]. by destruct Hx as (? & ? & ? & ?).
  - by apply map_Forall_delete.
Qed.

Lemma valid_MonitorInv : MonitorInv store_valid (allowed store_valid).
Proof.
  split; [by intros a []|..]; intros x; [intros Hx| |intros Ht]; (apply allow; [done|]);
    intros a Ha; pose proof Ha as [].
  - split; try done. by apply map_Forall_insert_2.
  - simpl. case_decide; [done|]. split; try done; [by apply map_Forall_delete|].
    intros i e [Hi _]%map_lookup_filter_Some. auto.
  - split; try done. by apply abs_insert_Forall.
Qed.

Lemma valid_CheckInv : CheckInv (allowed store_valid).
Proof.
  split; intros x; [intros Ht Hx|]; (apply allow; [done|]); intros a []; split; try done.
  - by apply map_Forall_insert_2.
  - by apply map_Forall_delete.
Qed.

End Invariant.

(** ** The handlers of checks *)

Section Checks.
Context `{D : DnsConsts} `{U : Unicode} {R : MapRange}.
Context {S C N : Type} {SO : StorageOps S} {CO : CacheOps C} {EN : Env N} `{EO : !EnvOk N EN}
  {CL : ClientOps N} {JC : Codec string ResolverResult} {V : Validator}
  {G : GG} {PDF : GoFPDF} {WS : WebSocket}
  {BCk : BodyDecode apiCheckRequest} {BLk : BodyDecode apiLookupRequest}
  {BTr : BodyDecode apiTraceRequest} {BRv : BodyDecode ReverseRequest}
  (keep : Time → Time) (I : AbsStore → Prop) (A : op → Prop) (K : S → Prop)
  `{SK : !StoreKeeps SO keep I A K} `{HI : !CheckInv A}.

Abbreviation world := (World S C N).
Abbreviation P := (beside (calm (C := C) (N := N) K)).

Hint Resolve keeping_internal_error keeping_invalid_body keeping_store_failed keeping_deleted
  keeping_listed : keeps.

(** A check that was made is valid. *)
Lemma check_made_valid req k : check_made req k → check_valid k.
Proof.
  intros (_ & Hv & Hn & Ht & Hs). unfold validateRequest in Hv.
  destruct (String.eqb _ _); [done|]. destruct (domainRE (crName req)) eqn:Hd; [|done].
  case_bool_decide as Hp; [|done]. split_and!; [by rewrite Hn|by rewrite Ht|done].
Qed.

Lemma checked_calm sched c req r :
  keeping P (λ _, True) (out ← on_world (Checker_Check sched c req); checked r out).
Proof.
  eapply keeping_bind.
  - eapply keeping_world, (keeping_Check keep I A K). intros k _ Hk.
    apply inv_save_check; [by destruct Hk|by eapply check_made_valid].
  - unfold checked, bad_request. keeps.
Qed.

Lemma PostCheck_calm sched c : handler_keeps (C := C) K (PostCheck sched c).
Proof. intros r. pose proof checked_calm. unfold PostCheck, bad_request. keeps. Qed.

Lemma PostReverse_calm sched c : handler_keeps (C := C) K (PostReverse sched c).
Proof. intros r. pose proof checked_calm. unfold PostReverse, bad_request. keeps. Qed.

Lemma PostLookup_calm c : handler_keeps (C := C) K (PostLookup c).
Proof. intros r. unfold PostLookup, bad_request. keeps. Qed.

Lemma PostTrace_calm c : handler_keeps (S := S) (C := C) K (PostTrace c).
Proof. intros r. unfold PostTrace, bad_request, env_op. keeps. Qed.

Lemma GetCheck_calm : handler_keeps (C := C) (N := N) K GetCheck_handler.
Proof. intros r. unfold GetCheck_handler, store_op. keeps. Qed.

Lemma DeleteHistory_calm : handler_keeps (C := C) (N := N) K DeleteHistory.
Proof.
  intros r. unfold DeleteHistory, store_op. eapply keeping_bind;
    [by eapply keeping_world, (keeping_write _ _ _ _ (ODeleteCheck _)), inv_delete_check|keeps].
Qed.

Lemma ListHistory_calm : handler_keeps (C := C) (N := N) K ListHistory.
Proof.
  intros r. unfold ListHistory, store_op. pose proof (history_page_asks r) as Hpage.
  destruct (history_page r) as [limit offset]. destruct Hpage as (_ & ? & _ & ?). simpl in *.
  eapply keeping_bind; [apply keeping_world, (keeping_list_checks keep I A); (done || lia)|keeps].
Qed.

Lemma Readyz_calm : handler_keeps (C := C) (N := N) K Readyz.
Proof.
  intros r. unfold Readyz, store_op.
  eapply keeping_bind; [by apply keeping_world, (keeping_list_checks keep I A)|keeps].
Qed.

Lemma Export_calm fuel :
  handler_keeps (C := C) (N := N) K (λ r, _ ← ExportCheck fuel r; mret tt).
Proof.
  intros r. apply (keeping_bind _ (λ _, True)); [|keeps].
  unfold ExportCheck, attachment, rendered, store_op. keeps.
Qed.

(** A stream saves at most its check, at its end. *)
Definition stream_request_ok (req : StreamRequest) : Prop :=
  validateRequest (mkCheckRequest (srName req) (srType req) (srResolverIDs req)
    (srCustomResolvers req) false (srAllowPrivate req) false) = None.

Lemma stream_end_calm c req id acts (l : list Resolver) (w : world) :
  stream_request_ok req → calm K w →
  calm K (s_world (run_actions c req true id acts (stream_start l w))).
Proof.
  intros Hreq Hw. set (s := run_actions _ _ _ _ _ _).
  assert (client_ensures (λ _ _ _ _, True)) as HP.
  { intros r name q n. by destruct (Query r name q n).1. }
  pose proof (stream_outcome _ c req true id l w s HP (run_actions_rtc _ _ _ _ _ _)) as Ho.
  assert (w_store (s_world s) = w_store w → calm K (s_world s)) as Hsame by (by unfold calm; intros ->).
  destruct (s_main s) as [| |[[summary []]|]]; [by apply Hsame; destruct Ho..| |
    by apply Hsame; destruct Ho as (_ & _ & _ & _ & ? & _)|by apply Hsame; destruct Ho as (_ & ? & _)].
  destruct Ho as (_ & _ & w1 & Hw1 & _ & ->).
  assert (calm K w1) as Hc by (by unfold calm; rewrite Hw1).
  destruct (keeping_now K w1 Hc) as [Hc' Ht].
  refine (proj1 (keeping_write keep I A K (OSaveCheck _) _ eq_refl _ _ Hc')).
  apply inv_save_check; [done|]. apply (check_made_valid
    (mkCheckRequest (srName req) (srType req) (srResolverIDs req) (srCustomResolvers req) false
      (srAllowPrivate req) false)). by split_and!.
Qed.

Lemma keeping_stream c req :
  keeping (calm K) (λ out, ∀ total id s0, out = Ok (total, id, s0) →
    stream_request_ok req ∧ ∃ l w, calm K w ∧ s0 = stream_start l w)
    (Checker_Stream (C := C) (N := N) c req).
Proof.
  unfold Checker_Stream. destruct (validateRequest _) eqn:Hv; [by apply keeping_ret|].
  unfold buildResolverList. apply (keeping_bind _ (λ _, True)); [keeps|]. intros [l|e] _;
    [|by apply keeping_ret].
  eapply keeping_bind; [by apply keeping_now|]. intros t _.
  apply (keeping_bind _ (calm K)); [by intros w Hw|]. intros w Hw. apply keeping_ret.
  intros total id s0 [= _ _ <-]. split; [done|]. by exists l, w.
Qed.

Lemma StreamCheck_calm acts written c baseURL :
  handler_keeps (C := C) K (StreamCheck acts written c baseURL).
Proof.
  intros r. unfold StreamCheck, sendWSError, ws_write, WriteHeader. cbv zeta.
  destruct (ws_Accept _ r) as [write|].
  { eapply keeping_bind; [apply keeping_on_rw|]. intros _ _. keeps. }
  eapply keeping_bind; [apply keeping_on_rw|]. intros _ _.
  destruct (ws_Read r) as [req|]; [|keeps]. destruct (_ || _); [keeps|].
  eapply keeping_bind; [apply keeping_world, keeping_stream|]. intros [[[total id] s0]|e] Hs; [|keeps].
  destruct (Hs _ _ _ eq_refl) as (Hreq & l & w & Hw & ->).
  apply (keeping_bind _ (λ _, True)); [|keeps]. apply keeping_world. intros w' _.
  split; [by apply stream_end_calm|done].
Qed.

End Checks.
