(* ===== verification/Server.v ===== *)
(** * The HTTP server

    [internal/api/server.go] with the version handler of
    [internal/api/v1/health.go] and [internal/api/docs/swagger.go]: the table
    of routes, the group behind the gate, the middleware around them, and what
    a client without a session can do.

    The router chi is the class [Mux]: it picks a route of a table for a
    request, whatever its rules are.  The file server of the web assets and the
    metrics handler write to the response only. *)

From S2P Require Import Prelude.
From S2P Require Import GoString.
From S2P Require Import Crypto.
From S2P Require Import GoFmt.
From S2P Require Import DnsTypes.
From S2P Require Import Settings.
From S2P Require Import Session.
From S2P Require Import Env.
From S2P Require Import GoTime.
From S2P Require Import Config.
From S2P Require Import Resolvers.
From S2P Require Import Cache.
From S2P Require Import DnsClient.
From S2P Require Import Storage.
From S2P Require Import Sql.
From S2P Require Import Sqlite.
From S2P Require Import SqlRefine.
From S2P Require Import Summary.
From S2P Require Import Checker.
From S2P Require Import FanOut.
From S2P Require Import Monitor.
From S2P Require Import Stream.
From S2P Require Import Json.
From S2P Require Import Http.
From S2P Require Import Auth.
From S2P Require Import SettingsApi.
From S2P Require Import MonitorsApi.
From S2P Require Import CheckApi.
From S2P Require Import Export.
From S2P Require Import Draw.
From S2P Require Import ExportApi.
From S2P Require Import StreamApi.

Local Open Scope Z_scope.

(** ** Libraries *)

Inductive routed :=
| Found (route : nat) (params : gmap string string)
| NotFound
| MethodNotAllowed.

(** The router: which route of a table (method and pattern; [*] is any method)
    serves a request below a prefix. *)
Class Mux := mux : string → list (string * string) → Request → routed.

(** [middleware.StripSlashes] on the path; the file server; the metrics. *)
Class WebLibs := {
  StripSlashes : string → string;
  serve_file : Request → RW → RW;
  serve_metrics : Request → RW → RW
}.

(** ** Version and documentation *)

(* src: internal/version/version.go Info *)
Record Info := mkInfo { viVersion : string; viCommit : string; viDate : string }.

#[export] Instance json_of_Info : ToJson Info := λ i, JObj
  [("version", JStr (viVersion i)); ("commit", JStr (viCommit i)); ("date", JStr (viDate i))].

(** The variables are set when the program is linked. *)
(* src: internal/version/version.go BuildInfo *)
Definition BuildInfo (Version Commit Date : string) : Info := mkInfo Version Commit Date.

Definition line (s : string) : string := xml s +:+ String newline "".

(** The page, with the double quotes of the markup written as single ones and
    the single quotes of the script as back quotes. *)
(* src: internal/api/docs/swagger.go 12-33 swaggerUIHTML *)
Definition swaggerUIHTML (SpecURL : string) : string :=
  smap (λ c, if bool_decide (c = "`"%char) then "'"%char else c) (
  line "<!DOCTYPE html>" +:+ line "<html lang='en'>" +:+ line "<head>" +:+
  line "  <meta charset='UTF-8'>" +:+
  line "  <meta name='viewport' content='width=device-width, initial-scale=1.0'>" +:+
  line "  <title>dnsmon API Docs</title>" +:+
  line "  <link rel='stylesheet' href='https://unpkg.com/swagger-ui-dist@5/swagger-ui.css'>" +:+
  line "</head>" +:+ line "<body>" +:+ line "  <div id='swagger-ui'></div>" +:+
  line "  <script src='https://unpkg.com/swagger-ui-dist@5/swagger-ui-bundle.js'></script>" +:+
  line "  <script>" +:+ line "    SwaggerUIBundle({" +:+
  line ("      url: '" +:+ SpecURL +:+ "',") +:+ line "      dom_id: `#swagger-ui`," +:+
  line "      presets: [SwaggerUIBundle.presets.apis, SwaggerUIBundle.SwaggerUIStandalonePreset]," +:+
  line "      layout: 'BaseLayout'," +:+ line "      deepLinking: true," +:+
  line "    });" +:+ line "  </script>" +:+ line "</body>" +:+ "</html>").

Section Server.
Context `{D : DnsConsts} `{U : Unicode} {R : MapRange}.
Context {S C N : Type} {SO : StorageOps S} {CO : CacheOps C} {EN : Env N} {CL : ClientOps N}
  {J : Codec string ResolverResult} {NO : Notifier N} {A2 : Argon2} {V : Validator}
  {G : GG} {P : GoFPDF} {WS : WebSocket} {MX : Mux} {WL : WebLibs}
  {BL : BodyDecode loginRequest} {BU : BodyDecode updateSettingsRequest}
  {BT : BodyDecode createTokenRequest} {BS : BodyDecode scheduleRequest}
  {BC : BodyDecode NotificationChannel} {BM : BodyDecode monitorRequest}
  {BCk : BodyDecode apiCheckRequest} {BLk : BodyDecode apiLookupRequest}
  {BTr : BodyDecode apiTraceRequest} {BRv : BodyDecode ReverseRequest}.
(** The order of the goroutines of a check; the actions and the accepted frames
    of a stream; the turns of the drawing loops; the version and the embedded
    specification. *)
Context (sched : nat → nat) (acts : list action) (written fuel : nat) (info : Info)
  (OpenAPISpec : string).

Abbreviation world := (World S C N).
Abbreviation H := (M (world * RW)).
Abbreviation handler := (Handler (W := world)).

(* src: internal/api/v1/health.go Version *)
Definition Version : handler := λ r, WriteJSON StatusOK_http info.

(* src: internal/api/docs/swagger.go SwaggerUI *)
Definition SwaggerUI : handler := λ r,
  _ ← on_rw (rw_set_header "Content-Type" "text/html; charset=utf-8");
  on_rw (rw_write (CText (swaggerUIHTML "/api/docs/openapi.yaml"))).

(* src: internal/api/docs/swagger.go Spec *)
Definition Spec : handler := λ r,
  _ ← on_rw (rw_set_header "Content-Type" "application/yaml");
  on_rw (rw_write (CText OpenAPISpec)).

(** ** Routing *)

(** A route: method, pattern and handler. *)
Definition route : Type := string * string * handler.

Definition with_params (r : Request) (params : gmap string string) : Request :=
  mkRequest (rqMethod r) (rqPath r) (rqHeader r) (rqCookies r) (rqQuery r) params (rqBody r).

Definition with_path (r : Request) (path : string) : Request :=
  mkRequest (rqMethod r) path (rqHeader r) (rqCookies r) (rqQuery r) (rqParams r) (rqBody r).

(** [http.Error]. *)
Definition plain_error (code : Z) (message : string) : H () :=
  _ ← on_rw (rw_set_header "Content-Type" "text/plain; charset=utf-8");
  _ ← on_rw (rw_set_header "X-Content-Type-Options" "nosniff");
  _ ← on_rw (rw_write_header code);
  on_rw (rw_write (CText (message +:+ String newline ""))).

(** The router below [prefix]: the handler of the route it picks. *)
Definition dispatch (prefix : string) (routes : list route) : handler := λ r,
  match mux prefix routes.*1 r with
  | Found i params =>
      match routes !! i with
      | Some (_, h) => h (with_params r params)
      | None => plain_error 404 "404 page not found"
      end
  | NotFound => plain_error 404 "404 page not found"
  | MethodNotAllowed => WriteHeader 405
  end.

Definition static : handler := λ r, on_rw (serve_file r).

(** [r.URL.Path = path; fileServer.ServeHTTP(w, r)]. *)
Definition page (path : string) : handler := λ r,
  _ ← on_rw (rw_url_path path);
  static (with_path r path).

(* src: internal/api/server.go 67-105 Server.routes *)
Definition page_routes : list route :=
  [("GET", "/", static); ("GET", "/css/*", static); ("GET", "/js/*", static);
   ("GET", "/static/*", static); ("GET", "/vendor/*", static);
   ("GET", "/check/{id}", page "/"); ("GET", "/lookup", page "/lookup.html");
   ("GET", "/reverse", page "/reverse.html"); ("GET", "/trace", page "/trace.html");
   ("GET", "/about", page "/about.html");
   ("GET", "/settings", RequireAuth false (page "/settings.html"));
   ("GET", "/login", page "/login.html");
   ("GET", "/api/docs", SwaggerUI); ("GET", "/api/docs/openapi.yaml", Spec)].

(* src: internal/api/server.go 111-132 Server.routes *)
Definition public_routes (c : Checker) (registry : Registry) (cfg : Config) : list route :=
  [("GET", "/health", Health); ("GET", "/readyz", Readyz); ("GET", "/version", Version);
   ("GET", "/resolvers", ListResolvers registry); ("GET", "/resolvers/{id}", GetResolver registry);
   ("GET", "/record-types", RecordTypes);
   ("POST", "/check", PostCheck sched c);
   ("GET", "/check/stream", StreamCheck acts written c (BaseURL (cfgServer cfg)));
   ("GET", "/check/{id}", GetCheck_handler);
   ("GET", "/check/{id}/export", λ r, _ ← ExportCheck fuel r; mret tt);
   ("POST", "/lookup", PostLookup c); ("POST", "/reverse", PostReverse sched c);
   ("POST", "/trace", PostTrace c);
   ("POST", "/auth/login", Login); ("POST", "/auth/logout", Logout);
   ("GET", "/auth/session", Session_handler)].

(* src: internal/api/server.go 138-157 Server.routes *)
Definition gated_handlers (c : Checker) : list route :=
  let run : CheckRunner world := checker_runner sched c in
  [("GET", "/history", ListHistory); ("DELETE", "/history/{id}", DeleteHistory);
   ("GET", "/settings", GetSettings_handler); ("PUT", "/settings", UpdateSettings);
   ("POST", "/settings/notifications/test", TestNotification);
   ("GET", "/settings/tokens", ListTokens); ("POST", "/settings/tokens", CreateToken);
   ("DELETE", "/settings/tokens/{id}", DeleteToken);
   ("GET", "/settings/schedules", ListSchedules_handler);
   ("POST", "/settings/schedules", CreateSchedule);
   ("PUT", "/settings/schedules/{id}", UpdateSchedule);
   ("DELETE", "/settings/schedules/{id}", DeleteSchedule_handler);
   ("GET", "/settings/monitors", ListMonitors_handler);
   ("POST", "/settings/monitors", CreateMonitor);
   ("PUT", "/settings/monitors/{id}", UpdateMonitor);
   ("DELETE", "/settings/monitors/{id}", DeleteMonitor_handler);
   ("GET", "/settings/monitors/{id}/history", MonitorHistory);
   ("POST", "/settings/monitors/{id}/run", RunMonitor (CR := run))].

(** [r.Use(RequireAuth(s.storage, true))] in the group. *)
(* src: internal/api/server.go 134-136 Server.routes *)
Definition gated_routes (c : Checker) : list route :=
  prod_map id (RequireAuth true) <$> gated_handlers c.

(* src: internal/api/server.go 108-159 Server.routes *)
Definition api_routes (c : Checker) (registry : Registry) (cfg : Config) : handler :=
  CORS (BaseURL (cfgServer cfg))
    (dispatch "/api/v1" (public_routes c registry cfg ++ gated_routes c)).

Definition strip (next : handler) : handler := λ r, next (with_path r (StripSlashes (rqPath r))).

(* src: internal/api/server.go Server.routes *)
Definition routes (c : Checker) (registry : Registry) (cfg : Config) : list route :=
  page_routes ++ [("*", "/api/v1/*", api_routes c registry cfg)] ++
  (if MetricsEnabled (cfgMetrics cfg)
   then [("*", MetricsPath (cfgMetrics cfg), λ r, on_rw (serve_metrics r))] else []).

(** The router of a new server, behind its middleware. *)
(* src: internal/api/server.go 31-63 NewServer *)
Definition NewServer (c : Checker) (registry : Registry) (cfg : Config) : handler :=
  SecureHeaders (RequestID (on_net Now) (Logger (on_net Now) (Recovery (no_panic (strip
    (dispatch "" (routes c registry cfg))))))).

End Server.

(** * Lemmas *)

(** ** What a client without a session can change *)

Section Gate.
Context {S C N : Type} {SO : StorageOps S} `{SL : !StorageLaws S SO} {EN : Env N}.

Abbreviation world := (World S C N).
Abbreviation handler := (Handler (W := world)).

(** After a reading of the clock. *)
Definition ticked (w : world) : world := mkWorld (w_store w) (w_cache w) (Now (w_net w)).2.

(** Authentication is enabled, and the request has no cookie that is a session
    of the configured user at the time of the request: at its first three
    readings of the clock, of which the gate's is one (the others name the
    request and start the timing of the log).  An expired session is none. *)
Definition unauthenticated (w : world) (r : Request) : Prop :=
  authEnabled (sAuth (settings_of w)) = true ∧
  ∀ cookie (j : nat), cookie_of r SessionCookie = Some cookie → (j ≤ 2)%nat →
    ParseSession (sSessionSecret (settings_of w)) cookie (clock (Nat.iter j ticked w)) ≠
      Some (authUsername (sAuth (settings_of w))).

(** At most one check is added, and at most a missing signing secret is set. *)
Definition public_change (w w' : world) : Prop :=
  healthy (w_store w') ∧ ∃ settings checks,
    view (w_store w') = set_checks (set_settings (view (w_store w)) settings) checks ∧
    (settings = abs_settings (view (w_store w)) ∨
     sSessionSecret (settings_of w) = "" ∧
     ∃ x, settings = Some (set_sSessionSecret (settings_of w) x)) ∧
    (checks = abs_checks (view (w_store w)) ∨
     ∃ k, checks = <[cID k := k]> (abs_checks (view (w_store w)))).

Lemma view_unchanged (a : AbsStore) :
  a = set_checks (set_settings a (abs_settings a)) (abs_checks a).
Proof. by destruct a. Qed.

Lemma public_same (w w' : world) : same_store w w' → public_change w w'.
Proof.
  intros [Hh Hv]. split; [done|]. eexists _, _. rewrite Hv. split; [apply view_unchanged|]. auto.
Qed.

Lemma public_from (w w1 w' : world) : same_store w w1 → public_change w1 w' → public_change w w'.
Proof.
  intros Hs. pose proof (same_store_settings _ _ Hs) as He. destruct Hs as [_ Hv].
  unfold public_change. by rewrite Hv, He.
Qed.

Lemma public_check (w w' : world) k : healthy (w_store w') →
  view (w_store w') = set_checks (view (w_store w)) (<[cID k := k]> (abs_checks (view (w_store w)))) →
  public_change w w'.
Proof.
  intros Hh Hv. split; [done|]. eexists _, _. split; [|split; [by left|right; by exists k]].
  rewrite Hv. by destruct (view (w_store w)).
Qed.

(** A handler through which no more can be changed, before anything is sent. *)
Definition keeps (h : handler) : Prop := ∀ (r : Request) (w : world) rw,
  rwBody rw = [] → healthy (w_store w) → admitted w r = false →
  wp (h r) (λ _ st, public_change w st.1) (w, rw).

(** A handler that only reads the store. *)
Definition reads (h : handler) : Prop := ∀ (r : Request) (w : world) rw,
  healthy (w_store w) → wp (h r) (λ _ st, same_store w st.1) (w, rw).

Lemma reads_keeps h : reads h → keeps h.
Proof.
  intros Hr r w rw _ Hh _. eapply wp_mono; [|by apply Hr]. intros [] st. apply public_same.
Qed.

(** A handler that touches only the response. *)
Definition silent (h : handler) : Prop := ∀ r (w : world) rw, (h r (w, rw)).2.1 = w.

Lemma silent_reads h : silent h → reads h.
Proof.
  intros Hs r w rw Hh. specialize (Hs r w rw). unfold wp. destruct (h r (w, rw)) as [[] [w' rw']].
  simpl in *. by subst w'.
Qed.

Lemma admitted_cookies (w : world) r r' :
  rqCookies r' = rqCookies r → admitted w r' = admitted w r.
Proof. unfold admitted, cookie_of. by intros ->. Qed.

Lemma unauthenticated_admitted (j : nat) (w w' : world) r :
  unauthenticated w r → (j ≤ 2)%nat → same_store w w' → w_net w' = w_net (Nat.iter j ticked w) →
  admitted w' r = false.
Proof.
  intros [He Hc] Hj Hw Hn. unfold admitted. rewrite (same_store_settings w w' Hw), He. simpl.
  destruct (cookie_of r SessionCookie) as [c|]; [|done].
  apply bool_decide_eq_false_2. unfold clock. rewrite Hn. by apply Hc.
Qed.

Lemma deny_silent apiMode : silent (deny apiMode).
Proof.
  intros r w rw. unfold deny. destruct apiMode; [done|]. unfold Redirect.
  cbv [mbind M_bind mret M_ret]. simpl. destruct (String.eqb (rqMethod r) "GET"); [done|].
  by destruct (String.eqb (rqMethod r) "HEAD").
Qed.

(** The gate keeps everything out. *)
Lemma gate_keeps apiMode h : keeps (RequireAuth apiMode h).
Proof.
  intros r w rw _ Hh Hu. destruct (RequireAuth_run apiMode h r w rw Hh) as (w' & Hw' & Hrun).
  unfold wp. rewrite Hrun, Hu.
  pose proof (deny_silent apiMode r w' rw) as Hd.
  destruct (deny apiMode r (w', rw)) as [[] [w2 rw2]]. simpl in Hd |- *. subst w2.
  by apply public_same.
Qed.

Lemma dispatch_keeps `{MX : Mux} prefix routes :
  (∀ x, x ∈ routes → keeps x.2) → keeps (dispatch prefix routes).
Proof.
  intros Hr r w rw Hb Hh Hu. unfold dispatch.
  assert (∀ code message, wp (plain_error code message) (λ _ st, public_change w st.1) (w, rw)) as Hp.
  { intros code message. by apply public_same. }
  destruct (mux prefix routes.*1 r) as [i params| |]; [|apply Hp|by apply public_same].
  destruct (routes !! i) as [[x h]|] eqn:Ei; [|apply Hp].
  apply (Hr (x, h)); [by eapply list_elem_of_lookup_2|done|done|].
  by rewrite (admitted_cookies w r).
Qed.

Lemma wp_set_headers (h : RW → RW) {A} (m : M (world * RW) A) Q (w : world) rw :
  wp m Q (w, h rw) → wp (_ ← on_rw h; m) Q (w, rw).
Proof. intros H. by apply wp_bind, wp_on_rw. Qed.

Lemma CORS_keeps origin h : keeps h → keeps (CORS origin h).
Proof.
  intros Hk r w rw Hb Hh Hu. unfold CORS. cbv zeta. do 4 apply wp_set_headers.
  destruct (String.eqb (rqMethod r) "OPTIONS"); [by apply public_same|by apply Hk].
Qed.

End Gate.

(** ** The public handlers *)

Section Public.
Context `{D : DnsConsts} `{U : Unicode} {R : MapRange}.
Context {S C N : Type} {SO : StorageOps S} `{SL : !StorageLaws S SO} {CO : CacheOps C}
  {EN : Env N} `{EO : !EnvOk N EN} {CL : ClientOps N}
  {J : Codec string ResolverResult} {NO : Notifier N} {A2 : Argon2} {V : Validator}
  {G : GG} {P : GoFPDF} {WS : WebSocket} {MX : Mux} {WL : WebLibs}
  {BL : BodyDecode loginRequest} {BU : BodyDecode updateSettingsRequest}
  {BT : BodyDecode createTokenRequest} {BS : BodyDecode scheduleRequest}
  {BC : BodyDecode NotificationChannel} {BM : BodyDecode monitorRequest}
  {BCk : BodyDecode apiCheckRequest} {BLk : BodyDecode apiLookupRequest}
  {BTr : BodyDecode apiTraceRequest} {BRv : BodyDecode ReverseRequest}.
Context (Hok : ∀ k : Check, time_ok (cCreatedAt k) → okCheck k)
  (Hoks : ∀ s : Settings, okSettings s).

Abbreviation world := (World S C N).

Lemma Check_keeps sched c req (r : Request) (w : world) rw : healthy (w_store w) →
  wp (out ← on_world (Checker_Check sched c req); checked r out)
    (λ _ st, public_change w st.1) (w, rw).
Proof.
  intros Hh. apply wp_bind. unfold wp at 1, on_world.
  pose proof (Check_adds sched c req w Hok Hh) as Hc. cbn [fst snd].
  destruct (Checker_Check sched c req w) as [out w1]. cbn [snd] in Hc.
  assert (public_change w w1) as Hw1.
  { destruct Hc as [Hh1 [Hv|[k Hv]]]; [by apply public_same|by eapply public_check]. }
  destruct out as [[k|] [e|]]; exact Hw1.
Qed.

Lemma PostCheck_keeps sched c : keeps (S := S) (C := C) (N := N) (PostCheck sched c).
Proof.
  intros r w rw _ Hh _. unfold PostCheck. pose proof (public_same w w (same_store_refl w Hh)).
  destruct (decode_body (rqBody r)) as [req|]; [|done].
  destruct (validate_struct _); [done|]. destruct (negb _); [done|]. by apply Check_keeps.
Qed.

Lemma PostReverse_keeps sched c : keeps (S := S) (C := C) (N := N) (PostReverse sched c).
Proof.
  intros r w rw _ Hh _. unfold PostReverse. pose proof (public_same w w (same_store_refl w Hh)).
  destruct (decode_body (rqBody r)) as [req|]; [|done].
  destruct (validate_struct _); [done|]. destruct (toPTRName _); [by apply Check_keeps|done].
Qed.

Lemma StreamCheck_keeps acts written c baseURL : keeps (S := S) (C := C) (N := N) (StreamCheck acts written c baseURL).
Proof.
  intros r w rw Hb Hh _.
  destruct (ws_Accept (if String.eqb baseURL "" then [] else [baseURL]) r) eqn:Hws.
  { unfold StreamCheck. rewrite Hws. by apply (public_same w w). }
  eapply wp_mono; [|by apply (StreamCheck_run Hok acts written c baseURL r w rw)].
  intros [] st [_ [Hh' [[Hv _]|(k & received & rest & tail & Hv & _)]]];
    [by apply public_same|by eapply public_check].
Qed.

Lemma PostLookup_reads c : reads (S := S) (C := C) (N := N) (PostLookup c).
Proof.
  intros r w rw Hh. unfold PostLookup. pose proof (same_store_refl w Hh).
  destruct (decode_body (rqBody r)) as [req|]; [|done].
  destruct (validate_struct _); [done|].
  apply wp_bind. unfold wp at 1, on_world. cbn [fst snd].
  set (lreq := mkLookupRequest _ _ _ _).
  assert (same_store w (Lookup c lreq w).2) as Hl.
  { unfold Lookup. destruct (String.eqb _ _); [done|]. destruct (negb _); [done|].
    cbv [mbind M_bind mret M_ret].
    assert (same_store w (lookup_resolver c lreq w).2) as Hr.
    { unfold lookup_resolver. destruct (String.eqb _ _); [done|].
      destruct (Get _ _) as [res|]; [|done]. cbv [mbind M_bind mret M_ret].
      pose proof (disabledResolverSet_store c w Hh) as Hd.
      by destruct (disabledResolverSet c w) as [disabled w1]. }
    destruct (lookup_resolver c lreq w) as [[res|e] w1]; [|done].
    unfold on_net. by destruct (Query _ _ _ (w_net w1)). }
  destruct (Lookup c lreq w) as [[res|e] w1]; exact Hl.
Qed.

Lemma PostTrace_reads c : reads (S := S) (C := C) (N := N) (PostTrace c).
Proof.
  intros r w rw Hh. unfold PostTrace. pose proof (same_store_refl w Hh).
  destruct (decode_body (rqBody r)) as [req|]; [|done].
  destruct (validate_struct _); [done|]. destruct (negb _); [done|].
  apply wp_bind, wp_env. by destruct (Trace.Checker_Trace _ _ _ _).1.
Qed.

Lemma GetCheck_reads : reads (S := S) (C := C) (N := N) GetCheck_handler.
Proof.
  intros r w rw Hh. apply wp_bind, wp_store.
  destruct (GetCheck_law (URLParam r "id") _ Hh) as (s' & -> & Hh' & Hv).
  cbn [fst snd]. set (w1 := mkWorld s' (w_cache w) (w_net w)).
  assert (same_store w w1) as Hw1 by done.
  destruct (abs_get _ _) as [k|e]; [exact Hw1|].
  unfold store_failed. destruct (Is e ErrNotFound); exact Hw1.
Qed.

Lemma Readyz_reads : reads (S := S) (C := C) (N := N) Readyz.
Proof.
  intros r w rw Hh. apply wp_bind, wp_store.
  by destruct (ListChecks_law 1 0 _ Hh (okPage_nonneg 1 0 ltac:(lia) ltac:(lia))) as (s' & l & -> & Hh' & Hv & _).
Qed.

Lemma Export_reads fuel : reads (S := S) (C := C) (N := N) (λ r, _ ← ExportCheck fuel r; mret tt).
Proof. intros r w rw Hh. apply wp_bind. by apply ExportCheck_store. Qed.

Lemma Session_reads : reads (S := S) (C := C) (N := N) Session_handler.
Proof.
  intros r w rw Hh. apply wp_bind, wp_settings; [done|]. intros w1 Hw1 _. apply wp_bind.
  destruct (negb _); [by apply wp_ret|]. destruct (cookie_of _ _); [|by apply wp_ret].
  apply wp_bind, wp_env, wp_ret. destruct (_ ≫= _); exact Hw1.
Qed.

(** A login changes at most the missing secret. *)
Lemma Login_keeps : keeps (S := S) (C := C) (N := N) Login.
Proof.
  intros r w rw _ Hh _. unfold Login. pose proof (public_same w w (same_store_refl w Hh)).
  destruct (decode_body (rqBody r)) as [req|]; [|done].
  apply wp_bind, wp_settings; [done|]. intros w1 Hw1 _.
  pose proof (public_same w w1 Hw1) as Hp1.
  destruct (negb _); [done|]. destruct (_ || _); [done|].
  set (s := settings_of w). apply wp_bind. unfold ensure_secret.
  assert (∀ (s' : Settings) (w2 : world), public_change w w2 →
    wp (t1 ← env_op Now; t2 ← env_op Now;
        _ ← on_rw (rw_set_cookie (mkCookie SessionCookie
              (SignSession (sSessionSecret s') (authUsername (sAuth s')) sessionTTL t1) "/" true 0
              (t2 + sessionTTL)));
        WriteJSON StatusOK_http (mkSessionResponse true true (authUsername (sAuth s'))))
      (λ _ st, public_change w st.1) (w2, rw)) as Hend.
  { intros s' w2 Hw2. apply wp_bind, wp_env, wp_bind, wp_env. exact Hw2. }
  destruct (String.eqb_spec (sSessionSecret s) "") as [He|He]; cbn [negb];
    [|by apply wp_ret, Hend].
  apply wp_bind, wp_env. destruct (GenerateToken _) as [secret|e]; [|by apply wp_bind].
  apply wp_bind, wp_save_settings; [by destruct Hw1|apply Hoks|]. intros w2 Hh2 Hv2 _.
  apply wp_ret, Hend. split; [done|]. cbn [w_store] in Hv2. destruct Hw1 as [_ Hv1].
  exists (Some (set_sSessionSecret s secret)), (abs_checks (view (w_store w))).
  split; [|split; [right|by left]].
  - by rewrite Hv2, Hv1.
  - split; [done|]. by exists secret.
Qed.

(** ** The whole server *)

Context (sched : nat → nat) (acts : list action) (written fuel : nat) (info : Info)
  (OpenAPISpec : string).

Lemma silent_keeps (h : Handler (W := world)) : silent h → keeps h.
Proof. intros. by apply reads_keeps, silent_reads. Qed.

Lemma page_routes_keep x :
  x ∈ page_routes (S := S) (C := C) (N := N) OpenAPISpec → keeps x.2.
Proof.
  intros Hx. unfold page_routes in Hx. rewrite !elem_of_cons, elem_of_nil in Hx.
  destruct_or?; subst x; try done; cbn [snd]; first [by apply silent_keeps|apply gate_keeps].
Qed.

Lemma public_routes_keep c registry cfg x :
  x ∈ public_routes (S := S) (C := C) (N := N) sched acts written fuel info c registry cfg →
  keeps x.2.
Proof.
  intros Hx. unfold public_routes in Hx. rewrite !elem_of_cons, elem_of_nil in Hx.
  destruct_or?; subst x; try done; cbn [snd];
    first [by apply silent_keeps | apply PostCheck_keeps | apply StreamCheck_keeps
      | apply PostReverse_keeps | apply Login_keeps | apply reads_keeps].
  - apply Readyz_reads.
  - apply silent_reads. intros r w rw. unfold GetResolver. by destruct (Get _ _).
  - apply GetCheck_reads.
  - apply Export_reads.
  - apply PostLookup_reads.
  - apply PostTrace_reads.
  - apply Session_reads.
Qed.

Lemma gated_routes_keep c x :
  x ∈ gated_routes (S := S) (C := C) (N := N) sched c → keeps x.2.
Proof. intros ([y h] & -> & _)%list_elem_of_fmap. apply gate_keeps. Qed.

Lemma routes_keep c registry cfg x :
  x ∈ routes (S := S) (C := C) (N := N) sched acts written fuel info OpenAPISpec c registry cfg →
  keeps x.2.
Proof.
  unfold routes. rewrite !elem_of_app, list_elem_of_singleton. intros [Hx|[->|Hx]].
  - by apply page_routes_keep.
  - apply CORS_keeps, dispatch_keeps. intros y [Hy|Hy]%elem_of_app;
      [by eapply public_routes_keep|by eapply gated_routes_keep].
  - destruct (MetricsEnabled _); [|by apply elem_of_nil in Hx].
    apply list_elem_of_singleton in Hx as ->. by apply silent_keeps.
Qed.

Lemma NewServer_keeps c registry cfg (r : Request) (w : world) :
  healthy (w_store w) → unauthenticated w r →
  wp (NewServer sched acts written fuel info OpenAPISpec c registry cfg r)
    (λ _ st, public_change w st.1) (w, fresh_rw).
Proof.
  intros Hh Hu. unfold NewServer, SecureHeaders. do 5 apply wp_set_headers.
  set (rw := rw_set_header _ _ _). assert (rwBody rw = []) as Hb by done. clearbody rw.
  assert (∀ (w1 : world) rw, same_store w w1 → admitted (ticked w1) r = false → rwBody rw = [] →
    wp (Logger (on_net Now) (Recovery (no_panic (strip (dispatch "" (routes sched acts written fuel
          info OpenAPISpec c registry cfg))))) r)
      (λ _ st, public_change w st.1) (w1, rw)) as Hrest.
  { intros w1 rw1 Hw1 Hu1 Hb1. apply wp_bind, wp_env. do 2 apply wp_bind. apply wp_on_rw, wp_bind, wp_bind.
    unfold no_panic, strip. apply wp_bind. eapply wp_mono; [|apply dispatch_keeps].
    - intros [] st Hst. apply wp_ret, wp_ret. do 3 apply wp_bind. apply wp_env, wp_bind.
      cbn [fst]. eapply public_from; [exact Hw1|exact Hst].
    - intros x Hx. by eapply routes_keep.
    - done.
    - by destruct Hw1.
    - etransitivity; [by apply (admitted_cookies _ r)|exact Hu1]. }
  unfold RequestID.
  apply wp_bind. destruct (String.eqb _ _).
  - apply wp_bind, wp_env, wp_ret, wp_set_headers.
    apply Hrest; [done|by apply (unauthenticated_admitted 2 w); [|lia|..]|done].
  - apply wp_ret, wp_set_headers.
    apply Hrest; [done|by apply (unauthenticated_admitted 1 w); [|lia|..]|done].
Qed.

End Public.

(** * Properties *)

(** C1: with authentication enabled, a client without a session that is valid at
    the time of its request (none, another user's, or an expired one) changes
    next to nothing, whatever it sends and whichever way the router, the
    goroutines and the connection behave: a request to the server leaves every
    setting, token, schedule, monitor and changelog entry as it is, removes no
    check, adds at most one, and sets at most a signing secret that was
    missing.  And whenever the router picks a route of the gated group, the
    answer is 401 and the store is as it was. *)
Theorem server_gated `{D : DnsConsts} `{U : Unicode} {R : MapRange} {S C N} {SO : StorageOps S}
    `{SL : !StorageLaws S SO} {CO : CacheOps C} {EN : Env N} `{EO : !EnvOk N EN} {CL : ClientOps N}
    {J : Codec string ResolverResult} {NO : Notifier N} {A2 : Argon2} {V : Validator}
    {G : GG} {P : GoFPDF} {WS : WebSocket} {MX : Mux} {WL : WebLibs}
    {BL : BodyDecode loginRequest} {BU : BodyDecode updateSettingsRequest}
    {BT : BodyDecode createTokenRequest} {BS : BodyDecode scheduleRequest}
    {BC : BodyDecode NotificationChannel} {BM : BodyDecode monitorRequest}
    {BCk : BodyDecode apiCheckRequest} {BLk : BodyDecode apiLookupRequest}
    {BTr : BodyDecode apiTraceRequest} {BRv : BodyDecode ReverseRequest}
    sched acts written fuel info spec c registry cfg (r : Request) (w : World S C N)
    (Hok : ∀ k : Check, time_ok (cCreatedAt k) → okCheck k) (Hoks : ∀ s : Settings, okSettings s)
    (Hh : healthy (w_store w)) (Hu : unauthenticated w r) :
  public_change w (respond (NewServer sched acts written fuel info spec c registry cfg) r w).2 ∧
  ∀ i params,
    let public := public_routes sched acts written fuel info c registry cfg in
    mux "/api/v1" (public ++ gated_routes (SO := SO) sched c).*1 r = Found i params →
    (length public ≤ i < length (public ++ gated_routes (SO := SO) sched c))%nat →
    rqMethod r ≠ "OPTIONS" →
    let '(rw, w') := respond (api_routes sched acts written fuel info c registry cfg) r w in
    rwStatus rw = 401 ∧ same_store w w'.
Proof.
  split.
  { pose proof (NewServer_keeps Hok Hoks sched acts written fuel info spec c registry cfg r w Hh Hu)
      as H.
    unfold wp in H. unfold respond. by destruct (NewServer _ _ _ _ _ _ _ _ _ r _) as [[] [w' rw]]. }
  intros i params public Hmux [Hlo Hhi] Hm. apply respond_wp. cbn [fst snd].
  unfold api_routes, CORS. cbv zeta. do 4 apply wp_set_headers.
  apply String.eqb_neq in Hm as ->. unfold dispatch. fold public. rewrite Hmux.
  match goal with |- wp (match ?o with _ => _ end) _ _ => destruct o as [[x h]|] eqn:Hx end.
  2:{ destruct (lookup_lt_is_Some_2 _ _ Hhi) as [y Hy]. by pose proof (eq_trans (eq_sym Hx) Hy). }
  change ((public ++ gated_routes (SO := SO) sched c) !! i = Some (x, h)) in Hx.
  rewrite lookup_app_r in Hx by done.
  apply list_elem_of_lookup_2, list_elem_of_fmap in Hx as ([y g] & Hxy & _).
  injection Hxy as _ ->. set (rw := rw_set_header _ _ _).
  assert (rwSent rw = None) as Hsent by done. clearbody rw.
  destruct (RequireAuth_run true g (with_params r params) w rw Hh) as (w' & Hw' & Hrun).
  unfold wp. rewrite Hrun, (admitted_cookies w r) by done.
  rewrite (unauthenticated_admitted 0 w w r Hu) by (done || lia).
  simpl. split; [|done]. unfold rwStatus. rewrite sent_write. unfold sent_with.
  rewrite sent_write_header. unfold sent_with. simpl. by rewrite Hsent.
Qed.

(** * Witnesses *)

Definition exact_mux : Mux := λ _ table r,
  match list_find (λ p, p = (rqMethod r, rqPath r)) table with
  | Some (i, _) => Found i ∅
  | None => NotFound
  end.

Definition no_web : WebLibs := {|
  StripSlashes p := p; serve_file _ rw := rw; serve_metrics _ rw := rw
|}.

Definition gated_world : World (DB string doc) Cache.noopCache Z := mkWorld demo_db tt 0.

Lemma demo_unauthenticated :
  unauthenticated (SL := sqlite_laws) gated_world (demo_request []).
Proof. split; [by vm_compute|done]. Qed.

Definition demo_config : Config := ckCfg demo_checker.

Lemma server_gated_witness :
  let h := NewServer (D := iana) (U := ascii_only) (R := range_forward)
    (CO := Cache.noop_cache_ops) (CL := tick_client) (J := one_codec) (NO := tick_notifier)
    (A2 := argon2_toy) (V := demo_validator) (G := λ _ _ _, Ok "") (P := λ _, Ok "")
    (WS := demo_socket) (MX := exact_mux) (WL := no_web) (BL := demo_decode)
    (BU := demo_decode_update) (BT := demo_decode_token) (BS := demo_decode_schedule)
    (BC := λ _, None) (BM := demo_decode_monitor) (BCk := λ _, None) (BLk := λ _, None)
    (BTr := λ _, None) (BRv := λ _, None)
    (λ n, n) [] 3 1 (BuildInfo "dev" "none" "unknown") "" demo_checker
    (ckRegistry demo_checker) demo_config in
  public_change (SL := sqlite_laws) gated_world (respond h (demo_request []) gated_world).2.
Proof.
  intros h.
  refine (proj1 (server_gated (D := iana) (U := ascii_only) (R := range_forward) (SL := sqlite_laws)
    (CO := Cache.noop_cache_ops) (EO := tick_env_ok) (CL := tick_client) (J := one_codec)
    (NO := tick_notifier) (A2 := argon2_toy) (V := demo_validator) (G := λ _ _ _, Ok "")
    (P := λ _, Ok "") (WS := demo_socket) (MX := exact_mux) (WL := no_web) (BL := demo_decode)
    (BU := demo_decode_update) (BT := demo_decode_token) (BS := demo_decode_schedule)
    (BC := λ _, None) (BM := demo_decode_monitor) (BCk := λ _, None) (BLk := λ _, None)
    (BTr := λ _, None) (BRv := λ _, None)
    (λ n, n) [] 3 1 (BuildInfo "dev" "none" "unknown") "" demo_checker
    (ckRegistry demo_checker) demo_config (demo_request []) gated_world _ _ _ _)).
  - intros k Hk. by split.
  - done.
  - exact demo_db_healthy.
  - exact demo_unauthenticated.
Defined.
