(* ===== verification/Answers.v ===== *)
(** * Every request is answered once

    Whatever the store, the network and the clock do, a request to the server
    gets one status and at most one body, under the security headers and with a
    request identifier, and the logger writes down the status that was sent
    ([server_answers]).  The exceptions are the stream, whose frames follow the
    switch of protocols, and an export whose drawing does not end.

    [stage d m] says of a computation of a handler that it answers when it
    returns a value [a] with [d a], and sends nothing otherwise; the hint
    database [answers] holds its rules. *)

From S2P Require Import Prelude.
From S2P Require Import GoString.
From S2P Require Import GoFmt.
From S2P Require Import Crypto.
From S2P Require Import DnsTypes.
From S2P Require Import Settings.
From S2P Require Import Session.
From S2P Require Import Env.
From S2P Require Import GoTime.
From S2P Require Import Config.
From S2P Require Import Resolvers.
From S2P Require Import Cache.
From S2P Require Import DnsClient.
From S2P Require Import Storage.
From S2P Require Import Sql.
From S2P Require Import Sqlite.
From S2P Require Import SqlRefine.
From S2P Require Import Summary.
From S2P Require Import Checker.
From S2P Require Import FanOut.
From S2P Require Import Monitor.
From S2P Require Import Stream.
From S2P Require Import Json.
From S2P Require Import Http.
From S2P Require Import Auth.
From S2P Require Import SettingsApi.
From S2P Require Import MonitorsApi.
From S2P Require Import CheckApi.
From S2P Require Import Export.
From S2P Require Import Draw.
From S2P Require Import ExportApi.
From S2P Require Import StreamApi.
From S2P Require Import Server.

Local Open Scope Z_scope.

(** ** Responses *)

(** The headers that the middleware sets and no handler touches, except that
    [http.Error] sets one of them again, to the same value. *)
Definition protected : list string :=
  ["Content-Security-Policy"; "X-Content-Type-Options"; "X-Frame-Options"; "Referrer-Policy";
   "Permissions-Policy"; "X-Request-ID"].

Definition same_protected (h h' : gmap string string) : Prop :=
  Forall (λ k, h' !! k = h !! k ∨ k = "X-Content-Type-Options" ∧ h' !! k = Some "nosniff") protected.

(** Nothing has been sent, and a recorder has its initial status. *)
Definition unsent (rw : RW) : Prop :=
  rwSent rw = None ∧ rwBody rw = [] ∧
  (rwRecorder rw = None ∨ rwRecorder rw = Some 200).

(** Nothing more has been sent. *)
Definition prepared (rw rw' : RW) : Prop :=
  unsent rw' ∧ rwRecorder rw' = rwRecorder rw ∧ same_protected (rwHeader rw) (rwHeader rw').

(** One status, at most one piece of body except after a switch of protocols,
    the protected headers as they were, and the status that was sent in the
    recorder. *)
Definition answered (rw rw' : RW) : Prop :=
  ∃ code header cookies, rwSent rw' = Some (code, header, cookies) ∧
    (length (rwBody rw') ≤ 1 ∨ code = StatusSwitchingProtocols)%nat ∧
    same_protected (rwHeader rw) header ∧
    rwRecorder rw' = (λ _, code) <$> rwRecorder rw.

Lemma same_protected_refl h : same_protected h h.
Proof. apply Forall_forall. by left. Qed.

Lemma same_protected_trans h1 h2 h3 :
  same_protected h1 h2 → same_protected h2 h3 → same_protected h1 h3.
Proof.
  unfold same_protected. rewrite !Forall_forall. intros H1 H2 k Hk.
  destruct (H2 k Hk) as [->|?]; [by apply H1|by right].
Qed.

Lemma same_protected_insert h k v : k ∉ protected → same_protected h (<[k := v]> h).
Proof.
  intros Hk. apply Forall_forall. intros k' Hk'. left. rewrite lookup_insert_ne; [done|]. by intros ->.
Qed.

Lemma same_protected_nosniff h : same_protected h (<["X-Content-Type-Options" := "nosniff"]> h).
Proof.
  apply Forall_forall. intros k _. destruct (decide (k = "X-Content-Type-Options")) as [->|Hk].
  - right. by rewrite lookup_insert_eq.
  - left. by rewrite lookup_insert_ne.
Qed.

Lemma prepared_refl rw : unsent rw → prepared rw rw.
Proof. intros Hu. split; [done|]. split; [done|apply same_protected_refl]. Qed.

Lemma prepared_trans rw1 rw2 rw3 : prepared rw1 rw2 → prepared rw2 rw3 → prepared rw1 rw3.
Proof.
  intros (_ & Hr1 & Hp1) (Hu & Hr2 & Hp2). split; [done|].
  split; [congruence|by eapply same_protected_trans].
Qed.

Lemma prepared_answered rw1 rw2 rw3 : prepared rw1 rw2 → answered rw2 rw3 → answered rw1 rw3.
Proof.
  intros (_ & Hr & Hp) (code & h & cs & Hs & Hb & Hh & Hrec). exists code, h, cs.
  split_and!; [done..|by eapply same_protected_trans|by rewrite Hrec, Hr].
Qed.

(** ** The stages of a handler *)

Section Stages.
Context {W : Type}.

Definition stage {A} (d : A → bool) (m : M (W * RW) A) : Prop := ∀ w rw, unsent rw →
  wp m (λ a st, if d a then answered rw st.2 else prepared rw st.2) (w, rw).

(** Nothing is sent, or an answer. *)
Abbreviation prepares := (stage (λ _, false)).
Abbreviation answers := (stage (λ _, true)).

Lemma stage_ret {A} (d : A → bool) a : d a = false → stage d (mret a).
Proof. intros Hd w rw Hu. apply wp_ret. rewrite Hd. by apply prepared_refl. Qed.

(** What follows an answer returns at once. *)
Lemma stage_bind {A B} (d : A → bool) (d' : B → bool) (m : M (W * RW) A) (f : A → M (W * RW) B) :
  stage d m → (∀ a, d a = false → stage d' (f a)) →
  (∀ a, d a = true → ∃ b, f a = mret b ∧ d' b = true) → stage d' (m ≫= f).
Proof.
  intros Hm Hf Hd w rw Hu. apply wp_bind. eapply wp_mono; [|by apply Hm].
  intros a [w1 rw1] Ha. cbn [fst snd] in Ha. destruct (d a) eqn:E.
  - destruct (Hd a E) as (b & -> & Hb). apply wp_ret. by rewrite Hb.
  - pose proof Ha as [Hu1 _]. eapply wp_mono; [|by apply Hf].
    intros b st Hb. cbv beta in Hb.
    destruct (d' b); [by eapply prepared_answered|by eapply prepared_trans].
Qed.

Lemma stage_then {A B} (d : B → bool) (m : M (W * RW) A) (f : A → M (W * RW) B) :
  prepares m → (∀ a, stage d (f a)) → stage d (m ≫= f).
Proof. intros Hm Hf. by eapply stage_bind. Qed.

(** An answer, and then a value. *)
Lemma stage_value {A B} (d : B → bool) (m : M (W * RW) A) (b : B) :
  answers m → d b = true → stage d (_ ← m; mret b).
Proof. intros Hm Hb. eapply stage_bind; [done|done|]. by exists b. Qed.

Lemma stage_world {A} (m : M W A) : prepares (on_world m).
Proof.
  intros w rw Hu. unfold wp, on_world. simpl. destruct (m w). by apply prepared_refl.
Qed.

Lemma stage_of_rw {A} (f : RW → A) : prepares (of_rw f).
Proof. intros w rw Hu. by apply prepared_refl. Qed.

Lemma stage_set_header k v : k ∉ protected → prepares (on_rw (rw_set_header k v)).
Proof. intros Hk w rw Hu. split; [done|]. split; [done|by apply same_protected_insert]. Qed.

Lemma stage_nosniff : prepares (on_rw (rw_set_header "X-Content-Type-Options" "nosniff")).
Proof. intros w rw Hu. split; [done|]. split; [done|apply same_protected_nosniff]. Qed.

Lemma stage_set_cookie c : prepares (on_rw (rw_set_cookie c)).
Proof. intros w rw Hu. split; [done|]. split; [done|apply same_protected_refl]. Qed.

Lemma stage_log e : prepares (on_rw (rw_log e)).
Proof. intros w rw Hu. split; [done|]. split; [done|apply same_protected_refl]. Qed.

Lemma stage_url_path p : prepares (on_rw (rw_url_path p)).
Proof. intros w rw Hu. split; [done|]. split; [done|apply same_protected_refl]. Qed.

Lemma answered_write_header code rw : unsent rw → answered rw (rw_write_header code rw).
Proof.
  intros (Hs & Hb & Hr). eexists code, _, _. rewrite sent_write_header, body_write_header, Hb.
  unfold sent_with. rewrite Hs. split_and!; [done|left; simpl; lia|apply same_protected_refl|].
  unfold rw_write_header, rw_send. simpl. by rewrite Hs.
Qed.

Lemma answered_write c rw : unsent rw → answered rw (rw_write c rw).
Proof.
  intros (Hs & Hb & Hr). eexists 200, _, _. rewrite sent_write, body_write, Hb.
  unfold sent_with. rewrite Hs. split_and!; [done|left; simpl; lia|apply same_protected_refl|].
  unfold rw_write, rw_send. simpl. rewrite Hs. by destruct Hr as [-> | ->].
Qed.

(** A status and then the only piece of a body. *)
Lemma answered_both code c rw : unsent rw → answered rw (rw_write c (rw_write_header code rw)).
Proof.
  intros Hu. pose proof (answered_write_header code rw Hu) as (code' & h & cs & Hs & _ & Hp & Hr).
  exists code', h, cs. rewrite sent_write. unfold sent_with. rewrite Hs. split_and!; [done| |done|].
  - left. rewrite body_write, body_write_header. destruct Hu as (_ & -> & _). simpl. lia.
  - unfold rw_write, rw_send. simpl. by rewrite Hs.
Qed.

Lemma stage_WriteHeader code : answers (WriteHeader code).
Proof. intros w rw Hu. by apply answered_write_header. Qed.

Lemma stage_write c : answers (on_rw (rw_write c)).
Proof. intros w rw Hu. by apply answered_write. Qed.

Lemma stage_both code c : answers (_ ← on_rw (rw_write_header code); on_rw (rw_write c)).
Proof. intros w rw Hu. by apply answered_both. Qed.

Lemma stage_WriteJSON {A} `{ToJson A} status (v : A) : answers (WriteJSON status v).
Proof.
  unfold WriteJSON. apply stage_then; [by apply stage_set_header, (bool_decide_unpack _)|]. intros _. apply stage_both.
Qed.

Lemma stage_WriteError r status code message : answers (WriteError r status code message).
Proof. apply stage_WriteJSON. Qed.

Lemma stage_Redirect r url code : answers (Redirect r url code).
Proof.
  unfold Redirect. apply stage_then; [by apply stage_set_header, (bool_decide_unpack _)|]. intros _. cbv zeta.
  apply stage_then.
  { destruct (_ || _); [by apply stage_set_header, (bool_decide_unpack _)|by apply stage_ret]. }
  intros _. destruct (String.eqb (rqMethod r) "GET"); [apply stage_both|].
  eapply stage_value; [apply stage_WriteHeader|done].
Qed.

End Stages.

Create HintDb answers.

#[export] Hint Resolve stage_world stage_of_rw stage_set_cookie stage_log stage_url_path
  stage_nosniff stage_WriteHeader stage_write stage_both stage_WriteJSON stage_WriteError stage_Redirect : answers.
#[export] Hint Extern 1 (stage _ (on_rw (rw_set_header _ _))) =>
  apply stage_set_header, (bool_decide_unpack _); reflexivity : answers.

(** Takes a handler apart, step by step. *)
Ltac answers_step :=
  match goal with
  | |- stage _ (mret _) => apply stage_ret; reflexivity
  | |- stage _ (_ ≫= _) =>
      first [ solve [eauto with answers]
            | apply stage_then; [solve [eauto with answers]|intros ?]
            | apply stage_value; [|reflexivity] ]
  | |- stage _ (match ?x with _ => _ end) => destruct x
  | |- stage _ _ => solve [eauto with answers]
  end.

Ltac answers := cbv beta zeta; intros; unfold store_op, env_op; repeat answers_step.

(** A handler that answers every request, whatever happens. *)
Definition always_answers {W} (h : Handler (W := W)) : Prop := ∀ r, stage (λ _, true) (h r).

(** ** The handlers *)

Section Handlers.
Context `{D : DnsConsts} `{U : Unicode} {R : MapRange}.
Context {S C N : Type} {SO : StorageOps S} {CO : CacheOps C} {EN : Env N} {CL : ClientOps N}
  {J : Codec string ResolverResult} {NO : Notifier N} {A2 : Argon2} {V : Validator}
  {G : GG} {P : GoFPDF} {WS : WebSocket}
  {BL : BodyDecode loginRequest} {BU : BodyDecode updateSettingsRequest}
  {BT : BodyDecode createTokenRequest} {BS : BodyDecode scheduleRequest}
  {BC : BodyDecode NotificationChannel} {BM : BodyDecode monitorRequest}
  {BCk : BodyDecode apiCheckRequest} {BLk : BodyDecode apiLookupRequest}
  {BTr : BodyDecode apiTraceRequest} {BRv : BodyDecode ReverseRequest}.

Abbreviation world := (World S C N).
Abbreviation aa := (always_answers (W := world)).

(** *** Replies *)

Lemma stage_internal_error r message :
  stage (λ _, true) (internal_error (S := S) (C := C) (N := N) r message).
Proof. unfold internal_error. answers. Qed.

Lemma stage_invalid_body r : stage (λ _, true) (invalid_body (S := S) (C := C) (N := N) r).
Proof. unfold invalid_body. answers. Qed.

Lemma stage_bad_request r message :
  stage (λ _, true) (bad_request (S := S) (C := C) (N := N) r message).
Proof. unfold bad_request. answers. Qed.

Hint Resolve stage_internal_error stage_invalid_body stage_bad_request : answers.

Lemma stage_store_failed r err missing failed :
  stage (λ _, true) (store_failed (S := S) (C := C) (N := N) r err missing failed).
Proof. unfold store_failed. answers. Qed.

Lemma stage_listed {A} `{ToJson A} r (l : result (list A)) failed :
  stage (λ _, true) (listed (S := S) (C := C) (N := N) r l failed).
Proof. unfold listed. answers. Qed.

Hint Resolve stage_store_failed stage_listed : answers.

Lemma stage_deleted r err missing failed :
  stage (λ _, true) (deleted (S := S) (C := C) (N := N) r err missing failed).
Proof. unfold deleted. answers. Qed.

Lemma stage_deny apiMode r : stage (λ _, true) (deny (S := S) (C := C) (N := N) apiMode r).
Proof. unfold deny. answers. Qed.

Hint Resolve stage_deleted stage_deny : answers.

(** *** Authentication *)

Lemma RequireAuth_answers apiMode next : aa next → aa (RequireAuth apiMode next).
Proof. intros Hn r. pose proof (Hn r). unfold RequireAuth. answers. Qed.

Lemma stage_ensure_secret r s : stage (λ o, negb (bool_decide (is_Some o)))
  (ensure_secret (S := S) (C := C) (N := N) r s).
Proof.
  unfold ensure_secret, env_op, store_op. destruct (negb _); [by apply stage_ret|].
  apply stage_then; [eauto with answers|]. intros buf.
  destruct (GenerateToken buf) as [secret|e]; [|by eapply stage_value; [eauto with answers|]].
  cbv zeta. apply stage_then; [eauto with answers|].
  intros [e|]; [by eapply stage_value; [eauto with answers|]|by apply stage_ret].
Qed.

Lemma Login_answers : aa Login.
Proof.
  intros r. unfold Login, store_op. destruct (decode_body _) as [req|]; [|answers].
  apply stage_then; [eauto with answers|]. intros [s|e]; [|answers].
  destruct (negb _); [answers|]. destruct (_ || _); [answers|].
  eapply stage_bind; [apply stage_ensure_secret| |]; intros [s'|] Hs; try done; [answers|].
  by exists tt.
Qed.

Lemma Session_answers : aa Session_handler.
Proof.
  intros r. unfold Session_handler, store_op, env_op. apply stage_then; [eauto with answers|].
  intros [s|e]; [|answers]. cbv zeta. apply stage_then; answers.
Qed.

Lemma Logout_answers : aa Logout.
Proof. intros r. unfold Logout. answers. Qed.

(** *** Settings, tokens and schedules *)

Lemma GetSettings_answers : aa GetSettings_handler.
Proof. intros r. unfold GetSettings_handler. answers. Qed.

Lemma stage_stable_ids cs : stage (λ _, false) (stable_ids (S := S) (C := C) (N := N) cs).
Proof.
  induction cs as [|c cs IH]; simpl; [by apply stage_ret|].
  apply stage_then; [answers|]. intros id. apply stage_then; [done|]. answers.
Qed.

Lemma stage_password_hash current password :
  stage (λ _, false) (password_hash (S := S) (C := C) (N := N) current password).
Proof. unfold password_hash. answers. Qed.

Hint Resolve stage_stable_ids stage_password_hash : answers.

Lemma UpdateSettings_answers : aa UpdateSettings.
Proof. intros r. unfold UpdateSettings. answers. Qed.

Lemma TestNotification_answers : aa TestNotification.
Proof. intros r. unfold TestNotification. answers. Qed.

Lemma ListTokens_answers : aa ListTokens.
Proof. intros r. unfold ListTokens. answers. Qed.

Lemma CreateToken_answers : aa CreateToken.
Proof. intros r. unfold CreateToken. answers. Qed.

Lemma DeleteToken_answers : aa DeleteToken.
Proof. intros r. unfold DeleteToken. answers. Qed.

Lemma ListSchedules_answers : aa ListSchedules_handler.
Proof. intros r. unfold ListSchedules_handler. answers. Qed.

Lemma DeleteSchedule_answers : aa DeleteSchedule_handler.
Proof. intros r. unfold DeleteSchedule_handler. answers. Qed.

Lemma stage_findSchedule id : stage (λ _, false) (findSchedule (S := S) (C := C) (N := N) id).
Proof. unfold findSchedule. answers. Qed.

Hint Resolve stage_findSchedule : answers.

(** A validation that answers the requests it refuses. *)
Lemma stage_valid {A} (d : A → bool) (m : M (world * RW) bool) (a : A) (f : M (world * RW) A) :
  stage negb m → stage d f → d a = true →
  stage d (valid ← m; if negb valid then mret a else f).
Proof. intros Hm Hf Ha. eapply stage_bind; [done|..]; intros [] Hv; try done. by exists a. Qed.

Lemma stage_schedule_validate req r :
  stage negb (scheduleRequest_validate (S := S) (C := C) (N := N) req r).
Proof. unfold scheduleRequest_validate. answers. Qed.

Lemma stage_monitor_validate req r :
  stage negb (monitorRequest_validate (S := S) (C := C) (N := N) req r).
Proof. unfold monitorRequest_validate. answers. Qed.

Lemma CreateSchedule_answers : aa CreateSchedule.
Proof.
  intros r. unfold CreateSchedule. destruct (decode_body _) as [req|]; [|answers].
  apply stage_valid; [apply stage_schedule_validate|answers|done].
Qed.

Lemma UpdateSchedule_answers : aa UpdateSchedule.
Proof.
  intros r. unfold UpdateSchedule. destruct (decode_body _) as [req|]; [|answers].
  apply stage_valid; [apply stage_schedule_validate|answers|done].
Qed.

(** *** Monitors *)

Lemma ListMonitors_answers : aa ListMonitors_handler.
Proof. intros r. unfold ListMonitors_handler. answers. Qed.

Lemma CreateMonitor_answers : aa CreateMonitor.
Proof.
  intros r. unfold CreateMonitor. destruct (decode_body _) as [req|]; [|answers].
  apply stage_valid; [apply stage_monitor_validate|answers|done].
Qed.

Lemma UpdateMonitor_answers : aa UpdateMonitor.
Proof.
  intros r. unfold UpdateMonitor. destruct (decode_body _) as [req|]; [|answers].
  apply stage_valid; [apply stage_monitor_validate|answers|done].
Qed.

Lemma DeleteMonitor_answers : aa DeleteMonitor_handler.
Proof. intros r. unfold DeleteMonitor_handler. answers. Qed.

Lemma MonitorHistory_answers : aa MonitorHistory.
Proof. intros r. unfold MonitorHistory. answers. Qed.

Lemma RunMonitor_answers {CR : CheckRunner world} : aa RunMonitor.
Proof. intros r. unfold RunMonitor. answers. Qed.

(** *** Checks *)

Lemma stage_checked r out : out ≠ (None, None) →
  stage (λ _, true) (checked (S := S) (C := C) (N := N) r out).
Proof. intros Ho. unfold checked. destruct out as [[k|] [e|]]; [answers..|done]. Qed.

(** A check returns itself or an error. *)
Lemma Check_out sched c req (w : world) : (Checker_Check sched c req w).1 ≠ (None, None).
Proof.
  unfold Checker_Check. destruct (validateRequest req); [done|]. cbv [mbind M_bind mret M_ret].
  destruct (buildResolverList c req w) as [[l|e] w1]; [|done].
  destruct (fanOut _ _ _ _ _ _ w1) as [rs w2]. destruct (now w2) as [t1 w3], (now w3) as [t2 w4].
  destruct (crSave req); [|done].
  match goal with |- context [on_store ?m w4] => by destruct (on_store m w4) end.
Qed.

Lemma stage_check sched c req r :
  stage (λ _, true) (out ← on_world (Checker_Check (S := S) (C := C) (N := N) sched c req);
                     checked r out).
Proof.
  intros w rw Hu. apply wp_bind. unfold wp at 1, on_world. cbn [fst snd].
  pose proof (Check_out sched c req w) as Ho.
  destruct (Checker_Check sched c req w) as [out w1]. by apply stage_checked.
Qed.

Hint Resolve stage_check : answers.

Lemma PostCheck_answers sched c : aa (PostCheck sched c).
Proof. intros r. unfold PostCheck. answers. Qed.

Lemma PostReverse_answers sched c : aa (PostReverse sched c).
Proof. intros r. unfold PostReverse. answers. Qed.

Lemma PostLookup_answers c : aa (PostLookup c).
Proof. intros r. unfold PostLookup. answers. Qed.

Lemma PostTrace_answers c : aa (PostTrace c).
Proof. intros r. unfold PostTrace. answers. Qed.

Lemma GetCheck_answers : aa GetCheck_handler.
Proof. intros r. unfold GetCheck_handler. answers. Qed.

Lemma ListHistory_answers : aa ListHistory.
Proof. intros r. unfold ListHistory. destruct (history_page r). answers. Qed.

Lemma DeleteHistory_answers : aa DeleteHistory.
Proof. intros r. unfold DeleteHistory. answers. Qed.

Lemma GetResolver_answers registry : aa (GetResolver registry).
Proof. intros r. unfold GetResolver. answers. Qed.

Lemma Readyz_answers : aa Readyz.
Proof. intros r. unfold Readyz. answers. Qed.

(** An export answers, or its drawing does not end within its turns. *)
Definition drawing_hangs (fuel : nat) (s : S) : Prop := ∃ id check,
  (GetCheck id s).1 = Ok check ∧ (PNG fuel check = None ∨ SVG fuel check = None).

Lemma stage_attachment check format contentType :
  stage (λ _, false) (attachment (S := S) (C := C) (N := N) check format contentType).
Proof. unfold attachment. answers. Qed.

Lemma stage_rendered r out failed :
  stage (λ _, true) (rendered (S := S) (C := C) (N := N) r out failed).
Proof. unfold rendered. answers. Qed.

Hint Resolve stage_attachment stage_rendered : answers.

Lemma stage_export fuel r :
  stage (λ o, bool_decide (is_Some o)) (ExportCheck (S := S) (C := C) (N := N) fuel r).
Proof. unfold ExportCheck. answers. Qed.

Lemma export_hangs fuel r (w : world) rw :
  (ExportCheck fuel r (w, rw)).1 = None → drawing_hangs fuel (w_store w).
Proof.
  unfold ExportCheck, store_op, on_world, on_store. cbv [mbind M_bind mret M_ret]. cbn [fst snd].
  destruct (GetCheck (URLParam r "id") (w_store w)) as [[check|e] s'] eqn:Hg.
  2:{ by destruct (store_failed _ _ _ _ _). }
  intros Hn. exists (URLParam r "id"), check. rewrite Hg. split; [done|].
  destruct (PNG fuel check) as [png|] eqn:Ep, (SVG fuel check) as [svg|] eqn:Es; auto. exfalso.
  revert Hn. repeat match goal with |- context [String.eqb ?x ?y] => destruct (String.eqb x y) end;
    try done; unfold attachment; cbv [mbind M_bind on_rw]; cbn [fst snd];
    try (by destruct (rendered _ _ _ _)); by destruct (WriteError _ _ _ _ _).
Qed.

(** *** Streams *)

Lemma answered_frames (frames : list json) rw rw' : rwStatus rw' = StatusSwitchingProtocols →
  answered rw rw' → answered rw (foldl (λ rw f, rw_write (CJson f) rw) rw' frames).
Proof.
  revert rw'. induction frames as [|f frames IH]; intros rw' Hst Ha; [done|]. simpl.
  destruct Ha as (code & h & cs & Hs & _ & Hp & Hr).
  assert (rwSent (rw_write (CJson f) rw') = Some (code, h, cs)) as Hs'.
  { rewrite sent_write. unfold sent_with. by rewrite Hs. }
  unfold rwStatus in Hst. rewrite Hs in Hst. subst code. apply IH.
  - unfold rwStatus. by rewrite Hs'.
  - eexists _, _, _. split; [exact Hs'|]. split_and!; [by right|done|].
    unfold rw_write, rw_send. simpl. by rewrite Hs.
Qed.

End Handlers.

(** ** The server *)

(** The file server and the metrics handler of the libraries answer, and so does
    the library of WebSockets when it refuses a handshake. *)
Class WebLibsOk (WL : WebLibs) (WS : WebSocket) : Prop := {
  serve_file_answers : ∀ r rw, unsent rw → answered rw (serve_file r rw);
  serve_metrics_answers : ∀ r rw, unsent rw → answered rw (serve_metrics r rw);
  ws_refusal_answers : ∀ patterns r write rw, ws_Accept patterns r = Some write → unsent rw →
    answered rw (write rw) ∧ (length (rwBody (write rw)) ≤ 1)%nat
}.

Definition handshake_refused {WS : WebSocket} (r : Request) : Prop :=
  ∃ patterns r' write, rqHeader r' = rqHeader r ∧ ws_Accept patterns r' = Some write.

(** The answer of the library is followed by the error envelope: its status is
    not sent but recorded. *)
Definition refused (rw rw' : RW) : Prop :=
  ∃ code header cookies, rwSent rw' = Some (code, header, cookies) ∧
    (length (rwBody rw') ≤ 2)%nat ∧ same_protected (rwHeader rw) header ∧
    rwRecorder rw' = (λ _, StatusBadRequest) <$> rwRecorder rw.

Lemma refused_envelope v rw rw' : answered rw rw' → (length (rwBody rw') ≤ 1)%nat →
  refused rw (json_rw StatusBadRequest v rw').
Proof.
  intros (code & h & cs & Hs & _ & Hp & Hr) Hb. exists code, h, cs.
  assert (∀ c rw, rwSent rw = Some (code, h, cs) → rwSent (rw_write c rw) = Some (code, h, cs)) as Hw
    by (intros c rw1 H1; rewrite sent_write; unfold sent_with; by rewrite H1).
  unfold json_rw. set (rw1 := rw_write_header _ _).
  assert (rwSent rw1 = Some (code, h, cs)) as Hs1
    by (unfold rw1; rewrite sent_write_header; unfold sent_with; simpl; by rewrite Hs).
  split_and!; [by apply Hw| |done|].
  - rewrite body_write. unfold rw1. rewrite body_write_header, length_app. simpl. lia.
  - unfold rw_write, rw_send. rewrite Hs1. unfold rw1, rw_write_header, rw_send. simpl. rewrite Hs.
    simpl. rewrite Hr. by destruct (rwRecorder rw).
Qed.

Lemma prepared_refused rw1 rw2 rw3 : prepared rw1 rw2 → refused rw2 rw3 → refused rw1 rw3.
Proof.
  intros (_ & Hr & Hp) (code & h & cs & Hs & Hb & Hh & Hrec). exists code, h, cs.
  split_and!; [done..|by eapply same_protected_trans|by rewrite Hrec, Hr].
Qed.

Section Server.
Context `{D : DnsConsts} `{U : Unicode} {R : MapRange}.
Context {S C N : Type} {SO : StorageOps S} {CO : CacheOps C} {EN : Env N} {CL : ClientOps N}
  {J : Codec string ResolverResult} {NO : Notifier N} {A2 : Argon2} {V : Validator}
  {G : GG} {P : GoFPDF} {WS : WebSocket} {MX : Mux} {WL : WebLibs} `{WO : !WebLibsOk WL WS}
  {BL : BodyDecode loginRequest} {BU : BodyDecode updateSettingsRequest}
  {BT : BodyDecode createTokenRequest} {BS : BodyDecode scheduleRequest}
  {BC : BodyDecode NotificationChannel} {BM : BodyDecode monitorRequest}
  {BCk : BodyDecode apiCheckRequest} {BLk : BodyDecode apiLookupRequest}
  {BTr : BodyDecode apiTraceRequest} {BRv : BodyDecode ReverseRequest}.
Context (sched : nat → nat) (acts : list action) (written fuel : nat) (info : Info)
  (OpenAPISpec : string).

Abbreviation world := (World S C N).

(** A handler answers, is caught in a drawing, or has found the client refused
    by the library of WebSockets. *)
Definition outcome (r : Request) (s : S) (rw rw' : RW) : Prop :=
  answered rw rw' ∨ prepared rw rw' ∧ drawing_hangs fuel s ∨ refused rw rw' ∧ handshake_refused r.

Lemma outcome_prepared r s rw1 rw2 rw3 :
  prepared rw1 rw2 → outcome r s rw2 rw3 → outcome r s rw1 rw3.
Proof.
  intros Hp [Ha|[[Hp' Hd]|[Hr Hh]]]; [left|right; left|right; right].
  - by eapply prepared_answered.
  - split; [by eapply prepared_trans|done].
  - split; [by eapply prepared_refused|done].
Qed.

Lemma outcome_request r r' s rw rw' : rqHeader r' = rqHeader r →
  outcome r' s rw rw' → outcome r s rw rw'.
Proof.
  intros Hr [Ha|[Hd|[Hf (patterns & r1 & write & H1 & Hw)]]]; [by left|by right; left|right; right].
  split; [done|]. exists patterns, r1, write. by rewrite H1.
Qed.

Definition served (h : Handler (W := world)) : Prop := ∀ r (w : world) rw, unsent rw →
  wp (h r) (λ _ st, outcome r (w_store w) rw st.2) (w, rw).

Lemma always_served h : always_answers h → served h.
Proof. intros Hh r w rw Hu. eapply wp_mono; [|by apply Hh]. by left. Qed.

Lemma served_then {A} (m : M (world * RW) A) (h : Handler) r w rw : unsent rw →
  wp m (λ _ st, prepared rw st.2 ∧ w_store st.1 = w_store w) (w, rw) → served h →
  wp (_ ← m; h r) (λ _ st, outcome r (w_store w) rw st.2) (w, rw).
Proof.
  intros Hu Hm Hh. apply wp_bind. eapply wp_mono; [|exact Hm]. intros _ [w1 rw1] [Hp Hw].
  cbn [fst snd] in Hp, Hw. pose proof Hp as [Hu1 _]. eapply wp_mono; [|by apply (Hh r w1 rw1)].
  intros [] st Ho. eapply outcome_prepared; [exact Hp|]. by rewrite <-Hw.
Qed.

Lemma StreamCheck_served acts' written' c baseURL :
  served (StreamCheck acts' written' c baseURL).
Proof.
  intros r w rw Hu. unfold StreamCheck. cbv zeta.
  destruct (ws_Accept _ r) as [write|] eqn:Hws.
  { apply wp_bind, wp_on_rw. destruct (ws_refusal_answers _ r write rw Hws Hu) as [Ha Hb].
    right; right. split; [by apply refused_envelope|]. by eexists _, r, write. }
  apply wp_bind, wp_on_rw.
  pose proof (answered_write_header StatusSwitchingProtocols rw Hu) as Ha.
  assert (rwStatus (rw_write_header StatusSwitchingProtocols rw) = StatusSwitchingProtocols) as Hst.
  { unfold rwStatus. rewrite sent_write_header. unfold sent_with. by destruct Hu as (-> & _). }
  set (rw1 := rw_write_header _ rw) in *.
  assert (∀ (w1 : world) frames, wp (ws_write written' frames)
    (λ _ st, outcome r (w_store w) rw st.2) (w1, rw1))
    as Hf by (intros; apply wp_on_rw; left; by apply answered_frames).
  destruct (ws_Read r) as [req|]; [|apply Hf]. destruct (_ || _); [apply Hf|].
  apply wp_bind. unfold wp at 1, on_world. cbn [fst snd].
  destruct (Checker_Stream _ _ w) as [[[[total id] s0]|e] w1]; [|apply Hf].
  apply wp_bind. unfold wp at 1. cbn [fst snd]. apply Hf.
Qed.

Lemma static_answers : always_answers (static (S := S) (C := C) (N := N)).
Proof. intros r w rw Hu. by apply serve_file_answers. Qed.

Lemma page_answers path : always_answers (page (S := S) (C := C) (N := N) path).
Proof. intros r. unfold page. apply stage_then; [apply stage_url_path|]. intros _. apply static_answers. Qed.

Lemma export_served : served (λ r, _ ← ExportCheck (S := S) (C := C) (N := N) fuel r; mret tt).
Proof.
  intros r w rw Hu. apply wp_bind. pose proof (stage_export fuel r w rw Hu) as Hs.
  pose proof (export_hangs fuel r w rw) as Hh. unfold wp in Hs |- *.
  destruct (ExportCheck fuel r (w, rw)) as [[[]|] st]; simpl in Hs, Hh; [by left|right; left; auto].
Qed.

Lemma dispatch_served prefix routes :
  (∀ x, x ∈ routes → served x.2) → served (dispatch prefix routes).
Proof.
  intros Hr r. assert (∀ code message, served (λ _, plain_error code message)) as Hp.
  { intros code message. apply always_served. intros r'. unfold plain_error. answers. }
  intros w rw Hu. unfold dispatch. destruct (mux _ _ _) as [i params| |];
    [|by apply (Hp _ _ r)|].
  - destruct (routes !! i) as [[x h]|] eqn:Ei; [|by apply (Hp _ _ r)].
    eapply wp_mono; [|apply (Hr (x, h)); [by eapply list_elem_of_lookup_2|done]].
    intros [] st. by apply outcome_request.
  - left. by apply answered_write_header.
Qed.

Lemma page_routes_answer x :
  x ∈ page_routes (S := S) (C := C) (N := N) OpenAPISpec → always_answers x.2.
Proof.
  intros Hx. unfold page_routes in Hx. rewrite !elem_of_cons, elem_of_nil in Hx.
  destruct_or?; subst; try done; cbn [snd]; first
    [ simple apply static_answers | simple apply page_answers
    | simple apply RequireAuth_answers; simple apply page_answers
    | intros r; unfold SwaggerUI, Spec; answers ].
Qed.

Lemma public_routes_answer c registry cfg x :
  x ∈ public_routes (S := S) (C := C) (N := N) sched acts written fuel info c registry cfg →
  served x.2.
Proof.
  intros Hx. unfold public_routes in Hx. rewrite !elem_of_cons, elem_of_nil in Hx.
  destruct_or?; subst; try done; cbn [snd];
    first [simple apply export_served|simple apply StreamCheck_served|apply always_served; first
    [ simple apply PostCheck_answers | simple apply GetCheck_answers
    | simple apply PostLookup_answers | simple apply PostReverse_answers | simple apply PostTrace_answers
    | simple apply Login_answers | simple apply Logout_answers | simple apply Session_answers | simple apply Readyz_answers
    | simple apply GetResolver_answers
    | intros r; unfold Health, Version, ListResolvers, RecordTypes; answers ]].
Qed.

Lemma gated_routes_answer c x :
  x ∈ gated_routes (S := S) (C := C) (N := N) sched c → always_answers x.2.
Proof.
  unfold gated_routes. intros ([y h] & -> & Hx)%list_elem_of_fmap. apply RequireAuth_answers.
  unfold gated_handlers in Hx. rewrite !elem_of_cons, elem_of_nil in Hx.
  destruct_or?; simplify_eq; cbn [snd]; first
    [ simple apply ListHistory_answers | simple apply DeleteHistory_answers | simple apply GetSettings_answers
    | simple apply UpdateSettings_answers | simple apply TestNotification_answers | simple apply ListTokens_answers
    | simple apply CreateToken_answers | simple apply DeleteToken_answers | simple apply ListSchedules_answers
    | simple apply CreateSchedule_answers | simple apply UpdateSchedule_answers | simple apply DeleteSchedule_answers
    | simple apply ListMonitors_answers | simple apply CreateMonitor_answers | simple apply UpdateMonitor_answers
    | simple apply DeleteMonitor_answers | simple apply MonitorHistory_answers | simple apply RunMonitor_answers ].
Qed.

Lemma api_routes_answer c registry cfg :
  served (api_routes (S := S) (C := C) (N := N) sched acts written fuel info c registry cfg).
Proof.
  assert (served (dispatch "/api/v1" (public_routes sched acts written fuel info c registry cfg ++
    gated_routes sched c))) as Hd.
  { apply dispatch_served. intros x [Hx|Hx]%elem_of_app; [by eapply public_routes_answer|].
    by eapply always_served, gated_routes_answer. }
  assert (served (λ r, if String.eqb (rqMethod r) "OPTIONS" then WriteHeader StatusNoContent
    else dispatch "/api/v1" (public_routes sched acts written fuel info c registry cfg ++
      gated_routes sched c) r)) as Ho.
  { intros r. destruct (String.eqb _ _); [|apply Hd]. intros w rw Hu. left.
    by apply answered_write_header. }
  intros r w rw Hu. unfold api_routes, CORS. cbv zeta.
  assert (∀ k v h, k ∉ protected → served h →
    served (λ r, _ ← on_rw (rw_set_header k v); h r)) as Hset.
  { intros k v h Hk Hh r' w' rw' Hu'. apply served_then; [done| |done].
    split; [|done]. by apply (stage_set_header k v Hk w' rw'). }
  refine (Hset _ _ _ _ (Hset _ _ _ _ (Hset _ _ _ _ (Hset _ _ _ _ Ho))) r w rw Hu);
    apply (bool_decide_unpack _); reflexivity.
Qed.

Lemma routes_answer c registry cfg :
  served (dispatch "" (routes (S := S) (C := C) (N := N) sched acts written fuel info OpenAPISpec
    c registry cfg)).
Proof.
  apply dispatch_served. intros x. unfold routes.
  rewrite !elem_of_app, list_elem_of_singleton. intros [Hx|[->|Hx]].
  - by apply always_served, page_routes_answer.
  - apply api_routes_answer.
  - destruct (MetricsEnabled _); [|by apply elem_of_nil in Hx].
    apply list_elem_of_singleton in Hx as ->. intros r w rw Hu. left.
    by apply serve_metrics_answers.
Qed.

Lemma strip_served h : served h → served (strip h).
Proof.
  intros Hh r w rw Hu. eapply wp_mono; [|by apply Hh]. intros [] st. by apply outcome_request.
Qed.

(** What the logger leaves behind: an entry with the status that was sent, or
    with that of the envelope after a handshake that the library has refused. *)
Definition recorded (r : Request) (code : Z) (rw : RW) : Prop :=
  ∃ entries path status duration, rwLog rw = entries ++ [request_log r path status duration] ∧
    (status = code ∧ (length (rwBody rw) ≤ 1 ∨ code = StatusSwitchingProtocols)%nat ∨
     status = StatusBadRequest ∧ (length (rwBody rw) ≤ 2)%nat ∧ handshake_refused r).

Definition logged (r : Request) (rw rw' : RW) (s : S) : Prop :=
  match rwSent rw' with
  | Some (code, header, _) => same_protected (rwHeader rw) header ∧ recorded r code rw'
  | None => rwBody rw' = [] ∧ drawing_hangs fuel s
  end.

(** The logger around a handler that does not panic. *)
Lemma Logger_logs now (h : Handler (W := world)) (r : Request) (w : world) (rw : RW) :
  unsent rw → (∀ w, w_store (now w).2 = w_store w) → served h →
  wp (Logger now (Recovery (no_panic h)) r) (λ _ st, logged r rw st.2 (w_store w)) (w, rw).
Proof.
  intros (Hs & Hb & _) Hnow Hh. unfold Logger.
  apply wp_bind. unfold wp at 1, on_world. cbn [fst snd].
  pose proof (Hnow w) as Hw1. destruct (now w) as [start w1]. cbn [snd] in Hw1.
  apply wp_bind, wp_of_rw, wp_bind, wp_on_rw. set (rw1 := set_recorder (Some 200) rw).
  assert (unsent rw1) as Hu1 by (split_and!; [done..|by right]).
  apply wp_bind, wp_bind. unfold no_panic. apply wp_bind.
  eapply wp_mono; [|by apply Hh]. intros [] [w2 rw2] Hend. cbn [fst snd] in Hend.
  do 2 apply wp_ret. apply wp_bind, wp_of_rw, wp_bind, wp_of_rw.
  set (path := default _ (rwURLPath rw2)). apply wp_bind. unfold wp at 1, on_world. cbn [fst snd].
  destruct (now w2) as [stop w3]. apply wp_bind, wp_on_rw, wp_on_rw. cbn [fst snd].
  unfold logged, recorded. simpl.
  destruct Hend as [(code & h0 & cs & -> & Hlen & Hp & ->)|[[(Hu2 & _ & _) Hd]|[Hrf Hrefused]]].
  - split; [done|]. eexists _, _, _, _. split; [reflexivity|by left].
  - destruct Hu2 as (-> & -> & _). split; [done|]. by rewrite <-Hw1.
  - destruct Hrf as (code & h0 & cs & -> & Hlen & Hp & ->). split; [done|].
    eexists _, _, _, _. split; [reflexivity|by right].
Qed.

End Server.

(** The headers that every response carries. *)
Definition security_headers : list (string * string) :=
  [("Content-Security-Policy",
    "default-src 'self'; script-src 'self' 'unsafe-inline'; style-src 'self' 'unsafe-inline'; img-src 'self' data:; font-src 'self'");
   ("X-Content-Type-Options", "nosniff"); ("X-Frame-Options", "DENY");
   ("Referrer-Policy", "strict-origin-when-cross-origin");
   ("Permissions-Policy", "geolocation=(), camera=(), microphone=()")].

Lemma security_headers_protected :
  Forall (λ '(k, v), k ∈ protected ∧ k ≠ "X-Request-ID" ∧
    (k = "X-Content-Type-Options" → v = "nosniff")) security_headers.
Proof. repeat apply Forall_cons_2; [by split_and!; [repeat constructor| |]..|apply Forall_nil_2]. Qed.

(** * Properties *)

(** C3: every request to the server is answered exactly once, whatever the
    store, the network, the clock and the router do: with one status under the
    five security headers and a request identifier, which is the one of the
    request when it has one, and with one piece of body at most, unless it
    switched to a WebSocket; and the last entry of the log names that status.
    A handshake that the library refuses is answered twice, by the library and
    by the handler: the client sees the status of the first and the bodies of
    both, and the log names the status of the second, 400.  Only an export of a
    stored check whose drawing does not end is never answered. *)
Theorem server_answers `{D : DnsConsts} `{U : Unicode} {R : MapRange} {S C N} {SO : StorageOps S}
    {CO : CacheOps C} {EN : Env N} {CL : ClientOps N}
    {J : Codec string ResolverResult} {NO : Notifier N} {A2 : Argon2} {V : Validator}
    {G : GG} {P : GoFPDF} {WS : WebSocket} {MX : Mux} {WL : WebLibs} `{WO : !WebLibsOk WL WS}
    {BL : BodyDecode loginRequest} {BU : BodyDecode updateSettingsRequest}
    {BT : BodyDecode createTokenRequest} {BS : BodyDecode scheduleRequest}
    {BC : BodyDecode NotificationChannel} {BM : BodyDecode monitorRequest}
    {BCk : BodyDecode apiCheckRequest} {BLk : BodyDecode apiLookupRequest}
    {BTr : BodyDecode apiTraceRequest} {BRv : BodyDecode ReverseRequest}
    sched acts written fuel info spec c registry cfg (r : Request) (w : World S C N) :
  let '(rw, w') := respond (NewServer sched acts written fuel info spec c registry cfg) r w in
  match rwSent rw with
  | Some (code, header, _) =>
      Forall (λ '(k, v), header !! k = Some v) security_headers ∧
      (∃ id, header !! "X-Request-ID" = Some id ∧
        (header_get r "X-Request-ID" ≠ "" → id = header_get r "X-Request-ID")) ∧
      recorded r code rw
  | None => rwBody rw = [] ∧ drawing_hangs fuel (w_store w)
  end.
Proof.
  apply respond_wp. cbn [fst snd]. unfold NewServer, SecureHeaders. do 5 apply wp_set_headers.
  set (rw0 := rw_set_header _ _ _).
  assert (unsent rw0) as Hu0 by (split_and!; [done..|by left]).
  assert (Forall (λ '(k, v), rwHeader rw0 !! k = Some v) security_headers) as Hsec
    by (repeat constructor). clearbody rw0.
  assert (∀ id (w1 : World S C N), w_store w1 = w_store w →
    (header_get r "X-Request-ID" ≠ "" → id = header_get r "X-Request-ID") →
    wp (_ ← on_rw (rw_set_header "X-Request-ID" id);
        Logger (on_net Now) (Recovery (no_panic (strip (dispatch "" (routes sched acts written fuel
          info spec c registry cfg))))) r)
      (λ _ st, match rwSent st.2 with
        | Some (code, header, _) =>
            Forall (λ '(k, v), header !! k = Some v) security_headers ∧
            (∃ id, header !! "X-Request-ID" = Some id ∧
              (header_get r "X-Request-ID" ≠ "" → id = header_get r "X-Request-ID")) ∧
            recorded r code st.2
        | None => rwBody st.2 = [] ∧ drawing_hangs fuel (w_store w)
        end) (w1, rw0)) as Hrest.
  { intros id w1 Hw1 Hid. apply wp_set_headers. rewrite <-Hw1.
    eapply wp_mono; [|apply (Logger_logs fuel); [done|by apply on_net_store|]].
    2:{ apply strip_served, routes_answer. }
    intros [] st Hl. unfold logged in Hl. destruct (rwSent st.2) as [[[code h] cs]|]; [|done].
    destruct Hl as (Hp & Hlog). unfold same_protected in Hp. rewrite Forall_forall in Hp.
    split_and!; [| |done].
    - rewrite Forall_forall in Hsec |- *. intros [k v] Hkv. specialize (Hsec _ Hkv). simpl in Hsec.
      destruct (proj1 (Forall_forall _ _) security_headers_protected _ Hkv) as (Hk & Hid' & Hno).
      destruct (Hp k Hk) as [->|[-> ->]]; [|by rewrite Hno]. simpl. by rewrite lookup_insert_ne.
    - exists id. split; [|done]. destruct (Hp "X-Request-ID") as [->|[[=] _]]; [by repeat constructor|].
      simpl. apply lookup_insert_eq. }
  unfold RequestID. apply wp_bind. destruct (String.eqb_spec (header_get r "X-Request-ID") "") as [He|He].
  - apply wp_bind, wp_env, wp_ret. by apply Hrest.
  - by apply wp_ret, Hrest.
Qed.

(** * Witnesses *)

(** A web where every file is empty. *)
Definition empty_web : WebLibs := {|
  StripSlashes p := p;
  serve_file _ := rw_write (CText "");
  serve_metrics _ := rw_write (CText "")
|}.

Lemma empty_web_ok : WebLibsOk empty_web demo_socket.
Proof. split; [intros r rw Hu; by apply answered_write..|done]. Qed.

Lemma server_answers_witness :
  let h := NewServer (D := iana) (U := ascii_only) (R := range_forward)
    (CO := Cache.noop_cache_ops) (CL := tick_client) (J := one_codec) (NO := tick_notifier)
    (A2 := argon2_toy) (V := demo_validator) (G := λ _ _ _, Ok "") (P := λ _, Ok "")
    (WS := demo_socket) (MX := exact_mux) (WL := empty_web) (BL := demo_decode)
    (BU := demo_decode_update) (BT := demo_decode_token) (BS := demo_decode_schedule)
    (BC := λ _, None) (BM := demo_decode_monitor) (BCk := λ _, None) (BLk := λ _, None)
    (BTr := λ _, None) (BRv := λ _, None)
    (λ n, n) [] 3 1 (BuildInfo "dev" "none" "unknown") "" demo_checker
    (ckRegistry demo_checker) demo_config in
  match rwSent (respond h (demo_request []) gated_world).1 with
  | Some (code, header, _) => Forall (λ '(k, v), header !! k = Some v) security_headers
  | None => False
  end.
Proof.
  intros h.
  pose proof (server_answers (D := iana) (U := ascii_only) (R := range_forward)
    (CO := Cache.noop_cache_ops) (CL := tick_client) (J := one_codec)
    (NO := tick_notifier) (A2 := argon2_toy) (V := demo_validator) (G := λ _ _ _, Ok "")
    (P := λ _, Ok "") (WS := demo_socket) (MX := exact_mux) (WL := empty_web) (WO := empty_web_ok)
    (BL := demo_decode) (BU := demo_decode_update) (BT := demo_decode_token)
    (BS := demo_decode_schedule) (BC := λ _, None) (BM := demo_decode_monitor) (BCk := λ _, None)
    (BLk := λ _, None) (BTr := λ _, None) (BRv := λ _, None)
    (λ n, n) [] 3 1 (BuildInfo "dev" "none" "unknown") "" demo_checker
    (ckRegistry demo_checker) demo_config (demo_request []) gated_world) as H.
  fold h in H. assert (rwSent (respond h (demo_request []) gated_world).1 ≠ None) as Hsent
    by (by vm_compute).
  destruct (respond h (demo_request []) gated_world) as [rw w']. simpl in *.
  destruct (rwSent rw) as [[[code header] cs]|]; [|done]. exact (proj1 H).
Defined.

(** The library refuses a request that is no handshake: the client sees 426 and
    two bodies, the log has 400. *)
Definition refusing_socket : WebSocket := {|
  ws_Accept _ _ := Some (λ rw, rw_write (CText "upgrade required") (rw_write_header 426 rw));
  ws_Read _ := None
|}.

Example refused_handshake :
  let '(rw, _) := respond (Logger (on_net Now) (Recovery (no_panic (StreamCheck (D := iana)
    (U := ascii_only) (R := range_forward) (CO := Cache.noop_cache_ops) (CL := tick_client)
    (J := one_codec) (WS := refusing_socket) [] 3 demo_checker "")))) (demo_request []) gated_world in
  rwStatus rw = 426 ∧ length (rwBody rw) = 2%nat ∧
  (list_to_map (lgAttrs (default (mkLogRecord "" "" []) (head (rwLog rw))))
    : gmap string json) !! "status" = Some (JInt 400).
Proof. vm_compute. by repeat split. Qed.
