(* ===== verification/Concurrent.v ===== *)
(** * The server under concurrent requests

    Everything that the server stores stays valid ([Valid.store_valid]) however
    the store calls of concurrent requests are interleaved; and what the
    interleaving can break: a request that reads a record, works for a while and
    writes the record back undoes whatever happened to it in between. *)

From S2P Require Import Prelude.
From S2P Require Import GoString.
From S2P Require Import GoFmt.
From S2P Require Import Crypto.
From S2P Require Import DnsTypes.
From S2P Require Import Settings.
From S2P Require Import Session.
From S2P Require Import Env.
From S2P Require Import GoTime.
From S2P Require Import Config.
From S2P Require Import Resolvers.
From S2P Require Import Cache.
From S2P Require Import DnsClient.
From S2P Require Import Storage.
From S2P Require Import Interleave.
From S2P Require Import Sql.
From S2P Require Import Sqlite.
From S2P Require Import SqlRefine.
From S2P Require Import Summary.
From S2P Require Import Checker.
From S2P Require Import FanOut.
From S2P Require Import Monitor.
From S2P Require Import Stream.
From S2P Require Import Json.
From S2P Require Import Http.
From S2P Require Import Auth.
From S2P Require Import SettingsApi.
From S2P Require Import MonitorsApi.
From S2P Require Import CheckApi.
From S2P Require Import Draw.
From S2P Require Import ExportApi.
From S2P Require Import StreamApi.
From S2P Require Import Valid.
From S2P Require Import Server.

Local Open Scope Z_scope.

(** ** The server keeps what its handlers keep *)

Section Routes.
Context `{D : DnsConsts} `{U : Unicode} {R : MapRange}.
Context {S C N : Type} {SO : StorageOps S} {CO : CacheOps C} {EN : Env N} `{EO : !EnvOk N EN}
  {CL : ClientOps N} {JC : Codec string ResolverResult} {NO : Notifier N} {A2 : Argon2}
  {V : Validator} `{VO : !ValidatorOk V} {G : GG} {PDF : GoFPDF} {WS : WebSocket} {MX : Mux}
  {WL : WebLibs}
  {BL : BodyDecode loginRequest} {BU : BodyDecode updateSettingsRequest}
  {BT : BodyDecode createTokenRequest} {BS : BodyDecode scheduleRequest}
  {BC : BodyDecode NotificationChannel} {BM : BodyDecode monitorRequest}
  {BCk : BodyDecode apiCheckRequest} {BLk : BodyDecode apiLookupRequest}
  {BTr : BodyDecode apiTraceRequest} {BRv : BodyDecode ReverseRequest}
  (keep : Time → Time) (I : AbsStore → Prop) (A : op → Prop) (K : S → Prop)
  `{SK : !StoreKeeps SO keep I A K} `{HS : !SettingsInv I A} `{HSc : !ScheduleInv A}
  `{HT : !TokenInv A} `{HM : !MonitorInv I A} `{HC : !CheckInv A}.
Context (sched : nat → nat) (acts : list action) (written fuel : nat) (info : Info)
  (OpenAPISpec : string).

Abbreviation world := (World S C N).
Abbreviation P := (beside (calm (C := C) (N := N) K)).
Abbreviation hk := (handler_keeps (C := C) (N := N) K).

Lemma dispatch_calm prefix routes :
  (∀ x, x ∈ routes → hk x.2) → hk (dispatch prefix routes).
Proof.
  intros Hr r. unfold dispatch, plain_error, WriteHeader.
  destruct (mux _ _ _) as [i params| |]; [|keeps..].
  destruct (routes !! i) as [[x h]|] eqn:Ei; [|keeps].
  apply (Hr (x, h)). by eapply list_elem_of_lookup_2.
Qed.

(** One of finitely many routes. *)
Ltac each_route Hx :=
  rewrite !elem_of_cons, elem_of_nil in Hx; destruct_or?; subst; try done; cbn [snd].

Lemma static_calm : hk static.
Proof. intros r. unfold static. keeps. Qed.

Lemma page_calm path : hk (page path).
Proof. intros r. unfold page, static. keeps. Qed.

Lemma page_routes_calm x :
  x ∈ page_routes (S := S) (C := C) (N := N) OpenAPISpec → hk x.2.
Proof.
  intros Hx. unfold page_routes in Hx. each_route Hx; first
    [ apply static_calm | apply page_calm | (eapply RequireAuth_calm; first [eassumption|apply page_calm])
    | intros r; unfold SwaggerUI, Spec; keeps ].
Qed.

Lemma public_routes_calm c registry cfg x :
  x ∈ public_routes (S := S) (C := C) (N := N) sched acts written fuel info c registry cfg →
  hk x.2.
Proof.
  intros Hx. unfold public_routes in Hx. each_route Hx; first
    [ eapply PostCheck_calm | eapply StreamCheck_calm | eapply GetCheck_calm | eapply Export_calm
    | eapply PostLookup_calm | eapply PostReverse_calm | eapply PostTrace_calm | eapply Login_calm
    | eapply Logout_calm | eapply Session_calm | eapply Readyz_calm
    | intros r; unfold Health, Version, ListResolvers, GetResolver, RecordTypes; keeps ]; done.
Qed.

Lemma gated_handlers_calm c x :
  x ∈ gated_handlers (S := S) (C := C) (N := N) sched c → hk x.2.
Proof.
  pose proof (checker_runner_calm keep I A K sched c (C := C)) as RC.
  intros Hx. unfold gated_handlers in Hx. each_route Hx; first
    [ eapply ListHistory_calm | eapply DeleteHistory_calm | eapply GetSettings_calm
    | eapply UpdateSettings_calm | eapply TestNotification_calm | eapply ListTokens_calm
    | eapply CreateToken_calm | eapply DeleteToken_calm | eapply ListSchedules_calm
    | eapply CreateSchedule_calm | eapply UpdateSchedule_calm | eapply DeleteSchedule_calm
    | eapply ListMonitors_calm | eapply CreateMonitor_calm | eapply UpdateMonitor_calm
    | eapply DeleteMonitor_calm | eapply MonitorHistory_calm | eapply RunMonitor_calm ]; done.
Qed.

Lemma api_routes_calm c registry cfg :
  hk (api_routes (S := S) (C := C) (N := N) sched acts written fuel info c registry cfg).
Proof.
  intros r. unfold api_routes, CORS, WriteHeader.
  assert (hk (dispatch "/api/v1" (public_routes sched acts written fuel info c registry cfg ++
    gated_routes sched c))) as Hd.
  { apply dispatch_calm. intros x [Hx|Hx]%elem_of_app; [by eapply public_routes_calm|].
    unfold gated_routes in Hx. apply list_elem_of_fmap in Hx as ([y h] & -> & Hy).
    eapply RequireAuth_calm; first [eassumption|by apply (gated_handlers_calm c (y, h))]. }
  pose proof (Hd r). keeps.
Qed.

Lemma NewServer_calm c registry cfg :
  hk (NewServer (S := S) (C := C) (N := N) sched acts written fuel info OpenAPISpec c registry cfg).
Proof.
  intros r. unfold NewServer, SecureHeaders, RequestID, Logger, Recovery, url_path, no_panic, strip.
  assert (hk (dispatch "" (routes sched acts written fuel info OpenAPISpec c registry cfg))) as Hd.
  { apply dispatch_calm. intros x. unfold routes. rewrite !elem_of_app, list_elem_of_singleton.
    intros [Hx|[->|Hx]]; [by apply page_routes_calm|by apply api_routes_calm|].
    destruct (MetricsEnabled _); [|by apply elem_of_nil in Hx].
    apply list_elem_of_singleton in Hx as ->. intros r'. simpl. keeps. }
  assert (∀ r', keeping P (λ _, True) (dispatch "" (routes sched acts written fuel info OpenAPISpec
    c registry cfg) r')) by (intros; apply Hd).
  keeps.
Qed.

End Routes.

#[local] Existing Instance shared_ops.

(** ** Requests in flight *)

(** A request with its cache and its part of the environment: the network and
    the clock, the order of its goroutines, the actions and the accepted frames
    of its stream, the turns of its drawing loops. *)
Record in_flight (C N : Type) := mkInFlight {
  fl_request : Request;
  fl_cache : C;
  fl_net : N;
  fl_sched : nat → nat;
  fl_acts : list action;
  fl_written : nat;
  fl_fuel : nat
}.
Arguments mkInFlight {C N}.
Arguments fl_request {C N}.
Arguments fl_cache {C N}.
Arguments fl_net {C N}.
Arguments fl_sched {C N}.
Arguments fl_acts {C N}.
Arguments fl_written {C N}.
Arguments fl_fuel {C N}.

(** What a request does to the store that it shares. *)
Definition serving {S C N} (h : Handler (W := World (shared S) C N)) (r : Request) (c : C) (n : N)
    (sh : shared S) : shared S := w_store (respond h r (mkWorld sh c n)).2.

(** * Properties *)

(** C2: everything that the server stores is valid at any time, however many
    requests it serves at once and however their store calls are interleaved:
    enabled authentication has a user and a password, and every channel an
    identifier; a check has a well-formed name, a known type and the summary of
    its results; a token has a name and a hash; a schedule is one that the
    syntactic check accepts; a monitor is one that the evaluator can run; and
    each is filed under its identifier.  Nor does any request ever read
    anything else. *)
Theorem server_stays_valid `{D : DnsConsts} `{U : Unicode} {R : MapRange} {S C N}
    {SO : StorageOps S} `{SL : !StorageLaws S SO} {CO : CacheOps C} {EN : Env N} `{EO : !EnvOk N EN}
    {CL : ClientOps N} {JC : Codec string ResolverResult} {NO : Notifier N} {A2 : Argon2}
    {V : Validator} `{VO : !ValidatorOk V} {G : GG} {PDF : GoFPDF} {WS : WebSocket} {MX : Mux}
    {WL : WebLibs}
    {BL : BodyDecode loginRequest} {BU : BodyDecode updateSettingsRequest}
    {BT : BodyDecode createTokenRequest} {BS : BodyDecode scheduleRequest}
    {BC : BodyDecode NotificationChannel} {BM : BodyDecode monitorRequest}
    {BCk : BodyDecode apiCheckRequest} {BLk : BodyDecode apiLookupRequest}
    {BTr : BodyDecode apiTraceRequest} {BRv : BodyDecode ReverseRequest}
    info spec c registry cfg (reqs : list (in_flight C N)) (s0 s : S) (seen : list (list S))
    (Hrep : ∀ o a, timely o → op_pre o a)
    (Hs0 : healthy s0 ∧ store_valid (view s0))
    (Hrun : interleaved ((λ f, serving (NewServer (fl_sched f) (fl_acts f) (fl_written f) (fl_fuel f)
        info spec c registry cfg) (fl_request f) (fl_cache f) (fl_net f)) <$> reqs) s0 (s, seen)) :
  (healthy s ∧ store_valid (view s)) ∧
  Forall (Forall (λ s1, healthy s1 ∧ store_valid (view s1))) seen.
Proof.
  refine (interleaved_ok store_valid (allowed store_valid) (λ _ H, H) _ s0 (s, seen) _ Hs0 Hrun).
  apply Forall_fmap, Forall_forall. intros f _ sh Hsh.
  pose proof (shared_keeps store_valid _ (λ _ H, H) (allowed_reading store_valid)) as SK.
  pose proof (valid_SettingsInv Hrep). pose proof (valid_ScheduleInv Hrep).
  pose proof (valid_TokenInv Hrep). pose proof (valid_MonitorInv Hrep).
  pose proof (valid_CheckInv Hrep).
  eapply (keeping_respond (calm (shared_ok store_valid (allowed store_valid)))); [|exact Hsh].
  by eapply NewServer_calm.
Qed.


(** ** Records that are written back *)

Section WriteBack.
Context `{D : DnsConsts} `{U : Unicode} {R : MapRange} {S C N : Type} {SO : StorageOps S}
  `{SL : !StorageLaws S SO} {CO : CacheOps C} {EN : Env N} `{EO : !EnvOk N EN} {CL : ClientOps N}
  {JC : Codec string ResolverResult} {NO : Notifier N}.
Context (Hokm : ∀ x : Monitor, okMonitor x)
  (Hoke : ∀ e : MonitorEvent, time_ok (evTimestamp e) → okEvent e).

(** Any store that works. *)
Definition working : AbsStore → Prop := λ _, True.

(** After a first call that only reads. *)
Lemma after_read (A : op → Prop) o (s : S) (next : list S) :
  (∀ o, reading o → A o) → reading o → healthy s → Forall healthy next →
  shared_ok working A (mkShared s next [o]).
Proof.
  intros HR Ho Hs Hnext. split; [done|]. split; [by eapply Forall_impl|].
  apply Forall_cons_2; [by apply HR|constructor].
Qed.

(** A monitor that is saved is [m] but for its baseline. *)
Definition writes_back (m : Monitor) (o : op) : Prop :=
  allowed working o ∧ ∀ m', o = OSaveMonitor m' →
    mType m = MonitorChange ∧ ∃ e t, m' = set_mExpected m e t.

Lemma writes_back_reading m o : reading o → writes_back m o.
Proof. intros Ho. split; [by apply allowed_reading|]. by intros m' ->. Qed.

Lemma working_keeps m :
  StoreKeeps shared_ops kept working (writes_back m) (shared_ok working (writes_back m)).
Proof. apply shared_keeps; [by intros o []|apply writes_back_reading]. Qed.

(** The calls of a run of [m]. *)
Lemma Run_calls sched c (m : Monitor) (w : World (shared S) C N) :
  shared_ok working (writes_back m) (w_store w) →
  shared_ok working (writes_back m) (w_store (Run (CR := checker_runner sched c) m w).2).
Proof.
  intros Hw. pose proof (working_keeps m) as SK.
  pose proof (checker_runner_calm (SO := shared_ops) (C := C) kept working (writes_back m) _ sched c) as RC.
  assert (∀ e t, mType m = MonitorChange → writes_back m (OSaveMonitor (set_mExpected m e t))) as Hm.
  { intros e t Hty. split; [split; [intros ?; apply Hokm|done]|]. intros m' [= <-]. eauto. }
  assert (∀ ev, time_ok (evTimestamp ev) → writes_back m (OAppendMonitorEvent ev)) as Hev.
  { intros ev Ht. split; [split; [intros ?; by apply Hoke|done]|done]. }
  by destruct (keeping_Run (CR := checker_runner sched c) kept working (writes_back m) _ m Hm Hev w Hw).
Qed.

(** Settings that are saved have the secret of [old], and without a new
    password its hash. *)
Definition saves_secret (old : Settings) (password : string) (o : op) : Prop :=
  allowed working o ∧ ∀ x, o = OSaveSettings x →
    sSessionSecret x = sSessionSecret old ∧
    (password = "" → authPasswordHash (sAuth x) = authPasswordHash (sAuth old)).

Lemma saves_secret_reading old password o : reading o → saves_secret old password o.
Proof. intros Ho. split; [by apply allowed_reading|]. by intros x ->. Qed.

Lemma saving_keeps old password : StoreKeeps shared_ops kept working (saves_secret old password)
  (shared_ok working (saves_secret old password)).
Proof. apply shared_keeps; [by intros o []|apply saves_secret_reading]. Qed.

End WriteBack.

(** C14: a run of a monitor writes the monitor back as it was when the run
    began, but for the baseline: whatever the store holds by the time that the
    check is over (an edited monitor, a disabled one, none because it has been
    deleted) is replaced by it, so that an edit made meanwhile is lost and a
    deleted monitor returns. *)
Theorem Run_writes_back `{D : DnsConsts} `{U : Unicode} {R : MapRange} {S C N}
    {SO : StorageOps S} `{SL : !StorageLaws S SO} {CO : CacheOps C} {EN : Env N} `{EO : !EnvOk N EN}
    {CL : ClientOps N} {JC : Codec string ResolverResult} {NO : Notifier N}
    (Hokm : ∀ x : Monitor, okMonitor x)
    (Hoke : ∀ e : MonitorEvent, time_ok (evTimestamp e) → okEvent e)
    sched c (r : Request) (ca : C) (n : N) (seen : list S) (s : S) (m' : Monitor)
    (Hseen : Forall healthy (seen ++ [s]))
    (Hcall : next_call (serving (RunMonitor (CR := checker_runner sched c)) r ca n) seen s
             = Some (OSaveMonitor m')) :
  (∃ s1 m e t, head (seen ++ [s]) = Some s1 ∧
    abs_monitors (view s1) !! URLParam r "id" = Some m ∧
    mType m = MonitorChange ∧ m' = set_mExpected m e t) ∧
  view (do_op (OSaveMonitor m') s).2 =
    set_monitors (view s) (<[mID m' := m']> (abs_monitors (view s))).
Proof.
  split.
  2:{ apply Forall_app in Hseen as [_ Hs]. apply Forall_cons in Hs as [Hs _].
      by destruct (do_op_correct (OSaveMonitor m') s Hs (Hokm m')) as (? & ? & -> & _ & ? & _). }
  unfold next_call, serving, respond, RunMonitor in Hcall.
  destruct (seen ++ [s]) as [|s1 next] eqn:Es; [by destruct seen|].
  apply Forall_cons in Hseen as [Hs1 Hnext].
  cbv [mbind M_bind on_world] in Hcall. unfold RunByID in Hcall. cbv [mbind M_bind] in Hcall.
  unfold on_store at 1 in Hcall. cbn [GetMonitor shared_ops fst snd w_store w_cache w_net] in Hcall.
  unfold at_call in Hcall. cbn [sh_now sh_next sh_calls head tail default] in Hcall.
  destruct (GetMonitor_law (URLParam r "id") s1 Hs1) as (s2 & Hg & Hh2 & _).
  simpl in Hcall. rewrite Hg in Hcall.
  unfold abs_get in Hcall. destruct (abs_monitors (view s1) !! _) as [m|] eqn:Em.
  2:{ unfold store_failed in Hcall. change (Is ErrNotFound ErrNotFound) with true in Hcall.
      simpl in Hcall. by destruct (length seen) as [|[|?]]. }
  set (sh := mkShared s2 next [OGetMonitor (URLParam r "id")]) in Hcall.
  assert (shared_ok working (writes_back m) sh) as Hsh
    by (by apply after_read; [apply writes_back_reading|..]).
  pose proof (Run_calls Hokm Hoke sched c m (mkWorld sh ca n) Hsh) as (_ & _ & Hc).
  cbv beta iota in Hcall.
  destruct (Run (CR := checker_runner sched c) m (mkWorld sh ca n)) as [[m1 ev] w1]. simpl in Hcall, Hc.
  eapply Forall_lookup_1 in Hc; [|exact Hcall]. destruct Hc as [_ Hc].
  destruct (Hc m' eq_refl) as (Hty & e & t & ->). by exists s1, m, e, t.
Qed.

(** C15: an update of the settings writes back the signing secret, and without
    a new password the password hash, that it read when it began: a secret that
    a login has created meanwhile is replaced, and if there was none before,
    the secret is empty again and the session that the login has just handed
    out is void. *)
Theorem UpdateSettings_writes_back {S C N} {SO : StorageOps S} `{SL : !StorageLaws S SO}
    {EN : Env N} `{EO : !EnvOk N EN} {A2 : Argon2} {BU : BodyDecode updateSettingsRequest}
    (Hoks : ∀ x : Settings, okSettings x)
    (r : Request) req (ca : C) (n : N) (seen : list S) (s : S) (x : Settings)
    (Hseen : Forall healthy (seen ++ [s]))
    (Hbody : decode_body (rqBody r) = Some req)
    (Hcall : next_call (serving UpdateSettings r ca n) seen s = Some (OSaveSettings x)) :
  (∃ s1, head (seen ++ [s]) = Some s1 ∧
    let old := default Default (abs_settings (view s1)) in
    sSessionSecret x = sSessionSecret old ∧
    (usPassword req = "" → authPasswordHash (sAuth x) = authPasswordHash (sAuth old))) ∧
  view (do_op (OSaveSettings x) s).2 = set_settings (view s) (Some x).
Proof.
  split.
  2:{ apply Forall_app in Hseen as [_ Hs]. apply Forall_cons in Hs as [Hs _].
      by destruct (do_op_correct (OSaveSettings x) s Hs (Hoks x)) as (? & ? & -> & _ & ? & _). }
  unfold next_call in Hcall.
  destruct (seen ++ [s]) as [|s1 next] eqn:Es; [by destruct seen|].
  apply Forall_cons in Hseen as [Hs1 Hnext]. exists s1. split; [done|]. cbv zeta.
  set (old := default Default (abs_settings (view s1))).
  set (A := saves_secret old (usPassword req)). pose proof (saving_keeps old (usPassword req)) as SK.
  enough (wp (UpdateSettings r) (λ _ st, shared_ok working A (w_store st.1))
    (mkWorld (mkShared s (s1 :: next) []) ca n, fresh_rw)) as H.
  { unfold wp in H. unfold serving, respond in Hcall.
    destruct (UpdateSettings r _) as [[] [w' rw]]. destruct H as (_ & _ & Hc).
    eapply Forall_lookup_1 in Hc; [|exact Hcall]. by apply Hc. }
  destruct (GetSettings_law s1 Hs1) as (s2 & Hg & Hh2 & _).
  assert (GetSettings (mkShared s (s1 :: next) []) = (Ok old, mkShared s2 next [OGetSettings])) as Hfirst
    by (simpl; unfold at_call; simpl; by rewrite Hg).
  unfold UpdateSettings. rewrite Hbody. apply wp_bind, wp_store. cbn [w_store]. rewrite Hfirst.
  cbn [fst snd].
  assert (shared_ok working A (mkShared s2 next [OGetSettings])) as Hsh
    by (by apply after_read; [apply saves_secret_reading|..]).
  eapply wp_mono; [|eapply (keeping_wp (beside (calm (shared_ok working A))) (λ _, True)); [|exact Hsh]].
  { intros [] st [Hst _]. exact Hst. }
  eapply (keeping_bind _ (λ h, ∀ hash, h = Ok hash → usPassword req = "" → hash = authPasswordHash (sAuth old))).
  { unfold password_hash, env_op. destruct (String.eqb_spec (usPassword req) "") as [He|He].
    - apply keeping_ret. by intros hash [= <-].
    - apply (keeping_bind _ (λ _, True)); [keeps|]. intros salt _. by apply keeping_ret. }
  intros [hash|e] Hhash; [|unfold internal_error; keeps]. destruct (_ && _); [keeps|].
  apply (keeping_bind _ (λ _, True)).
  { eapply keeping_mono; [apply keeping_stable_ids|done]. }
  intros cs _. cbv zeta. eapply keeping_bind; [|unfold internal_error; keeps].
  eapply keeping_world, (keeping_write _ _ _ _ (OSaveSettings _)); [done|].
  split; [split; [intros ?; apply Hoks|done]|]. intros y [= <-]. split; [done|]. by apply Hhash.
Qed.

(** * Witnesses *)

(** A router that compares whole paths. *)
Definition path_mux : Mux := λ prefix table r,
  let key := if String.eqb prefix "" then ("*", "/api/v1/*")
             else (rqMethod r, TrimPrefix (rqPath r) prefix) in
  match list_find (λ p, p = key) table with
  | Some (i, _) => Found i ∅
  | None => NotFound
  end.

Definition post_request (path : string) : Request := mkRequest "POST" path ∅ [] ∅ ∅ "".

Definition demo_server sched acts written fuel
    : Handler (W := World (shared (DB string doc)) Cache.noopCache Z) :=
  NewServer (D := iana) (U := ascii_only) (R := range_forward)
    (CO := Cache.noop_cache_ops) (CL := tick_client) (J := one_codec) (NO := tick_notifier)
    (A2 := argon2_toy) (V := demo_validator) (G := λ _ _ _, Ok "") (P := λ _, Ok "")
    (WS := demo_socket) (MX := path_mux) (WL := no_web) (BL := demo_decode)
    (BU := demo_decode_update) (BT := demo_decode_token) (BS := demo_decode_schedule)
    (BC := λ _, None) (BM := demo_decode_monitor) (BCk := λ _, None) (BLk := λ _, None)
    (BTr := λ _, None) (BRv := λ _, None)
    sched acts written fuel (BuildInfo "dev" "none" "unknown") "" demo_checker
    (ckRegistry demo_checker) demo_config.

(** A monitor and a token are created at the same time. *)
Definition demo_flight (path : string) : in_flight Cache.noopCache Z :=
  mkInFlight (post_request path) tt 0 (λ n, n) [] 3 1.

Definition demo_requests : list (shared (DB string doc) → shared (DB string doc)) :=
  (λ f, serving (demo_server (fl_sched f) (fl_acts f) (fl_written f) (fl_fuel f))
          (fl_request f) (fl_cache f) (fl_net f))
    <$> [demo_flight "/api/v1/settings/monitors"; demo_flight "/api/v1/settings/tokens"].

Lemma demo_db_represents (o : op) a : timely o → op_pre (O := sqlite_ops) o a.
Proof. destruct o; simpl; try done; intros H; try exact H; by repeat split. Qed.

Ltac by_call i :=
  eapply (request_call demo_requests i); [reflexivity|reflexivity|vm_compute; reflexivity].

Lemma server_stays_valid_witness : ∃ s seen,
  interleaved demo_requests fresh_db (s, seen) ∧ store_valid (D := iana) (R := range_forward) (view s).
Proof.
  assert (∃ x, interleaved demo_requests fresh_db x ∧ length <$> x.2 = [2%nat; 1%nat])
    as ([s seen] & Hx & _).
  { eexists. split.
    - eapply rtc_l; [by_call 0%nat|]. eapply rtc_l; [by_call 1%nat|].
      eapply rtc_l; [by_call 0%nat|]. apply rtc_refl.
    - reflexivity. }
  exists s, seen. split; [exact Hx|].
  refine (proj2 (proj1 (server_stays_valid (D := iana) (U := ascii_only) (R := range_forward)
    (SL := sqlite_laws) (CO := Cache.noop_cache_ops) (EO := tick_env_ok) (CL := tick_client)
    (JC := one_codec) (NO := tick_notifier) (A2 := argon2_toy) (V := demo_validator)
    (VO := demo_validator_ok) (G := λ _ _ _, Ok "") (PDF := λ _, Ok "") (WS := demo_socket)
    (MX := path_mux) (WL := no_web) (BL := demo_decode) (BU := demo_decode_update)
    (BT := demo_decode_token) (BS := demo_decode_schedule) (BC := λ _, None)
    (BM := demo_decode_monitor) (BCk := λ _, None) (BLk := λ _, None) (BTr := λ _, None)
    (BRv := λ _, None) (BuildInfo "dev" "none" "unknown") "" demo_checker
    (ckRegistry demo_checker) demo_config
    [demo_flight "/api/v1/settings/monitors"; demo_flight "/api/v1/settings/tokens"]
    fresh_db s seen demo_db_represents _ Hx))).
  split; [exact fresh_db_healthy|]. exact empty_valid.
Defined.

(** A change monitor without a baseline is deleted while its check runs. *)
Definition new_monitor : Monitor :=
  mkMonitor "m1" "web" MonitorChange "a.example" "A" [] "" "" true 0 0.

Definition monitor_db : DB string doc := (SaveMonitor new_monitor fresh_db).2.

Definition run_request : Request :=
  mkRequest "POST" "/" ∅ [] ∅ {[ "id" := "m1" ]} "".

Definition demo_run : shared (DB string doc) → shared (DB string doc) :=
  serving (RunMonitor (R := range_forward) (CR := checker_runner (D := iana) (U := ascii_only)
    (R := range_forward) (CO := Cache.noop_cache_ops) (CL := tick_client) (J := one_codec)
    (λ n, n) demo_checker) (NO := tick_notifier)) run_request tt 0.

Definition demo_update_run : shared (DB string doc) → shared (DB string doc) :=
  serving (UpdateSettings (C := Cache.noopCache) (A2 := argon2_toy) (BU := demo_decode_update))
    run_request tt 0.

Lemma monitor_db_healthy : healthy monitor_db.
Proof.
  unfold monitor_db. by destruct (SaveMonitor_law new_monitor fresh_db fresh_db_healthy I)
    as (s & -> & Hh & _).
Qed.

Lemma Run_writes_back_witness : ∃ m',
  next_call demo_run [monitor_db; monitor_db] fresh_db = Some (OSaveMonitor m') ∧
  view (do_op (OSaveMonitor m') fresh_db).2 =
    set_monitors (view fresh_db) (<[mID m' := m']> (abs_monitors (view fresh_db))).
Proof.
  eexists. split; [vm_compute; reflexivity|].
  refine (proj2 (Run_writes_back (D := iana) (U := ascii_only) (R := range_forward)
    (SL := sqlite_laws) (CO := Cache.noop_cache_ops) (EO := tick_env_ok) (CL := tick_client)
    (JC := one_codec) (NO := tick_notifier) (λ _, I) ltac:(by intros e He) (λ n, n) demo_checker run_request tt
    0 [monitor_db; monitor_db] fresh_db _ _ _)).
  - exact (Forall_cons_2 _ _ _ monitor_db_healthy (Forall_cons_2 _ _ _ monitor_db_healthy
      (Forall_cons_2 _ _ _ fresh_db_healthy (Forall_nil_2 _)))).
  - vm_compute. reflexivity.
Defined.

(** A login has set a secret since the update began. *)
Definition login_db : DB string doc := (SaveSettings (set_sSessionSecret Default "s3cret") fresh_db).2.

Lemma login_db_healthy : healthy login_db.
Proof.
  unfold login_db. by destruct (SaveSettings_law (set_sSessionSecret Default "s3cret") fresh_db
    fresh_db_healthy I) as (s & -> & Hh & _).
Qed.

Lemma UpdateSettings_writes_back_witness : ∃ x,
  next_call demo_update_run [fresh_db] login_db = Some (OSaveSettings x) ∧ sSessionSecret x = "".
Proof.
  eexists. split; [vm_compute; reflexivity|].
  assert (∀ x, okSettings (O := sqlite_ops (blob := doc)) x) as Hoks by done.
  destruct (UpdateSettings_writes_back (SL := sqlite_laws) (EO := tick_env_ok) (A2 := argon2_toy)
    (BU := demo_decode_update) (C := Cache.noopCache) Hoks run_request demo_update tt 0 [fresh_db]
    login_db _ (Forall_cons_2 _ _ _ fresh_db_healthy (Forall_cons_2 _ _ _ login_db_healthy (Forall_nil_2 _)))
    eq_refl ltac:(vm_compute; reflexivity)) as [(s1 & [= <-] & Hs & _) _].
  rewrite Hs. reflexivity.
Defined.
