(* ===== verification/RateLimit.v ===== *)
(** * The rate limiter

    [internal/ratelimit/]: a token bucket for each client, in the [float64]
    arithmetic of the code, the eviction of stale buckets and the middleware.
    Every operation holds the mutex from its start to its end, so that each is
    one step on the buckets; [time.Now] is read inside. *)

From Stdlib Require Import Floats.SpecFloat.
From S2P Require Import Prelude.
From S2P Require Import GoString.
From S2P Require Import DnsTypes.
From S2P Require Import GoTime.
From S2P Require Import Session.
From S2P Require Import Export.
From S2P Require Import Float64.
From S2P Require Import Http.

Local Open Scope Z_scope.

(* src: internal/ratelimit/ratelimit.go bucket *)
Record bucket := mkBucket { tokens : float64; lastRefill : Time }.

(* src: internal/ratelimit/ratelimit.go Limiter *)
Record Limiter := mkLimiter {
  buckets : gmap string bucket;
  ratePerMin : Z;
  burst : Z
}.

(** Without the goroutine, which runs [evictStale] every five minutes. *)
(* src: internal/ratelimit/ratelimit.go New *)
Definition New (ratePerMin burst : Z) : Limiter := mkLimiter ∅ ratePerMin burst.

Definition minute : Z := 60 * 10 ^ 9.

(** [time.Duration.Minutes]. *)
Definition Minutes (d : Z) : float64 :=
  (of_int (Z.quot d minute) + of_int (Z.rem d minute) / of_int minute)%f64.

Definition set_bucket (key : string) (b : bucket) (l : Limiter) : Limiter :=
  mkLimiter (<[key := b]> (buckets l)) (ratePerMin l) (burst l).

(* src: internal/ratelimit/ratelimit.go Limiter.Allow *)
Definition Allow (key : string) (now : Time) (l : Limiter) : bool * Limiter :=
  let b := default (mkBucket (of_int (burst l)) now) (buckets l !! key) in
  let elapsed := Minutes (now - lastRefill b) in
  let t := (tokens b + elapsed * of_int (ratePerMin l))%f64 in
  let t := if fltb (of_int (burst l)) t then of_int (burst l) else t in
  if fltb t (of_int 1) then (false, set_bucket key (mkBucket t now) l)
  else (true, set_bucket key (mkBucket (t - of_int 1)%f64 now) l).

(* src: internal/ratelimit/ratelimit.go Limiter.Reset *)
Definition Reset (key : string) (l : Limiter) : Limiter :=
  mkLimiter (delete key (buckets l)) (ratePerMin l) (burst l).

(* src: internal/ratelimit/ratelimit.go Limiter.evictStale *)
Definition evictStale (now : Time) (l : Limiter) : Limiter :=
  let cutoff := now - 5 * minute in
  mkLimiter (filter (λ p, cutoff ≤ lastRefill p.2) (buckets l)) (ratePerMin l) (burst l).

(** ** Middleware *)

(** The remote address is an argument: no other handler reads it. *)
(* src: internal/ratelimit/middleware.go clientIP *)
Definition clientIP (r : Request) (RemoteAddr : string) : string :=
  let xff := header_get r "X-Forwarded-For" in
  if negb (String.eqb xff "") then TrimSpace (default "" (head (Split "," xff))) else
  let xri := header_get r "X-Real-IP" in
  if negb (String.eqb xri "") then xri else
  match LastIndex ":" RemoteAddr with
  | Some idx => stake idx RemoteAddr
  | None => RemoteAddr
  end.

(** The limiter is a part [lim] of the world, the clock an action on it. *)
(* src: internal/ratelimit/middleware.go Middleware *)
Definition Middleware {W} (now : M W Time) (get : W → Limiter) (set : Limiter → W → W)
    (remote : string) (headers : bool) (next : Handler (W := W)) : Handler (W := W) := λ r,
  let key := clientIP r remote in
  anon ← on_world (λ w, (get w, w));
  _ ← (if headers then
         _ ← on_rw (rw_set_header "X-RateLimit-Limit" (Itoa (ratePerMin anon)));
         t ← on_world now;
         on_rw (rw_set_header "X-RateLimit-Reset" (Itoa (Unix (t + minute))))
       else mret tt);
  t ← on_world now;
  allowed ← on_world (λ w, let '(ok, l) := Allow key t (get w) in (ok, set l w));
  if allowed : bool then next r else
  _ ← (if headers then
         _ ← on_rw (rw_set_header "X-RateLimit-Remaining" "0");
         on_rw (rw_set_header "Retry-After" "60")
       else mret tt);
  _ ← on_rw (rw_set_header "Content-Type" "text/plain; charset=utf-8");
  _ ← on_rw (rw_set_header "X-Content-Type-Options" "nosniff");
  _ ← on_rw (rw_write_header StatusTooManyRequests);
  on_rw (rw_write (CText (xml "{'error':{'code':'RATE_LIMIT','message':'Too many requests.'}}" +:+
    String newline ""))).

(** A sequence of requests: keys and instants. *)
Fixpoint allow_all (reqs : list (string * Time)) (l : Limiter) : list bool * Limiter :=
  match reqs with
  | [] => ([], l)
  | (key, now) :: reqs' =>
      let '(ok, l) := Allow key now l in
      let '(oks, l) := allow_all reqs' l in (ok :: oks, l)
  end.

(** * Lemmas *)

(** The arithmetic of a bucket that is not refilled: whole tokens are counted
    exactly, and an elapsed time of zero adds nothing at any rate. *)
Definition counts_exactly (n : Z) : bool :=
  bool_decide ((of_int n + of_int 0)%f64 = of_int n) &&
  bool_decide ((of_int (n + 1) - of_int 1)%f64 = of_int n) &&
  negb (fltb (of_int (n + 1)) (of_int 1)).

(** The bursts and rates for which this is checked. *)
Definition max_burst : Z := 60.
Definition max_rate : Z := 6000.

Lemma counts_exactly_upto : all_below counts_exactly (max_burst + 1) = true.
Proof. vm_compute. reflexivity. Qed.

Lemma counts_spec n : 0 ≤ n ≤ max_burst →
  (of_int n + of_int 0)%f64 = of_int n ∧ (of_int (n + 1) - of_int 1)%f64 = of_int n ∧
  fltb (of_int (n + 1)) (of_int 1) = false.
Proof.
  intros Hn. pose proof (all_below_ok _ _ n counts_exactly_upto ltac:(lia)) as H.
  unfold counts_exactly in H. rewrite !andb_true_iff, negb_true_iff in H.
  destruct H as [[H1%bool_decide_eq_true_1 H2%bool_decide_eq_true_1] H3]. done.
Qed.

Lemma order_upto : all_below (λ n, all_below (λ m, negb (fltb (of_int n) (of_int m))) (n + 1))
  (max_burst + 1) = true.
Proof. vm_compute. reflexivity. Qed.

Lemma order_spec m n : 0 ≤ m ≤ n → n ≤ max_burst → fltb (of_int n) (of_int m) = false.
Proof.
  intros Hm Hn. pose proof (all_below_ok _ _ n order_upto ltac:(lia)) as H. cbv beta in H.
  pose proof (all_below_ok _ _ m H ltac:(lia)) as H'. by apply negb_true_iff in H'.
Qed.

Lemma no_refill_upto :
  all_below (λ r, bool_decide ((of_int 0 * of_int r)%f64 = of_int 0)) (max_rate + 1) = true.
Proof. vm_compute. reflexivity. Qed.

Lemma no_refill r : 0 ≤ r ≤ max_rate → (of_int 0 * of_int r)%f64 = of_int 0.
Proof.
  intros Hr. pose proof (all_below_ok _ _ r no_refill_upto ltac:(lia)) as H.
  by apply bool_decide_eq_true_1 in H.
Qed.

(** The tokens that a key has at hand: a full bucket when it has none. *)
Definition has_tokens (key : string) (now : Time) (m : Z) (l : Limiter) : Prop :=
  default (mkBucket (of_int (burst l)) now) (buckets l !! key) = mkBucket (of_int m) now.

(** Within an instant, a request takes one whole token, or finds none. *)
Lemma Allow_token key now m l :
  0 ≤ m ≤ burst l → burst l ≤ max_burst → 0 ≤ ratePerMin l ≤ max_rate →
  has_tokens key now m l →
  Allow key now l =
    (bool_decide (0 < m), set_bucket key (mkBucket (of_int (Z.max 0 (m - 1))) now) l).
Proof.
  intros Hm Hb Hr Ht. unfold has_tokens in Ht. unfold Allow. cbv zeta. rewrite !Ht.
  cbn [lastRefill tokens].
  rewrite Z.sub_diag. change (Minutes 0) with (of_int 0). rewrite (no_refill _ Hr).
  destruct (counts_spec m ltac:(lia)) as (Ha & _ & _). rewrite Ha, order_spec by lia.
  destruct (decide (m = 0)) as [->|Hne]; [reflexivity|].
  destruct (counts_spec (m - 1) ltac:(lia)) as (_ & Hs & Hc). rewrite Z.sub_add in Hs, Hc.
  rewrite Hc, Hs, bool_decide_eq_true_2, Z.max_r by lia. done.
Qed.

Lemma has_tokens_set key now m l b :
  b = mkBucket (of_int m) now → has_tokens key now m (set_bucket key b l).
Proof. intros ->. unfold has_tokens. simpl. by rewrite lookup_insert_eq. Qed.

(** * Properties *)

(** In a burst of requests from one client at one instant, exactly as many
    are let through as the client has tokens (the whole burst size when it is
    new), the first ones; the rest are refused, and no other client's bucket is
    touched. *)
Theorem Allow_burst key now k (m : Z) (l : Limiter)
    (Hm : 0 ≤ m ≤ burst l) (Hb : burst l ≤ 60) (Hr : 0 ≤ ratePerMin l ≤ 6000)
    (Ht : has_tokens key now m l) :
  let '(oks, l') := allow_all (replicate k (key, now)) l in
  oks = replicate (Nat.min k (Z.to_nat m)) true ++ replicate (k - Z.to_nat m) false ∧
  (∀ key', key' ≠ key → buckets l' !! key' = buckets l !! key').
Proof.
  revert m l Hm Hb Hr Ht. induction k as [|k IH]; intros m l Hm Hb Hr Ht; simpl; [done|].
  rewrite (Allow_token key now m) by done.
  set (l1 := set_bucket _ _ l).
  specialize (IH (Z.max 0 (m - 1)) l1 ltac:(simpl; lia) Hb Hr ltac:(by apply has_tokens_set)).
  destruct (allow_all (replicate k (key, now)) l1) as [oks l']. destruct IH as [-> Hother]. split.
  - destruct (decide (m = 0)) as [->|Hne].
    + simpl. by rewrite Nat.min_0_r, Nat.sub_0_r.
    + rewrite bool_decide_eq_true_2 by lia. rewrite Z.max_r by lia.
      replace (Z.to_nat m) with (S (Z.to_nat (m - 1))) by lia. done.
  - intros key' Hne. rewrite Hother by done. simpl. by rewrite lookup_insert_ne.
Qed.

(** * Witnesses *)

Lemma Allow_burst_witness :
  (allow_all (replicate 3 ("192.0.2.1", 10 ^ 18)) (New 60 2)).1 = [true; true; false].
Proof.
  pose proof (Allow_burst "192.0.2.1" (10 ^ 18) 3 2 (New 60 2) ltac:(simpl; lia) ltac:(simpl; lia)
    ltac:(simpl; lia) eq_refl) as H.
  destruct (allow_all _ _) as [oks l']. apply H.
Defined.
