(* ===== verification/Main.v ===== *)
(** * Command line and wiring

    [cmd/dnsmon/main.go]: the listen address, the arguments of the installed
    service, the log level, the choice of the store, the start and the stop of
    the program and the decisions of [main].  Flags are arguments; the
    constructors of libraries, the service manager and the HTTP server are
    parameters. *)

From S2P Require Import Prelude.
From S2P Require Import GoString.
From S2P Require Import GoFmt.
From S2P Require Import DnsTypes.
From S2P Require Import Config.
From S2P Require Import ConfigLoad.
From S2P Require Import Resolvers.
From S2P Require Import Env.
From S2P Require Import Cache.
From S2P Require Import Session.
From S2P Require Import Checker.

Local Open Scope Z_scope.

(** ** Package net *)

(** The position of the first byte [c] of [s]. *)
Fixpoint IndexByte (s : string) (c : ascii) : option nat :=
  match s with
  | "" => None
  | String d s' => if bool_decide (d = c) then Some 0%nat else S <$> IndexByte s' c
  end.

Definition addr_error (why : string) : error := External why false.

(** [net.SplitHostPort]. *)
Definition SplitHostPort (hostport : string) : result (string * string) :=
  match LastIndex ":" hostport with
  | None => Err (addr_error "missing port in address")
  | Some i =>
      let port := sdrop (i + 1) hostport in
      match hostport with
      | String "[" rest =>
          match IndexByte hostport "]" with
          | None => Err (addr_error "missing ']' in address")
          | Some e =>
              if (e + 1 =? String.length hostport)%nat then Err (addr_error "missing port in address")
              else if negb (e + 1 =? i)%nat then
                Err (addr_error (if HasPrefix (sdrop (e + 1) hostport) ":"
                                 then "too many colons in address" else "missing port in address"))
              else if has_char "[" rest then Err (addr_error "unexpected '[' in address")
              else if has_char "]" (sdrop (e + 1) hostport) then
                Err (addr_error "unexpected ']' in address")
              else Ok (stake (e - 1) rest, port)
          end
      | _ =>
          let host := stake i hostport in
          if has_char ":" host then Err (addr_error "too many colons in address")
          else if has_char "[" hostport then Err (addr_error "unexpected '[' in address")
          else if has_char "]" hostport then Err (addr_error "unexpected ']' in address")
          else Ok (host, port)
      end
  end.

(** ** Listen address *)

(* src: cmd/dnsmon/main.go applyPortOverride *)
Definition applyPortOverride (listen : string) (port : Z) : string :=
  if port <=? 0 then listen else
  let host := match SplitHostPort listen with Ok (h, _) => h | Err _ => "" end in
  JoinHostPort host (Itoa port).

(* src: cmd/dnsmon/main.go resolveListen *)
Definition resolveListen `{Unicode} (configured listenFlag : string) (portFlag : Z)
    (portEnv : string) : result string :=
  listen ←
    (if String.eqb portEnv "" then Ok configured else
     let invalid := Err (Errorf ("invalid PORT environment value " +:+ Quote portEnv +:+
       ": must be a positive integer")) in
     match Atoi portEnv with
     | None => invalid
     | Some p => if p <=? 0 then invalid else Ok (applyPortOverride configured p)
     end);
  let listen := if String.eqb listenFlag "" then listen else listenFlag in
  Ok (if portFlag =? 0 then listen else applyPortOverride listen portFlag).

(** ** Service *)

Section Service.
(** [filepath.Abs]. *)
Variable Abs : string → result string.

(* src: cmd/dnsmon/main.go absOrSelf *)
Definition absOrSelf (path : string) : string :=
  match Abs path with Ok abs => abs | Err _ => path end.

(* src: cmd/dnsmon/main.go serviceArguments *)
Definition serviceArguments (cfgFile resolversFile listen : string) (port : Z) (logLevel : string)
    : list string :=
  (if String.eqb cfgFile "" then [] else ["--config"; absOrSelf cfgFile]) ++
  (if String.eqb resolversFile "" then [] else ["--resolvers-file"; absOrSelf resolversFile]) ++
  (if String.eqb listen "" then [] else ["--listen"; listen]) ++
  (if port =? 0 then [] else ["--port"; Itoa port]) ++
  (if String.eqb logLevel "" then [] else ["--log-level"; logLevel]).

End Service.

Inductive level := LevelDebug | LevelInfo | LevelWarn | LevelError.

(** The level, and whether the handler writes text rather than JSON. *)
(* src: cmd/dnsmon/main.go newLogger *)
Definition newLogger (cfg : Config) : level * bool :=
  let l := LogLevel (cfgLog cfg) in
  (if String.eqb l "debug" then LevelDebug else if String.eqb l "warn" then LevelWarn
   else if String.eqb l "error" then LevelError else LevelInfo,
   String.eqb (LogFormat (cfgLog cfg)) "text").

(** ** Start *)

Section Start.
(** The stores that a driver opens, the caches, and the readers of files. *)
Context {DBS L R : Type}.
Variables (sqlite_New postgres_New : string → result DBS)
  (cache_New : CacheConfig → result (AnyCache L R))
  (LoadBuiltin : result (list Resolver))
  (ReadFile : string → result string) (Unmarshal : string → result (list Resolver)).

(** [None] is the store that keeps nothing. *)
(* src: cmd/dnsmon/main.go newStorage *)
Definition newStorage (cfg : Config) : result (option DBS) :=
  let driver := StorageDriver (cfgStorage cfg) in
  if String.eqb driver "sqlite" then Some <$> sqlite_New (DSN (cfgStorage cfg))
  else if String.eqb driver "postgres" then Some <$> postgres_New (DSN (cfgStorage cfg))
  else if String.eqb driver "none" then Ok None
  else Err (Errorf ("unknown storage driver: " +:+ driver)).

(** [http.Server]; its handler is that of [api.NewServer] over the registry. *)
Record HttpServer := mkHttpServer {
  hsAddr : string;
  hsRegistry : Registry;
  hsReadTimeout : Z;
  hsWriteTimeout : Z
}.

(** What the program holds: [None] is a nil field. *)
(* src: cmd/dnsmon/main.go program *)
Record program := mkProgram {
  p_cfg : Config;
  p_httpServer : option HttpServer;
  p_store : option (option DBS);
  p_cacheStore : option (AnyCache L R)
}.

(** The error, and the fields that are set when it returns. *)
(* src: cmd/dnsmon/main.go program.Start *)
Definition Start (p : program) : option error * program :=
  let cfg := p_cfg p in
  match newStorage cfg with
  | Err err => (Some (Wrapf "initialising storage" err), p)
  | Ok store =>
      let p := mkProgram cfg (p_httpServer p) (Some store) (p_cacheStore p) in
      match cache_New (cfgCache cfg) with
      | Err err => (Some (Wrapf "initialising cache" err), p)
      | Ok cacheStore =>
          let p := mkProgram cfg (p_httpServer p) (p_store p) (Some cacheStore) in
          let builtin := match LoadBuiltin with Ok l => l | Err _ => [] end in
          match Reload ReadFile Unmarshal cfg builtin NewRegistry with
          | (Some err, _) => (Some (Wrapf "loading resolvers" err), p)
          | (None, registry) =>
              let s := mkHttpServer (Listen (cfgServer cfg)) registry
                (ReadTimeout (cfgServer cfg)) (WriteTimeout (cfgServer cfg)) in
              (None, mkProgram cfg (Some s) (p_store p) (p_cacheStore p))
          end
      end
  end.

(** The result of [ListenAndServe]. *)
Inductive serve_error := ErrServerClosed | ServeFailed (err : error).

(** Whether the process exits with code 1 when the server ends. *)
(* src: cmd/dnsmon/main.go program.run *)
Definition run (served : option serve_error) (Interactive : bool) : bool :=
  match served with
  | Some (ServeFailed _) => Interactive
  | Some ErrServerClosed | None => false
  end.

Inductive stop_call := Shutdown (timeout : Z) | CloseStore | CloseCache.

(** The calls of a stop, in order; the errors of [Shutdown] are only logged. *)
(* src: cmd/dnsmon/main.go program.Stop *)
Definition Stop (p : program) : list stop_call :=
  (match p_httpServer p with Some _ => [Shutdown (30 * second)] | None => [] end) ++
  (match p_store p with Some _ => [CloseStore] | None => [] end) ++
  (match p_cacheStore p with Some _ => [CloseCache] | None => [] end).

End Start.
Arguments mkProgram {DBS L R}.

(** The arguments that override the configuration. *)
(* src: cmd/dnsmon/main.go 46-58 main *)
Definition override `{Unicode} (cfg : Config) (listen : string) (port : Z) (PORT logLevel resolversFile : string)
    : result Config :=
  listenAddr ← resolveListen (Listen (cfgServer cfg)) listen port PORT;
  let s := cfgServer cfg in
  let r := cfgResolvers cfg in
  Ok (mkConfig (mkServerConfig listenAddr (BaseURL s) (ReadTimeout s) (WriteTimeout s))
    (cfgDNS cfg)
    (if String.eqb resolversFile "" then r
     else mkResolversConfig (Builtin r) resolversFile (Countries r))
    (cfgStorage cfg) (cfgCache cfg) (cfgRateLimit cfg) (cfgGeoIP cfg)
    (if String.eqb logLevel "" then cfgLog cfg else mkLogConfig logLevel (LogFormat (cfgLog cfg)))
    (cfgMetrics cfg)).

(** ** The command *)

(* src: cmd/dnsmon/main.go 30-37 main *)
Record Flags := mkFlags {
  flConfig : string; flResolversFile : string; flListen : string; flPort : Z;
  flLogLevel : string; flService : string
}.

(** How the process ends, with what it has printed. *)
Inductive outcome :=
| Exited (code : Z) (stderr : string)
| Printed (stdout : string)
| Served.

Section Command.
Context `{Unicode} {VP : Viper} {DE : Decode}.
(** The service library: creation with arguments, control, and the run of the
    program, which ends with the service. *)
Variables (Abs : string → result string) (service_New : list string → option error)
  (Control : string → option error) (ControlAction : list string)
  (Run : Config → option error).

Definition nl : string := String (chr 10) "".

(** [main]; errors of a run are logged, not printed. *)
(* src: cmd/dnsmon/main.go main *)
Definition main (f : Flags) : outcome :=
  match ConfigLoad.Load (flConfig f) with
  | Err err => Exited 1 ("failed to load config: " +:+ Error err +:+ nl)
  | Ok cfg =>
      match override cfg (flListen f) (flPort f) (os_Getenv "PORT") (flLogLevel f)
              (flResolversFile f) with
      | Err err => Exited 1 (Error err +:+ nl)
      | Ok cfg =>
          let args := serviceArguments Abs (flConfig f) (flResolversFile f) (flListen f)
            (flPort f) (flLogLevel f) in
          match service_New args with
          | Some err => Exited 1 ("failed to create service: " +:+ Error err +:+ nl)
          | None =>
              let action := flService f in
              if negb (String.eqb action "") then
                match Control action with
                | Some err => Exited 1 ("service " +:+ action +:+ " failed: " +:+ Error err +:+ nl +:+
                    "valid actions: " +:+ Join ControlAction ", " +:+ nl)
                | None => Printed ("service " +:+ Quote "dnsmon" +:+ ": " +:+ action +:+ " ok" +:+ nl)
                end
              else
                match Run cfg with Some _ => Exited 1 "" | None => Served end
          end
      end
  end.

End Command.

(** * Lemmas *)

Lemma LastIndex_app sep a b : has_char sep b = false →
  LastIndex sep (a +:+ String sep b) = Some (String.length a).
Proof.
  intros Hb. assert (LastIndex sep b = None) as Hn.
  { revert Hb. induction b as [|c b IH]; [done|]. simpl.
    intros [Hc Hb]%orb_false_iff. rewrite IH by done.
    apply bool_decide_eq_false in Hc. by rewrite bool_decide_eq_false_2 by congruence. }
  induction a as [|c a IH]; simpl; [|by rewrite IH].
  by rewrite Hn, bool_decide_eq_true_2.
Qed.

Lemma IndexByte_app c a b : has_char c a = false →
  IndexByte (a +:+ String c b) c = Some (String.length a).
Proof.
  induction a as [|d a IH]; simpl; [by rewrite bool_decide_eq_true_2|].
  intros [Hd Ha]%orb_false_iff. apply bool_decide_eq_false in Hd.
  by rewrite bool_decide_eq_false_2, IH by congruence.
Qed.

Lemma IndexByte_stake c s i : IndexByte s c = Some i → has_char c (stake i s) = false.
Proof.
  revert i. induction s as [|d s IH]; intros i; simpl; [done|].
  case_bool_decide as Hd; [by intros [= <-]|].
  destruct (IndexByte s c) as [j|] eqn:E; [|done]. intros [= <-]. simpl.
  rewrite IH by done. by rewrite bool_decide_eq_false_2 by congruence.
Qed.

Lemma has_char_stake c n s : has_char c s = false → has_char c (stake n s) = false.
Proof.
  revert n. induction s as [|d s IH]; intros [|n]; simpl; try done.
  intros [-> Hs]%orb_false_iff. by apply IH.
Qed.

(** A text without brackets. *)
Definition bare (s : string) : Prop := has_char "[" s = false ∧ has_char "]" s = false.

(** A port number as text. *)
Definition port_text (p : string) : Prop := has_char ":" p = false ∧ bare p.

Lemma sdrop_at n a b : n = String.length a → sdrop n (a +:+ b) = b.
Proof. intros ->. apply sdrop_app. Qed.

Lemma Split_plain host port : bare host → port_text port → has_char ":" host = false →
  SplitHostPort (host +:+ String ":" port) = Ok (host, port).
Proof.
  intros [Hl Hr] (Hc & Hpl & Hpr) Hcol.
  assert (∀ c, c ≠ ":"%char → has_char c host = false → has_char c port = false →
    has_char c (host +:+ String ":" port) = false) as Hno.
  { intros c Hne Hh Hp. rewrite has_char_app, Hh. simpl. by rewrite bool_decide_eq_false_2. }
  assert (sdrop (String.length host + 1) (host +:+ String ":" port) = port) as Hd.
  { assert (host +:+ String ":" port = (host +:+ ":") +:+ port) as -> by (by rewrite sapp_assoc).
    apply sdrop_at. rewrite slength_app. simpl. lia. }
  unfold SplitHostPort. rewrite LastIndex_app, Hd, stake_app, Hcol, (Hno "["%char), (Hno "]"%char) by done.
  destruct host as [|c host]; [done|]. destruct (ascii_dec c "[") as [->|Hc1]; [by simpl in Hl|].
  simpl. destruct c as [[] [] [] [] [] [] [] []]; done.
Qed.

Lemma Split_bracketed host port : bare host → port_text port →
  SplitHostPort (String "[" (host +:+ String "]" (String ":" port))) = Ok (host, port).
Proof.
  intros [Hl Hr] (Hc & Hpl & Hpr). set (s := String "[" _).
  assert (s = String "[" (host +:+ "]") +:+ String ":" port) as H1 by (simpl; by rewrite sapp_assoc).
  assert (s = String "[" host +:+ String "]" (String ":" port)) as H2 by done.
  assert (s = String "[" (host +:+ "]:") +:+ port) as H3 by (simpl; by rewrite sapp_assoc).
  assert (String.length (String "[" (host +:+ "]")) = String.length host + 2)%nat as Hi
    by (simpl; rewrite slength_app; simpl; lia).
  assert (String.length s = String.length host + 3 + String.length port)%nat as Hs
    by (simpl; rewrite slength_app; simpl; lia).
  assert (LastIndex ":" s = Some (String.length host + 2)%nat) as Hlast
    by (rewrite H1, (LastIndex_app _ _ _ Hc); by rewrite Hi).
  assert (IndexByte s "]" = Some (S (String.length host))) as Hidx
    by (rewrite H2; by apply (IndexByte_app "]" (String "[" host))).
  assert (sdrop (S (String.length host) + 1) s = String ":" port) as Hd1
    by (rewrite H1; apply sdrop_at; lia).
  assert (sdrop (String.length host + 2 + 1) s = port) as Hd2.
  { rewrite H3. apply sdrop_at. simpl. rewrite slength_app. simpl. lia. }
  unfold SplitHostPort. rewrite Hlast, Hidx, Hd1, Hd2, Hs. unfold s. cbv iota.
  destruct (Nat.eqb_spec (S (String.length host) + 1) (String.length host + 3 + String.length port)); [lia|].
  destruct (Nat.eqb_spec (S (String.length host) + 1) (String.length host + 2)); [|lia]. cbn [negb].
  rewrite has_char_app, Hl. change (has_char "[" (String "]" (String ":" port))) with (has_char "[" port).
  rewrite Hpl. change (has_char "]" (String ":" port)) with (has_char "]" port). rewrite Hpr. cbn [orb].
  f_equal. f_equal. simpl. rewrite Nat.sub_0_r. apply stake_app.
Qed.

Lemma Split_Join_port host port : bare host → port_text port →
  SplitHostPort (JoinHostPort host port) = Ok (host, port).
Proof.
  intros Hh Hp. unfold JoinHostPort. destruct (has_char ":" host) eqn:Hcol.
  - by apply Split_bracketed.
  - by apply Split_plain.
Qed.

Lemma SplitHostPort_bare hostport host port :
  SplitHostPort hostport = Ok (host, port) → bare host.
Proof.
  unfold SplitHostPort. destruct (LastIndex ":" hostport) as [i|]; [|done].
  destruct hostport as [|c rest]; [by destruct i; intros [= <- _]|].
  destruct (ascii_dec c "[") as [->|Hc].
  - destruct (IndexByte _ _) as [e|] eqn:He; [|done].
    destruct (_ =? _)%nat; [done|]. destruct (negb _); [done|].
    destruct (has_char "[" rest) eqn:Hl; [done|]. destruct (has_char "]" _); [done|].
    intros [= <- _]. split; [by apply has_char_stake|].
    apply IndexByte_stake in He. destruct e as [|e]; [done|]. simpl in He |- *.
    by rewrite Nat.sub_0_r.
  - intros H. assert ((if has_char ":" (stake i (String c rest))
      then Err (addr_error "too many colons in address")
      else if has_char "[" (String c rest) then Err (addr_error "unexpected '[' in address")
      else if has_char "]" (String c rest) then Err (addr_error "unexpected ']' in address")
      else Ok (stake i (String c rest), sdrop (i + 1) (String c rest))) = Ok (host, port)) as H'
      by (destruct c as [[] [] [] [] [] [] [] []]; try exact H; done).
    clear H. destruct (has_char ":" _); [done|].
    destruct (has_char "[" (String c rest)) eqn:Hl; [done|].
    destruct (has_char "]" (String c rest)) eqn:Hr; [done|]. injection H' as <- _.
    split; by apply has_char_stake.
Qed.

(** The host of an address, empty when it has none. *)
Definition host_of (listen : string) : string :=
  match SplitHostPort listen with Ok (h, _) => h | Err _ => "" end.

Lemma host_of_bare listen : bare (host_of listen).
Proof.
  unfold host_of. destruct (SplitHostPort listen) as [[h p]|e] eqn:E; [|done].
  by eapply SplitHostPort_bare.
Qed.

Lemma Itoa_port p : 0 < p → port_text (Itoa p).
Proof. intros _. split; [|split]; by apply Itoa_chars. Qed.

Lemma applyPortOverride_split listen p : 0 < p →
  SplitHostPort (applyPortOverride listen p) = Ok (host_of listen, Itoa p).
Proof.
  intros Hp. unfold applyPortOverride. rewrite (proj2 (Z.leb_gt p 0)) by done.
  apply Split_Join_port; [apply host_of_bare|by apply Itoa_port].
Qed.

Lemma host_of_override listen p : 0 < p → host_of (applyPortOverride listen p) = host_of listen.
Proof. intros Hp. unfold host_of at 1. by rewrite applyPortOverride_split. Qed.

(** * Properties *)

(** C37: the address the server listens on follows the precedence of the
    documentation: the flag [--port] decides the port, keeping the host of what
    it overrides; without it the flag [--listen] is taken as it is; without
    that the variable PORT decides the port, keeping the configured host; and
    the configuration only without all of them.  A PORT that is not a positive
    integer is refused whatever the flags are, and no override changes a host,
    not even one of IPv6. *)
Theorem resolveListen_precedence `{Unicode} configured listenFlag portFlag portEnv :
  let bad := portEnv ≠ "" ∧ ∀ p, Atoi portEnv = Some p → p ≤ 0 in
  match resolveListen configured listenFlag portFlag portEnv with
  | Err _ => bad
  | Ok l => ¬ bad ∧
      let base := if decide (listenFlag = "") then configured else listenFlag in
      (0 < portFlag → SplitHostPort l = Ok (host_of base, Itoa portFlag)) ∧
      (portFlag ≤ 0 → listenFlag ≠ "" → l = listenFlag) ∧
      (portFlag ≤ 0 → listenFlag = "" → portEnv ≠ "" →
         ∃ p, Atoi portEnv = Some p ∧ 0 < p ∧ SplitHostPort l = Ok (host_of configured, Itoa p)) ∧
      (portFlag ≤ 0 → listenFlag = "" → portEnv = "" → l = configured)
  end.
Proof.
  intros bad. unfold resolveListen.
  assert (∀ listen : string, (if portFlag =? 0 then listen else applyPortOverride listen portFlag) =
    if decide (0 < portFlag) then applyPortOverride listen portFlag else listen) as Hflag.
  { intros listen. destruct (Z.eqb_spec portFlag 0) as [->|Hne]; [done|].
    case_decide; [done|]. unfold applyPortOverride. by rewrite (proj2 (Z.leb_le portFlag 0)) by lia. }
  assert (∀ listen l, (∀ x, x = listen → host_of x = host_of configured) →
    (listenFlag = "" → portEnv ≠ "" →
       ∃ p, Atoi portEnv = Some p ∧ 0 < p ∧ SplitHostPort listen = Ok (host_of configured, Itoa p)) →
    (listenFlag = "" → portEnv = "" → listen = configured) → ¬ bad →
    l = (if decide (0 < portFlag)
         then applyPortOverride (if String.eqb listenFlag "" then listen else listenFlag) portFlag
         else if String.eqb listenFlag "" then listen else listenFlag) →
    ¬ bad ∧ let base := if decide (listenFlag = "") then configured else listenFlag in
      (0 < portFlag → SplitHostPort l = Ok (host_of base, Itoa portFlag)) ∧
      (portFlag ≤ 0 → listenFlag ≠ "" → l = listenFlag) ∧
      (portFlag ≤ 0 → listenFlag = "" → portEnv ≠ "" →
         ∃ p, Atoi portEnv = Some p ∧ 0 < p ∧ SplitHostPort l = Ok (host_of configured, Itoa p)) ∧
      (portFlag ≤ 0 → listenFlag = "" → portEnv = "" → l = configured)) as Hend.
  { intros listen l Hhost Henv Hconf Hbad ->. split; [done|]. cbv zeta.
    destruct (String.eqb_spec listenFlag "") as [He|He];
      (case_decide as Hp; [rewrite applyPortOverride_split by done|]);
      rewrite ?decide_True, ?decide_False by done; split_and!; intros; try lia; try done; auto.
    by rewrite (Hhost listen). }
  destruct (String.eqb_spec portEnv "") as [He|He]; cbn [mbind result_bind].
  { rewrite Hflag. apply (Hend configured); try done; [by intros x ->|by intros [? _]]. }
  destruct (Atoi portEnv) as [p|] eqn:Ep; [|by split].
  destruct (Z.leb_spec p 0) as [Hp|Hp]; cbn [mbind result_bind].
  { split; [done|]. by intros p' [= <-]. }
  rewrite Hflag. apply (Hend (applyPortOverride configured p)).
  - intros x ->. by apply host_of_override.
  - intros _ _. exists p. split; [done|]. split; [done|]. by apply applyPortOverride_split.
  - by intros.
  - intros [_ Hb]. specialize (Hb p eq_refl). lia.
  - done.
Qed.

(** ** The deployment of [deploy/docker-compose.yml] *)

(** Its environment, with the password of the database. *)
Definition compose_environment (password name : string) : string :=
  if String.eqb name "DNSMON_SERVER_LISTEN" then ":8080"
  else if String.eqb name "DNSMON_STORAGE_DRIVER" then "postgres"
  else if String.eqb name "DNSMON_STORAGE_DSN" then
    "postgres://dnsmon:" +:+ password +:+ "@postgres:5432/dnsmon?sslmode=require"
  else if String.eqb name "DNSMON_CACHE_DRIVER" then "redis"
  else if String.eqb name "DNSMON_CACHE_REDIS_ADDR" then "redis:6379"
  else if String.eqb name "DNSMON_LOG_FORMAT" then "json" else "".

Definition compose_config (password : string) : Config := mkConfig
  (cfgServer defaultConfig) (cfgDNS defaultConfig) (cfgResolvers defaultConfig)
  (mkStorageConfig "postgres"
    ("postgres://dnsmon:" +:+ password +:+ "@postgres:5432/dnsmon?sslmode=require") 30)
  (mkCacheConfig "redis" (60 * second) 10000 "")
  (cfgRateLimit defaultConfig) (cfgGeoIP defaultConfig) (cfgLog defaultConfig)
  (cfgMetrics defaultConfig).

Lemma compose_loads {VP : Viper} {DE : Decode} {VO : ViperOk VP} {DO : DecodeOk DE} password :
  decode_config (layered (compose_environment password)) = Ok (compose_config password).
Proof. decode_known. Qed.

(** C36: the deployment of [deploy/docker-compose.yml] never serves.  It asks
    for the Redis cache and gives its address in the environment only, where it
    is not read: whatever the stores, Redis and the files of resolvers do,
    starting the program fails, and the process exits with code 1. *)
Theorem compose_exits `{Unicode} {VP : Viper} {DE : Decode} {VO : ViperOk VP} {DO : DecodeOk DE}
    {DBS L R : Type} `{Cache.Lru L Cache.entry} password
    (sqlite_New postgres_New : string → result DBS) (NewRedis : string → result R)
    LoadBuiltin ReadFile Unmarshal Abs service_New Control ControlAction Run
    (Hread : ∀ e, v_read (load_calls "") ≠ Some (ReadFailed e))
    (Hfile : v_file (load_calls "") = ∅)
    (Henv : ∀ name, os_Getenv name = compose_environment password name)
    (Hservice : ∀ args, service_New args = None)
    (HRun : ∀ cfg err,
      (Start (L := L) sqlite_New postgres_New (Cache.New NewRedis) LoadBuiltin ReadFile Unmarshal
         (mkProgram cfg None None None)).1 = Some err → is_Some (Run cfg)) :
  main Abs service_New Control ControlAction Run (mkFlags "" "" "" 0 "" "") = Exited 1 "".
Proof.
  unfold main. cbn [flConfig flResolversFile flListen flPort flLogLevel flService].
  rewrite (Load_layered _ (compose_environment password)), compose_loads by done.
  cbn [map_err]. rewrite Henv.
  change (override (compose_config password) "" 0 (compose_environment password "PORT") "" "")
    with (Ok (compose_config password)).
  cbv iota. rewrite Hservice. cbn [negb String.eqb].
  assert (is_Some (Run (compose_config password))) as [err ->]; [|done].
  assert (∃ err, (Start (L := L) sqlite_New postgres_New (Cache.New NewRedis) LoadBuiltin ReadFile
    Unmarshal (mkProgram (compose_config password) None None None)).1 = Some err) as [err Herr];
    [|by eapply HRun].
  unfold Start, newStorage, Cache.New. simpl.
  destruct (postgres_New _); simpl; eauto.
Qed.

(** * Witnesses *)

(** A database that opens, an empty set of resolvers, and a service manager
    that reports the error of the start. *)
Definition demo_start (cfg : Config) : option error :=
  (Start (DBS := unit) (L := gmap string Cache.entry)
     (λ _, Ok tt) (λ _, Ok tt) (Cache.New (H := Cache.map_lru) (λ addr, Ok addr)) (Ok [])
     (λ _, Ok "") (λ _, Ok []) (mkProgram cfg None None None)).1.

Lemma compose_exits_witness :
  main (H := ascii_only) (VP := env_viper (compose_environment "secret")) (DE := plain_decode)
    (λ path, Ok path) (λ _, None) (λ _, None) [] demo_start (mkFlags "" "" "" 0 "" "")
  = Exited 1 "".
Proof.
  apply (compose_exits (VP := env_viper (compose_environment "secret")) (DE := plain_decode)
    (H0 := Cache.map_lru) "secret" (λ _, Ok tt) (λ _, Ok tt) (λ addr, Ok addr) (Ok [])
    (λ _, Ok "") (λ _, Ok [])); try done.
Defined.
